(* ===== verification/_CoqProject ===== *)
-Q . S2P
Prelude.v
Word.v
Exclusive.v
Queue.v
Sched.v
Paging.v
MemPhy.v
Region.v
Machine.v
PageTable.v
Swap.v
Vm.v
Evict.v
Access.v
Mapping.v
Area.v
Syscall.v
Libmem.v
Heap.v
Kmem.v
Kernel.v
Cache.v
Frame.v
Cpu.v
Isolation.v
Create.v
Teardown.v
Os.v
Timer.v
Scanf.v
Loader.v
Config.v
System.v
Progress.v
Main.v
Locks.v
Room.v
Parallel.v
Rely.v
Private.v
Growth.v
Together.v
Printf.v
Trace.v
Legacy.v
Memtest.v
Output.v
