(* ===== verification/Prelude.v ===== *)
(** * ossim: a verified model of the simple operating system simulator

    The program (C, under [src/src] and [src/include]) simulates an operating
    system: CPU threads run the instructions of processes, a loader thread
    starts processes at given times, a timer thread divides the time into
    slots.  Processes share a multi-level-queue scheduler and a memory system
    with 64-bit five-level page tables, demand paging, a swap device, a user
    allocator and a kernel allocator.  The development follows the build the
    repository configures ([MM64], [MM_PAGING], [MLQ_SCHED]); [Legacy] has the code of
    the other configurations.

    ** How C is modelled

    A function that touches shared state is a function from the state to an
    [outcome] (below): it returns, has undefined behaviour ([Ub]: NULL or
    dangling pointer, access outside an array, a conversion the target cannot
    hold) or ends the program ([Exit]).  Integers are [Z] with the wrap-around
    of their width written out ([Word]).  A pointer is a [Z], 0 is NULL.  [malloc]
    asks an oracle of the machine whether it fails; memory it returns that is
    read before it is written is an argument.  Loops over a known range and
    recursion over the levels of page tables are structural; a loop that counts
    has its number of rounds as a [nat] argument ([Queue.index_of],
    [Sched.dispatch_pass], [Sched.find_proc_from]: what is left of the array).
    The one loop that ends for another reason is [Swap.victim_loop], which takes
    pages off a queue until one is resident: it gets the length of the queue plus
    one, and [Evict.victim_loop_spec] shows that this is enough.  The decimal
    printer [Scanf.show] prints up to 20 digits and the hexadecimal ones of [Printf]
    up to 16, which hold every 64-bit number.  The total correctness predicate [wp c Q s] says that [c] returns from [s], without
    undefined behaviour or exit, in a state that satisfies [Q].

    ** Files

    Foundations
    - [Prelude]: outcomes, the monad and its notation, [wp], loops, tactics and
      hints, generic lemmas.
    - [Word]: machine integers, bit fields ([include/bitops.h], [include/mm64.h]).
    - [Exclusive]: each frame in at most one place.

    Scheduler
    - [Queue]: the array queues ([src/queue.c]).
    - [Sched]: the scheduler ([src/sched.c]) and its refinement of an abstract
      multi-level queue.

    Memory
    - [Paging]: addresses and page-table entries; [MemPhy]: the devices
      ([src/mm-memphy.c]); [Region]: free lists of regions.
    - [Machine]: the state shared by the memory system ([include/common.h],
      [include/os-mm.h]); [PageTable]: the five levels as a flat map
      ([src/mm64.c]).
    - [Swap]: frames, victims, page-in, byte access ([src/mm64.c],
      [src/libmem.c], [src/mm-vm.c]); [Vm]: the invariant and the abstract view
      of memory; [Evict], [Access], [Mapping]: proofs.
    - [Area], [Syscall], [Libmem]: areas, system calls, the user library
      ([src/mm-vm.c], [src/syscall.c], [src/sys_mem.c], [src/libstd.c],
      [src/libmem.c]); [Heap]: proofs.
    - [Kmem]: kernel memory and caches ([src/libmem.c]); [Kernel], [Cache]: proofs.

    Processes and threads
    - [Frame]: what a call leaves alone, as a class with rules for the monad.
    - [Cpu]: the interpreter ([src/cpu.c]); [Isolation]: the invariant of the
      whole system and its preservation by every instruction.
    - [Create]: [init_mm], the start of the system and of a process ([src/mm64.c],
      [src/os.c]); [Teardown]: the end of a process ([src/os.c], [src/libmem.c],
      [src/mm64.c]).
    - [Os]: the CPU and loader threads ([src/os.c]) as a step relation, and the
      invariant of all their interleavings.
    - [Timer]: the clock ([src/timer.c]) as a step relation.
    - [System]: [main]'s system ([src/os.c]), the threads of [Os] under the clock of
      [Timer], with the loader's start times, and its invariant; [Progress]: the
      pace of the system, that it does not deadlock and that all programs end;
      [Main]: [main] from its argument to the running system.
    - [Locks]: the calls of the memory library cut at their steps, under
      [mmvm_lock] ([src/libmem.c]); [Parallel]: processes as threads that make their
      calls one after the other, with the slow path of ALLOC cut at every helper it
      calls ([src/libmem.c], [src/sys_mem.c], [src/mm-vm.c], [src/mm64.c]).
    - [Room]: the calls that take no free frame, as a class; [Rely]: what a thread
      may count on while the others move, and what it grants them; [Private]: the
      answers and the memory of a process on its own, READ, WRITE and FREE;
      [Growth]: ALLOC; [Together]: the theorems about all interleavings.

    Input
    - [Scanf]: the C library's formatted input; [Loader]: program files
      ([src/loader.c]); [Config]: the configuration file ([read_config]).

    Output
    - [Printf]: formatted numbers, and the log ([src/log.c]); [Trace]: the dumps of
      the memory state and the listings of page tables and devices
      ([src/libmem.c], [src/mm64.c], [src/mm-memphy.c]); [Output]: the lines of the
      threads and the dispatch protocol they follow ([src/os.c], [src/timer.c]).

    Other configurations
    - [Legacy]: the FIFO scheduler ([src/sched.c]), the segmented memory
      ([src/mem.c], [src/cpu.c]), the 32-bit entries ([src/mm.c], [include/mm.h]) and the
      functions of [src/mm.c] that only print that they are deprecated.
    - [Memtest]: the memory test program ([src/paging.c]) with the interpreter of
      [src/cpu.c] without [MM_PAGING].

    ** State and operations

    [Machine.machine] holds the page tables (heap blocks of 512 entries), the
    processes with their [krnl_t] and [mm_struct] nested in them, RAM and the
    active swap device, the scheduler and the allocation oracle.  An operation
    keeps the name of its C function; where a C function is split, the parts say
    which lines they are.  [Sched.sched] is the static state of [sched.c], each
    operation one step under its lock.  [Os.sim] adds the CPUs, each at a point of
    [cpu_routine], and the jobs of the loader; [System.system] adds the clock and
    the start times.

    In [Os] and [System] the execution of an instruction is one step.  For READ,
    WRITE and FREE this is what [mmvm_lock] gives: [Locks.calls_serialise] shows
    that the calls, cut at their steps, are serialised by it.  The slow path of
    ALLOC works without the lock.  [Together.private_memories] shows that this is
    harmless as long as the allocations fit the free frames: with its steps in any
    order between those of the others, each process still gets the answers and the
    memory of a run of its own.  When an ALLOC has to
    evict a page, it is not harmless: [Locks.alloc_slow_path_loses_write].  So for
    ALLOCs at the same time that fit the free frames one by one and not together,
    the single step stays an assumption of [Os] and [System].  In [Parallel] a step is a
    call of a helper (a device operation under its own lock, a walk of the page
    tables, a change of a list), not an access to memory.

    ** What is proved

    - Memory: paged and swapped memory is a byte memory per process
      ([Access.byte_memory_refinement]); eviction, page-in, mapping and
      allocation change no byte they should not; page tables are a flat map; no
      frame or slot is ever in two places.
    - Allocators: ALLOC returns a fresh mapped region, FREE returns exactly it,
      READ and WRITE stay inside regions; KMALLOC, caches and copies are exact.
    - Scheduler: refinement of the abstract queue, no starvation, no process lost.
    - Isolation: an instruction changes nothing of another process
      ([Isolation.run_isolation]).  It supposes operands of the kinds the
      instruction expects ([Isolation.inst_ok]): result registers below ten, kernel
      regions where the copies need them, no FREE of a kernel region, an ALLOC
      that fits the free frames, not the memory system call.  Where the
      supposition fails the code misbehaves, which separate theorems show.
    - Life of a process: boot and load establish and keep the invariant; the end
      of a process returns all it held and touches nobody else; the recursive
      scan of its tables equals a flat scan.
    - The whole simulator: in every interleaving of CPUs and loader the invariant
      holds, each process is in one place, no step has undefined behaviour
      ([Os.simulator_safe]); a process is disturbed by no one
      ([Os.process_undisturbed]); the instructions executed are bounded by the
      programs ([Os.instructions_bounded]).  The allocator is supposed not to
      fail there.
    - Clock: a barrier without deadlock in every interleaving of the timer and
      its devices.
    - Threads under the clock: no deadlock ([Progress.system_progress]); a slot
      executes at most one instruction per CPU and, while there is work, at least
      one ([Progress.slot_throughput]); so after
      [(work + 2) * (slot_steps n + 1)] steps of any execution, [slot_steps n]
      being [9 n + 13] for [n] CPUs, all loaded programs have ended
      ([Progress.every_program_finishes]).  The bound counts the steps of the
      threads and the timer in a slot; it is not meant to be tight.
    - The whole program: from the texts of the files, each instruction of each
      program is executed exactly once ([Main.main_executes_programs]).
    - Interleavings of the library's calls: serialisation under the lock
      ([Locks.calls_serialise]); private memories with ALLOC, in every interleaving,
      without undefined behaviour or deadlock ([Together.private_memories]); every
      execution ends with all calls answered ([Together.programs_end]).  The
      proof is by rely and guarantee: [Rely.safe] is kept by the steps of others
      ([Rely.env]), and the frames a thread has taken and not yet mapped are
      counted as its own.
    - Time slices: what a CPU prints and runs follows the dispatch protocol, a
      process is put back after exactly [time_slot] instructions
      ([Output.dispatch_protocol]).
    - Output: a dump shows the state and does not change it
      ([Trace.dump_shows_state], [Trace.print_pgtbl_exact]); a log line appears
      exactly from the configured level on ([Printf.os_vlog_threshold]).
    - Input: programs and configurations round trip, and what is accepted is
      well formed.

    Theorems that show defects are stated about the code as it is: for
    instance [Isolation.swap_syscall_breaks_isolation],
    [Teardown.teardown_frees_foreign_kernel_page], [Os.idle_cpu_never_stops],
    [Libmem.alloc_beyond_ram_undefined], [Loader.short_file_repeats_opcode],
    [Locks.alloc_slow_path_loses_write], [Legacy.segmented_read_inverted],
    [Output.zero_slot_never_preempts], [Memtest.test_main_silent].

    ** Not modelled

    - The system calls that create and join threads: the threads are there from
      the start of [System.sys_init], and the joins are the condition under which
      [main] stops the timer.  The programs are read at the start in [Main.main];
      the loader reads each when it comes to it, from files that nothing writes.
    - The swap devices beyond the active one: nothing uses them.
    - The order in which the lines of different threads reach the terminal.
    - Access under the C memory model: between two locks the steps of a thread
      are taken in order, and data outside the locks (the [done] flag of the
      loader) is read as it was last written.  A helper of the slow path of ALLOC is
      one step of [Parallel], although the walks of page tables and the list of
      resident pages have no lock of their own.
    - [free] of records that are nested in others in the model (list nodes of
      frames, regions and areas, thread arguments): they go with their owner. *)

From stdpp Require Export base numbers list list_numbers gmap option tactics sorting.
From Stdlib Require Export ZArith Lia.

Open Scope Z_scope.

(** ** Effects of the C code

    A C function that touches simulator state is a function from the state to
    an [outcome]: it returns a value in a new state, it has undefined
    behaviour (NULL dereference, access outside an array), or it ends the
    process with [exit]. *)

Inductive outcome (S A : Type) : Type :=
| Ret (a : A) (s : S)
| Ub
| Exit (s : S).
Arguments Ret {S A} a s.
Arguments Ub {S A}.
Arguments Exit {S A} s.

Definition M (S A : Type) : Type := S -> outcome S A.

Definition ret {S A} (a : A) : M S A := fun s => Ret a s.
Definition bind {S A B} (m : M S A) (k : A -> M S B) : M S B := fun s =>
  match m s with
  | Ret a s' => k a s'
  | Ub => Ub
  | Exit s' => Exit s'
  end.
Definition ub {S A} : M S A := fun _ => Ub.
Definition exit {S A} : M S A := fun s => Exit s.
Definition get {S} : M S S := fun s => Ret s s.
Definition put {S} (s : S) : M S unit := fun _ => Ret tt s.
Definition modify {S} (f : S -> S) : M S unit := fun s => Ret tt (f s).

Declare Scope c_scope.
Delimit Scope c_scope with c.
Notation "'let*' p := m 'in' k" := (bind m (fun p => k))
  (at level 10, p pattern, m at level 200, k at level 200) : c_scope.
Notation "m ;; k" := (bind m (fun _ => k))
  (at level 100, k at level 200, right associativity) : c_scope.
Open Scope c_scope.

(** A loop over a list of indices that stops at the first non-zero status:
    the shape of every [for] loop whose body may [return] an error. *)
Fixpoint for_each {S A} (body : A -> M S Z) (l : list A) : M S Z :=
  match l with
  | [] => ret 0
  | x :: l' => let* r := body x in if bool_decide (r = 0) then for_each body l' else ret r
  end.

(** ** Abstraction: what a concrete data structure stands for *)

(** [Abstraction C A] names the representation invariant and the abstract
    value of a concrete structure; refinement theorems are stated with it. *)
Class Abstraction (C A : Type) := {
  rep_ok : C -> Prop;
  abs : C -> A;
}.
Arguments rep_ok {C A _} _ : simpl never.
Arguments abs {C A _} _ : simpl never.

(** Unfold the abstraction of a concrete structure. *)
Ltac unabs := unfold rep_ok, abs in *; simpl in *.

(** ** Tactics *)

(** Case analysis on every [bool_decide] and [if] of the goal. *)
Ltac bdestr :=
  repeat (case_bool_decide || case_match); simplify_eq/=; try done.

(** Split a conjunction in the goal and in the hypotheses. *)
Ltac dands := destruct_and?; split_and?.

(** Run the monad one bind at a time. *)
Ltac munfold := unfold bind, ret, ub, exit, get, put, modify in *.

Create HintDb ossim.

(** ** Monad laws *)

Lemma bind_ret {S A B} (m : M S A) (k : A -> M S B) s a s' :
  m s = Ret a s' -> bind m k s = k a s'.
Proof. intros H. unfold bind. by rewrite H. Qed.

Lemma bind_inv {S A B} (m : M S A) (k : A -> M S B) s b s' :
  bind m k s = Ret b s' -> exists a s1, m s = Ret a s1 /\ k a s1 = Ret b s'.
Proof. unfold bind. destruct (m s) eqn:E; naive_solver. Qed.

(** The loop rule: an invariant preserved by every iteration that returns
    status 0 holds at the end of a loop that returns status 0. *)
Lemma for_each_inv {S A} (body : A -> M S Z) (I : S -> Prop) l s r s' :
  (forall x s r s', x ∈ l -> I s -> body x s = Ret r s' -> I s') ->
  I s -> for_each body l s = Ret r s' -> I s'.
Proof.
  revert s. induction l as [|x l IH]; intros s Hb HI; simpl.
  - intros [= _ <-]. done.
  - intros (r1 & s1 & H1 & H2)%bind_inv.
    assert (I s1) by (eapply Hb; [|done|done]; set_solver).
    case_bool_decide.
    + eapply IH; eauto. intros ?????. eapply Hb. set_solver.
    + by inversion H2; subst.
Qed.

(** ** Total correctness

    [wp c Q s]: [c] returns from [s], without undefined behaviour or exit, and
    the result and the final state satisfy [Q]. *)

Definition wp {S A} (c : M S A) (Q : A -> S -> Prop) (s : S) : Prop :=
  match c s with
  | Ret a s' => Q a s'
  | _ => False
  end.

Lemma wp_bind {S A B} (c : M S A) (k : A -> M S B) Q s :
  wp c (fun a => wp (k a) Q) s -> wp (bind c k) Q s.
Proof. unfold wp, bind. by destruct (c s). Qed.

Lemma wp_mono {S A} (c : M S A) (Q R : A -> S -> Prop) s :
  wp c Q s -> (forall a s', Q a s' -> R a s') -> wp c R s.
Proof. unfold wp. destruct (c s); naive_solver. Qed.

Lemma wp_and {S A} (c : M S A) (Q R : A -> S -> Prop) s :
  wp c Q s -> wp c R s -> wp c (fun a s' => Q a s' /\ R a s') s.
Proof. unfold wp. destruct (c s); naive_solver. Qed.

Lemma wp_ret {S A} (a : A) (Q : A -> S -> Prop) s : Q a s -> wp (ret a) Q s.
Proof. done. Qed.

Lemma wp_eq {S A} (c : M S A) Q s a s' : c s = Ret a s' -> Q a s' -> wp c Q s.
Proof. unfold wp. by intros ->. Qed.

Lemma wp_elim {S A} (c : M S A) Q s : wp c Q s -> exists a s', c s = Ret a s' /\ Q a s'.
Proof. unfold wp. destruct (c s); naive_solver. Qed.

(** The loop rule with a progress index: the invariant [I done todo] relates
    the state to the elements handled so far. *)
Lemma wp_for_each {S A} (body : A -> M S Z) (I : list A -> S -> Prop) (Q : Z -> S -> Prop) l s :
  I [] s ->
  (forall xs x ys s, l = xs ++ x :: ys -> I xs s ->
     wp (body x) (fun r s' => if bool_decide (r = 0) then I (xs ++ [x]) s' else Q r s') s) ->
  (forall s, I l s -> Q 0 s) ->
  wp (for_each body l) Q s.
Proof.
  intros H0 Hstep Hend.
  enough (forall ys xs s, l = xs ++ ys -> I xs s -> wp (for_each body ys) Q s) as H.
  { by apply (H l []). }
  induction ys as [|y ys IH]; intros xs s' Hl HI; simpl.
  - apply wp_ret, Hend. by rewrite Hl, app_nil_r.
  - apply wp_bind. eapply wp_mono; [by eapply Hstep|].
    intros r s1 Hr. simpl in Hr. case_bool_decide; [|done].
    apply (IH (xs ++ [y])); [by rewrite <- app_assoc|done].
Qed.

(** Run one step of a total-correctness goal whose head command is known. *)
Ltac wp_step :=
  lazymatch goal with
  | |- wp (bind _ _) _ _ => apply wp_bind
  | |- wp (ret _) _ _ => apply wp_ret
  end.

(** ** Lists *)

Lemma take_insert_at {A} (l : list A) (n : nat) (x : A) :
  (n < length l)%nat -> take (S n) (<[n:=x]> l) = take n l ++ [x].
Proof.
  intros H. rewrite (take_S_r _ _ x).
  - by rewrite take_insert_ge by lia.
  - by apply list_lookup_insert_eq.
Qed.

Lemma map_insert {A B} (f : A -> B) (l : list A) (i : nat) (x : A) :
  map f (<[i := x]> l) = <[i := f x]> (map f l).
Proof. apply list_fmap_insert. Qed.

Lemma lookup_seqZ_ltb (n i : Z) :
  0 <= i < n -> seqZ 0 n !! Z.to_nat i = Some i.
Proof. intros H. apply lookup_seqZ. lia. Qed.
