(* ===== verification/Word.v ===== *)
(** * Machine integers and bit fields

    The fixed-width arithmetic of the C sources: unsigned and signed
    conversions, the mask macros of [include/bitops.h] and the 64-bit layout
    macros of [include/mm64.h].  Values are [Z]; every operation that can
    leave its width wraps explicitly. *)

From S2P Require Import Prelude.

(** ** Conversions *)

Definition u64 (z : Z) : Z := z mod 2 ^ 64.
Definition u32 (z : Z) : Z := z mod 2 ^ 32.
Definition i32 (z : Z) : Z := (z + 2 ^ 31) mod 2 ^ 32 - 2 ^ 31.
(** [typedef char BYTE], signed on the supported targets. *)
Definition i8 (z : Z) : Z := (z + 2 ^ 7) mod 2 ^ 8 - 2 ^ 7.

Definition is_u64 (z : Z) : Prop := 0 <= z < 2 ^ 64.

(** ** Mask macros *)

Definition ULLONG_MAX : Z := 2 ^ 64 - 1.
Definition BIT_ULL (nr : Z) : Z := u64 (Z.shiftl 1 nr).
Definition GENMASK64 (h l : Z) : Z :=
  Z.land (u64 (Z.shiftl ULLONG_MAX l)) (Z.shiftr ULLONG_MAX (64 - h - 1)).
Definition DIV_ROUND_UP (n d : Z) : Z := u64 (u64 (n + d) - 1) / d.
Definition lnot64 (m : Z) : Z := u64 (Z.lnot m).
Definition SETBIT (v mask : Z) : Z := Z.lor v mask.
Definition CLRBIT (v mask : Z) : Z := Z.land v (lnot64 mask).

(** Write [value] into the field [mask] that starts at bit [lobit]. *)
Definition SETFIELD (v value mask lobit : Z) : Z :=
  Z.lor (Z.land v (lnot64 mask)) (Z.land (u64 (Z.shiftl value lobit)) mask).
(** Read the field [mask] that starts at bit [lobit]. *)
Definition GETVAL (v mask lobit : Z) : Z := Z.shiftr (Z.land v mask) lobit.

(** ** The 64-bit layout of [mm64.h] *)

Definition PAGING64_PAGESZ : Z := 4096.
Definition PAGING64_ADDR_PT_SHIFT : Z := 12.
Definition PAGING64_PAGE_ALIGNSZ (sz : Z) : Z :=
  u64 (DIV_ROUND_UP sz PAGING64_PAGESZ * PAGING64_PAGESZ).
Definition PAGING64_LEVEL_ENTRIES : Z := 512.

Definition PAGING64_ADDR_OFFST_MASK : Z := GENMASK64 11 0.
Definition PAGING64_ADDR_PT_MASK : Z := GENMASK64 20 12.
Definition PAGING64_ADDR_PMD_MASK : Z := GENMASK64 29 21.
Definition PAGING64_ADDR_PUD_MASK : Z := GENMASK64 38 30.
Definition PAGING64_ADDR_P4D_MASK : Z := GENMASK64 47 39.
Definition PAGING64_ADDR_PGD_MASK : Z := GENMASK64 56 48.

Definition PAGING64_PTE_PRESENT_MASK : Z := BIT_ULL 0.
Definition PAGING64_PTE_SWAPPED_MASK : Z := BIT_ULL 1.
Definition PAGING64_PTE_DIRTY_MASK : Z := BIT_ULL 2.
Definition PAGING64_PTE_SWPTYP_MASK : Z := GENMASK64 7 3.
Definition PAGING64_PTE_FPN_MASK : Z := GENMASK64 51 12.
Definition PAGING64_PTE_SWPOFF_MASK : Z := GENMASK64 51 12.
Definition PAGING64_DUMMY_PTE : Z := 0xdeadbee0.

Definition PAGING64_PAGE_PRESENT (pte : Z) : bool :=
  negb (Z.land pte PAGING64_PTE_PRESENT_MASK =? 0).
Definition PAGING64_PAGE_SWAPPED (pte : Z) : bool :=
  negb (Z.land pte PAGING64_PTE_SWAPPED_MASK =? 0).
Definition PAGING64_PTE_FPN (pte : Z) : Z := GETVAL pte PAGING64_PTE_FPN_MASK 12.
Definition PAGING64_PTE_SWP (pte : Z) : Z := GETVAL pte PAGING64_PTE_SWPOFF_MASK 12.
Definition PAGING64_PTE_SET_FPN (pte fpn : Z) : Z :=
  SETFIELD pte fpn PAGING64_PTE_FPN_MASK 12.
Definition PAGING64_PTE_SET_SWP (pte swpoff : Z) : Z :=
  SETFIELD pte swpoff PAGING64_PTE_SWPOFF_MASK 12.
Definition PAGING64_PTE_SET_SWPTYP (pte swptyp : Z) : Z :=
  SETFIELD pte (u64 swptyp) PAGING64_PTE_SWPTYP_MASK 3.

Arguments u64 : simpl never.
Arguments u32 : simpl never.
Arguments i32 : simpl never.
Arguments i8 : simpl never.
Arguments GENMASK64 : simpl never.
Arguments BIT_ULL : simpl never.
Arguments GETVAL : simpl never.
Arguments SETFIELD : simpl never.
Arguments DIV_ROUND_UP : simpl never.
Arguments PAGING64_PAGE_ALIGNSZ : simpl never.

(** ** Lemmas: conversions *)

Lemma u64_range z : is_u64 (u64 z).
Proof. unfold is_u64, u64. apply Z.mod_pos_bound. lia. Qed.

Lemma u64_small z : is_u64 z -> u64 z = z.
Proof. apply Z.mod_small. Qed.

Lemma u32_range z : 0 <= u32 z < 2 ^ 32.
Proof. unfold u32. apply Z.mod_pos_bound. lia. Qed.

Lemma i32_small z : - 2 ^ 31 <= z < 2 ^ 31 -> i32 z = z.
Proof. intros H. unfold i32. rewrite Z.mod_small; lia. Qed.

Lemma i8_small z : - 2 ^ 7 <= z < 2 ^ 7 -> i8 z = z.
Proof. intros H. unfold i8. rewrite Z.mod_small; lia. Qed.

Lemma i8_range z : - 2 ^ 7 <= i8 z < 2 ^ 7.
Proof. unfold i8. pose proof (Z.mod_pos_bound (z + 2 ^ 7) (2 ^ 8)). lia. Qed.

(** ** Lemmas: bits *)

Lemma testbit_u64 z i : Z.testbit (u64 z) i = bool_decide (i < 64) && Z.testbit z i.
Proof.
  unfold u64. case_bool_decide.
  - by rewrite Z.mod_pow2_bits_low.
  - rewrite Z.mod_pow2_bits_high; [done|lia].
Qed.

Lemma testbit_ULLONG_MAX i : Z.testbit ULLONG_MAX i = bool_decide (0 <= i < 64).
Proof.
  change ULLONG_MAX with (Z.ones 64). case_bool_decide.
  - by apply Z.ones_spec_low.
  - destruct (decide (i < 0)); [by rewrite Z.testbit_neg_r|].
    apply Z.ones_spec_high. lia.
Qed.

Lemma testbit_GENMASK64 h l i :
  0 <= l -> h < 64 -> Z.testbit (GENMASK64 h l) i = bool_decide (l <= i <= h).
Proof.
  intros Hl Hh. unfold GENMASK64. destruct (decide (i < 0)).
  { rewrite Z.testbit_neg_r by done. by rewrite bool_decide_eq_false_2 by lia. }
  rewrite Z.land_spec, testbit_u64, Z.shiftl_spec, Z.shiftr_spec by lia.
  rewrite !testbit_ULLONG_MAX.
  repeat case_bool_decide; simpl; (done || lia).
Qed.

Lemma testbit_BIT_ULL n i :
  0 <= n < 64 -> Z.testbit (BIT_ULL n) i = bool_decide (i = n).
Proof.
  intros Hn. unfold BIT_ULL. rewrite testbit_u64.
  destruct (decide (i < 0)).
  { rewrite Z.testbit_neg_r by done.
    rewrite andb_false_r. by rewrite bool_decide_eq_false_2 by lia. }
  rewrite Z.shiftl_spec by lia.
  change 1 with (2 ^ 0). rewrite Z.pow2_bits_eqb by lia.
  destruct (Z.eqb_spec 0 (i - n)); repeat case_bool_decide; simpl; (done || lia).
Qed.

Lemma testbit_lnot64 m i :
  Z.testbit (lnot64 m) i = bool_decide (0 <= i < 64) && negb (Z.testbit m i).
Proof.
  unfold lnot64. rewrite testbit_u64. destruct (decide (i < 0)).
  { rewrite Z.testbit_neg_r by done. rewrite andb_false_r.
    by rewrite bool_decide_eq_false_2 by lia. }
  rewrite Z.lnot_spec by lia. repeat case_bool_decide; simpl; (done || lia).
Qed.

Lemma testbit_is_u64 z i : is_u64 z -> 64 <= i -> Z.testbit z i = false.
Proof.
  intros Hz Hi. rewrite <- (u64_small z Hz), testbit_u64.
  by rewrite bool_decide_eq_false_2 by lia.
Qed.

(** A non-negative number whose bits from [n] up are clear is below [2^n]. *)
Lemma bits_below (z n : Z) :
  0 <= z -> 0 <= n -> (forall i, n <= i -> Z.testbit z i = false) -> z < 2 ^ n.
Proof.
  intros Hz Hn Hb. assert (z = z mod 2 ^ n) as ->.
  { apply Z.bits_inj'. intros i Hi. destruct (decide (i < n)).
    - by rewrite Z.mod_pow2_bits_low.
    - rewrite Z.mod_pow2_bits_high by lia. apply Hb. lia. }
  apply Z.mod_pos_bound. lia.
Qed.

(** Reading a mask field is a division and a remainder. *)
Lemma GETVAL_div_mod x h l :
  0 <= l <= h -> h < 64 ->
  GETVAL x (GENMASK64 h l) l = (x / 2 ^ l) mod 2 ^ (h - l + 1).
Proof.
  intros Hl Hh. apply Z.bits_inj'. intros i Hi. unfold GETVAL.
  rewrite Z.shiftr_spec, Z.land_spec, testbit_GENMASK64 by lia.
  destruct (decide (i < h - l + 1)).
  - rewrite Z.mod_pow2_bits_low, <- Z.shiftr_div_pow2, Z.shiftr_spec by lia.
    rewrite bool_decide_eq_true_2 by lia. by rewrite andb_true_r.
  - rewrite Z.mod_pow2_bits_high by lia.
    rewrite bool_decide_eq_false_2 by lia. by rewrite andb_false_r.
Qed.

Lemma GETVAL_range x h l :
  0 <= l <= h -> h < 64 -> 0 <= GETVAL x (GENMASK64 h l) l < 2 ^ (h - l + 1).
Proof.
  intros. rewrite GETVAL_div_mod by done. apply Z.mod_pos_bound. lia.
Qed.

Create Rewrite HintDb bitspec.
(** Bit specifications, for rewriting a bit-field expression to its bits. *)
#[export] Hint Rewrite
  Z.land_spec Z.lor_spec testbit_u64 testbit_lnot64 : bitspec.

Ltac bitcases :=
  repeat first
    [ rewrite testbit_GENMASK64 by lia
    | rewrite testbit_BIT_ULL by lia
    | rewrite Z.shiftl_spec by lia
    | rewrite Z.shiftr_spec by lia
    | progress autorewrite with bitspec ];
  repeat case_bool_decide; simpl; try done; try lia.

(** Reading back the field just written. *)
Lemma SETFIELD_get v value h l :
  0 <= l <= h -> h < 64 -> 0 <= value < 2 ^ (h - l + 1) ->
  GETVAL (SETFIELD v value (GENMASK64 h l) l) (GENMASK64 h l) l = value.
Proof.
  intros Hl Hh Hv. apply Z.bits_inj'. intros i Hi. unfold GETVAL, SETFIELD.
  bitcases; rewrite ?andb_false_r, ?andb_true_r, ?orb_false_r; simpl.
  { f_equal. lia. }
  all: symmetry; rewrite <- (Z.mod_small value (2 ^ (h - l + 1))) by lia;
    apply Z.mod_pow2_bits_high; lia.
Qed.

(** Writing a field keeps the bits outside its mask. *)
Lemma SETFIELD_testbit_other v value h l i :
  0 <= l <= h -> h < 64 -> is_u64 v -> ~ (l <= i <= h) ->
  Z.testbit (SETFIELD v value (GENMASK64 h l) l) i = Z.testbit v i.
Proof.
  intros Hl Hh Hv Hi. unfold SETFIELD. destruct (decide (i < 0)).
  { by rewrite !Z.testbit_neg_r. }
  rewrite Z.lor_spec, !Z.land_spec, testbit_lnot64, testbit_GENMASK64 by lia.
  rewrite (bool_decide_eq_false_2 (l <= i <= h)) by done.
  rewrite andb_false_r, orb_false_r. simpl. rewrite andb_true_r.
  case_bool_decide; [by rewrite andb_true_r|].
  rewrite andb_false_r. symmetry. apply testbit_is_u64; [done|lia].
Qed.

Lemma is_u64_lor a b : is_u64 a -> is_u64 b -> is_u64 (Z.lor a b).
Proof.
  intros Ha Hb. split; [apply Z.lor_nonneg; unfold is_u64 in *; lia|].
  apply bits_below; [apply Z.lor_nonneg; unfold is_u64 in *; lia|lia|].
  intros i Hi. rewrite Z.lor_spec. by rewrite !testbit_is_u64.
Qed.

Lemma is_u64_land a b : is_u64 a -> 0 <= b -> is_u64 (Z.land a b).
Proof.
  intros Ha Hb. split; [apply Z.land_nonneg; auto|].
  apply bits_below; [apply Z.land_nonneg; auto|lia|].
  intros i Hi. rewrite Z.land_spec. by rewrite (testbit_is_u64 a).
Qed.

Lemma GENMASK64_nonneg h l : 0 <= GENMASK64 h l.
Proof.
  unfold GENMASK64. apply Z.land_nonneg. left.
  pose proof (u64_range (Z.shiftl ULLONG_MAX l)). unfold is_u64 in *. lia.
Qed.

Lemma is_u64_SETFIELD v value h l :
  is_u64 v -> is_u64 (SETFIELD v value (GENMASK64 h l) l).
Proof.
  intros Hv. apply is_u64_lor; apply is_u64_land; auto using u64_range, GENMASK64_nonneg.
  pose proof (u64_range (Z.lnot (GENMASK64 h l))). unfold is_u64, lnot64 in *. lia.
Qed.

(** The present and swapped tests read bits 0 and 1. *)
Lemma land_BIT_ULL_eqb v n :
  0 <= n < 64 -> negb (Z.land v (BIT_ULL n) =? 0) = Z.testbit v n.
Proof.
  intros Hn. destruct (Z.testbit v n) eqn:E.
  - destruct (Z.eqb_spec (Z.land v (BIT_ULL n)) 0) as [H0|]; [|done].
    exfalso. assert (Z.testbit (Z.land v (BIT_ULL n)) n = true) as H1.
    { rewrite Z.land_spec, testbit_BIT_ULL, E by lia.
      by rewrite bool_decide_eq_true_2. }
    by rewrite H0, Z.testbit_0_l in H1.
  - assert (Z.land v (BIT_ULL n) = 0) as ->; [|done].
    apply Z.bits_inj'. intros i Hi. rewrite Z.land_spec, testbit_BIT_ULL, Z.testbit_0_l by lia.
    case_bool_decide; subst; [by rewrite E|]. apply andb_false_r.
Qed.

Lemma page_present_testbit pte : PAGING64_PAGE_PRESENT pte = Z.testbit pte 0.
Proof. apply land_BIT_ULL_eqb. lia. Qed.

Lemma page_swapped_testbit pte : PAGING64_PAGE_SWAPPED pte = Z.testbit pte 1.
Proof. apply land_BIT_ULL_eqb. lia. Qed.

(** Rounding up to a page: the least multiple of the page size that is not
    below the size, when nothing overflows. *)
Lemma PAGE_ALIGNSZ_spec sz :
  0 <= sz < 2 ^ 64 - 4096 ->
  PAGING64_PAGE_ALIGNSZ sz = (sz + 4095) / 4096 * 4096.
Proof.
  intros H. unfold PAGING64_PAGE_ALIGNSZ, DIV_ROUND_UP, PAGING64_PAGESZ.
  rewrite (u64_small (sz + 4096)) by (unfold is_u64; lia).
  rewrite (u64_small (sz + 4096 - 1)) by (unfold is_u64; lia).
  replace (sz + 4096 - 1) with (sz + 4095) by lia.
  apply u64_small. unfold is_u64.
  pose proof (Z.mul_div_le (sz + 4095) 4096). pose proof (Z.div_pos (sz + 4095) 4096). lia.
Qed.
