(* ===== verification/Exclusive.v ===== *)
(** * Exclusive ownership of frames

    The bookkeeping behind every memory-safety theorem: a device has [n]
    frames; some are in lists ([L]), some are held by owners ([held]); no
    frame is in two places.  A frame may be nowhere (leaked), it may not be
    shared.  The lemmas move a frame from a list to an owner and back. *)

From S2P Require Import Prelude.

Record exclusive {O : Type} (n : Z) (L : list Z) (held : O -> option Z) : Prop := mkExcl {
  ex_nodup : NoDup L;
  ex_range : forall f, f ∈ L -> 0 <= f < n;
  ex_held : forall o f, held o = Some f -> 0 <= f < n /\ f ∉ L;
  ex_inj : forall o o' f, held o = Some f -> held o' = Some f -> o = o';
}.

#[export] Instance exclusive_proper {O : Type} :
  Proper (eq ==> (≡ₚ) ==> pointwise_relation O eq ==> iff) exclusive.
Proof.
  intros n _ <- L L' HL h h' Hh. split; intros [H1 H2 H3 H4]; split.
  - by rewrite <- HL.
  - intros f. rewrite <- HL. apply H2.
  - intros o f. rewrite <- Hh, <- HL. apply H3.
  - intros o o' f. rewrite <- !Hh. apply H4.
  - by rewrite HL.
  - intros f. rewrite HL. apply H2.
  - intros o f. rewrite Hh, HL. apply H3.
  - intros o o' f. rewrite !Hh. apply H4.
Qed.

Section moves.
Context {O : Type} `{EqDecision O}.
Implicit Types (n f : Z) (L : list Z) (held : O -> option Z) (o : O).

(** One owner's entry replaced. *)
Definition upd_held (held : O -> option Z) (o : O) (v : option Z) : O -> option Z :=
  fun o' => if decide (o' = o) then v else held o'.

Lemma exclusive_sub n L L' held : exclusive n L held -> L' ⊆+ L -> exclusive n L' held.
Proof.
  intros [H1 H2 H3 H4] Hs. split.
  - apply submseteq_Permutation in Hs as [K HK]. rewrite HK in H1. by apply NoDup_app in H1 as (? & _).
  - intros f Hf. apply H2. by eapply elem_of_submseteq.
  - intros o f Hf. destruct (H3 o f Hf) as [? Hn]. split; [done|]. intros Hin. apply Hn.
    by eapply elem_of_submseteq.
  - done.
Qed.

(** Forgetting an owner's frame. *)
Lemma exclusive_forget n L held o : exclusive n L held -> exclusive n L (upd_held held o None).
Proof.
  intros [H1 H2 H3 H4]. unfold upd_held. split; try done.
  - intros o' f. case_decide; [done|apply H3].
  - intros o1 o2 f. repeat case_decide; try done. apply H4.
Qed.

(** Handing a frame of the list to an owner, whatever it held before. *)
Lemma exclusive_give n L held o f :
  exclusive n (f :: L) held -> exclusive n L (upd_held held o (Some f)).
Proof.
  intros [H1 H2 H3 H4]. apply NoDup_cons in H1 as [Hf HL]. unfold upd_held. split.
  - done.
  - intros f' Hf'. apply H2. by right.
  - intros o' f'. case_decide.
    + intros [= <-]. split; [apply H2; left|done].
    + intros Hh. destruct (H3 o' f' Hh) as [? Hn]. split; [done|]. intros Hin. apply Hn. by right.
  - intros o1 o2 f'. repeat case_decide; subst; try done.
    + intros [= <-] Hh. destruct (H3 o2 f Hh) as [_ []]. left.
    + intros Hh [= <-]. destruct (H3 o1 f Hh) as [_ []]. left.
    + apply H4.
Qed.

(** Taking an owner's frame into the list. *)
Lemma exclusive_take n L held o f :
  exclusive n L held -> held o = Some f -> exclusive n (f :: L) (upd_held held o None).
Proof.
  intros [H1 H2 H3 H4] Ho. destruct (H3 o f Ho) as [Hr Hf]. unfold upd_held. split.
  - by constructor.
  - intros f' [->|Hf']%elem_of_cons; [done|by apply H2].
  - intros o' f'. case_decide as Hd; [done|]. intros Hh. destruct (H3 o' f' Hh) as [? Hn].
    split; [done|]. intros [->|Hin]%elem_of_cons; [|done]. apply Hd. by eapply H4.
  - intros o1 o2 f'. repeat case_decide; try done. apply H4.
Qed.

Lemma exclusive_ext n L held held' :
  exclusive n L held -> (forall o, held' o = held o) -> exclusive n L held'.
Proof. intros HX He. by rewrite (He : pointwise_relation O eq held' held). Qed.

Lemma exclusive_perm n L L' held : exclusive n L held -> L' ≡ₚ L -> exclusive n L' held.
Proof. intros HX He. by rewrite He. Qed.

(** Owners that go away, and owners that hold less. *)
Lemma exclusive_less n L held held' :
  exclusive n L held -> (forall o, held' o = None \/ held' o = held o) -> exclusive n L held'.
Proof.
  intros [H1 H2 H3 H4] Hl. split; try done.
  - intros o f Hf. destruct (Hl o) as [E|E]; [congruence|]. rewrite E in Hf. by apply (H3 o).
  - intros o o' f Hf Hf'. destruct (Hl o) as [E|E]; [congruence|].
    destruct (Hl o') as [E'|E']; [congruence|]. rewrite E in Hf. rewrite E' in Hf'. by apply (H4 o o' f).
Qed.

(** Owners that go away and whose frames join the list. *)
Lemma exclusive_drop n L held os :
  NoDup os -> exclusive n L held ->
  exclusive n (omap held os ++ L) (fun o => if decide (o ∈ os) then None else held o).
Proof.
  intros HN HX. induction os as [|o os IH].
  - eapply exclusive_ext; [exact HX|]. intros o. by rewrite decide_False by apply not_elem_of_nil.
  - apply NoDup_cons in HN as [Ho HN]. specialize (IH HN).
    assert (Hext : forall o', (if decide (o' ∈ o :: os) then None else held o') =
      upd_held (fun o => if decide (o ∈ os) then None else held o) o None o').
    { intros o'. unfold upd_held. destruct (decide (o' = o)) as [->|Hne].
      - by rewrite decide_True by (by left).
      - destruct (decide (o' ∈ os)); [by rewrite decide_True by (by right)|].
        rewrite decide_False; [done|]. rewrite elem_of_cons. tauto. }
    eapply exclusive_ext; [|exact Hext]. cbn [omap list_omap].
    destruct (held o) as [f|] eqn:Hh; [|by apply exclusive_forget].
    apply exclusive_take; [done|]. by rewrite decide_False.
Qed.
End moves.
