(* ===== verification/Queue.v ===== *)
(** * Process queues ([src/queue.c], [include/queue.h])

    A [queue_t] is a fixed array of [MAX_QUEUE_SIZE] process pointers and the
    number of them in use; removal shifts the tail of the array one place to
    the left.  A pointer is a [Z], 0 is NULL; a queue argument is an [option]
    because every operation tests it for NULL.  [size] is a [nat]: the code
    only decrements it where it has just been tested to be positive. *)

From S2P Require Import Prelude.

Definition MAX_QUEUE_SIZE : nat := 50.

Record queue_t := mkQueue { proc : list Z; size : nat }.

Definition empty_queue : queue_t := mkQueue (replicate MAX_QUEUE_SIZE 0) 0.

Definition empty (q : option queue_t) : bool :=
  match q with
  | None => true
  | Some q => bool_decide (size q = 0%nat)
  end.

Definition enqueue (q : option queue_t) (p : Z) : Z * option queue_t :=
  match q with
  | None => (-1, None)
  | Some q =>
    if bool_decide (MAX_QUEUE_SIZE <= size q)%nat then (-1, Some q)
    else (0, Some (mkQueue (<[size q := p]> (proc q)) (S (size q))))
  end.

(** [for (j = i; j < size - 1; j++) proc[j] = proc[j + 1];] *)
Definition shift_left (l : list Z) (i size : nat) : list Z :=
  foldl (fun l j => <[j := default 0 (l !! S j)]> l) l (seq i (size - 1 - i)).

Definition dequeue (q : option queue_t) : Z * option queue_t :=
  match q with
  | None => (0, None)
  | Some q =>
    if bool_decide (size q = 0%nat) then (0, Some q)
    else (default 0 (proc q !! 0%nat),
          Some (mkQueue (shift_left (proc q) 0 (size q)) (size q - 1)))
  end.

(** The first index from [i] on that holds [p], looking at [fuel] cells:
    the search loop of [purgequeue] and of [finish_proc]. *)
Fixpoint index_of (l : list Z) (p : Z) (i fuel : nat) : option nat :=
  match fuel with
  | O => None
  | S f => if bool_decide (l !! i = Some p) then Some i else index_of l p (S i) f
  end.

Definition purgequeue (q : option queue_t) (p : Z) : Z * option queue_t :=
  match q with
  | None => (0, None)
  | Some q =>
    if bool_decide (p = 0) then (0, Some q)
    else match index_of (proc q) p 0 (size q) with
         | None => (0, Some q)
         | Some i =>
           (p, Some (mkQueue (shift_left (proc q) i (size q)) (size q - 1)))
         end
  end.

(** ** Abstraction: the processes in the queue, oldest first *)

#[export] Instance queue_abstraction : Abstraction queue_t (list Z) := {
  rep_ok q := length (proc q) = MAX_QUEUE_SIZE /\ (size q <= MAX_QUEUE_SIZE)%nat;
  abs q := take (size q) (proc q);
}.

(** ** Lemmas *)

Lemma shift_left_length l i n : length (shift_left l i n) = length l.
Proof.
  unfold shift_left. generalize (seq i (n - 1 - i)). intros js. revert l.
  induction js as [|j js IH]; intros l; simpl; [done|].
  by rewrite IH, length_insert.
Qed.

(** Shifting from [i] copies every cell [j >= i] from its right neighbour. *)
Lemma shift_left_lookup l i n j :
  (n <= length l)%nat -> (j < n - 1)%nat ->
  shift_left l i n !! j = if bool_decide (i <= j)%nat then l !! S j else l !! j.
Proof.
  intros Hn. unfold shift_left. remember (n - 1 - i)%nat as k eqn:Hk.
  revert i l Hn Hk. induction k as [|k IH]; intros i l Hn Hk Hj; simpl.
  - by rewrite bool_decide_eq_false_2 by lia.
  - rewrite IH by (rewrite ?length_insert; lia).
    destruct (lookup_lt_is_Some_2 l (S i)) as [x Hx]; [lia|].
    rewrite Hx. simpl. repeat case_bool_decide; try lia.
    + by rewrite list_lookup_insert_ne by lia.
    + assert (j = i) as -> by lia. rewrite list_lookup_insert_eq by lia. done.
    + by rewrite list_lookup_insert_ne by lia.
Qed.

Lemma shift_left_delete l i n :
  (n <= length l)%nat -> (i < n)%nat ->
  take (n - 1) (shift_left l i n) = delete i (take n l).
Proof.
  intros Hn Hi. apply list_eq. intros j. destruct (decide (j < n - 1)%nat).
  - rewrite lookup_take_lt by lia. rewrite shift_left_lookup by lia.
    case_bool_decide.
    + rewrite list_lookup_delete_ge by lia. by rewrite lookup_take_lt by lia.
    + rewrite list_lookup_delete_lt by lia. by rewrite lookup_take_lt by lia.
  - rewrite lookup_take_ge by lia. symmetry. apply lookup_ge_None.
    rewrite length_delete; rewrite ?length_take; [lia|].
    apply lookup_lt_is_Some. rewrite length_take. lia.
Qed.

Lemma index_of_spec l p i fuel :
  match index_of l p i fuel with
  | Some j => (i <= j < i + fuel)%nat /\ l !! j = Some p /\
              forall k, (i <= k < j)%nat -> l !! k <> Some p
  | None => forall k, (i <= k < i + fuel)%nat -> l !! k <> Some p
  end.
Proof.
  revert i. induction fuel as [|f IH]; intros i; simpl; [lia|].
  case_bool_decide as Hi.
  - split; [lia|]. split; [done|]. lia.
  - specialize (IH (S i)). destruct (index_of l p (S i) f) as [j|].
    + destruct IH as (? & ? & Hk). split; [lia|]. split; [done|].
      intros k ?. destruct (decide (k = i)); [by subst|]. apply Hk. lia.
    + intros k ?. destruct (decide (k = i)); [by subst|]. apply IH. lia.
Qed.

Lemma empty_abs q : rep_ok q -> empty (Some q) = bool_decide (abs q = []).
Proof.
  intros [Hl Hs]. unabs. apply bool_decide_ext. split.
  - by intros ->.
  - intros H. apply (f_equal length) in H. rewrite length_take in H. simpl in H. lia.
Qed.

Lemma empty_queue_ok : rep_ok empty_queue /\ abs empty_queue = [].
Proof. split; [|done]. split; simpl; [done|lia]. Qed.

Lemma enqueue_full q p :
  rep_ok q -> length (abs q) = MAX_QUEUE_SIZE -> enqueue (Some q) p = (-1, Some q).
Proof.
  intros [Hl Hs] H. unabs. rewrite length_take in H.
  by rewrite bool_decide_eq_true_2 by lia.
Qed.

Lemma enqueue_room q p :
  rep_ok q -> (length (abs q) < MAX_QUEUE_SIZE)%nat ->
  exists q', enqueue (Some q) p = (0, Some q') /\ rep_ok q' /\ abs q' = abs q ++ [p].
Proof.
  intros [Hl Hs] H. unabs. rewrite length_take in H.
  rewrite bool_decide_eq_false_2 by lia.
  eexists. split; [done|]. simpl. split_and!.
  - by rewrite length_insert.
  - lia.
  - apply take_insert_at. lia.
Qed.

Lemma dequeue_empty q : rep_ok q -> abs q = [] -> dequeue (Some q) = (0, Some q).
Proof.
  intros Hr H. pose proof (empty_abs q Hr) as He. rewrite (bool_decide_eq_true_2 _ H) in He.
  simpl in *. by rewrite He.
Qed.

Lemma dequeue_cons q p ps :
  rep_ok q -> abs q = p :: ps ->
  exists q', dequeue (Some q) = (p, Some q') /\ rep_ok q' /\ abs q' = ps.
Proof.
  intros [Hl Hs] H. unabs.
  assert (size q <> 0%nat) by (intros E; by rewrite E in H).
  rewrite bool_decide_eq_false_2 by done.
  assert (proc q !! 0%nat = Some p) as ->.
  { rewrite <- (lookup_take_lt _ (size q)) by lia. by rewrite H. }
  eexists. split; [done|]. simpl. split_and!.
  - by rewrite shift_left_length.
  - lia.
  - rewrite shift_left_delete by lia. by rewrite H.
Qed.

(** [purgequeue] removes the first occurrence and nothing else. *)
Lemma purgequeue_spec q p :
  rep_ok q -> p <> 0 ->
  if bool_decide (p ∈ abs q)
  then exists q' i, purgequeue (Some q) p = (p, Some q') /\ rep_ok q' /\
         abs q !! i = Some p /\ (forall k, (k < i)%nat -> abs q !! k <> Some p) /\
         abs q' = delete i (abs q)
  else purgequeue (Some q) p = (0, Some q).
Proof.
  intros [Hl Hs] Hp. unabs. rewrite (bool_decide_eq_false_2 (p = 0)) by done.
  pose proof (index_of_spec (proc q) p 0 (size q)) as Hi.
  destruct (index_of (proc q) p 0 (size q)) as [i|].
  - destruct Hi as (Hr & Hpi & Hk).
    assert (take (size q) (proc q) !! i = Some p) as Ht by (by rewrite lookup_take_lt by lia).
    rewrite bool_decide_eq_true_2 by (eapply list_elem_of_lookup_2; eauto).
    eexists _, i. split; [done|]. simpl. split_and!; try done.
    + by rewrite shift_left_length.
    + lia.
    + intros k ?. rewrite lookup_take_lt by lia. apply Hk. lia.
    + by rewrite shift_left_delete by lia.
  - rewrite bool_decide_eq_false_2; [done|].
    intros [k Hk]%list_elem_of_lookup_1. apply lookup_take_Some in Hk as [? ?].
    eapply Hi; [|done]. lia.
Qed.

#[export] Hint Resolve empty_queue_ok : ossim.
