(* ===== verification/Sched.v ===== *)
(** * The multi-level-queue scheduler ([src/sched.c])

    State: the static queues of [sched.c], one ready queue and one slot
    counter per priority, and the list of live processes ([running_list]).
    [linked] holds the processes whose [krnl] has had its three queue pointers
    set: the code sets them together, always to the same static objects.
    Every operation runs under [queue_lock], so an operation is one atomic
    step.  The scheduler only reads two fields of a process, [pid] and
    [prio]; they are the functions [pid_of] and [prio_of] of the section. *)

From S2P Require Import Prelude.
From S2P Require Import Word.
From S2P Require Import Queue.

Definition MAX_PRIO : nat := 140.

Record sched := mkSched {
  ready_queue : queue_t;
  run_queue : queue_t;
  running_list : queue_t;
  mlq_ready_queue : list queue_t;
  slot : list Z;
  linked : gset Z;
}.

Definition set_mlq (s : sched) (prio : nat) (q : queue_t) : sched :=
  mkSched (ready_queue s) (run_queue s) (running_list s)
    (<[prio := q]> (mlq_ready_queue s)) (slot s) (linked s).
Definition set_slot (s : sched) (l : list Z) : sched :=
  mkSched (ready_queue s) (run_queue s) (running_list s)
    (mlq_ready_queue s) l (linked s).
Definition set_running (s : sched) (q : queue_t) : sched :=
  mkSched (ready_queue s) (run_queue s) q (mlq_ready_queue s) (slot s) (linked s).
Definition link (s : sched) (p : Z) : sched :=
  mkSched (ready_queue s) (run_queue s) (running_list s)
    (mlq_ready_queue s) (slot s) ({[p]} ∪ linked s).

Definition valid_mlq_prio (prio : Z) : bool := bool_decide (prio < Z.of_nat MAX_PRIO).

(** [for (prio = 0; prio < MAX_PRIO; prio++) slot[prio] = MAX_PRIO - prio;] *)
Definition full_slots : list Z :=
  map (fun i => Z.of_nat MAX_PRIO - Z.of_nat i) (seq 0 MAX_PRIO).

Definition clear_size (q : queue_t) : queue_t := mkQueue (proc q) 0.

Definition init_scheduler (s : sched) : sched :=
  mkSched (clear_size (ready_queue s)) (clear_size (run_queue s))
    (clear_size (running_list s)) (map clear_size (mlq_ready_queue s))
    full_slots (linked s).

(** The static objects before [init_scheduler]: zero-filled. *)
Definition static_sched : sched :=
  mkSched empty_queue empty_queue empty_queue (replicate MAX_PRIO empty_queue)
    (replicate MAX_PRIO 0) ∅.

Definition queue_empty (s : sched) : bool :=
  forallb (fun prio => empty (mlq_ready_queue s !! prio)) (seq 0 MAX_PRIO).

(** One pass of the dispatcher over the priorities from [prio] on. *)
Fixpoint dispatch_pass (s : sched) (prio fuel : nat) : Z * sched :=
  match fuel with
  | O => (0, s)
  | S f =>
    if negb (empty (mlq_ready_queue s !! prio)) && (0 <? default 0 (slot s !! prio))
    then
      let '(p, q) := dequeue (mlq_ready_queue s !! prio) in
      (p, set_slot (set_mlq s prio (default empty_queue q))
            (<[prio := default 0 (slot s !! prio) - 1]> (slot s)))
    else dispatch_pass s (S prio) f
  end.

Definition all_zero (s : sched) : bool := forallb (fun v => negb (0 <? v)) (slot s).

Definition get_mlq_proc (s : sched) : Z * sched :=
  let '(p1, s1) := dispatch_pass s 0 MAX_PRIO in
  let '(p2, s2) :=
    if bool_decide (p1 = 0) then dispatch_pass (set_slot s1 full_slots) 0 MAX_PRIO
    else (p1, s1) in
  if all_zero s2 then (p2, set_slot s2 full_slots) else (p2, s2).

Section pcb_fields.
Context (pid_of prio_of : Z -> Z).

Definition put_mlq_proc (p : Z) : M sched unit := fun s =>
  if bool_decide (p = 0) then Ret tt s
  else if negb (valid_mlq_prio (prio_of p)) then Exit s
  else
    let s := link s p in
    let prio := Z.to_nat (prio_of p) in
    let '(r, q) := enqueue (mlq_ready_queue s !! prio) p in
    if bool_decide (r <> 0) then Exit s
    else Ret tt (set_mlq s prio (default empty_queue q)).

Definition add_mlq_proc (p : Z) : M sched unit := fun s =>
  if bool_decide (p = 0) then Ret tt s
  else if negb (valid_mlq_prio (prio_of p)) then Exit s
  else
    let s := link s p in
    let prio := Z.to_nat (prio_of p) in
    let '(r, q) := enqueue (mlq_ready_queue s !! prio) p in
    if bool_decide (r <> 0) then Exit s
    else
      let s := set_mlq s prio (default empty_queue q) in
      let '(r2, rl) := enqueue (Some (running_list s)) p in
      if bool_decide (r2 <> 0) then
        let '(_, q2) := purgequeue (mlq_ready_queue s !! prio) p in
        Exit (set_mlq s prio (default empty_queue q2))
      else Ret tt (set_running s (default empty_queue rl)).

(** [get_proc], [put_proc], [add_proc]: the [MLQ_SCHED] entry points. *)
Definition get_proc : sched -> Z * sched := get_mlq_proc.
Definition put_proc : Z -> M sched unit := put_mlq_proc.
Definition add_proc : Z -> M sched unit := add_mlq_proc.

Fixpoint find_proc_from (l : list Z) (pid : Z) (i fuel : nat) : Z :=
  match fuel with
  | O => 0
  | S f =>
    let p := default 0 (l !! i) in
    if bool_decide (p <> 0) && bool_decide (pid_of p = pid) then p
    else find_proc_from l pid (S i) f
  end.

Definition find_proc (s : sched) (pid : Z) : Z :=
  find_proc_from (proc (running_list s)) pid 0 (size (running_list s)).

End pcb_fields.

Definition finish_proc (s : sched) (p : Z) : sched :=
  let q := running_list s in
  match index_of (proc q) p 0 (size q) with
  | None => s
  | Some i =>
    set_running s
      (mkQueue (<[(size q - 1)%nat := 0]> (shift_left (proc q) i (size q))) (size q - 1))
  end.

(** ** Abstract specification

    A ready list per priority and a dispatch budget per priority.  A dispatch
    takes the oldest process of the most urgent level that has a process and
    budget; when no such level exists the budgets are renewed first. *)

Record mlq := mkMlq { levels : list (list Z); budget : list Z }.

Definition eligible (m : mlq) (i : nat) : bool :=
  negb (bool_decide (default [] (levels m !! i) = [])) && (0 <? default 0 (budget m !! i)).

Fixpoint first_eligible (m : mlq) (i fuel : nat) : option nat :=
  match fuel with
  | O => None
  | S f => if eligible m i then Some i else first_eligible m (S i) f
  end.

Definition take_from (m : mlq) (i : nat) : Z * mlq :=
  match default [] (levels m !! i) with
  | [] => (0, m)
  | p :: ps =>
    (p, mkMlq (<[i := ps]> (levels m)) (<[i := default 0 (budget m !! i) - 1]> (budget m)))
  end.

Definition renew (m : mlq) : mlq := mkMlq (levels m) full_slots.

Definition renew_if_spent (m : mlq) : mlq :=
  if forallb (fun v => negb (0 <? v)) (budget m) then renew m else m.

Definition mlq_get (m : mlq) : Z * mlq :=
  match first_eligible m 0 MAX_PRIO with
  | Some i => let '(p, m') := take_from m i in (p, renew_if_spent m')
  | None =>
    match first_eligible (renew m) 0 MAX_PRIO with
    | Some i => let '(p, m') := take_from (renew m) i in (p, renew_if_spent m')
    | None => (0, renew_if_spent (renew m))
    end
  end.

(** The scheduler invariant: every queue is well formed and holds no NULL,
    the arrays have one cell per priority, and each counter stays between 0
    and the allotment of its level. *)
Definition slot_ok (l : list Z) : Prop :=
  length l = MAX_PRIO /\
  forall i v, l !! i = Some v -> 0 <= v <= Z.of_nat MAX_PRIO - Z.of_nat i.

#[export] Instance sched_abstraction : Abstraction sched mlq := {
  rep_ok s :=
    length (mlq_ready_queue s) = MAX_PRIO /\ slot_ok (slot s) /\
    Forall (fun q => rep_ok q /\ Forall (fun p => p <> 0) (abs q)) (mlq_ready_queue s) /\
    rep_ok (running_list s) /\ Forall (fun p => p <> 0) (abs (running_list s));
  abs s := mkMlq (map abs (mlq_ready_queue s)) (slot s);
}.

(** All the processes that wait in some ready queue. *)
Definition ready (s : sched) : list Z := concat (levels (abs s)).

(** The ready list of one level. *)
Definition level (m : mlq) (k : nat) : list Z := default [] (levels m !! k).

(** Sequences of scheduler operations, as the CPUs and the loader issue them;
    the trace is the list of processes handed out by [get_proc]. *)
Inductive sched_op := Get | Put (p : Z) | Add (p : Z) | Finish (p : Z).

Fixpoint run_ops (prio_of : Z -> Z) (ops : list sched_op) (s : sched) :
    option (list Z * sched) :=
  match ops with
  | [] => Some ([], s)
  | Get :: ops' =>
    let '(p, s') := get_proc s in
    match run_ops prio_of ops' s' with
    | Some (t, s'') => Some (p :: t, s'')
    | None => None
    end
  | Put p :: ops' =>
    match put_proc prio_of p s with
    | Ret _ s' => run_ops prio_of ops' s'
    | _ => None
    end
  | Add p :: ops' =>
    match add_proc prio_of p s with
    | Ret _ s' => run_ops prio_of ops' s'
    | _ => None
    end
  | Finish p :: ops' => run_ops prio_of ops' (finish_proc s p)
  end.

Definition is_get (o : sched_op) : bool := match o with Get => true | _ => false end.
Definition gets (ops : list sched_op) : nat := length (List.filter is_get ops).

Definition zsum (l : list Z) : Z := foldr Z.add 0 l.

(** How many dispatches can go to other levels before level [k] is served. *)
Definition delay (m : mlq) (k : nat) : Z :=
  if 0 <? default 0 (budget m !! k) then zsum (take k (budget m))
  else zsum (budget m) + zsum (take k full_slots) + 1.

(** An upper bound of every [delay]: two full rounds of 140 + 139 + ... + 1
    dispatches. *)
Definition starvation_bound : Z := 19742.

(** The processes a sequence of operations hands to the ready queues. *)
Definition entered (ops : list sched_op) : list Z :=
  flat_map (fun o => match o with
                     | Put p | Add p => if bool_decide (p = 0) then [] else [p]
                     | _ => []
                     end) ops.
Definition nonnull (t : list Z) : list Z := filter (fun p => p <> 0) t.

(** The scheduler right after [init_scheduler]. *)
Definition sched0 : sched := init_scheduler static_sched.

Arguments MAX_PRIO : simpl never.

(** ** Lemmas: slots *)

Lemma full_slots_lookup i :
  (i < MAX_PRIO)%nat -> full_slots !! i = Some (Z.of_nat MAX_PRIO - Z.of_nat i).
Proof.
  intros H. unfold full_slots. rewrite list_lookup_fmap.
  by rewrite lookup_seq_lt by done.
Qed.

Lemma full_slots_ok : slot_ok full_slots.
Proof.
  split; [done|]. intros i v H. pose proof (lookup_lt_Some _ _ _ H) as Hi.
  change (length full_slots) with MAX_PRIO in Hi.
  rewrite full_slots_lookup in H by done. simplify_eq. lia.
Qed.

Lemma slot_ok_decr l i v :
  slot_ok l -> l !! i = Some v -> 0 < v -> slot_ok (<[i := v - 1]> l).
Proof.
  intros [Hl H] Hi Hv. split; [by rewrite length_insert|].
  intros j w Hj. destruct (decide (i = j)) as [<-|].
  - rewrite list_lookup_insert_eq in Hj by eauto using lookup_lt_Some.
    specialize (H _ _ Hi). simplify_eq. lia.
  - rewrite list_lookup_insert_ne in Hj by done. eauto.
Qed.

(** ** Lemmas: the abstraction of one level *)

Lemma abs_sched s : abs s = mkMlq (map abs (mlq_ready_queue s)) (slot s).
Proof. done. Qed.

Lemma levels_abs s : levels (abs s) = map abs (mlq_ready_queue s).
Proof. done. Qed.

Lemma budget_abs s : budget (abs s) = slot s.
Proof. done. Qed.

Lemma eligible_abs s i :
  rep_ok s -> (i < MAX_PRIO)%nat ->
  eligible (abs s) i =
  negb (empty (mlq_ready_queue s !! i)) && (0 <? default 0 (slot s !! i)).
Proof.
  intros (Hl & _ & Hq & _) Hi. unfold eligible. f_equal.
  unfold abs. simpl. rewrite list_lookup_fmap.
  destruct (lookup_lt_is_Some_2 (mlq_ready_queue s) i) as [q Hqi]; [lia|].
  rewrite Hqi. simpl. rewrite Forall_lookup in Hq. destruct (Hq _ _ Hqi) as [Hr _].
  pose proof (empty_abs q Hr) as He. simpl in He. by rewrite He.
Qed.

Lemma take_from_dequeue s i :
  rep_ok s -> (i < MAX_PRIO)%nat -> eligible (abs s) i = true ->
  let '(p, q) := dequeue (mlq_ready_queue s !! i) in
  let s' := set_slot (set_mlq s i (default empty_queue q))
              (<[i := default 0 (slot s !! i) - 1]> (slot s)) in
  p <> 0 /\ take_from (abs s) i = (p, abs s') /\ rep_ok s'.
Proof.
  intros Hs Hi He. pose proof Hs as (Hl & Hsl & Hq & Hrl).
  destruct (lookup_lt_is_Some_2 (mlq_ready_queue s) i) as [q Hqi]; [lia|].
  destruct (lookup_lt_is_Some_2 (slot s) i) as [v Hv]; [destruct Hsl; lia|].
  pose proof (proj1 (Forall_lookup _ _) Hq _ _ Hqi) as [Hr Hnz].
  unfold eligible, abs at 1 in He. simpl in He.
  rewrite list_lookup_fmap, Hqi, Hv in He. simpl in He.
  apply andb_true_iff in He as [He Hpos]. apply Z.ltb_lt in Hpos.
  destruct (abs q) as [|p ps] eqn:Ha; [done|].
  destruct (dequeue_cons q p ps Hr Ha) as (q' & Hd & Hr' & Ha').
  rewrite Hqi, Hd, Hv. simpl.
  assert (p <> 0 /\ Forall (fun p => p <> 0) ps) as [Hp Hps]
    by exact (proj1 (Forall_cons (fun p => p <> 0) p ps) Hnz).
  split_and!.
  - done.
  - unfold take_from. rewrite levels_abs, budget_abs, list_lookup_fmap, Hqi. simpl.
    rewrite Ha, Hv. simpl. f_equal. by rewrite abs_sched; simpl; rewrite map_insert, Ha'.
  - unfold rep_ok at 1. simpl. split_and!; try apply Hrl.
    + by rewrite length_insert.
    + by apply slot_ok_decr.
    + apply Forall_insert; [done|]. split; [done|]. by rewrite Ha'.
Qed.

(** One pass of the dispatcher is one search of the specification. *)
Lemma dispatch_pass_spec s i fuel :
  rep_ok s -> (i + fuel = MAX_PRIO)%nat ->
  match first_eligible (abs s) i fuel with
  | None => dispatch_pass s i fuel = (0, s)
  | Some j => exists p s', dispatch_pass s i fuel = (p, s') /\ p <> 0 /\
      take_from (abs s) j = (p, abs s') /\ rep_ok s' /\
      running_list s' = running_list s /\ linked s' = linked s
  end.
Proof.
  intros Hs. revert i. induction fuel as [|f IH]; intros i Hi; simpl; [done|].
  rewrite <- eligible_abs by (done || lia).
  destruct (eligible (abs s) i) eqn:He; [|apply IH; lia].
  pose proof (take_from_dequeue s i Hs ltac:(lia) He) as Ht.
  destruct (dequeue (mlq_ready_queue s !! i)) as [p q]. simpl in Ht.
  destruct Ht as (? & ? & ?). eauto 10.
Qed.

Lemma rep_ok_renew s : rep_ok s -> rep_ok (set_slot s full_slots).
Proof.
  intros (? & _ & ? & ? & ?). unfold rep_ok. simpl. split_and!; try done.
  apply full_slots_ok.
Qed.

Lemma renew_if_spent_abs s :
  abs (if all_zero s then set_slot s full_slots else s) = renew_if_spent (abs s).
Proof. unfold renew_if_spent, all_zero. rewrite budget_abs. by destruct (forallb _ _). Qed.

(** The dispatcher refines the specification and keeps the invariant. *)
Lemma get_mlq_proc_refines s :
  rep_ok s ->
  let '(p, s') := get_mlq_proc s in
  mlq_get (abs s) = (p, abs s') /\ rep_ok s' /\
  running_list s' = running_list s /\ linked s' = linked s.
Proof.
  intros Hs. unfold get_mlq_proc, mlq_get.
  pose proof (dispatch_pass_spec s 0 MAX_PRIO Hs eq_refl) as H1.
  assert (Hfin : forall (p : Z) (s1 : sched), rep_ok s1 ->
    let '(p', s') := if all_zero s1 then (p, set_slot s1 full_slots) else (p, s1) in
    p' = p /\ (abs s' : mlq) = renew_if_spent (abs s1) /\ rep_ok s' /\
    running_list s' = running_list s1 /\ linked s' = linked s1).
  { intros p s1 Hs1. pose proof (renew_if_spent_abs s1) as Ha.
    destruct (all_zero s1); split_and!; try done. by apply rep_ok_renew. }
  destruct (first_eligible (abs s) 0 MAX_PRIO) as [j|].
  - destruct H1 as (p & s1 & -> & Hp & -> & Hs1 & ? & ?).
    rewrite bool_decide_eq_false_2 by done. specialize (Hfin p s1 Hs1).
    destruct (if all_zero s1 then _ else _) as [p' s'].
    destruct Hfin as (-> & -> & ? & ? & ?). simpl in *. split_and!; (done || congruence).
  - rewrite H1, bool_decide_eq_true_2 by done.
    pose proof (dispatch_pass_spec _ 0 MAX_PRIO (rep_ok_renew s Hs) eq_refl) as H2.
    change (abs (set_slot s full_slots)) with (renew (abs s)) in H2.
    destruct (first_eligible (renew (abs s)) 0 MAX_PRIO) as [j|].
    + destruct H2 as (p & s1 & -> & Hp & -> & Hs1 & ? & ?). specialize (Hfin p s1 Hs1).
      destruct (if all_zero s1 then _ else _) as [p' s'].
      destruct Hfin as (-> & -> & ? & ? & ?). simpl in *. split_and!; (done || congruence).
    + rewrite H2. specialize (Hfin 0 _ (rep_ok_renew s Hs)).
      destruct (if all_zero _ then _ else _) as [p' s'].
      destruct Hfin as (-> & -> & ? & ? & ?). simpl in *. split_and!; (done || congruence).
Qed.

(** ** Lemmas: the specification *)

Lemma first_eligible_spec m i fuel :
  match first_eligible m i fuel with
  | Some j => (i <= j < i + fuel)%nat /\ eligible m j = true /\
              forall k, (i <= k < j)%nat -> eligible m k = false
  | None => forall k, (i <= k < i + fuel)%nat -> eligible m k = false
  end.
Proof.
  revert i. induction fuel as [|f IH]; intros i; simpl; [lia|].
  destruct (eligible m i) eqn:Hi; [split_and!; try done; lia|].
  specialize (IH (S i)). destruct (first_eligible m (S i) f) as [j|].
  - destruct IH as (? & ? & Hk). split_and!; try done; try lia.
    intros k ?. destruct (decide (k = i)); [by subst|]. apply Hk. lia.
  - intros k ?. destruct (decide (k = i)); [by subst|]. apply IH. lia.
Qed.

Lemma eligible_level m i :
  eligible m i = negb (bool_decide (level m i = [])) && (0 <? default 0 (budget m !! i)).
Proof. done. Qed.

Lemma eligible_renew m i :
  (i < MAX_PRIO)%nat -> eligible (renew m) i = negb (bool_decide (level m i = [])).
Proof.
  intros Hi. rewrite eligible_level. simpl. rewrite full_slots_lookup by done. simpl.
  assert ((0 <? Z.of_nat MAX_PRIO - Z.of_nat i) = true) as -> by (apply Z.ltb_lt; lia).
  apply andb_true_r.
Qed.

Lemma levels_renew_if_spent m : levels (renew_if_spent m) = levels m.
Proof. unfold renew_if_spent. by destruct (forallb _ _). Qed.

Lemma level_renew_if_spent m k : level (renew_if_spent m) k = level m k.
Proof. unfold level. by rewrite levels_renew_if_spent. Qed.

Lemma renew_if_spent_id m k :
  0 < default 0 (budget m !! k) -> renew_if_spent m = m.
Proof.
  intros Hk. unfold renew_if_spent. destruct (forallb _ _) eqn:E; [|done]. exfalso.
  rewrite forallb_forall in E. destruct (budget m !! k) as [v|] eqn:Hv; [|simpl in *; lia].
  specialize (E v). simpl in Hk. apply Z.ltb_lt in Hk. rewrite Hk in E. simpl in E.
  discriminate E. apply list_elem_of_In. by eapply list_elem_of_lookup_2.
Qed.

Lemma take_from_level m i p ps :
  level m i = p :: ps ->
  take_from m i =
  (p, mkMlq (<[i := ps]> (levels m)) (<[i := default 0 (budget m !! i) - 1]> (budget m))).
Proof. unfold take_from, level. by intros ->. Qed.

Lemma level_insert m b i ps k :
  level m i <> [] ->
  level (mkMlq (<[i := ps]> (levels m)) b) k = if bool_decide (k = i) then ps else level m k.
Proof.
  intros Hi. unfold level in *. simpl. case_bool_decide as E.
  - subst. destruct (levels m !! i) eqn:E; [|done].
    by rewrite list_lookup_insert_eq by eauto using lookup_lt_Some.
  - by rewrite list_lookup_insert_ne.
Qed.

(** What one dispatch of the specification does, on every branch. *)
Lemma mlq_get_cases m :
  (forall i, (i < MAX_PRIO)%nat -> level m i = []) /\
    mlq_get m = (0, renew_if_spent (renew m)) \/
  exists m0 j p ps, (m0 = m \/ m0 = renew m /\ forall i, (i < MAX_PRIO)%nat -> eligible m i = false) /\
    (j < MAX_PRIO)%nat /\ eligible m0 j = true /\
    (forall i, (i < j)%nat -> eligible m0 i = false) /\ level m j = p :: ps /\
    mlq_get m =
    (p, renew_if_spent (mkMlq (<[j := ps]> (levels m))
          (<[j := default 0 (budget m0 !! j) - 1]> (budget m0)))).
Proof.
  unfold mlq_get. pose proof (first_eligible_spec m 0 MAX_PRIO) as H1.
  assert (Htake : forall m0 j, levels m0 = levels m -> eligible m0 j = true ->
    exists p ps, level m j = p :: ps /\ take_from m0 j =
      (p, mkMlq (<[j := ps]> (levels m))
            (<[j := default 0 (budget m0 !! j) - 1]> (budget m0)))).
  { intros m0 j Hl He. rewrite eligible_level in He. apply andb_true_iff in He as [He _].
    unfold level in *. rewrite <- Hl. destruct (default [] (levels m0 !! j)) as [|p ps] eqn:E; [done|].
    exists p, ps. split; [done|]. by apply take_from_level. }
  destruct (first_eligible m 0 MAX_PRIO) as [j|].
  - destruct H1 as (Hj & He & Hlt). destruct (Htake m j eq_refl He) as (p & ps & Hlv & ->).
    right. exists m, j, p, ps. split_and!; auto; try lia. intros. apply Hlt. lia.
  - pose proof (first_eligible_spec (renew m) 0 MAX_PRIO) as H2.
    destruct (first_eligible (renew m) 0 MAX_PRIO) as [j|].
    + destruct H2 as (Hj & He & Hlt).
      destruct (Htake (renew m) j eq_refl He) as (p & ps & Hlv & ->).
      right. exists (renew m), j, p, ps. split_and!; auto; try lia.
      * right. split; [done|]. intros. apply H1. lia.
      * intros. apply Hlt. lia.
    + left. split; [|done]. intros i Hi. specialize (H2 i ltac:(lia)).
      rewrite eligible_renew in H2 by done. by case_bool_decide.
Qed.

(** ** Lemmas: sums and the delay of a level *)

Lemma zsum_insert l i v w :
  l !! i = Some v -> zsum (<[i := w]> l) = zsum l - v + w.
Proof.
  revert i. induction l as [|x l IH]; intros [|i] H; simplify_eq/=; [lia|].
  rewrite (IH _ H). lia.
Qed.

Lemma zsum_nonneg l : (forall i v, l !! i = Some v -> 0 <= v) -> 0 <= zsum l.
Proof.
  induction l as [|x l IH]; intros H; simpl; [lia|].
  pose proof (H 0%nat x eq_refl). assert (0 <= zsum l); [|lia].
  apply IH. intros i v Hi. by apply (H (S i)).
Qed.

Lemma zsum_take_le l k : (forall i v, l !! i = Some v -> 0 <= v) -> zsum (take k l) <= zsum l.
Proof.
  intros H. revert k. induction l as [|x l IH]; intros [|k]; simpl; try lia.
  - pose proof (zsum_nonneg (x :: l) H). simpl in *. lia.
  - assert (zsum (take k l) <= zsum l); [|lia]. apply IH.
    intros i v Hi. by apply (H (S i)).
Qed.

Lemma slot_ok_nonneg l : slot_ok l -> forall i v, l !! i = Some v -> 0 <= v.
Proof. intros [_ H] i v Hi. specialize (H _ _ Hi). lia. Qed.

Lemma slot_ok_take_nonneg l k : slot_ok l -> 0 <= zsum (take k l).
Proof.
  intros H. apply zsum_nonneg. intros i v [Hi _]%lookup_take_Some.
  by eapply slot_ok_nonneg.
Qed.

Lemma slot_ok_zsum l : slot_ok l -> zsum l <= zsum full_slots.
Proof.
  intros [Hl H].
  enough (forall n (l l' : list Z), length l = n -> length l' = n ->
    (forall i v w, l !! i = Some v -> l' !! i = Some w -> v <= w) -> zsum l <= zsum l') as G.
  { apply (G MAX_PRIO); [done|done|]. intros i v w Hv Hw. specialize (H _ _ Hv).
    rewrite full_slots_lookup in Hw by (rewrite <- Hl; eauto using lookup_lt_Some).
    simplify_eq. lia. }
  clear. induction n as [|n IH]; intros [|x l] [|y l'] ?? H; simplify_eq/=; [lia|].
  pose proof (H 0%nat x y eq_refl eq_refl). assert (zsum l <= zsum l'); [|lia].
  apply IH; try done. intros i v w. by apply (H (S i)).
Qed.

Lemma delay_bound m k : slot_ok (budget m) -> 0 <= delay m k < starvation_bound.
Proof.
  intros H. unfold delay. pose proof (slot_ok_zsum _ H).
  pose proof (slot_ok_take_nonneg _ k H). pose proof (slot_ok_take_nonneg _ k full_slots_ok).
  pose proof (zsum_take_le _ k (slot_ok_nonneg _ H)).
  pose proof (zsum_take_le _ k (slot_ok_nonneg _ full_slots_ok)).
  pose proof (zsum_nonneg _ (slot_ok_nonneg _ H)).
  assert (zsum full_slots = 9870) by reflexivity. unfold starvation_bound.
  destruct (0 <? _); lia.
Qed.

Lemma delay_pos m k : 0 < default 0 (budget m !! k) -> delay m k = zsum (take k (budget m)).
Proof. intros H%Z.ltb_lt. unfold delay. by rewrite H. Qed.

Lemma delay_zero m k :
  ~ 0 < default 0 (budget m !! k) ->
  delay m k = zsum (budget m) + zsum (take k full_slots) + 1.
Proof. intros H. unfold delay. destruct (Z.ltb_spec 0 (default 0 (budget m !! k))); [lia|done]. Qed.

(** Serving another, more urgent level uses up one unit of the delay. *)
Lemma delay_take_lt b j k v :
  b !! j = Some v -> (j < k)%nat ->
  zsum (take k (<[j := v - 1]> b)) = zsum (take k b) - 1.
Proof.
  intros Hj Hlt. rewrite take_insert_lt by done.
  rewrite (zsum_insert _ _ v) by (by rewrite lookup_take_lt). lia.
Qed.

(** A dispatch either serves level [k] or brings it closer to its turn. *)
Lemma mlq_get_progress m k p0 ps0 :
  slot_ok (budget m) -> (k < MAX_PRIO)%nat -> level m k = p0 :: ps0 ->
  let '(p, m') := mlq_get m in
  p = p0 \/ delay m' k < delay m k /\ level m' k = level m k.
Proof.
  intros Hb Hk Hlk. destruct (mlq_get_cases m) as [[Hall _]|H].
  { by rewrite Hall in Hlk. }
  destruct H as (m0 & j & p & ps & Hm0 & Hj & He & Hlt & Hlv & ->).
  destruct (decide (j = k)) as [->|Hjk]; [left; congruence|right].
  set (m1 := mkMlq _ _). rewrite level_renew_if_spent. split;
    [|unfold m1; rewrite level_insert by (by rewrite Hlv); by rewrite bool_decide_eq_false_2].
  assert (slot_ok (budget m0)) as Hb0 by (destruct Hm0 as [->|[-> _]]; auto using full_slots_ok).
  destruct (lookup_lt_is_Some_2 (budget m0) j) as [v Hv]; [destruct Hb0; lia|].
  assert (Hbk : budget m1 !! k = budget m0 !! k) by (by apply list_lookup_insert_ne).
  pose proof (zsum_nonneg _ (slot_ok_nonneg _ Hb)).
  destruct (decide (0 < default 0 (budget m0 !! k))) as [Hpos|Hzero].
  - rewrite (renew_if_spent_id m1 k) by (by rewrite Hbk).
    rewrite (delay_pos m1) by (by rewrite Hbk). unfold m1. simpl. rewrite Hv. simpl.
    assert (j < k)%nat.
    { destruct (decide (k < j)%nat) as [Hkj|]; [|lia]. specialize (Hlt k Hkj).
      rewrite eligible_level in Hlt. apply Z.ltb_lt in Hpos. rewrite Hpos in Hlt.
      destruct Hm0 as [->|[-> _]]; unfold level in *; simpl in *; by rewrite Hlk in Hlt. }
    rewrite delay_take_lt by done. destruct Hm0 as [->|[-> Hno]].
    + rewrite delay_pos by done. lia.
    + specialize (Hno k Hk). rewrite eligible_level, Hlk in Hno. simpl in Hno.
      apply Z.ltb_ge in Hno. rewrite (delay_zero m) by lia. cbn [renew budget]. lia.
  - destruct Hm0 as [->|[-> _]].
    2:{ simpl in Hzero. rewrite full_slots_lookup in Hzero by done. simpl in Hzero. lia. }
    rewrite (delay_zero m) by done.
    unfold renew_if_spent. destruct (forallb _ _).
    + rewrite delay_pos; cbn [renew budget]; [lia|].
      rewrite full_slots_lookup by done. simpl. lia.
    + rewrite delay_zero by (by rewrite Hbk). unfold m1. simpl. rewrite Hv. simpl.
      rewrite (zsum_insert _ _ v) by done. lia.
Qed.

(** ** Lemmas: putting processes back *)

Lemma rep_ok_level s k q :
  rep_ok s -> mlq_ready_queue s !! k = Some q -> rep_ok q /\ Forall (fun p => p <> 0) (abs q).
Proof. intros (_ & _ & Hq & _) Hk. by eapply (proj1 (Forall_lookup _ _)) in Hq. Qed.

Lemma level_abs s k q : mlq_ready_queue s !! k = Some q -> level (abs s) k = abs q.
Proof. intros H. unfold level. rewrite levels_abs, list_lookup_fmap. by rewrite H. Qed.

Lemma rep_ok_set_mlq s k q :
  rep_ok s -> rep_ok q -> Forall (fun p => p <> 0) (abs q) -> rep_ok (set_mlq s k q).
Proof.
  intros (? & ? & ? & ? & ?) ??. unfold rep_ok. simpl. split_and!; try done.
  - by rewrite length_insert.
  - by apply Forall_insert.
Qed.

Lemma level_set_mlq s k q j :
  (k < length (mlq_ready_queue s))%nat ->
  level (abs (set_mlq s k q)) j = if bool_decide (j = k) then abs q else level (abs s) j.
Proof.
  intros Hk. unfold level. rewrite !levels_abs. simpl. rewrite map_insert.
  case_bool_decide; subst.
  - by rewrite list_lookup_insert_eq by (by rewrite length_map).
  - by rewrite list_lookup_insert_ne.
Qed.

(** [enqueue] on one level, with the whole scheduler around it. *)
Lemma enqueue_level s k p :
  rep_ok s -> (k < MAX_PRIO)%nat -> p <> 0 ->
  let '(r, q) := enqueue (mlq_ready_queue s !! k) p in
  let s' := set_mlq s k (default empty_queue q) in
  if bool_decide (length (level (abs s) k) < MAX_QUEUE_SIZE)%nat
  then r = 0 /\ rep_ok s' /\
       (forall j, level (abs s') j = if bool_decide (j = k) then level (abs s) k ++ [p]
                                     else level (abs s) j)
  else r = -1.
Proof.
  intros Hs Hk Hp. pose proof Hs as (Hl & _).
  destruct (lookup_lt_is_Some_2 (mlq_ready_queue s) k) as [q Hq]; [lia|].
  destruct (rep_ok_level _ _ _ Hs Hq) as [Hr Hnz]. rewrite Hq, (level_abs _ _ _ Hq).
  case_bool_decide as Hlen.
  - destruct (enqueue_room q p Hr Hlen) as (q' & -> & Hr' & Ha'). simpl.
    split_and!; [done| |].
    + apply rep_ok_set_mlq; try done. rewrite Ha'. apply Forall_app_2; [done|].
      by repeat constructor.
    + intros j. rewrite level_set_mlq by lia. by rewrite Ha'.
  - rewrite (enqueue_full q p); [done|done|].
    destruct Hr as [? ?]. unfold abs in *. simpl in *. rewrite length_take in *. lia.
Qed.

Lemma rep_ok_link s p : rep_ok s -> rep_ok (link s p).
Proof. done. Qed.

Lemma rep_ok_set_running s q :
  rep_ok s -> rep_ok q -> Forall (fun p => p <> 0) (abs q) -> rep_ok (set_running s q).
Proof. intros (? & ? & ? & ? & ?) ??. unfold rep_ok. simpl. by split_and!. Qed.

Section put_add.
Context (prio_of : Z -> Z).

(** [put_mlq_proc] on every branch. *)
Lemma put_mlq_proc_spec s p :
  rep_ok s -> p <> 0 -> 0 <= prio_of p ->
  let k := Z.to_nat (prio_of p) in
  if bool_decide (prio_of p < Z.of_nat MAX_PRIO /\
                  (length (level (abs s) k) < MAX_QUEUE_SIZE)%nat)
  then exists s', put_mlq_proc prio_of p s = Ret tt s' /\ rep_ok s' /\
         slot s' = slot s /\ running_list s' = running_list s /\ p ∈ linked s' /\
         forall j, level (abs s') j =
                   if bool_decide (j = k) then level (abs s) k ++ [p] else level (abs s) j
  else exists s', put_mlq_proc prio_of p s = Exit s'.
Proof.
  intros Hs Hp Hprio k. unfold put_mlq_proc, valid_mlq_prio.
  rewrite (bool_decide_eq_false_2 (p = 0)) by done.
  destruct (decide (prio_of p < Z.of_nat MAX_PRIO)) as [Hv|Hv].
  2:{ rewrite (bool_decide_eq_false_2 (prio_of p < _)) by done.
      rewrite bool_decide_eq_false_2 by tauto. eauto. }
  rewrite (bool_decide_eq_true_2 (prio_of p < _)) by done. simpl negb. cbv iota.
  pose proof (enqueue_level (link s p) k p (rep_ok_link _ _ Hs) ltac:(unfold k; lia) Hp) as He.
  fold k. destruct (enqueue _ p) as [r q]. change (level (abs (link s p)))
    with (level (abs s)) in He.
  destruct (decide (length (level (abs s) k) < MAX_QUEUE_SIZE)%nat) as [Hlen|Hlen].
  - rewrite (bool_decide_eq_true_2 _ Hlen) in He.
    destruct He as (-> & Hr & Hlv). rewrite bool_decide_eq_true_2 by done.
    rewrite bool_decide_eq_false_2 by lia. eexists. split; [done|]. split; [done|].
    split_and!; try done. simpl. set_solver.
  - rewrite (bool_decide_eq_false_2 _ Hlen) in He. cbv zeta iota in He. subst r.
    rewrite bool_decide_eq_false_2 by tauto.
    rewrite bool_decide_eq_true_2 by lia. eauto.
Qed.

(** [add_mlq_proc] when both queues have room. *)
Lemma add_mlq_proc_spec s p :
  rep_ok s -> p <> 0 -> 0 <= prio_of p ->
  let k := Z.to_nat (prio_of p) in
  if bool_decide (prio_of p < Z.of_nat MAX_PRIO /\
                  (length (level (abs s) k) < MAX_QUEUE_SIZE)%nat /\
                  (length (abs (running_list s)) < MAX_QUEUE_SIZE)%nat)
  then exists s', add_mlq_proc prio_of p s = Ret tt s' /\ rep_ok s' /\
         slot s' = slot s /\ abs (running_list s') = abs (running_list s) ++ [p] /\
         p ∈ linked s' /\
         forall j, level (abs s') j =
                   if bool_decide (j = k) then level (abs s) k ++ [p] else level (abs s) j
  else exists s', add_mlq_proc prio_of p s = Exit s'.
Proof.
  intros Hs Hp Hprio k. unfold add_mlq_proc, valid_mlq_prio.
  rewrite (bool_decide_eq_false_2 (p = 0)) by done.
  destruct (decide (prio_of p < Z.of_nat MAX_PRIO)) as [Hv|Hv].
  2:{ rewrite (bool_decide_eq_false_2 (prio_of p < _)) by done.
      rewrite bool_decide_eq_false_2 by tauto. eauto. }
  rewrite (bool_decide_eq_true_2 (prio_of p < _)) by done. simpl negb. cbv iota.
  pose proof (enqueue_level (link s p) k p (rep_ok_link _ _ Hs) ltac:(unfold k; lia) Hp) as He.
  fold k. destruct (enqueue _ p) as [r q]. change (level (abs (link s p)))
    with (level (abs s)) in He.
  destruct (decide (length (level (abs s) k) < MAX_QUEUE_SIZE)%nat) as [Hlen|Hlen].
  2:{ rewrite (bool_decide_eq_false_2 _ Hlen) in He. cbv zeta iota in He. subst r.
      rewrite bool_decide_eq_false_2 by tauto.
      rewrite bool_decide_eq_true_2 by lia. eauto. }
  rewrite (bool_decide_eq_true_2 _ Hlen) in He.
  destruct He as (-> & Hr & Hlv). rewrite (bool_decide_eq_false_2 (0 <> 0)) by lia.
  set (s1 := set_mlq _ _ _). change (running_list s1) with (running_list s).
  pose proof Hs as (_ & _ & _ & Hrl & Hnz).
  destruct (decide (length (abs (running_list s)) < MAX_QUEUE_SIZE)%nat) as [Hroom|Hfull].
  - destruct (enqueue_room _ p Hrl Hroom) as (rl & -> & Hrl' & Ha').
    rewrite (bool_decide_eq_false_2 (0 <> 0)) by lia.
    rewrite bool_decide_eq_true_2 by done. simpl. eexists. split; [done|].
    split; [|split_and!; try done; simpl; set_solver].
    apply rep_ok_set_running; try done. rewrite Ha'. apply Forall_app_2; [done|].
    by repeat constructor.
  - rewrite (enqueue_full (running_list s) p Hrl).
    2:{ destruct Hrl. unfold abs in *. simpl in *. rewrite length_take in *. lia. }
    rewrite (bool_decide_eq_true_2 (-1 <> 0)) by lia. rewrite bool_decide_eq_false_2 by tauto.
    destruct (purgequeue _ p) as [? ?]. eauto.
Qed.
End put_add.

(** ** Lemmas: the ready processes as a whole *)

Lemma concat_insert_perm (ls : list (list Z)) j p ps :
  ls !! j = Some (p :: ps) -> concat ls ≡ₚ p :: concat (<[j := ps]> ls).
Proof.
  revert j. induction ls as [|l ls IH]; intros [|j] H; simplify_eq/=; [done|].
  rewrite (IH _ H). by rewrite Permutation_middle.
Qed.

Lemma concat_nil_iff (ls : list (list Z)) :
  concat ls = [] <-> forall i, default [] (ls !! i) = [].
Proof.
  split.
  - intros H i. destruct (ls !! i) as [l|] eqn:E; [|done]. simpl.
    revert i E. induction ls as [|x ls IH]; intros [|i] E; simplify_eq/=.
    + by apply app_eq_nil in H as [??].
    + apply app_eq_nil in H as [_ H]. by eapply IH.
  - intros H. induction ls as [|x ls IH]; simpl; [done|].
    rewrite (H 0%nat : x = []). simpl. apply IH. intros i. apply (H (S i)).
Qed.

Lemma levels_length s : rep_ok s -> length (levels (abs s)) = MAX_PRIO.
Proof. intros (Hl & _). by rewrite levels_abs, length_map. Qed.

Lemma ready_nil_iff s :
  rep_ok s -> ready s = [] <-> forall i, (i < MAX_PRIO)%nat -> level (abs s) i = [].
Proof.
  intros Hs. unfold ready. rewrite concat_nil_iff. split; [intros H i _; apply H|].
  intros H i. destruct (decide (i < MAX_PRIO)%nat) as [Hi|Hi]; [by apply H|].
  rewrite lookup_ge_None_2; [done|]. rewrite levels_length by done. lia.
Qed.

Lemma ready_not_null s p : rep_ok s -> p ∈ ready s -> p <> 0.
Proof.
  intros (_ & _ & Hq & _) Hp. unfold ready in Hp. rewrite levels_abs in Hp.
  apply list_elem_of_In, in_concat in Hp as (l & Hl & Hp).
  apply in_map_iff in Hl as (q & <- & Hin). rewrite Forall_forall in Hq.
  apply list_elem_of_In in Hin, Hp. destruct (Hq _ Hin) as [_ Hnz].
  rewrite Forall_forall in Hnz. by apply Hnz.
Qed.

Lemma level_ready s k p ps : level (abs s) k = p :: ps -> p ∈ ready s.
Proof.
  intros H. unfold level, ready in *. destruct (levels (abs s) !! k) as [l|] eqn:E; [|done].
  simpl in H. subst. rewrite (concat_insert_perm _ _ _ _ E). set_solver.
Qed.

Lemma get_mlq_proc_eq s p s' :
  get_mlq_proc s = (p, s') -> rep_ok s ->
  mlq_get (abs s) = (p, abs s') /\ rep_ok s' /\
  running_list s' = running_list s /\ linked s' = linked s.
Proof. intros E Hs. pose proof (get_mlq_proc_refines s Hs) as H. by rewrite E in H. Qed.

Lemma rep_ok_slot s : rep_ok s -> slot_ok (budget (abs s)).
Proof. intros (_ & H & _). done. Qed.

(** ** Lemmas: traces *)

Lemma finish_proc_mlq s p :
  abs (finish_proc s p) = abs s /\ slot (finish_proc s p) = slot s.
Proof. unfold finish_proc. destruct (index_of _ _ _ _); done. Qed.

Lemma finish_proc_spec s p :
  rep_ok s ->
  rep_ok (finish_proc s p) /\
  abs (running_list (finish_proc s p)) =
    match list_find (fun q => q = p) (abs (running_list s)) with
    | Some (i, _) => delete i (abs (running_list s))
    | None => abs (running_list s)
    end.
Proof.
  intros Hs. pose proof Hs as (_ & _ & _ & [Hl Hn] & Hnz). unfold finish_proc.
  set (q := running_list s) in *.
  pose proof (index_of_spec (proc q) p 0 (size q)) as Hi.
  destruct (index_of (proc q) p 0 (size q)) as [i|].
  - destruct Hi as (Hi & Hpi & Hlt).
    assert (list_find (fun q => q = p) (abs q) = Some (i, p)) as ->.
    { apply list_find_Some. unfold abs. simpl. rewrite lookup_take_lt by lia.
      split_and!; try done. intros j y [Hj _]%lookup_take_Some Hji.
      intros ->. eapply Hlt; [|done]. lia. }
    assert (Ha : abs (mkQueue (<[(size q - 1)%nat:=0]> (shift_left (proc q) i (size q)))
                        (size q - 1)) = delete i (abs q)).
    { unfold abs. simpl. rewrite take_insert_ge by lia. by apply shift_left_delete; lia. }
    split; [|done]. apply rep_ok_set_running; [done| |].
    + split; simpl; [by rewrite length_insert, shift_left_length|lia].
    + rewrite Ha. by apply Forall_delete.
  - split; [done|]. destruct (list_find _ _) as [[i x]|] eqn:E; [|done]. exfalso.
    apply list_find_Some in E as (E & -> & _). unfold abs in E. simpl in E.
    apply lookup_take_Some in E as [E ?]. eapply Hi; [|done]. lia.
Qed.

(** One operation other than a dispatch of level [k] keeps its head. *)
Lemma run_ops_served prio_of ops s t s' k p0 ps0 :
  (forall p, 0 <= prio_of p) ->
  rep_ok s -> (k < MAX_PRIO)%nat -> level (abs s) k = p0 :: ps0 ->
  run_ops prio_of ops s = Some (t, s') ->
  delay (abs s) k < Z.of_nat (gets ops) -> p0 ∈ t.
Proof.
  intros Hprio. revert s t ps0. induction ops as [|o ops IH]; intros s t ps0 Hs Hk Hlk Hrun Hd.
  { destruct (delay_bound (abs s) k (rep_ok_slot s Hs)) as [? _]. unfold gets in Hd. simpl in Hd. lia. }
  assert (Hput : forall p s1, rep_ok s1 -> slot s1 = slot s ->
    (forall j, level (abs s1) j =
       if bool_decide (j = Z.to_nat (prio_of p))
       then level (abs s) (Z.to_nat (prio_of p)) ++ [p] else level (abs s) j) ->
    run_ops prio_of ops s1 = Some (t, s') ->
    delay (abs s) k < Z.of_nat (gets ops) -> p0 ∈ t).
  { intros p s1 Hs1 Hsl Hlv Hr Hg. specialize (Hlv k).
    eapply (IH s1 t (if bool_decide (k = Z.to_nat (prio_of p)) then ps0 ++ [p] else ps0));
      try done.
    - rewrite Hlv. case_bool_decide; [|done]. subst k. by rewrite Hlk.
    - unfold delay in *. rewrite budget_abs in *. by rewrite Hsl. }
  destruct o as [|p|p|p]; simpl in Hrun.
  - unfold get_proc in Hrun. destruct (get_mlq_proc s) as [p s1] eqn:Eg.
    destruct (get_mlq_proc_eq _ _ _ Eg Hs) as (Hg & Hs1 & _).
    destruct (run_ops prio_of ops s1) as [[t1 s2]|] eqn:Er; [|done]. simplify_eq.
    pose proof (mlq_get_progress (abs s) k p0 ps0 (rep_ok_slot s Hs) Hk Hlk) as Hp.
    rewrite Hg in Hp. destruct Hp as [->|[Hlt Hlv]]; [set_solver|].
    apply list_elem_of_further. rewrite Hlk in Hlv.
    eapply IH; try done. unfold gets in *. simpl in Hd. lia.
  - unfold put_proc in Hrun. destruct (decide (p = 0)) as [->|Hp]; [by eapply IH|].
    pose proof (put_mlq_proc_spec prio_of s p Hs Hp (Hprio p)) as H.
    cbv zeta in H. case_bool_decide.
    + destruct H as (s1 & Hput' & ? & ? & ? & ? & ?). rewrite Hput' in Hrun. by eapply Hput.
    + destruct H as (s1 & Hput'). by rewrite Hput' in Hrun.
  - unfold add_proc in Hrun. destruct (decide (p = 0)) as [->|Hp]; [by eapply IH|].
    pose proof (add_mlq_proc_spec prio_of s p Hs Hp (Hprio p)) as H.
    cbv zeta in H. case_bool_decide.
    + destruct H as (s1 & Hput' & ? & ? & ? & ? & ?). rewrite Hput' in Hrun. by eapply Hput.
    + destruct H as (s1 & Hput'). by rewrite Hput' in Hrun.
  - destruct (finish_proc_mlq s p) as [Ha Hsl].
    destruct (finish_proc_spec s p Hs) as [Hs1 _].
    eapply IH; [exact Hs1|done| |done|]; rewrite Ha; done.
Qed.

(** ** Lemmas: conservation *)

Lemma concat_snoc_perm (ls : list (list Z)) k l p :
  ls !! k = Some l -> concat (<[k := l ++ [p]]> ls) ≡ₚ p :: concat ls.
Proof.
  revert k. induction ls as [|x ls IH]; intros [|k] Hk; simplify_eq/=.
  - rewrite <- app_assoc. simpl. by rewrite Permutation_middle.
  - rewrite (IH _ Hk). by rewrite Permutation_middle.
Qed.

Lemma ready_append s s1 k p :
  rep_ok s -> rep_ok s1 -> (k < MAX_PRIO)%nat ->
  (forall j, level (abs s1) j =
     if bool_decide (j = k) then level (abs s) k ++ [p] else level (abs s) j) ->
  ready s1 ≡ₚ p :: ready s.
Proof.
  intros Hs Hs1 Hk Hlv. unfold ready. pose proof (levels_length s Hs) as Hl.
  pose proof (levels_length s1 Hs1) as Hl1.
  assert (levels (abs s1) = <[k := level (abs s) k ++ [p]]> (levels (abs s))) as ->.
  { apply list_eq_same_length with MAX_PRIO; [by rewrite length_insert|done|].
    intros i x y Hi Hx Hy. specialize (Hlv i). unfold level at 1 in Hlv. rewrite Hx in Hlv.
    simpl in Hlv. rewrite Hlv. case_bool_decide; subst.
    - rewrite list_lookup_insert_eq in Hy by lia. by simplify_eq.
    - rewrite list_lookup_insert_ne in Hy by done. unfold level. rewrite Hy. done. }
  destruct (lookup_lt_is_Some_2 (levels (abs s)) k) as [l Hlk]; [lia|].
  unfold level. rewrite Hlk. by apply concat_snoc_perm.
Qed.

Lemma mlq_get_conserves s p s' :
  rep_ok s -> get_mlq_proc s = (p, s') ->
  (p = 0 /\ ready s = [] /\ ready s' = []) \/ (p <> 0 /\ ready s ≡ₚ p :: ready s').
Proof.
  intros Hs Eg. destruct (get_mlq_proc_eq _ _ _ Eg Hs) as (Hg & Hs1 & _).
  destruct (mlq_get_cases (abs s)) as [[Hall H0]|H].
  - rewrite H0 in Hg. apply pair_eq in Hg as [<- Hg]. left. split; [done|].
    split; apply ready_nil_iff; try done. intros i Hi. rewrite <- Hg.
    rewrite level_renew_if_spent. by apply Hall.
  - destruct H as (m0 & j & p1 & ps & _ & Hj & _ & _ & Hlv & H0). rewrite H0 in Hg.
    apply pair_eq in Hg as [-> Hg]. right. split.
    + apply (ready_not_null s); [done|]. by eapply level_ready.
    + unfold ready at 2. rewrite <- Hg, levels_renew_if_spent. simpl.
      apply concat_insert_perm. unfold level in Hlv.
      destruct (levels (abs s) !! j) eqn:E; [|done]. simpl in Hlv. by rewrite <- Hlv.
Qed.

Lemma run_ops_conserves prio_of ops s t s' :
  (forall p, 0 <= prio_of p) -> rep_ok s -> run_ops prio_of ops s = Some (t, s') ->
  rep_ok s' /\ nonnull t ++ ready s' ≡ₚ entered ops ++ ready s.
Proof.
  intros Hprio. revert s t. induction ops as [|o ops IH]; intros s t Hs Hrun; simpl in Hrun.
  { by simplify_eq. }
  assert (Hput : forall p s1, p <> 0 -> prio_of p < Z.of_nat MAX_PRIO -> rep_ok s1 ->
    (forall j, level (abs s1) j =
       if bool_decide (j = Z.to_nat (prio_of p))
       then level (abs s) (Z.to_nat (prio_of p)) ++ [p] else level (abs s) j) ->
    run_ops prio_of ops s1 = Some (t, s') ->
    rep_ok s' /\ nonnull t ++ ready s' ≡ₚ p :: entered ops ++ ready s).
  { intros p s1 Hp Hv Hs1 Hlv Hr. destruct (IH _ _ Hs1 Hr) as [? Hc]. split; [done|].
    rewrite Hc, (ready_append s s1 (Z.to_nat (prio_of p)) p) by (done || specialize (Hprio p); lia).
    by rewrite <- Permutation_middle. }
  destruct o as [|p|p|p]; simpl.
  - unfold get_proc in Hrun. destruct (get_mlq_proc s) as [p s1] eqn:Eg.
    destruct (get_mlq_proc_eq _ _ _ Eg Hs) as (_ & Hs1 & _).
    destruct (run_ops prio_of ops s1) as [[t1 s2]|] eqn:Er; [|done]. simplify_eq.
    destruct (IH _ _ Hs1 Er) as [? Hc]. split; [done|].
    destruct (mlq_get_conserves _ _ _ Hs Eg) as [(-> & Hr & Hr1)|[Hp Hr]].
    + unfold nonnull. rewrite filter_cons_False by lia. fold (nonnull t1). by rewrite Hc, Hr, Hr1.
    + unfold nonnull. rewrite filter_cons_True by done. fold (nonnull t1).
      rewrite Hr. simpl. rewrite Hc. by rewrite Permutation_middle.
  - unfold put_proc in Hrun. destruct (decide (p = 0)) as [->|Hp]; [by apply IH|].
    rewrite bool_decide_eq_false_2 by done.
    pose proof (put_mlq_proc_spec prio_of s p Hs Hp (Hprio p)) as H. cbv zeta in H.
    case_bool_decide as Hc.
    + destruct H as (s1 & Hput' & ? & ? & ? & ? & ?). rewrite Hput' in Hrun.
      destruct Hc. by eapply Hput.
    + destruct H as (s1 & Hput'). by rewrite Hput' in Hrun.
  - unfold add_proc in Hrun. destruct (decide (p = 0)) as [->|Hp]; [by apply IH|].
    rewrite bool_decide_eq_false_2 by done.
    pose proof (add_mlq_proc_spec prio_of s p Hs Hp (Hprio p)) as H. cbv zeta in H.
    case_bool_decide as Hc.
    + destruct H as (s1 & Hput' & ? & ? & ? & ? & ?). rewrite Hput' in Hrun.
      destruct Hc as [? _]. by eapply Hput.
    + destruct H as (s1 & Hput'). by rewrite Hput' in Hrun.
  - destruct (finish_proc_spec s p Hs) as [Hs1 _]. destruct (IH _ _ Hs1 Hrun) as [? Hc].
    split; [done|]. rewrite Hc. unfold ready. by rewrite (proj1 (finish_proc_mlq s p)).
Qed.

(** ** Lemmas: the initial state *)

Lemma sched0_ok : rep_ok sched0.
Proof.
  unfold rep_ok.
  cbn [sched_abstraction sched0 init_scheduler static_sched mlq_ready_queue slot running_list].
  split_and!.
  - done.
  - apply full_slots_ok.
  - apply Forall_forall. intros q Hq.
    apply list_elem_of_fmap in Hq as (q0 & -> & Hq0).
    apply elem_of_replicate in Hq0 as [-> _].
    split; [|by constructor]. split; simpl; [done|lia].
  - split; simpl; [done|lia].
  - constructor.
Qed.

(** A state used by the witnesses: process 1 at priority 3, processes 2 and 3
    at priority 0, and one dispatch. *)
Definition demo_prio (p : Z) : Z := if bool_decide (p = 1) then 3 else 0.
Definition demo_ops : list sched_op := [Add 1; Add 2; Add 3; Get].
Definition demo_sched : sched :=
  match run_ops demo_prio demo_ops sched0 with Some (_, s) => s | None => sched0 end.

Lemma demo_prio_nonneg p : 0 <= demo_prio p.
Proof. unfold demo_prio. case_bool_decide; lia. Qed.

Lemma demo_sched_ok : rep_ok demo_sched.
Proof.
  assert (exists t, run_ops demo_prio demo_ops sched0 = Some (t, demo_sched)) as [t H].
  { eexists. vm_compute. reflexivity. }
  by apply (run_ops_conserves _ _ _ _ _ demo_prio_nonneg sched0_ok H).
Qed.

(** ** Properties *)

(** C11: the dispatcher of [sched.c] refines the multi-level-queue
    specification: the array queues and slot counters behave as one ready
    list and one budget per priority, the process returned is the oldest one
    of the most urgent level with budget, budgets are renewed exactly when no
    waiting level has any left, and the scheduler invariant is kept. *)
Theorem get_proc_refines (s : sched) :
  rep_ok s ->
  let '(p, s') := get_proc s in
  mlq_get (abs s) = (p, abs s') /\ rep_ok s' /\
  running_list s' = running_list s /\ linked s' = linked s.
Proof. exact (get_mlq_proc_refines s). Qed.

Lemma get_proc_refines_witness :
  let '(p, s') := get_proc demo_sched in
  p = 3 /\ mlq_get (abs demo_sched) = (p, abs s').
Proof.
  pose proof (get_proc_refines demo_sched demo_sched_ok) as H.
  destruct (get_proc demo_sched) as [p s'] eqn:E.
  split; [|exact (proj1 H)]. transitivity (fst (get_proc demo_sched)).
  - by rewrite E.
  - vm_compute. reflexivity.
Defined.

(** C14: no starvation. In any interleaving of dispatches, preemptions,
    arrivals and terminations that does not abort, the process at the head of
    a priority level is among the processes dispatched as soon as more than
    [delay] dispatches have happened, whatever arrives at more urgent levels;
    and [delay] never exceeds two full rounds ([starvation_bound]). *)
Theorem no_starvation (prio_of : Z -> Z) (ops : list sched_op) (s s' : sched)
    (t : list Z) (k : nat) (p : Z) (ps : list Z) :
  (forall q, 0 <= prio_of q) -> rep_ok s -> (k < MAX_PRIO)%nat ->
  level (abs s) k = p :: ps ->
  run_ops prio_of ops s = Some (t, s') ->
  delay (abs s) k < starvation_bound /\
  (delay (abs s) k < Z.of_nat (gets ops) -> p ∈ t).
Proof.
  intros Hprio Hs Hk Hlv Hrun. split; [|by eapply run_ops_served].
  apply (delay_bound (abs s) k (rep_ok_slot s Hs)).
Qed.

(** The witness dispatches against process 1 at priority 3 while process 3 is
    put back at priority 0 after every dispatch. *)
Definition greedy_ops : list sched_op := concat (repeat [Get; Put 3] 420).

Lemma no_starvation_witness :
  exists t s', run_ops demo_prio greedy_ops demo_sched = Some (t, s') /\ 1 ∈ t.
Proof.
  destruct (run_ops demo_prio greedy_ops demo_sched) as [[t s']|] eqn:H.
  - exists t, s'. split; [reflexivity|].
    refine (proj2 (no_starvation demo_prio greedy_ops demo_sched s' t 3 1 [] demo_prio_nonneg
              demo_sched_ok _ _ H) _).
    + apply Nat.ltb_lt. vm_compute. reflexivity.
    + vm_compute. reflexivity.
    + apply Z.ltb_lt. vm_compute. reflexivity.
  - exfalso. revert H. vm_compute. discriminate.
Defined.

(** the scheduler is work conserving and loses nothing: [get_proc]
    returns NULL exactly when no process is ready, and otherwise removes
    exactly the returned process from the ready queues. *)
Theorem get_proc_work_conserving (s : sched) :
  rep_ok s ->
  let '(p, s') := get_proc s in
  (p = 0 <-> ready s = []) /\ (p <> 0 -> ready s ≡ₚ p :: ready s').
Proof.
  intros Hs. destruct (get_proc s) as [p s'] eqn:E.
  destruct (mlq_get_conserves s p s' Hs E) as [(-> & Hr & _)|[Hp Hr]].
  - done.
  - split; [|done]. split; [done|]. intros H. rewrite H in Hr.
    by apply Permutation_nil_cons in Hr.
Qed.

Lemma get_proc_work_conserving_witness :
  let '(p, s') := get_proc demo_sched in p <> 0 -> ready demo_sched ≡ₚ p :: ready s'.
Proof.
  pose proof (get_proc_work_conserving demo_sched demo_sched_ok) as H.
  destruct (get_proc demo_sched) as [p s']. exact (proj2 H).
Defined.

(** conservation over whole executions: for every sequence of scheduler
    operations that does not abort, the processes handed out together with
    those still ready are exactly those put in together with those ready at
    the start; the invariant holds in every state reached. *)
Theorem scheduler_conserves_processes (prio_of : Z -> Z) (ops : list sched_op)
    (s s' : sched) (t : list Z) :
  (forall p, 0 <= prio_of p) -> rep_ok s -> run_ops prio_of ops s = Some (t, s') ->
  rep_ok s' /\ nonnull t ++ ready s' ≡ₚ entered ops ++ ready s.
Proof. apply run_ops_conserves. Qed.

Lemma scheduler_conserves_processes_witness :
  exists t s', run_ops demo_prio demo_ops sched0 = Some (t, s') /\
    nonnull t ++ ready s' ≡ₚ entered demo_ops ++ ready sched0.
Proof.
  destruct (run_ops demo_prio demo_ops sched0) as [[t s']|] eqn:H.
  - exists t, s'. split; [reflexivity|].
    exact (proj2 (scheduler_conserves_processes demo_prio demo_ops sched0 s' t
                    demo_prio_nonneg sched0_ok H)).
  - exfalso. revert H. vm_compute. discriminate.
Defined.

(** [put_proc] on every branch: a process with a valid priority and room
    in its level goes to the back of exactly that level and no counter
    changes; an invalid priority or a full level ends the simulator. *)
Theorem put_proc_spec (prio_of : Z -> Z) (s : sched) (p : Z) :
  rep_ok s -> p <> 0 -> 0 <= prio_of p ->
  let k := Z.to_nat (prio_of p) in
  if bool_decide (prio_of p < Z.of_nat MAX_PRIO /\
                  (length (level (abs s) k) < MAX_QUEUE_SIZE)%nat)
  then exists s', put_proc prio_of p s = Ret tt s' /\ rep_ok s' /\
         slot s' = slot s /\ running_list s' = running_list s /\ p ∈ linked s' /\
         forall j, level (abs s') j =
                   if bool_decide (j = k) then level (abs s) k ++ [p] else level (abs s) j
  else exists s', put_proc prio_of p s = Exit s'.
Proof. apply put_mlq_proc_spec. Qed.

Lemma put_proc_spec_witness :
  exists s', put_proc demo_prio 2 demo_sched = Ret tt s' /\ level (abs s') 0 = [3; 2].
Proof.
  pose proof (put_proc_spec demo_prio demo_sched 2 demo_sched_ok ltac:(lia)
                (demo_prio_nonneg 2)) as H. cbv zeta in H.
  rewrite bool_decide_eq_true_2 in H.
  - destruct H as (s' & Hp & _ & _ & _ & _ & Hl). exists s'. split; [exact Hp|].
    rewrite Hl. vm_compute. reflexivity.
  - split; [apply Z.ltb_lt|apply Nat.ltb_lt]; vm_compute; reflexivity.
Defined.
