(* ===== verification/Paging.v ===== *)
(** * Virtual addresses and page-table entries ([src/mm64.c], [include/mm64.h])

    The five-level split of a 57-bit canonical address, the validation of a
    page range, and the encoding of a page-table entry.  These are the pure
    parts of [mm64.c]; the tables themselves are in [PageTable]. *)

From S2P Require Import Prelude.
From S2P Require Import Word.

(** ** Addresses *)

(** The five indices of an address and the status of the canonical check. *)
Record pd_index := mkPd { pgd_ix : Z; p4d_ix : Z; pud_ix : Z; pmd_ix : Z; pt_ix : Z }.

#[export] Instance pd_index_eq_dec : EqDecision pd_index.
Proof. solve_decision. Defined.

Definition get_pd_from_address (addr : Z) : Z * pd_index :=
  let ix := mkPd (GETVAL addr PAGING64_ADDR_PGD_MASK 48)
                 (GETVAL addr PAGING64_ADDR_P4D_MASK 39)
                 (GETVAL addr PAGING64_ADDR_PUD_MASK 30)
                 (GETVAL addr PAGING64_ADDR_PMD_MASK 21)
                 (GETVAL addr PAGING64_ADDR_PT_MASK 12) in
  let top_bits := Z.shiftr addr 57 in
  let bit56 := Z.land (Z.shiftr addr 56) 1 in
  let status :=
    if bool_decide (bit56 = 0)
    then (if bool_decide (top_bits <> 0) then -1 else 0)
    else (if bool_decide (top_bits <> 0x7F) then -1 else 0) in
  (status, ix).

Definition get_pd_from_pagenum (pgn : Z) : Z * pd_index :=
  if bool_decide (Z.shiftr ULLONG_MAX PAGING64_ADDR_PT_SHIFT < pgn)
  then (-1, mkPd 0 0 0 0 0)
  else get_pd_from_address (u64 (Z.shiftl pgn PAGING64_ADDR_PT_SHIFT)).

Definition is_kernel_address (addr : Z) : bool :=
  bool_decide (Z.land (Z.shiftr addr 56) 1 <> 0).

(** [addr >> PAGING64_ADDR_PT_SHIFT] and [pgn << PAGING64_ADDR_PT_SHIFT]. *)
Definition addr_pgn (addr : Z) : Z := Z.shiftr addr PAGING64_ADDR_PT_SHIFT.
Definition pgn_addr (pgn : Z) : Z := u64 (Z.shiftl pgn PAGING64_ADDR_PT_SHIFT).

(** [pgnum] is a C [int]; the span is computed in [addr_t]. *)
Definition validate_page_range (addr pgnum : Z) : Z :=
  if bool_decide (Z.land addr PAGING64_ADDR_OFFST_MASK <> 0) || bool_decide (pgnum < 0)
  then -1
  else if bool_decide (pgnum = 0) then 0
  else
    let span := u64 ((u64 pgnum - 1) * PAGING64_PAGESZ) in
    let last_addr := u64 (addr + span) in
    if bool_decide (last_addr < addr) then -1
    else if bool_decide (fst (get_pd_from_address addr) <> 0) then -1
    else if bool_decide (fst (get_pd_from_address last_addr) <> 0) then -1
    else if bool_decide (is_kernel_address addr <> is_kernel_address last_addr) then -1
    else 0.

(** The two range tests of [src/libmem.c]. *)
Definition KMEM_VADDR_BASE : Z := 0xffff800000000000.

Definition is_kernel_vaddr_range (start end_ : Z) : bool :=
  bool_decide (KMEM_VADDR_BASE <= start) && bool_decide (start < end_).

Definition is_user_vaddr_range (start end_ : Z) : bool :=
  if bool_decide (end_ <= start) then false
  else if bool_decide (fst (get_pd_from_address start) <> 0) then false
  else if bool_decide (fst (get_pd_from_address (u64 (end_ - 1))) <> 0) then false
  else bool_decide (Z.land (Z.shiftr start 56) 1 = 0) &&
       bool_decide (Z.land (Z.shiftr (u64 (end_ - 1)) 56) 1 = 0).

(** ** Page-table entries *)

(** The entry written by [pte_set_fpn]. *)
Definition fpn_pte (fpn : Z) : Z :=
  PAGING64_PTE_SET_FPN
    (CLRBIT (SETBIT 0 PAGING64_PTE_PRESENT_MASK) PAGING64_PTE_SWAPPED_MASK) fpn.

(** The entry written by [pte_set_swap]. *)
Definition swap_pte (swptyp swpoff : Z) : Z :=
  PAGING64_PTE_SET_SWP
    (PAGING64_PTE_SET_SWPTYP
       (SETBIT (CLRBIT 0 PAGING64_PTE_PRESENT_MASK) PAGING64_PTE_SWAPPED_MASK) swptyp)
    swpoff.

(** [init_pte] updates the entry it is given, or rejects frame 0. *)
Definition init_pte (pte pre fpn drt swp swptyp swpoff : Z) : Z * Z :=
  if bool_decide (pre <> 0) then
    if bool_decide (swp = 0) then
      if bool_decide (fpn = 0) then (-1, pte)
      else
        let pte := SETBIT pte PAGING64_PTE_PRESENT_MASK in
        let pte := CLRBIT pte PAGING64_PTE_SWAPPED_MASK in
        let pte := CLRBIT pte PAGING64_PTE_DIRTY_MASK in
        (0, PAGING64_PTE_SET_FPN pte fpn)
    else
      let pte := CLRBIT pte PAGING64_PTE_PRESENT_MASK in
      let pte := SETBIT pte PAGING64_PTE_SWAPPED_MASK in
      let pte := CLRBIT pte PAGING64_PTE_DIRTY_MASK in
      let pte := PAGING64_PTE_SET_SWPTYP pte swptyp in
      (0, PAGING64_PTE_SET_SWP pte swpoff)
  else (0, pte).

(** What an entry says, as the readers of [libmem.c] and [mm64.c] decode it. *)
Inductive pte_state :=
| Resident (fpn : Z)
| Swapped (slot : Z)
| Unmapped.

#[export] Instance pte_state_eq_dec : EqDecision pte_state.
Proof. solve_decision. Defined.

Definition decode_pte (pte : Z) : pte_state :=
  if PAGING64_PAGE_PRESENT pte then Resident (PAGING64_PTE_FPN pte)
  else if PAGING64_PAGE_SWAPPED pte then Swapped (PAGING64_PTE_SWP pte)
  else Unmapped.

(** ** The canonical address space *)

Definition user_addr (a : Z) : Prop := 0 <= a < 2 ^ 56.
Definition kernel_addr (a : Z) : Prop := 2 ^ 64 - 2 ^ 56 <= a < 2 ^ 64.
Definition canonical (a : Z) : Prop := user_addr a \/ kernel_addr a.

#[export] Instance canonical_dec a : Decision (canonical a).
Proof. unfold canonical, user_addr, kernel_addr. apply _. Defined.

(** ** Lemmas: addresses *)

Lemma addr_pgn_div a : addr_pgn a = a / 4096.
Proof. unfold addr_pgn, PAGING64_ADDR_PT_SHIFT. by rewrite Z.shiftr_div_pow2 by lia. Qed.

Lemma pgn_addr_mul n : 0 <= n < 2 ^ 52 -> pgn_addr n = n * 4096.
Proof.
  intros H. unfold pgn_addr, PAGING64_ADDR_PT_SHIFT. rewrite Z.shiftl_mul_pow2 by lia.
  apply u64_small. unfold is_u64. lia.
Qed.

Lemma land_offst_mask a : Z.land a PAGING64_ADDR_OFFST_MASK = a mod 4096.
Proof.
  change PAGING64_ADDR_OFFST_MASK with (Z.ones 12). by rewrite Z.land_ones by lia.
Qed.

Lemma bit56_mod a : Z.land (Z.shiftr a 56) 1 = (a / 2 ^ 56) mod 2.
Proof.
  change 1 with (Z.ones 1) at 1. rewrite Z.land_ones, Z.shiftr_div_pow2 by lia. done.
Qed.

Lemma is_kernel_address_spec a :
  is_u64 a -> canonical a -> is_kernel_address a = bool_decide (kernel_addr a).
Proof.
  intros Ha Hc. unfold is_kernel_address. rewrite bit56_mod. apply bool_decide_ext.
  unfold canonical, user_addr, kernel_addr, is_u64 in *.
  split; intros; Z.div_mod_to_equations; lia.
Qed.

(** The status of the canonical check. *)
Lemma get_pd_status a :
  is_u64 a -> fst (get_pd_from_address a) = if bool_decide (canonical a) then 0 else -1.
Proof.
  intros Ha. unfold get_pd_from_address. cbn [fst]. rewrite bit56_mod, Z.shiftr_div_pow2 by lia.
  unfold canonical, user_addr, kernel_addr, is_u64 in *.
  repeat case_bool_decide; try done; exfalso; Z.div_mod_to_equations; lia.
Qed.

Lemma get_pd_ok a :
  is_u64 a -> fst (get_pd_from_address a) = 0 <-> canonical a.
Proof. intros Ha. rewrite get_pd_status by done. case_bool_decide; naive_solver. Qed.

(** The indices as quotients and remainders. *)
Lemma get_pd_ix a :
  snd (get_pd_from_address a) =
  mkPd ((a / 2 ^ 48) mod 512) ((a / 2 ^ 39) mod 512) ((a / 2 ^ 30) mod 512)
       ((a / 2 ^ 21) mod 512) ((a / 2 ^ 12) mod 512).
Proof.
  unfold get_pd_from_address, PAGING64_ADDR_PGD_MASK, PAGING64_ADDR_P4D_MASK,
    PAGING64_ADDR_PUD_MASK, PAGING64_ADDR_PMD_MASK, PAGING64_ADDR_PT_MASK.
  cbn [snd]. by rewrite !GETVAL_div_mod by lia.
Qed.

Lemma get_pd_ix_range a :
  let ix := snd (get_pd_from_address a) in
  (0 <= pgd_ix ix < 512) /\ (0 <= p4d_ix ix < 512) /\ (0 <= pud_ix ix < 512) /\
  (0 <= pmd_ix ix < 512) /\ (0 <= pt_ix ix < 512).
Proof. rewrite get_pd_ix. simpl. split_and!; apply Z.mod_pos_bound; lia. Qed.

(** The indices recompose the low 57 bits of the page address. *)
Lemma get_pd_compose a :
  let ix := snd (get_pd_from_address a) in
  (a mod 2 ^ 57) / 4096 =
  (((pgd_ix ix * 512 + p4d_ix ix) * 512 + pud_ix ix) * 512 + pmd_ix ix) * 512 + pt_ix ix.
Proof.
  rewrite get_pd_ix. simpl.
  replace (a / 2 ^ 48) with (a / 4096 / 512 / 512 / 512 / 512) by (rewrite !Z.div_div by lia; done).
  replace (a / 2 ^ 39) with (a / 4096 / 512 / 512 / 512) by (rewrite !Z.div_div by lia; done).
  replace (a / 2 ^ 30) with (a / 4096 / 512 / 512) by (rewrite !Z.div_div by lia; done).
  replace (a / 2 ^ 21) with (a / 4096 / 512) by (rewrite !Z.div_div by lia; done).
  change (2 ^ 12) with 4096.
  Z.div_mod_to_equations. lia.
Qed.

(** Two canonical addresses with the same five indices lie in the same page. *)
Lemma get_pd_inj a b :
  is_u64 a -> is_u64 b -> canonical a -> canonical b ->
  snd (get_pd_from_address a) = snd (get_pd_from_address b) -> addr_pgn a = addr_pgn b.
Proof.
  intros Ha Hb Hca Hcb He. pose proof (get_pd_compose b) as H2. cbv zeta in H2.
  rewrite <- He in H2. pose proof (get_pd_compose a) as H1. cbv zeta in H1.
  rewrite <- H1 in H2. clear H1 He.
  rewrite !addr_pgn_div. unfold canonical, user_addr, kernel_addr, is_u64 in *.
  Z.div_mod_to_equations. lia.
Qed.

(** The indices of an address are those of its page. *)
Lemma get_pd_page a :
  is_u64 a -> snd (get_pd_from_address (pgn_addr (addr_pgn a))) = snd (get_pd_from_address a).
Proof.
  intros Ha. rewrite addr_pgn_div, pgn_addr_mul.
  2:{ unfold is_u64 in Ha. split; [apply Z.div_pos; lia|]. apply Z.div_lt_upper_bound; lia. }
  rewrite !get_pd_ix.
  assert (Hd : forall k, 12 <= k -> (a / 4096 * 4096) / 2 ^ k = a / 2 ^ k).
  { intros k Hk. replace (2 ^ k) with (4096 * 2 ^ (k - 12)).
    2:{ change 4096 with (2 ^ 12). rewrite <- Z.pow_add_r by lia. f_equal. lia. }
    rewrite <- !Z.div_div by lia. f_equal. rewrite Z.div_mul; lia. }
  by rewrite !Hd by lia.
Qed.

Lemma get_pd_status_page a :
  is_u64 a -> canonical a -> canonical (pgn_addr (addr_pgn a)).
Proof.
  intros Ha Hc. unfold is_u64 in Ha. rewrite addr_pgn_div, pgn_addr_mul.
  2:{ split; [apply Z.div_pos; lia|]. apply Z.div_lt_upper_bound; lia. }
  unfold canonical, user_addr, kernel_addr in *. Z.div_mod_to_equations. lia.
Qed.

(** [validate_page_range] only looks at the two ends of a range; that is
    enough for every page in between. *)
Lemma validate_page_range_sound addr pgnum :
  is_u64 addr -> pgnum < 2 ^ 31 -> validate_page_range addr pgnum = 0 ->
  addr mod 4096 = 0 /\ 0 <= pgnum /\
  forall i, 0 <= i < pgnum ->
    addr + i * 4096 < 2 ^ 64 /\
    (if is_kernel_address addr then kernel_addr (addr + i * 4096)
     else user_addr (addr + i * 4096)).
Proof.
  intros Ha Hn. unfold validate_page_range. rewrite land_offst_mask.
  destruct (bool_decide (addr mod 4096 <> 0) || bool_decide (pgnum < 0)) eqn:E1; [done|].
  apply orb_false_iff in E1 as [Hal%bool_decide_eq_false Hneg%bool_decide_eq_false].
  case_bool_decide as H0; [intros _; split_and!; lia|].
  unfold PAGING64_PAGESZ. rewrite (u64_small pgnum) by (unfold is_u64; lia).
  rewrite (u64_small ((pgnum - 1) * 4096)) by (unfold is_u64; lia).
  set (last := u64 (addr + (pgnum - 1) * 4096)).
  destruct (bool_decide (last < addr)) eqn:Hw; [discriminate|].
  apply bool_decide_eq_false in Hw.
  assert (Hs : last = addr + (pgnum - 1) * 4096).
  { unfold last, u64, is_u64 in *. Z.div_mod_to_equations. lia. }
  assert (Hl : is_u64 last) by apply u64_range. clearbody last.
  destruct (bool_decide (fst (get_pd_from_address addr) <> 0)) eqn:Hc1; [discriminate|].
  destruct (bool_decide (fst (get_pd_from_address last) <> 0)) eqn:Hc2; [discriminate|].
  apply bool_decide_eq_false, dec_stable, get_pd_ok in Hc1; [|done].
  apply bool_decide_eq_false, dec_stable, get_pd_ok in Hc2; [|done].
  rewrite !is_kernel_address_spec by done.
  intros Hk. split; [lia|]. split; [lia|]. intros i Hi. revert Hk.
  unfold canonical, user_addr, kernel_addr, is_u64 in *.
  repeat case_bool_decide; try discriminate; intros _; lia.
Qed.

Lemma validate_page_range_complete addr pgnum :
  is_u64 addr -> 0 <= pgnum < 2 ^ 31 -> addr mod 4096 = 0 ->
  (forall i, 0 <= i < pgnum ->
     addr + i * 4096 < 2 ^ 64 /\
     (if is_kernel_address addr then kernel_addr (addr + i * 4096)
      else user_addr (addr + i * 4096))) ->
  validate_page_range addr pgnum = 0.
Proof.
  intros Ha Hn Hal Hall. unfold validate_page_range. rewrite land_offst_mask.
  rewrite (bool_decide_eq_false_2 (addr mod 4096 <> 0)) by lia.
  rewrite (bool_decide_eq_false_2 (pgnum < 0)) by lia. cbn [orb].
  destruct (decide (pgnum = 0)) as [->|H0]; [done|].
  rewrite (bool_decide_eq_false_2 (pgnum = 0)) by done.
  unfold PAGING64_PAGESZ. rewrite (u64_small pgnum) by (unfold is_u64; lia).
  rewrite (u64_small ((pgnum - 1) * 4096)) by (unfold is_u64; lia).
  destruct (Hall 0 ltac:(lia)) as [_ H1]. destruct (Hall (pgnum - 1) ltac:(lia)) as [Hw H2].
  replace (addr + 0 * 4096) with addr in H1 by lia. unfold is_u64 in *.
  rewrite (u64_small (addr + (pgnum - 1) * 4096)) by (unfold is_u64; lia).
  rewrite (bool_decide_eq_false_2 (addr + (pgnum - 1) * 4096 < addr)) by lia.
  assert (canonical addr /\ canonical (addr + (pgnum - 1) * 4096)) as [Hc1 Hc2].
  { unfold canonical. destruct (is_kernel_address addr); auto. }
  assert (is_u64 (addr + (pgnum - 1) * 4096)) by (unfold is_u64; lia).
  rewrite (proj2 (get_pd_ok addr ltac:(done)) Hc1).
  rewrite (proj2 (get_pd_ok (addr + (pgnum - 1) * 4096) ltac:(done)) Hc2).
  rewrite (bool_decide_eq_false_2 (0 <> 0)) by lia.
  rewrite bool_decide_eq_false_2; [done|]. revert H2.
  rewrite !is_kernel_address_spec by done. unfold kernel_addr, user_addr in *.
  repeat case_bool_decide; lia.
Qed.

(** ** Lemmas: entries *)

Lemma is_u64_0 : is_u64 0.
Proof. unfold is_u64. lia. Qed.

Lemma fpn_pte_base :
  CLRBIT (SETBIT 0 PAGING64_PTE_PRESENT_MASK) PAGING64_PTE_SWAPPED_MASK = 1.
Proof. reflexivity. Qed.

Lemma swap_pte_base :
  SETBIT (CLRBIT 0 PAGING64_PTE_PRESENT_MASK) PAGING64_PTE_SWAPPED_MASK = 2.
Proof. reflexivity. Qed.

(** Writing an entry and decoding it again. *)
Lemma decode_fpn_pte fpn : 0 <= fpn < 2 ^ 40 -> decode_pte (fpn_pte fpn) = Resident fpn.
Proof.
  intros H. unfold decode_pte, fpn_pte, PAGING64_PTE_SET_FPN, PAGING64_PTE_FPN.
  rewrite fpn_pte_base, page_present_testbit.
  unfold PAGING64_PTE_FPN_MASK. rewrite SETFIELD_testbit_other by (done || lia).
  change (Z.testbit 1 0) with true. cbv iota. f_equal. by apply SETFIELD_get.
Qed.

Lemma decode_swap_pte typ off :
  0 <= off < 2 ^ 40 -> decode_pte (swap_pte typ off) = Swapped off.
Proof.
  intros H. unfold decode_pte, swap_pte, PAGING64_PTE_SET_SWP, PAGING64_PTE_SET_SWPTYP.
  rewrite swap_pte_base, page_present_testbit, page_swapped_testbit.
  assert (is_u64 2) by (unfold is_u64; lia).
  unfold PAGING64_PTE_SWPOFF_MASK, PAGING64_PTE_SWPTYP_MASK.
  rewrite !SETFIELD_testbit_other by (done || lia || by apply is_u64_SETFIELD).
  change (Z.testbit 2 0) with false. change (Z.testbit 2 1) with true. cbv iota.
  f_equal. unfold PAGING64_PTE_SWP. by apply SETFIELD_get.
Qed.

Lemma decode_zero : decode_pte 0 = Unmapped.
Proof. reflexivity. Qed.

Lemma decode_dummy : decode_pte PAGING64_DUMMY_PTE = Unmapped.
Proof. reflexivity. Qed.

Lemma is_u64_fpn_pte fpn : is_u64 (fpn_pte fpn).
Proof. apply is_u64_SETFIELD. rewrite fpn_pte_base. unfold is_u64. lia. Qed.

Lemma is_u64_swap_pte typ off : is_u64 (swap_pte typ off).
Proof.
  apply is_u64_SETFIELD. apply is_u64_SETFIELD. rewrite swap_pte_base. unfold is_u64. lia.
Qed.

(** A swapped entry is never also present, and conversely. *)
Lemma fpn_pte_not_swapped fpn : PAGING64_PAGE_SWAPPED (fpn_pte fpn) = false.
Proof.
  unfold fpn_pte, PAGING64_PTE_SET_FPN. rewrite fpn_pte_base, page_swapped_testbit.
  unfold PAGING64_PTE_FPN_MASK. by rewrite SETFIELD_testbit_other by (done || lia).
Qed.

Lemma swap_pte_not_present typ off : PAGING64_PAGE_PRESENT (swap_pte typ off) = false.
Proof.
  unfold swap_pte, PAGING64_PTE_SET_SWP, PAGING64_PTE_SET_SWPTYP.
  rewrite swap_pte_base, page_present_testbit. assert (is_u64 2) by (unfold is_u64; lia).
  unfold PAGING64_PTE_SWPOFF_MASK, PAGING64_PTE_SWPTYP_MASK.
  by rewrite !SETFIELD_testbit_other by (done || lia || by apply is_u64_SETFIELD).
Qed.

Lemma fpn_pte_clean fpn : PAGING64_PAGE_PRESENT (fpn_pte fpn) && PAGING64_PAGE_SWAPPED (fpn_pte fpn) = false.
Proof. rewrite fpn_pte_not_swapped. apply andb_false_r. Qed.
Lemma swap_pte_clean typ off :
  PAGING64_PAGE_PRESENT (swap_pte typ off) && PAGING64_PAGE_SWAPPED (swap_pte typ off) = false.
Proof. by rewrite swap_pte_not_present. Qed.

Lemma decode_range pte :
  match decode_pte pte with
  | Resident n | Swapped n => 0 <= n < 2 ^ 40
  | Unmapped => True
  end.
Proof.
  unfold decode_pte, PAGING64_PTE_FPN, PAGING64_PTE_SWP.
  destruct (PAGING64_PAGE_PRESENT pte); [by apply GETVAL_range|].
  destruct (PAGING64_PAGE_SWAPPED pte); [by apply GETVAL_range|done].
Qed.

(** ** Properties *)

(** C29: splitting an address into its five table indices loses nothing: the
    canonical check accepts exactly the addresses below 2^56 and the top 2^56
    addresses, the indices stay below 512, and two accepted addresses with the
    same indices lie in the same page. *)
Theorem address_split_faithful (a b : Z) :
  is_u64 a -> is_u64 b ->
  let '(sa, ia) := get_pd_from_address a in
  let '(sb, ib) := get_pd_from_address b in
  (sa = 0 <-> canonical a) /\ (sa = 0 \/ sa = -1) /\
  (0 <= pgd_ix ia < 512) /\ (0 <= p4d_ix ia < 512) /\ (0 <= pud_ix ia < 512) /\
  (0 <= pmd_ix ia < 512) /\ (0 <= pt_ix ia < 512) /\
  (sa = 0 -> sb = 0 -> ia = ib <-> addr_pgn a = addr_pgn b).
Proof.
  intros Ha Hb. pose proof (get_pd_ok a Ha) as Hca. pose proof (get_pd_ok b Hb) as Hcb.
  pose proof (get_pd_status a Ha) as Hst. pose proof (get_pd_ix_range a) as Hr.
  pose proof (get_pd_inj a b Ha Hb) as Hinj.
  pose proof (get_pd_page a Ha) as Hpa. pose proof (get_pd_page b Hb) as Hpb.
  destruct (get_pd_from_address a) as [sa ia]. destruct (get_pd_from_address b) as [sb ib].
  cbn [fst snd] in *. cbv zeta in Hr. destruct Hr as (? & ? & ? & ? & ?).
  split_and!; try tauto; try lia.
  - case_bool_decide; auto.
  - intros Hs1 Hs2. split; [tauto|]. intros He. rewrite <- Hpa, <- Hpb. by rewrite He.
Qed.

Lemma address_split_faithful_witness :
  fst (get_pd_from_address KMEM_VADDR_BASE) = 0 /\ canonical KMEM_VADDR_BASE.
Proof.
  assert (is_u64 KMEM_VADDR_BASE) as H by (unfold is_u64, KMEM_VADDR_BASE; lia).
  pose proof (address_split_faithful KMEM_VADDR_BASE KMEM_VADDR_BASE H H) as Hs.
  destruct (get_pd_from_address KMEM_VADDR_BASE) as [st ix] eqn:E. destruct Hs as [Hs _].
  assert (st = 0) as H0.
  { transitivity (fst (get_pd_from_address KMEM_VADDR_BASE)); [by rewrite E|].
    vm_compute. reflexivity. }
  exact (conj H0 (proj1 Hs H0)).
Defined.

(** C30: [validate_page_range] tests only the two ends of a range, and accepts
    it exactly when the start is page aligned and every page of the range lies
    without wrap-around in the half of the canonical space of the first one. *)
Theorem validate_page_range_exact (addr pgnum : Z) :
  is_u64 addr -> - 2 ^ 31 <= pgnum < 2 ^ 31 ->
  validate_page_range addr pgnum = 0 <->
  addr mod 4096 = 0 /\ 0 <= pgnum /\
  forall i, 0 <= i < pgnum ->
    addr + i * 4096 < 2 ^ 64 /\
    (if is_kernel_address addr then kernel_addr (addr + i * 4096)
     else user_addr (addr + i * 4096)).
Proof.
  intros Ha Hn. split.
  - intros H. apply validate_page_range_sound; (done || lia).
  - intros (H1 & H2 & H3). apply validate_page_range_complete; try done. lia.
Qed.

Lemma validate_page_range_exact_witness :
  validate_page_range 0x1000 3 = 0 /\ user_addr (0x1000 + 2 * 4096).
Proof.
  assert (is_u64 0x1000) as Ha by (unfold is_u64; lia).
  assert (validate_page_range 0x1000 3 = 0) as Hv by (vm_compute; reflexivity).
  pose proof (proj1 (validate_page_range_exact 0x1000 3 Ha ltac:(lia)) Hv) as (_ & _ & H).
  exact (conj Hv (proj2 (H 2 ltac:(lia)))).
Defined.

(** page-table entries round trip: a resident entry decodes to its frame,
    a swapped entry to its slot (for frames and slots of 40 bits, all that
    the field holds), both are 64-bit values, a resident entry is never also
    marked swapped, and the empty and the dummy entry decode to unmapped. *)
Theorem pte_roundtrip (fpn typ off : Z) :
  0 <= fpn < 2 ^ 40 -> 0 <= off < 2 ^ 40 ->
  decode_pte (fpn_pte fpn) = Resident fpn /\ is_u64 (fpn_pte fpn) /\
  PAGING64_PAGE_SWAPPED (fpn_pte fpn) = false /\
  decode_pte (swap_pte typ off) = Swapped off /\ is_u64 (swap_pte typ off) /\
  decode_pte 0 = Unmapped /\ decode_pte PAGING64_DUMMY_PTE = Unmapped.
Proof.
  intros. split_and!; auto using decode_fpn_pte, decode_swap_pte, is_u64_fpn_pte,
    is_u64_swap_pte, fpn_pte_not_swapped, decode_zero, decode_dummy.
Qed.

Lemma pte_roundtrip_witness :
  decode_pte (fpn_pte 42) = Resident 42 /\ decode_pte (swap_pte 0 7) = Swapped 7.
Proof.
  pose proof (pte_roundtrip 42 0 7 ltac:(lia) ltac:(lia)) as (H1 & _ & _ & H2 & _).
  exact (conj H1 H2).
Defined.
