(* ===== verification/MemPhy.v ===== *)
(** * Physical memory devices ([src/mm-memphy.c])

    RAM and swap are [memphy_struct]s: a byte array, its size as a C [int],
    an access-mode flag, and the lists of free and of kernel-owned frames.
    [storage] maps an address to its byte (an absent cell is 0, what [memset]
    wrote); [storage_sz] is the size the array was allocated with, so that an
    access the bounds test lets through but the array does not hold is
    undefined behaviour.  List nodes carry only the frame number: the [owner]
    field is written and never read.  The mutex of a device makes each
    operation atomic. *)

From S2P Require Import Prelude.
From S2P Require Import Word.

Record memphy_struct := mkMem {
  storage : gmap Z Z;
  storage_sz : Z;
  maxsz : Z;
  rdmflg : Z;
  cursor : Z;
  free_fp_list : list Z;
  used_fp_list : list Z;
}.

Definition set_storage (mp : memphy_struct) (m : gmap Z Z) : memphy_struct :=
  mkMem m (storage_sz mp) (maxsz mp) (rdmflg mp) (cursor mp) (free_fp_list mp) (used_fp_list mp).
Definition set_cursor (mp : memphy_struct) (c : Z) : memphy_struct :=
  mkMem (storage mp) (storage_sz mp) (maxsz mp) (rdmflg mp) c (free_fp_list mp) (used_fp_list mp).
Definition set_free (mp : memphy_struct) (l : list Z) : memphy_struct :=
  mkMem (storage mp) (storage_sz mp) (maxsz mp) (rdmflg mp) (cursor mp) l (used_fp_list mp).
Definition set_used (mp : memphy_struct) (l : list Z) : memphy_struct :=
  mkMem (storage mp) (storage_sz mp) (maxsz mp) (rdmflg mp) (cursor mp) (free_fp_list mp) l.

(** The byte at an address of the array. *)
Definition cell (mp : memphy_struct) (addr : Z) : Z := default 0 (storage mp !! addr).

(** [mp->storage[addr]], as a read and as a write. *)
Definition load_cell (addr : Z) : M memphy_struct Z := fun mp =>
  if bool_decide (0 <= addr < storage_sz mp) then Ret (cell mp addr) mp else Ub.
Definition store_cell (addr v : Z) : M memphy_struct unit := fun mp =>
  if bool_decide (0 <= addr < storage_sz mp)
  then Ret tt (set_storage mp (<[addr := v]> (storage mp))) else Ub.

(** The loop takes [min offset maxsz] steps. *)
Definition MEMPHY_mv_csr (offset : Z) : M memphy_struct Z := fun mp =>
  let steps := Z.to_nat (Z.min offset (maxsz mp)) in
  Ret 0 (set_cursor mp (Nat.iter steps (fun c => Z.rem (c + 1) (maxsz mp)) 0)).

(** A read returns the byte, or [None] for status -1. *)
Definition MEMPHY_seq_read (addr : Z) : M memphy_struct (option Z) :=
  let* mp := get in
  if bool_decide (rdmflg mp = 0) then ret None
  else MEMPHY_mv_csr addr ;; let* v := load_cell addr in ret (Some v).

Definition MEMPHY_read (addr : Z) : M memphy_struct (option Z) :=
  let* mp := get in
  if bool_decide (u64 (maxsz mp) <= addr) then ret None
  else if bool_decide (rdmflg mp <> 0) then let* v := load_cell addr in ret (Some v)
  else MEMPHY_seq_read addr.

Definition MEMPHY_seq_write (addr v : Z) : M memphy_struct Z :=
  let* mp := get in
  if bool_decide (rdmflg mp = 0) then ret (-1)
  else MEMPHY_mv_csr addr ;; store_cell addr v ;; ret 0.

Definition MEMPHY_write (addr data : Z) : M memphy_struct Z :=
  let* mp := get in
  if bool_decide (u64 (maxsz mp) <= addr) then ret (-1)
  else if bool_decide (rdmflg mp <> 0) then store_cell addr data ;; ret 0
  else MEMPHY_seq_write addr data.

Definition MEMPHY_format (pagesz : Z) : M memphy_struct Z := fun mp =>
  let numfp := Z.quot (maxsz mp) pagesz in
  if bool_decide (numfp <= 0) then Ret (-1) mp
  else Ret 0 (set_free mp (seqZ 0 numfp)).

(** The first free frame, or [None] for status -1. *)
Definition MEMPHY_get_freefp : M memphy_struct (option Z) := fun mp =>
  match free_fp_list mp with
  | [] => Ret None mp
  | fpn :: rest => Ret (Some fpn) (set_free mp rest)
  end.

(** [node_ok] tells whether [malloc] of the list node succeeded. *)
Definition MEMPHY_put_freefp (node_ok : bool) (fpn : Z) : M memphy_struct Z := fun mp =>
  if node_ok then Ret 0 (set_free mp (fpn :: free_fp_list mp)) else Ret (-1) mp.

Definition init_memphy (max_size randomflg : Z) : M memphy_struct Z := fun mp =>
  let mp := mkMem ∅ max_size (i32 max_size) (rdmflg mp) (cursor mp) [] [] in
  match MEMPHY_format PAGING64_PAGESZ mp with
  | Ret _ mp =>
    let rdm := if bool_decide (randomflg <> 0) then 1 else 0 in
    Ret 0 (mkMem (storage mp) (storage_sz mp) (maxsz mp) rdm
             (if bool_decide (rdm = 0) then 0 else cursor mp)
             (free_fp_list mp) (used_fp_list mp))
  | Ub => Ub
  | Exit s => Exit s
  end.

Definition MEMPHY_cleanup : M memphy_struct unit := fun mp =>
  Ret tt (mkMem ∅ 0 0 0 0 [] []).

(** ** Well-formed devices *)

(** A random-access device whose size fits an [int]. *)
Definition mem_ok (mp : memphy_struct) : Prop :=
  0 <= maxsz mp < 2 ^ 31 /\ storage_sz mp = maxsz mp /\ rdmflg mp <> 0.

(** The number of whole frames of a device. *)
Definition nframes (mp : memphy_struct) : Z := maxsz mp / PAGING64_PAGESZ.

(** The frame lists hold distinct frames of the device. *)
Definition frames_ok (mp : memphy_struct) : Prop :=
  NoDup (free_fp_list mp ++ used_fp_list mp) /\
  Forall (fun f => 0 <= f < nframes mp) (free_fp_list mp ++ used_fp_list mp).

(** A blank device, as a local variable of [main] before [init_memphy]. *)
Definition blank_memphy : memphy_struct := mkMem ∅ 0 0 0 0 [] [].

Definition fresh_memphy (max_size : Z) : memphy_struct :=
  match init_memphy max_size 1 blank_memphy with Ret _ mp => mp | _ => blank_memphy end.

(** ** Lemmas *)

Lemma MEMPHY_read_ok mp addr :
  mem_ok mp -> 0 <= addr ->
  MEMPHY_read addr mp =
  Ret (if bool_decide (addr < maxsz mp) then Some (cell mp addr) else None) mp.
Proof.
  intros (Hm & Hs & Hr) Ha. unfold MEMPHY_read, bind, get.
  rewrite u64_small by (unfold is_u64; lia).
  repeat case_bool_decide; try lia; [done|].
  unfold bind, load_cell, ret. rewrite Hs. by rewrite bool_decide_eq_true_2 by lia.
Qed.

Lemma MEMPHY_write_ok mp addr v :
  mem_ok mp -> 0 <= addr ->
  MEMPHY_write addr v mp =
  if bool_decide (addr < maxsz mp)
  then Ret 0 (set_storage mp (<[addr := v]> (storage mp))) else Ret (-1) mp.
Proof.
  intros (Hm & Hs & Hr) Ha. unfold MEMPHY_write, bind, get.
  rewrite u64_small by (unfold is_u64; lia).
  repeat case_bool_decide; try lia; [done|].
  unfold bind, store_cell, ret. rewrite Hs. by rewrite bool_decide_eq_true_2 by lia.
Qed.

Lemma cell_set_storage mp a v b :
  cell (set_storage mp (<[a := v]> (storage mp))) b = if bool_decide (a = b) then v else cell mp b.
Proof.
  unfold cell. simpl. rewrite lookup_insert. by case_decide; case_bool_decide.
Qed.

Lemma mem_ok_set_storage mp m : mem_ok (set_storage mp m) <-> mem_ok mp.
Proof. done. Qed.

Lemma init_memphy_ok mp max_size randomflg :
  0 <= max_size < 2 ^ 31 -> randomflg <> 0 ->
  exists mp', init_memphy max_size randomflg mp = Ret 0 mp' /\ mem_ok mp' /\ frames_ok mp' /\
    maxsz mp' = max_size /\ used_fp_list mp' = [] /\
    free_fp_list mp' = seqZ 0 (max_size / PAGING64_PAGESZ) /\ forall a, cell mp' a = 0.
Proof.
  intros Hm Hr. unfold init_memphy, MEMPHY_format. cbn [maxsz set_free].
  rewrite i32_small by lia. rewrite Z.quot_div_nonneg by (unfold PAGING64_PAGESZ; lia).
  rewrite (bool_decide_eq_true_2 (randomflg <> 0)) by done.
  assert (Hfr : forall l, l = seqZ 0 (max_size / PAGING64_PAGESZ) ->
    NoDup (l ++ []) /\ Forall (fun f => 0 <= f < max_size / PAGING64_PAGESZ) (l ++ [])).
  { intros l ->. rewrite app_nil_r. split; [apply NoDup_seqZ|].
    apply Forall_forall. intros f Hf%elem_of_seqZ. lia. }
  case_bool_decide as H0; eexists; (split; [done|]); simpl;
    unfold mem_ok, frames_ok, nframes; simpl; split_and!; try done; try lia;
    first [by constructor | by rewrite seqZ_nil | by apply Hfr].
Qed.

Lemma fresh_memphy_ok max_size :
  0 <= max_size < 2 ^ 31 ->
  mem_ok (fresh_memphy max_size) /\ frames_ok (fresh_memphy max_size) /\
  maxsz (fresh_memphy max_size) = max_size.
Proof.
  intros H. destruct (init_memphy_ok blank_memphy max_size 1 H) as (mp & Hi & ? & ? & ? & _); [lia|].
  unfold fresh_memphy. by rewrite Hi.
Qed.

(** ** Properties *)

(** a random-access device is a bounded array: inside its bounds a write
    succeeds and changes exactly the cell written, a read returns the last
    value written and changes nothing; outside both fail without effect. *)
Theorem memphy_array_semantics (mp : memphy_struct) (a b v : Z) :
  mem_ok mp -> 0 <= a -> 0 <= b ->
  MEMPHY_read a mp = Ret (if bool_decide (a < maxsz mp) then Some (cell mp a) else None) mp /\
  if bool_decide (a < maxsz mp)
  then exists mp', MEMPHY_write a v mp = Ret 0 mp' /\ mem_ok mp' /\
         free_fp_list mp' = free_fp_list mp /\ used_fp_list mp' = used_fp_list mp /\
         MEMPHY_read b mp' =
           Ret (if bool_decide (b < maxsz mp)
                then Some (if bool_decide (a = b) then v else cell mp b) else None) mp'
  else MEMPHY_write a v mp = Ret (-1) mp.
Proof.
  intros Hm Ha Hb. split; [by apply MEMPHY_read_ok|]. rewrite MEMPHY_write_ok by done.
  case_bool_decide; [|done]. eexists. split; [done|]. split; [done|].
  split_and!; try done. rewrite MEMPHY_read_ok by done. by rewrite cell_set_storage.
Qed.

Lemma memphy_array_semantics_witness :
  exists mp', MEMPHY_write 5 77 (fresh_memphy 8192) = Ret 0 mp' /\
              MEMPHY_read 5 mp' = Ret (Some 77) mp'.
Proof.
  destruct (fresh_memphy_ok 8192 ltac:(lia)) as (Hm & _ & Hs).
  pose proof (memphy_array_semantics (fresh_memphy 8192) 5 5 77 Hm ltac:(lia) ltac:(lia)) as [_ H].
  rewrite Hs in H. rewrite bool_decide_eq_true_2 in H by lia.
  destruct H as (mp' & Hw & _ & _ & _ & Hr). exists mp'.
  rewrite (bool_decide_eq_true_2 (5 = 5)) in Hr by lia. exact (conj Hw Hr).
Defined.

(** a formatted device whose size fits an [int] offers every whole frame
    exactly once, in order, zero-filled, and none is owned by the kernel. *)
Theorem init_memphy_frames (mp : memphy_struct) (max_size randomflg : Z) :
  0 <= max_size < 2 ^ 31 -> randomflg <> 0 ->
  exists mp', init_memphy max_size randomflg mp = Ret 0 mp' /\ mem_ok mp' /\ frames_ok mp' /\
    maxsz mp' = max_size /\ used_fp_list mp' = [] /\
    free_fp_list mp' = seqZ 0 (max_size / PAGING64_PAGESZ) /\ forall a, cell mp' a = 0.
Proof. apply init_memphy_ok. Qed.

Lemma init_memphy_frames_witness :
  exists mp', init_memphy 16777216 1 blank_memphy = Ret 0 mp' /\
    free_fp_list mp' = seqZ 0 4096.
Proof.
  destruct (init_memphy_frames blank_memphy 16777216 1 ltac:(lia) ltac:(lia))
    as (mp' & Hi & _ & _ & _ & _ & Hf & _).
  exists mp'. split; [exact Hi|]. rewrite Hf. reflexivity.
Defined.

(** the default RAM size of [read_config] (4 GiB) does not fit the [int]
    size field: the device is created with size 0 and no frame at all, so
    every access to it fails. *)
Theorem default_ram_has_no_frames (mp : memphy_struct) (addr : Z) :
  0 <= addr ->
  exists mp', init_memphy 0x100000000 1 mp = Ret 0 mp' /\ maxsz mp' = 0 /\
    MEMPHY_get_freefp mp' = Ret None mp' /\ MEMPHY_read addr mp' = Ret None mp'.
Proof.
  intros Ha. eexists. split; [vm_compute; reflexivity|]. split; [done|]. split; [done|].
  unfold MEMPHY_read, bind, get. cbn [maxsz]. rewrite u64_small by (unfold is_u64; lia).
  by rewrite bool_decide_eq_true_2 by lia.
Qed.

Lemma default_ram_has_no_frames_witness :
  exists mp', init_memphy 0x100000000 1 blank_memphy = Ret 0 mp' /\ maxsz mp' = 0.
Proof.
  destruct (default_ram_has_no_frames blank_memphy 0 ltac:(lia)) as (mp' & Hi & Hm & _).
  exists mp'. exact (conj Hi Hm).
Defined.

(** a sequential device can never be accessed: the guard of the
    sequential read and write rejects exactly the devices the dispatch in
    [MEMPHY_read] and [MEMPHY_write] sends there. *)
Theorem sequential_device_unusable (mp : memphy_struct) (addr v : Z) :
  rdmflg mp = 0 ->
  MEMPHY_read addr mp = Ret None mp /\ MEMPHY_write addr v mp = Ret (-1) mp.
Proof.
  intros Hr. unfold MEMPHY_read, MEMPHY_write, MEMPHY_seq_read, MEMPHY_seq_write, bind, get, ret.
  by repeat case_bool_decide.
Qed.

Lemma sequential_device_unusable_witness :
  MEMPHY_read 0 blank_memphy = Ret None blank_memphy.
Proof. exact (proj1 (sequential_device_unusable blank_memphy 0 0 eq_refl)). Defined.
