(* ===== verification/Region.v ===== *)
(** * Memory regions and free lists ([src/mm64.c], [src/libmem.c])

    A virtual memory area keeps its unallocated space as a linked list of
    regions.  [enlist_vm_rg_node] inserts a region by start address and merges
    it with its neighbours; [get_free_vmrg_area] takes space from the first
    region that is large enough.  A linked list of nodes is a [list]; the
    [vmaid] field of a list node is never read.

    The meaning of a list is its coverage: how many of its regions contain an
    address.  Both operations are specified by it exactly, without assuming
    the list sorted (the code itself leaves empty regions behind, which can be
    out of order). *)

From S2P Require Import Prelude.
From S2P Require Import Word.

Record vm_rg_struct := mkRg { vmaid : Z; rg_start : Z; rg_end : Z }.

#[export] Instance vm_rg_struct_eq_dec : EqDecision vm_rg_struct.
Proof. solve_decision. Defined.

Definition init_vm_rg (s e : Z) : vm_rg_struct := mkRg 0 s e.
Definition set_rg_start (r : vm_rg_struct) (s : Z) : vm_rg_struct := mkRg (vmaid r) s (rg_end r).
Definition set_rg_end (r : vm_rg_struct) (e : Z) : vm_rg_struct := mkRg (vmaid r) (rg_start r) e.

(** The [while] loop: the nodes passed over, last one first ([prev] is the
    head), and the nodes from [curr] on. *)
Fixpoint enlist_walk (start : Z) (passed rest : list vm_rg_struct) :
    list vm_rg_struct * list vm_rg_struct :=
  match rest with
  | curr :: rest' =>
    if bool_decide (rg_start curr < start) then enlist_walk start (curr :: passed) rest'
    else (passed, rest)
  | [] => (passed, [])
  end.

Definition enlist_vm_rg_node (rglist : list vm_rg_struct) (rgnode : vm_rg_struct) :
    Z * list vm_rg_struct :=
  if bool_decide (rg_end rgnode <= rg_start rgnode) then (-1, rglist)
  else
    let '(passed, rest) := enlist_walk (rg_start rgnode) [] rglist in
    let '(rgnode, rest) :=
      match rest with
      | curr :: rest' =>
        if bool_decide (rg_end rgnode = rg_start curr)
        then (set_rg_end rgnode (rg_end curr), rest')
        else (rgnode, rest)
      | [] => (rgnode, rest)
      end in
    let tail :=
      match passed with
      | prev :: passed' =>
        if bool_decide (rg_end prev = rg_start rgnode)
        then reverse passed' ++ set_rg_end prev (rg_end rgnode) :: rest
        else reverse passed ++ rgnode :: rest
      | [] => rgnode :: rest
      end in
    (0, tail).

(** The search loop: the region taken, and the list after it.  [size] is a C
    [int]; it is converted to [addr_t] by the addition. *)
Fixpoint take_free (size : Z) (l : list vm_rg_struct) : option (Z * Z) * list vm_rg_struct :=
  match l with
  | [] => (None, [])
  | rgit :: rest =>
    let stop := u64 (rg_start rgit + size) in
    if bool_decide (stop <= rg_end rgit) then
      (Some (rg_start rgit, stop),
       if bool_decide (stop < rg_end rgit) then set_rg_start rgit stop :: rest
       else match rest with
            | nextrg :: rest' => mkRg (vmaid rgit) (rg_start nextrg) (rg_end nextrg) :: rest'
            | [] => [set_rg_start rgit (rg_end rgit)]
            end)
    else let '(r, rest') := take_free size rest in (r, rgit :: rest')
  end.

(** [get_free_vmrg_area] on the free list of the area: status, the new region
    (-1 in both fields when none was found), and the list afterwards. *)
Definition get_free_vmrg (l : list vm_rg_struct) (size : Z) :
    Z * (Z * Z) * list vm_rg_struct :=
  match l with
  | [] => (-1, (ULLONG_MAX, ULLONG_MAX), [])
  | _ =>
    let '(r, l') := take_free size l in
    let newrg := default (ULLONG_MAX, ULLONG_MAX) r in
    (if bool_decide (fst newrg = ULLONG_MAX) then -1 else 0, newrg, l')
  end.

(** ** Coverage *)

Definition within (s e a : Z) : Z := if bool_decide (s <= a < e) then 1 else 0.
Definition rg_cov (r : vm_rg_struct) (a : Z) : Z := within (rg_start r) (rg_end r) a.
Definition cov (l : list vm_rg_struct) (a : Z) : Z := foldr (fun r n => rg_cov r a + n) 0 l.

Definition rg_ok (r : vm_rg_struct) : Prop :=
  0 <= rg_start r /\ rg_start r <= rg_end r /\ rg_end r < 2 ^ 64.
Definition rgs_ok (l : list vm_rg_struct) : Prop := Forall rg_ok l.

Arguments cov : simpl never.
Arguments rg_cov : simpl never.
Arguments within : simpl never.

(** ** Lemmas *)

Lemma within_range s e a : 0 <= within s e a <= 1.
Proof. unfold within. case_bool_decide; lia. Qed.

Lemma within_split s m e a : s <= m <= e -> within s e a = within s m a + within m e a.
Proof. intros H. unfold within. repeat case_bool_decide; lia. Qed.

Lemma within_empty s e a : e <= s -> within s e a = 0.
Proof. intros H. unfold within. case_bool_decide; lia. Qed.

Lemma cov_cons r l a : cov (r :: l) a = rg_cov r a + cov l a.
Proof. done. Qed.

Lemma cov_app l k a : cov (l ++ k) a = cov l a + cov k a.
Proof.
  induction l as [|r l IH]; [done|].
  rewrite <- app_comm_cons, !cov_cons, IH. lia.
Qed.

Lemma cov_perm l k a : l ≡ₚ k -> cov l a = cov k a.
Proof. induction 1; rewrite ?cov_cons; lia. Qed.

#[export] Instance cov_proper : Proper ((≡ₚ) ==> eq ==> eq) cov.
Proof. intros l k H a _ <-. by apply cov_perm. Qed.

Lemma cov_reverse l a : cov (reverse l) a = cov l a.
Proof. by rewrite reverse_Permutation. Qed.

Lemma cov_nonneg l a : 0 <= cov l a.
Proof.
  induction l as [|r l IH]; [done|]. rewrite cov_cons. unfold rg_cov.
  pose proof (within_range (rg_start r) (rg_end r) a). lia.
Qed.

Lemma enlist_walk_perm start passed rest :
  let '(p, r) := enlist_walk start passed rest in
  reverse p ++ r = reverse passed ++ rest.
Proof.
  revert passed. induction rest as [|c rest IH]; intros passed; simpl; [done|].
  case_bool_decide; [|done]. specialize (IH (c :: passed)).
  destruct (enlist_walk start (c :: passed) rest) as [p r]. rewrite IH.
  by rewrite reverse_cons, <- app_assoc.
Qed.

(** The bounds of a region of a well-formed list. *)
Lemma rgs_ok_in l k : rgs_ok (reverse l ++ k) <-> rgs_ok l /\ rgs_ok k.
Proof. unfold rgs_ok. by rewrite Forall_app, Forall_reverse. Qed.

Lemma enlist_spec l n :
  rgs_ok l -> rg_ok n ->
  if bool_decide (rg_end n <= rg_start n) then enlist_vm_rg_node l n = (-1, l)
  else exists l', enlist_vm_rg_node l n = (0, l') /\ rgs_ok l' /\
         forall a, cov l' a = cov l a + rg_cov n a.
Proof.
  intros Hl Hn. unfold enlist_vm_rg_node. case_bool_decide as Hne; [done|].
  pose proof (enlist_walk_perm (rg_start n) [] l) as Hw.
  destruct (enlist_walk (rg_start n) [] l) as [passed rest]. simpl in Hw. subst l.
  apply rgs_ok_in in Hl as [Hp Hr].
  assert (exists n1 rest1, match rest with
      | curr :: rest' => if bool_decide (rg_end n = rg_start curr)
                         then (set_rg_end n (rg_end curr), rest') else (n, rest)
      | [] => (n, rest) end = (n1, rest1) /\ rg_ok n1 /\ rgs_ok rest1 /\
      rg_start n1 = rg_start n /\
      forall a, rg_cov n1 a + cov rest1 a = rg_cov n a + cov rest a)
    as (n1 & rest1 & -> & Hn1 & Hr1 & Hs1 & Hc1).
  { destruct rest as [|c rest]; [eauto 10|].
    apply Forall_cons_1 in Hr as [Hc Hr]. unfold rg_ok in *.
    case_bool_decide as He; eexists _, _; (split; [done|]); simpl.
    - split_and!; try done; try lia. intros a. rewrite cov_cons. unfold rg_cov. simpl.
      rewrite (within_split (rg_start n) (rg_end n) (rg_end c)) by lia. rewrite He. lia.
    - split_and!; try done; try lia. by constructor. }
  destruct passed as [|p passed].
  { eexists. split; [done|]. split; [by constructor|]. intros a. simpl.
    specialize (Hc1 a). rewrite cov_cons. lia. }
  apply Forall_cons_1 in Hp as [Hp Hps]. case_bool_decide as He; eexists; (split; [done|]).
  - split.
    + apply rgs_ok_in. split; [done|]. constructor; [|done]. unfold rg_ok in *. simpl. lia.
    + intros a. specialize (Hc1 a). rewrite !cov_app, !cov_reverse, !cov_cons.
      unfold rg_cov in *. simpl. unfold rg_ok in *.
      rewrite (within_split (rg_start p) (rg_end p) (rg_end n1)) by lia.
      rewrite Hs1 in *. rewrite He in *. lia.
  - split.
    + apply rgs_ok_in. split; by constructor.
    + intros a. specialize (Hc1 a). rewrite !cov_app, !cov_reverse, !cov_cons. lia.
Qed.

(** First fit: the list has a region with room for [size] bytes. *)
Definition has_room (size : Z) (r : vm_rg_struct) : Prop := rg_start r + size <= rg_end r.

Lemma take_free_spec size l :
  rgs_ok l -> 0 < size < 2 ^ 31 ->
  (forall r, r ∈ l -> rg_start r + size < 2 ^ 64) ->
  match take_free size l with
  | (Some (s, e), l') =>
    e = s + size /\ 0 <= s /\ e < 2 ^ 64 /\ rgs_ok l' /\
    (exists l1 r l2, l = l1 ++ r :: l2 /\ Forall (fun r => ~ has_room size r) l1 /\
       s = rg_start r /\ e <= rg_end r) /\
    forall a, cov l a = cov l' a + within s e a
  | (None, l') => l' = l /\ Forall (fun r => ~ has_room size r) l
  end.
Proof.
  intros Hl Hs. induction Hl as [|r l Hr Hl IH]; intros Hw; simpl.
  { by split; [|constructor]. }
  pose proof (Hw r ltac:(left)) as Hwr.
  rewrite u64_small by (unfold is_u64, rg_ok in *; lia). unfold rg_ok in Hr.
  case_bool_decide as Hfit.
  - split_and!; try done; try lia.
    + case_bool_decide; [constructor; [|done]; unfold rg_ok; simpl; lia|].
      destruct l as [|n l]; [repeat constructor; simpl; lia|].
      apply Forall_cons_1 in Hl as [Hn Hl]. by constructor.
    + by exists [], r, l.
    + intros a. rewrite cov_cons. unfold rg_cov.
      rewrite (within_split (rg_start r) (rg_start r + size) (rg_end r)) by lia.
      case_bool_decide.
      * rewrite cov_cons. unfold rg_cov. simpl. lia.
      * assert (rg_start r + size = rg_end r) as -> by lia.
        rewrite (within_empty (rg_end r) (rg_end r)) by lia.
        destruct l as [|n l]; rewrite !cov_cons; unfold rg_cov; simpl; [|lia].
        rewrite (within_empty (rg_end r)) by lia. lia.
  - specialize (IH ltac:(intros; apply Hw; by right)). destruct (take_free size l) as [[[s e]|] l'].
    + destruct IH as (? & ? & ? & ? & (l1 & r' & l2 & -> & ? & ? & ?) & Hc). split_and!; try done.
      * by constructor.
      * exists (r :: l1), r', l2. split_and!; try done. by constructor.
      * intros a. rewrite !cov_cons, Hc. lia.
    + destruct IH as [-> Hno]. split; [done|]. by constructor.
Qed.

(** The region put in lies within one region of the list. *)
Lemma enlist_contains l n :
  rgs_ok l -> rg_start n < rg_end n ->
  exists r, r ∈ snd (enlist_vm_rg_node l n) /\ rg_start r <= rg_start n /\ rg_end n <= rg_end r.
Proof.
  intros Hl Hn. unfold enlist_vm_rg_node. rewrite bool_decide_false by lia.
  pose proof (enlist_walk_perm (rg_start n) [] l) as Hw.
  destruct (enlist_walk (rg_start n) [] l) as [passed rest]. simpl in Hw. subst l.
  apply rgs_ok_in in Hl as [Hp Hr].
  assert (exists n1 rest1, match rest with
      | curr :: rest' => if bool_decide (rg_end n = rg_start curr)
                         then (set_rg_end n (rg_end curr), rest') else (n, rest)
      | [] => (n, rest) end = (n1, rest1) /\ rg_start n1 = rg_start n /\ rg_end n <= rg_end n1)
    as (n1 & rest1 & -> & Hs1 & He1).
  { destruct rest as [|c rest]; [by eexists _, _|]. apply Forall_cons_1 in Hr as [(_ & Hc & _) _].
    case_bool_decide; eexists _, _; (split; [done|]); simpl; split; try done; lia. }
  destruct passed as [|q passed]; simpl.
  { exists n1. split; [left|]. lia. }
  apply Forall_cons_1 in Hp as [(_ & Hq & _) _]. case_bool_decide as He.
  - exists (set_rg_end q (rg_end n1)). split; [|simpl; lia]. apply elem_of_app. right. left.
  - exists n1. split; [|lia]. apply elem_of_app. right. left.
Qed.

(** The bounds of the regions in the list only come from the list and the
    regions put into it. *)
Lemma enlist_ends (P : Z -> Prop) l n :
  Forall (fun r => P (rg_end r)) l -> P (rg_end n) ->
  Forall (fun r => P (rg_end r)) (snd (enlist_vm_rg_node l n)).
Proof.
  intros Hl Hn. unfold enlist_vm_rg_node. case_bool_decide; [done|].
  pose proof (enlist_walk_perm (rg_start n) [] l) as Hw.
  destruct (enlist_walk (rg_start n) [] l) as [passed rest]. simpl in Hw. subst l.
  apply Forall_app in Hl as [Hp Hr]. rewrite Forall_reverse in Hp.
  assert (exists n1 rest1, match rest with
      | curr :: rest' => if bool_decide (rg_end n = rg_start curr)
                         then (set_rg_end n (rg_end curr), rest') else (n, rest)
      | [] => (n, rest) end = (n1, rest1) /\ P (rg_end n1) /\ Forall (fun r => P (rg_end r)) rest1)
    as (n1 & rest1 & -> & Hn1 & Hr1).
  { destruct rest as [|c rest]; [eauto|]. apply Forall_cons_1 in Hr as Hr'. destruct Hr' as [Hc Hr'].
    case_bool_decide; eauto 6. }
  destruct passed as [|q passed]; simpl; [by constructor|].
  apply Forall_cons_1 in Hp as [Hq Hps].
  case_bool_decide; rewrite ?reverse_cons; repeat apply Forall_app_2; try by apply Forall_reverse.
  all: repeat constructor; done.
Qed.

Lemma take_free_ends (P : Z -> Prop) size l :
  Forall (fun r => P (rg_end r)) l -> Forall (fun r => P (rg_end r)) (snd (take_free size l)).
Proof.
  intros Hl. induction Hl as [|r l Hr Hl IH]; simpl; [done|].
  case_bool_decide; simpl.
  - case_bool_decide; [by constructor|]. destruct l as [|n l]; [by repeat constructor|].
    apply Forall_cons_1 in Hl as [? ?]. by constructor.
  - destruct (take_free size l) as [o l']. by constructor.
Qed.

(** C28. [enlist_vm_rg_node] gives back exactly the region it is handed: after
    it, every address is covered once more if it is in the region and as often
    as before otherwise (in particular merging neighbours neither loses nor
    duplicates space), and the list stays well-formed; an empty or inverted
    region is refused with -1 and the list is left alone. *)
Theorem enlist_vm_rg_node_exact l n :
  rgs_ok l -> rg_ok n ->
  if bool_decide (rg_end n <= rg_start n) then enlist_vm_rg_node l n = (-1, l)
  else exists l', enlist_vm_rg_node l n = (0, l') /\ rgs_ok l' /\
         forall a, cov l' a = cov l a + rg_cov n a.
Proof. apply enlist_spec. Qed.

Example enlist_vm_rg_node_exact_witness :
  let l := [mkRg 0 0 16; mkRg 0 32 64] in
  enlist_vm_rg_node l (mkRg 0 16 32) = (0, [mkRg 0 0 64]) /\
  exists l', enlist_vm_rg_node l (mkRg 0 16 32) = (0, l') /\ rgs_ok l' /\
         forall a, cov l' a = cov l a + rg_cov (mkRg 0 16 32) a.
Proof.
  split; [reflexivity|].
  exact (enlist_vm_rg_node_exact [mkRg 0 0 16; mkRg 0 32 64] (mkRg 0 16 32)
    ltac:(repeat constructor; simpl; lia) ltac:(repeat constructor; simpl; lia)).
Defined.

(** [get_free_vmrg_area] is first fit: for a request that fits an [int] it
    takes the start of the first free region with enough room, returns exactly
    [size] bytes of it, and removes exactly these bytes from the free space;
    it fails, changing nothing, only when no free region has room. *)
Theorem get_free_vmrg_first_fit l size :
  rgs_ok l -> 0 < size < 2 ^ 31 -> (forall r, r ∈ l -> rg_start r + size < 2 ^ 64) ->
  let '(st, (s, e), l') := get_free_vmrg l size in
  (st = 0 /\ e = s + size /\ rgs_ok l' /\ (forall a, cov l a = cov l' a + within s e a) /\
   exists l1 r l2, l = l1 ++ r :: l2 /\ s = rg_start r /\ has_room size r /\
     Forall (fun r => ~ has_room size r) l1) \/
  (st = -1 /\ l' = l /\ Forall (fun r => ~ has_room size r) l).
Proof.
  intros Hl Hs Hw. pose proof (take_free_spec size l Hl Hs Hw) as H.
  unfold get_free_vmrg. destruct l as [|r l]; [right; by repeat constructor|].
  destruct (take_free size (r :: l)) as [[[s e]|] l']; simpl.
  - left. destruct H as (-> & ? & ? & ? & (l1 & r' & l2 & ? & ? & -> & ?) & ?).
    rewrite bool_decide_false by (unfold ULLONG_MAX; lia). split_and!; try done.
    by exists l1, r', l2.
  - right. by destruct H as [-> ?].
Qed.

Example get_free_vmrg_first_fit_witness :
  let l := [mkRg 0 0 8; mkRg 0 100 200] in
  get_free_vmrg l 50 = (0, (100, 150), [mkRg 0 0 8; mkRg 0 150 200]) /\
  let '(st, (s, e), l') := get_free_vmrg l 50 in
  (st = 0 /\ e = s + 50 /\ rgs_ok l' /\ (forall a, cov l a = cov l' a + within s e a) /\
   exists l1 r l2, l = l1 ++ r :: l2 /\ s = rg_start r /\ has_room 50 r /\
     Forall (fun r => ~ has_room 50 r) l1) \/
  (st = -1 /\ l' = l /\ Forall (fun r => ~ has_room 50 r) l).
Proof.
  split; [vm_compute; reflexivity|].
  apply (get_free_vmrg_first_fit [mkRg 0 0 8; mkRg 0 100 200] 50).
  - repeat constructor; simpl; lia.
  - lia.
  - intros r Hr. repeat (apply elem_of_cons in Hr as [-> | Hr]; [simpl; lia|]).
    by apply elem_of_nil in Hr.
Defined.
