(* ===== verification/Machine.v ===== *)
(** * The simulator's state ([include/common.h], [include/os-mm.h])

    One record holds everything the memory system of the simulator shares:
    the page tables (heap blocks of 512 entries, by address), the processes
    (by the address of their [pcb_t]), the RAM and the active swap device, and
    the scheduler.  A pointer is a [Z], 0 is NULL; using a pointer to nothing
    is undefined behaviour ([Ub]).

    A [krnl_t] belongs to one process and an [mm_struct] to one [krnl_t] (the
    loader allocates them together), so they are nested records; the [krnl_t]
    of every process points to the same two devices, so [mram] and
    [active_mswp] only tell whether the pointer is set.  The three queue
    pointers of a [krnl_t] are the [linked] field of the scheduler.  The
    pointers [p4d], [pud], [pmd], [pt] that a page-table walk leaves in the
    [mm_struct] and in the [krnl_t] are written and never read; they are kept
    apart from the processes, in [mm_walk] and [krnl_walk].

    [malloc] and [calloc] fail when the oracle [oom] says so: [oom n] is the
    fate of the [n]-th allocation. *)

From S2P Require Import Prelude.
From S2P Require Import Word.
From S2P Require Import Sched.
From S2P Require Import MemPhy.
From S2P Require Import Region.

(** ** Data *)

Definition PAGING_MAX_SYMTBL_SZ : Z := 30.
Definition NREGS : Z := 10.

Inductive ins_opcode_t :=
| CALC | ALLOC | FREE | READ | WRITE | KMALLOC | KMEM_CACHE_CREATE
| KMEM_CACHE_ALLOC | COPY_FROM_USER | COPY_TO_USER | SYSCALL.

Record inst_t := mkInst {
  opcode : ins_opcode_t; arg_0 : Z; arg_1 : Z; arg_2 : Z; arg_3 : Z }.

Record vm_area_struct := mkVma {
  vm_id : Z; vm_start : Z; vm_end : Z; sbrk : Z;
  vm_freerg_list : list vm_rg_struct }.

Record kmem_cache_slab_struct := mkSlab {
  slab_start : Z; slot_size : Z; slab_slot_count : Z; free_count : Z;
  free_list : list Z }.

Record kcache_pool_struct := mkPool {
  pool_size : Z; align : Z; slot_count : Z; pool_storage : Z; alloc_size : Z;
  empty_slabs : list kmem_cache_slab_struct;
  partial_slabs : list kmem_cache_slab_struct;
  full_slabs : list kmem_cache_slab_struct }.

(** A pool of [calloc]ed memory. *)
Definition zero_pool : kcache_pool_struct := mkPool 0 0 0 0 0 [] [] [].

Record mm_struct := mkMm {
  pgd : Z;
  mmap : list vm_area_struct;
  symrgtbl : list vm_rg_struct;
  fifo_pgn : list Z;
  kcpooltbl : option (list kcache_pool_struct) }.

Record krnl_t := mkKrnl {
  mm : option mm_struct;
  mram : bool;
  active_mswp : bool;
  active_mswp_id : Z;
  krnl_pgd : Z }.

Record pcb_t := mkPcb {
  pid : Z; priority : Z; code : list inst_t; regs : list Z; pc : Z; prio : Z;
  krnl : option krnl_t; bp : Z }.

(** The pointers a walk passes: [p4d], [pud], [pmd], [pt]. *)
Record walk_ptrs := mkWalk { w_p4d : Z; w_pud : Z; w_pmd : Z; w_pt : Z }.

Record machine := mkMachine {
  tables : gmap Z (gmap Z Z);
  next_table : Z;
  procs : gmap Z pcb_t;
  ram : memphy_struct;
  swp : memphy_struct;
  sch : sched;
  mm_walk : gmap Z walk_ptrs;
  krnl_walk : gmap Z walk_ptrs;
  oom : Z -> bool;
  mallocs : Z }.

(** ** Field updates *)

Definition set_pgd (x : mm_struct) (v : Z) : mm_struct :=
  mkMm v (mmap x) (symrgtbl x) (fifo_pgn x) (kcpooltbl x).
Definition set_mmap (x : mm_struct) (v : list vm_area_struct) : mm_struct :=
  mkMm (pgd x) v (symrgtbl x) (fifo_pgn x) (kcpooltbl x).
Definition set_symrgtbl (x : mm_struct) (v : list vm_rg_struct) : mm_struct :=
  mkMm (pgd x) (mmap x) v (fifo_pgn x) (kcpooltbl x).
Definition set_fifo_pgn (x : mm_struct) (v : list Z) : mm_struct :=
  mkMm (pgd x) (mmap x) (symrgtbl x) v (kcpooltbl x).
Definition set_kcpooltbl (x : mm_struct) (v : option (list kcache_pool_struct)) : mm_struct :=
  mkMm (pgd x) (mmap x) (symrgtbl x) (fifo_pgn x) v.

Definition set_k_mm (k : krnl_t) (v : option mm_struct) : krnl_t :=
  mkKrnl v (mram k) (active_mswp k) (active_mswp_id k) (krnl_pgd k).
Definition set_krnl_pgd (k : krnl_t) (v : Z) : krnl_t :=
  mkKrnl (mm k) (mram k) (active_mswp k) (active_mswp_id k) v.

Definition set_krnl (p : pcb_t) (v : option krnl_t) : pcb_t :=
  mkPcb (pid p) (priority p) (code p) (regs p) (pc p) (prio p) v (bp p).
Definition set_regs (p : pcb_t) (v : list Z) : pcb_t :=
  mkPcb (pid p) (priority p) (code p) v (pc p) (prio p) (krnl p) (bp p).
Definition set_pc (p : pcb_t) (v : Z) : pcb_t :=
  mkPcb (pid p) (priority p) (code p) (regs p) v (prio p) (krnl p) (bp p).

Definition set_tables (m : machine) (v : gmap Z (gmap Z Z)) : machine :=
  mkMachine v (next_table m) (procs m) (ram m) (swp m) (sch m) (mm_walk m) (krnl_walk m)
    (oom m) (mallocs m).
Definition set_procs (m : machine) (v : gmap Z pcb_t) : machine :=
  mkMachine (tables m) (next_table m) v (ram m) (swp m) (sch m) (mm_walk m) (krnl_walk m)
    (oom m) (mallocs m).
Definition set_ram (m : machine) (v : memphy_struct) : machine :=
  mkMachine (tables m) (next_table m) (procs m) v (swp m) (sch m) (mm_walk m) (krnl_walk m)
    (oom m) (mallocs m).
Definition set_swp (m : machine) (v : memphy_struct) : machine :=
  mkMachine (tables m) (next_table m) (procs m) (ram m) v (sch m) (mm_walk m) (krnl_walk m)
    (oom m) (mallocs m).
Definition set_sch (m : machine) (v : sched) : machine :=
  mkMachine (tables m) (next_table m) (procs m) (ram m) (swp m) v (mm_walk m) (krnl_walk m)
    (oom m) (mallocs m).
Definition set_mm_walk (m : machine) (v : gmap Z walk_ptrs) : machine :=
  mkMachine (tables m) (next_table m) (procs m) (ram m) (swp m) (sch m) v (krnl_walk m)
    (oom m) (mallocs m).
Definition set_krnl_walk (m : machine) (v : gmap Z walk_ptrs) : machine :=
  mkMachine (tables m) (next_table m) (procs m) (ram m) (swp m) (sch m) (mm_walk m) v
    (oom m) (mallocs m).
Definition set_mallocs (m : machine) (v : Z) : machine :=
  mkMachine (tables m) (next_table m) (procs m) (ram m) (swp m) (sch m) (mm_walk m) (krnl_walk m)
    (oom m) v.

(** ** Primitive operations *)

(** Does the next allocation succeed? *)
Definition malloc : M machine bool := fun m =>
  Ret (negb (oom m (mallocs m))) (set_mallocs m (mallocs m + 1)).

(** The process a non-NULL pointer refers to. *)
Definition get_pcb (p : Z) : M machine pcb_t := fun m =>
  match procs m !! p with
  | Some x => Ret x m
  | None => Ub
  end.

Definition put_pcb (p : Z) (x : pcb_t) : M machine unit := fun m =>
  Ret tt (set_procs m (<[p := x]> (procs m))).

(** [caller == NULL || caller->krnl == NULL]: [None] when the test holds. *)
Definition get_krnl (p : Z) : M machine (option krnl_t) :=
  if bool_decide (p = 0) then ret None
  else let* x := get_pcb p in ret (krnl x).

(** [caller == NULL || caller->krnl == NULL || caller->krnl->mm == NULL]. *)
Definition get_mm (p : Z) : M machine (option mm_struct) :=
  let* k := get_krnl p in ret (k ≫= mm).

Definition upd_krnl (p : Z) (f : krnl_t -> krnl_t) : M machine unit :=
  let* x := get_pcb p in put_pcb p (set_krnl x (f <$> krnl x)).
Definition upd_mm (p : Z) (f : mm_struct -> mm_struct) : M machine unit :=
  upd_krnl p (fun k => set_k_mm k (f <$> mm k)).

(** [proc->regs[i]], an array of ten. *)
Definition set_reg (p i v : Z) : M machine unit :=
  let* x := get_pcb p in
  if bool_decide (0 <= i < NREGS) then put_pcb p (set_regs x (<[Z.to_nat i := v]> (regs x)))
  else ub.

(** An operation of the RAM or of the active swap device. *)
Definition on_ram {A} (op : M memphy_struct A) : M machine A := fun m =>
  match op (ram m) with
  | Ret a d => Ret a (set_ram m d)
  | Ub => Ub
  | Exit d => Exit (set_ram m d)
  end.
Definition on_swp {A} (op : M memphy_struct A) : M machine A := fun m =>
  match op (swp m) with
  | Ret a d => Ret a (set_swp m d)
  | Ub => Ub
  | Exit d => Exit (set_swp m d)
  end.

(** A [struct memphy_struct *] argument: NULL or one of the two devices. *)
Inductive dev := Ram | Swp.

Definition on_dev {A} (d : dev) (op : M memphy_struct A) : M machine A :=
  match d with Ram => on_ram op | Swp => on_swp op end.

Definition k_mram (k : krnl_t) : option dev := if mram k then Some Ram else None.
Definition k_mswp (k : krnl_t) : option dev := if active_mswp k then Some Swp else None.

(** The device operations, which answer -1 for NULL. *)
Definition dev_read (d : option dev) (addr : Z) : M machine (option Z) :=
  match d with None => ret None | Some d => on_dev d (MEMPHY_read addr) end.
Definition dev_write (d : option dev) (addr v : Z) : M machine Z :=
  match d with None => ret (-1) | Some d => on_dev d (MEMPHY_write addr v) end.
Definition dev_get_freefp (d : option dev) : M machine (option Z) :=
  match d with None => ret None | Some d => on_dev d MEMPHY_get_freefp end.
Definition dev_put_freefp (d : option dev) (fpn : Z) : M machine Z :=
  match d with
  | None => ret (-1)
  | Some d => let* ok := malloc in on_dev d (MEMPHY_put_freefp ok fpn)
  end.

(** ** Reading the state *)

Definition mm_of (m : machine) (p : Z) : option mm_struct :=
  (procs m !! p ≫= krnl) ≫= mm.
Definition krnl_of (m : machine) (p : Z) : option krnl_t := procs m !! p ≫= krnl.
