(* ===== verification/PageTable.v ===== *)
(** * Five-level page tables ([src/mm64.c])

    A page table is a block of 512 entries on the heap; an entry of the upper
    four levels is the address of a table of the next level (0 for none), an
    entry of the last level is a page-table entry (PTE).  [walk_pte] follows
    the levels of an address and, if asked, allocates the missing ones.

    The refinement: with respect to a set of roots (one per process and one
    for the kernel) the tables are a forest, and what they store is a flat map
    from (root, page number) to PTE.  [walk_pte] does not change the flat map,
    and a write through the pointer it returns changes the one entry. *)

From S2P Require Import Prelude.
From S2P Require Import Word.
From S2P Require Import Paging.
From S2P Require Import Sched.
From S2P Require Import MemPhy.
From S2P Require Import Region.
From S2P Require Import Machine.

(** ** Tables on the heap *)

(** [table[i]], read and written. *)
Definition tbl_read (p i : Z) : M machine Z := fun m =>
  match tables m !! p with
  | Some t =>
    if bool_decide (0 <= i < PAGING64_LEVEL_ENTRIES) then Ret (default 0 (t !! i)) m else Ub
  | None => Ub
  end.
Definition tbl_write (p i v : Z) : M machine unit := fun m =>
  match tables m !! p with
  | Some t =>
    if bool_decide (0 <= i < PAGING64_LEVEL_ENTRIES)
    then Ret tt (set_tables m (<[p := <[i := v]> t]> (tables m))) else Ub
  | None => Ub
  end.

(** [calloc]: a fresh block of zeros, or NULL. *)
Definition alloc_page_table : M machine Z :=
  let* ok := malloc in
  if ok then fun m =>
    Ret (next_table m)
      (mkMachine (<[next_table m := ∅]> (tables m)) (next_table m + 1) (procs m) (ram m)
         (swp m) (sch m) (mm_walk m) (krnl_walk m) (oom m) (mallocs m))
  else ret 0.

(** ** Walking *)

(** Record a pointer of the walk in the [mm_struct] or the [krnl_t]. *)
Definition note_walk (kernel : bool) (caller : Z) (f : walk_ptrs -> walk_ptrs) :
    M machine unit := fun m =>
  let upd w := <[caller := f (default (mkWalk 0 0 0 0) (w !! caller))]> w in
  Ret tt (if kernel then set_krnl_walk m (upd (krnl_walk m)) else set_mm_walk m (upd (mm_walk m))).

(** The [krnl_t] is given by value; [who] is the process it belongs to (0 for
    the simulator's own). *)
Definition init_kernel_page_table (who : Z) (k : krnl_t) : M machine (Z * krnl_t) :=
  let* k :=
    (if bool_decide (krnl_pgd k = 0)
     then let* p := alloc_page_table in ret (set_krnl_pgd k p) else ret k) in
  if bool_decide (krnl_pgd k = 0) then ret (-1, k)
  else note_walk true who (fun _ => mkWalk 0 0 0 0) ;; ret (0, k).

(** The root table for an address; 0 is NULL. *)
Definition walk_root (caller : Z) (kernel create : bool) : M machine Z :=
  let* k := get_krnl caller in
  match k with
  | None => ub
  | Some k =>
    if kernel then
      if bool_decide (krnl_pgd k = 0) && create then
        let* (r, k') := init_kernel_page_table caller k in
        upd_krnl caller (fun _ => k') ;;
        ret (if bool_decide (r <> 0) then 0 else krnl_pgd k')
      else ret (krnl_pgd k)
    else
      match mm k with
      | None => ub
      | Some mm =>
        if bool_decide (pgd mm = 0) && create then
          let* p := alloc_page_table in
          upd_mm caller (fun mm => set_pgd mm p) ;; ret p
        else ret (pgd mm)
      end
  end.

(** One level down from [table], through entry [ix]; 0 is NULL. *)
Definition next_level (table ix : Z) (create : bool) : M machine Z :=
  let* next := tbl_read table ix in
  if bool_decide (next = 0) && create then
    let* p := alloc_page_table in
    if bool_decide (p = 0) then ret 0
    else tbl_write table ix p ;; ret p
  else ret next.

(** [if (ptr == NULL) return NULL; else go on] *)
Definition if_ptr {A} (p : Z) (k : M machine (option A)) : M machine (option A) :=
  if bool_decide (p = 0) then ret None else k.

(** The address of the PTE: its table and its index there. *)
Definition walk_pte (caller addr : Z) (create : bool) : M machine (option (Z * Z)) :=
  let* mm := get_mm caller in
  match mm with
  | None => ret None
  | Some _ =>
    let '(st, ix) := get_pd_from_address addr in
    if bool_decide (st <> 0) then ret None
    else
      let kernel := is_kernel_address addr in
      let* pgd_ptr := walk_root caller kernel create in
      if_ptr pgd_ptr (
      let* p4d_ptr := next_level pgd_ptr (pgd_ix ix) create in
      if_ptr p4d_ptr (
      note_walk kernel caller (fun w => mkWalk p4d_ptr (w_pud w) (w_pmd w) (w_pt w)) ;;
      let* pud_ptr := next_level p4d_ptr (p4d_ix ix) create in
      if_ptr pud_ptr (
      note_walk kernel caller (fun w => mkWalk (w_p4d w) pud_ptr (w_pmd w) (w_pt w)) ;;
      let* pmd_ptr := next_level pud_ptr (pud_ix ix) create in
      if_ptr pmd_ptr (
      note_walk kernel caller (fun w => mkWalk (w_p4d w) (w_pud w) pmd_ptr (w_pt w)) ;;
      let* pt_ptr := next_level pmd_ptr (pmd_ix ix) create in
      if_ptr pt_ptr (
      note_walk kernel caller (fun w => mkWalk (w_p4d w) (w_pud w) (w_pmd w) pt_ptr) ;;
      ret (Some (pt_ptr, pt_ix ix)))))))
  end.

(** ** Page-table entries *)

(** Write an entry after creating the path to it; -1 when that fails. *)
Definition pte_set_entry (caller pgn pte_val : Z) : M machine Z :=
  let* pte := walk_pte caller (pgn_addr pgn) true in
  match pte with
  | None => ret (-1)
  | Some (t, i) => tbl_write t i pte_val ;; ret 0
  end.

Definition pte_set_swap (caller pgn swptyp swpoff : Z) : M machine Z :=
  let* pte := walk_pte caller (pgn_addr pgn) true in
  match pte with
  | None => ret (-1)
  | Some (t, i) => tbl_write t i 0 ;; tbl_write t i (swap_pte swptyp swpoff) ;; ret 0
  end.

Definition pte_set_fpn (caller pgn fpn : Z) : M machine Z :=
  let* pte := walk_pte caller (pgn_addr pgn) true in
  match pte with
  | None => ret (-1)
  | Some (t, i) => tbl_write t i 0 ;; tbl_write t i (fpn_pte fpn) ;; ret 0
  end.

Definition pte_get_entry (caller pgn : Z) : M machine Z :=
  let* pte := walk_pte caller (pgn_addr pgn) false in
  match pte with
  | None => ret 0
  | Some (t, i) => tbl_read t i
  end.

Definition vmap_pgd_memset (caller addr pgnum : Z) : M machine Z :=
  let pgn := addr_pgn addr in
  let* mm := get_mm caller in
  match mm with
  | None => ret (-1)
  | Some _ =>
    if bool_decide (validate_page_range addr pgnum <> 0) then ret (-1)
    else
      for_each (fun pgit =>
        let* r := pte_set_entry caller (u64 (pgn + pgit)) PAGING64_DUMMY_PTE in
        ret (if bool_decide (r <> 0) then -1 else 0)) (seqZ 0 pgnum)
  end.

(** ** The flat view *)

(** The entry of a table, and the table it points to. *)
Definition entry (T : gmap Z (gmap Z Z)) (p i : Z) : Z :=
  default 0 (T !! p ≫= lookup i).
Definition child (T : gmap Z (gmap Z Z)) (p i : Z) : option Z :=
  if bool_decide (entry T p i = 0) then None else Some (entry T p i).

(** The table reached from [r] through the indices of [path]. *)
Definition reach (T : gmap Z (gmap Z Z)) (r : Z) (path : list Z) : option Z :=
  foldl (fun o i => o ≫= fun p => child T p i) (Some r) path.

(** The four upper indices and the last index of a page. *)
Definition page_path (pgn : Z) : list Z :=
  let ix := snd (get_pd_from_address (pgn_addr pgn)) in
  [pgd_ix ix; p4d_ix ix; pud_ix ix; pmd_ix ix].
Definition page_index (pgn : Z) : Z := pt_ix (snd (get_pd_from_address (pgn_addr pgn))).

(** The PTE of page [pgn] under root [r]; 0 where a table is missing. *)
Definition pte_at (T : gmap Z (gmap Z Z)) (r pgn : Z) : Z :=
  match reach T r (page_path pgn) with
  | Some p => entry T p (page_index pgn)
  | None => 0
  end.

(** The tables under the roots [R] are a forest: each table is allocated and
    is reached in one way only; addresses from [nxt] on are unused. *)
Record forest (R : Z -> Prop) (T : gmap Z (gmap Z Z)) (nxt : Z) : Prop := mkForest {
  forest_fresh : forall p, nxt <= p -> T !! p = None;
  forest_nxt : 0 < nxt;
  forest_alloc : forall r path p, R r -> (length path <= 4)%nat ->
    reach T r path = Some p -> 0 < p /\ is_Some (T !! p);
  forest_inj : forall r path r' path' p, R r -> R r' ->
    (length path <= 4)%nat -> (length path' <= 4)%nat ->
    reach T r path = Some p -> reach T r' path' = Some p -> r = r' /\ path = path';
}.

(** A page whose address is canonical. *)
Definition user_page (g : Z) : Prop := 0 <= g < 2 ^ 44.
Definition kernel_page (g : Z) : Prop := 2 ^ 52 - 2 ^ 44 <= g < 2 ^ 52.
Definition page_ok (g : Z) : Prop := user_page g \/ kernel_page g.

(** What no page-table operation touches. *)
Definition same_rest (m m' : machine) : Prop :=
  procs m' = procs m /\ ram m' = ram m /\ swp m' = swp m /\ sch m' = sch m /\ oom m' = oom m.

(** No table is unhooked. *)
Definition paths_kept (R : Z -> Prop) (m m' : machine) : Prop :=
  forall r path p, R r -> (length path <= 4)%nat ->
    reach (tables m) r path = Some p -> reach (tables m') r path = Some p.

(** A step that keeps the flat map, and one that changes one entry of it. *)
Definition pt_step (R : Z -> Prop) (m m' : machine) : Prop :=
  same_rest m m' /\ forest R (tables m') (next_table m') /\ paths_kept R m m' /\
  forall r g, R r -> pte_at (tables m') r g = pte_at (tables m) r g.
Definition pt_upd (R : Z -> Prop) (r g v : Z) (m m' : machine) : Prop :=
  same_rest m m' /\ forest R (tables m') (next_table m') /\ paths_kept R m m' /\
  forall r' g', R r' -> page_ok g' -> pte_at (tables m') r' g' =
    if bool_decide (r' = r /\ g' = g) then v else pte_at (tables m) r' g'.

(** The process [p] is a valid pointer with a [krnl_t] and an [mm_struct]. *)
Definition has_mm (m : machine) (p : Z) (k : krnl_t) (x : mm_struct) : Prop :=
  p <> 0 /\ krnl_of m p = Some k /\ mm k = Some x.

(** The root under which a process finds a page. *)
Definition root_for (k : krnl_t) (x : mm_struct) (g : Z) : Z :=
  if is_kernel_address (pgn_addr g) then krnl_pgd k else pgd x.

(** Some allocation fails. *)
Definition may_oom (m : machine) : Prop := exists n, oom m n = true.

(** ** Lemmas: tables as a forest *)

Lemma entry_insert T p t i v p' i' :
  T !! p = Some t ->
  entry (<[p := <[i := v]> t]> T) p' i' =
  if bool_decide (p' = p /\ i' = i) then v else entry T p' i'.
Proof.
  intros Ht. unfold entry. destruct (decide (p' = p)) as [->|Hp].
  - rewrite lookup_insert_eq. simpl. destruct (decide (i' = i)) as [->|Hi].
    + by rewrite lookup_insert_eq, bool_decide_true.
    + rewrite lookup_insert_ne, bool_decide_false, Ht by naive_solver. done.
  - by rewrite lookup_insert_ne, bool_decide_false by naive_solver.
Qed.

Lemma entry_fresh T n p i :
  entry (<[n := ∅]> T) p i = if bool_decide (p = n) then 0 else entry T p i.
Proof.
  unfold entry. case_bool_decide as H; [subst; by rewrite lookup_insert_eq; simpl; rewrite lookup_empty|].
  by rewrite lookup_insert_ne.
Qed.

Lemma reach_snoc T r path i :
  reach T r (path ++ [i]) = reach T r path ≫= fun p => child T p i.
Proof. unfold reach. by rewrite foldl_app. Qed.

Lemma reach_none_app T r path path' :
  reach T r path = None -> reach T r (path ++ path') = None.
Proof.
  intros H. induction path' as [|i l IH] using rev_ind; [by rewrite app_nil_r|].
  by rewrite app_assoc, reach_snoc, IH.
Qed.

Lemma page_path_length g : length (page_path g) = 4%nat.
Proof. reflexivity. Qed.

Lemma page_path_le g : (length (page_path g) <= 4)%nat.
Proof. by rewrite page_path_length. Qed.
#[export] Hint Resolve page_path_le : ossim core.

Section forest.
Context (R : Z -> Prop) (T : gmap Z (gmap Z Z)) (nxt : Z).
Context (HF : forest R T nxt).
Context (r0 : Z) (path0 : list Z) (p0 i0 : Z) (t0 : gmap Z Z).
Context (HR : R r0) (Hreach : reach T r0 path0 = Some p0) (Ht0 : T !! p0 = Some t0).

Lemma forest_lt p t : T !! p = Some t -> p < nxt.
Proof using HF.
  intros Hp. destruct (decide (nxt <= p)) as [H|H]; [|lia].
  by rewrite (forest_fresh _ _ _ HF p H) in Hp.
Qed.

Lemma forest_reach_lt r path p :
  R r -> (length path <= 4)%nat -> reach T r path = Some p -> 0 < p < nxt.
Proof using HF.
  intros Hr Hl Hp. destruct (forest_alloc _ _ _ HF r path p Hr Hl Hp) as [? [t Ht]].
  apply forest_lt in Ht. lia.
Qed.

(** Hanging a fresh table into an empty entry. *)
Definition grown : gmap Z (gmap Z Z) := <[p0 := <[i0 := nxt]> t0]> (<[nxt := ∅]> T).

Lemma entry_grown p i :
  entry grown p i =
  if bool_decide (p = p0 /\ i = i0) then nxt else if bool_decide (p = nxt) then 0 else entry T p i.
Proof using HF Ht0.
  unfold grown. rewrite entry_insert.
  - by rewrite entry_fresh.
  - pose proof (forest_lt _ _ Ht0). by rewrite lookup_insert_ne by lia.
Qed.

Lemma reach_grown r path :
  (length path0 <= 3)%nat -> entry T p0 i0 = 0 -> R r -> (length path <= 4)%nat ->
  reach grown r path =
  if bool_decide (r = r0 /\ path = path0 ++ [i0]) then Some nxt else reach T r path.
Proof using HF HR Hreach Ht0.
  intros Hl0 He Hr. pose proof (forest_lt _ _ Ht0) as Hp0.
  assert (Hnone : reach T r0 (path0 ++ [i0]) = None).
  { rewrite reach_snoc, Hreach. simpl. unfold child. by rewrite He. }
  induction path as [|i path IH] using rev_ind; intros Hl.
  { rewrite bool_decide_false; [done|]. intros [_ H]. by destruct path0. }
  rewrite length_app in Hl. simpl in Hl. rewrite !reach_snoc, IH by lia.
  case_bool_decide as Hc.
  - destruct Hc as [-> ->]. rewrite Hnone. simpl. unfold child. rewrite entry_grown.
    rewrite (bool_decide_false (nxt = p0 /\ _)), (bool_decide_true (nxt = nxt)) by naive_solver lia.
    rewrite (bool_decide_false (r0 = r0 /\ _)); [done|].
    intros [_ H]. apply (f_equal length) in H. rewrite !length_app in H. simpl in H. lia.
  - destruct (reach T r path) as [p|] eqn:Hp; simpl.
    2:{ rewrite bool_decide_false; [done|]. intros [-> [-> _]%app_inj_tail]. congruence. }
    pose proof (forest_reach_lt r path p Hr ltac:(lia) Hp) as Hlt.
    unfold child. rewrite entry_grown, (bool_decide_false (p = nxt)) by lia.
    destruct (decide (p = p0)) as [->|Hne].
    + destruct (forest_inj _ _ _ HF r path r0 path0 p0) as [-> ->]; try done; try lia.
      destruct (decide (i = i0)) as [->|Hi].
      * pose proof (forest_nxt _ _ _ HF).
        rewrite (bool_decide_true (p0 = p0 /\ _)), (bool_decide_true (r0 = r0 /\ _)) by done.
        by rewrite bool_decide_false by lia.
      * rewrite (bool_decide_false (p0 = p0 /\ _)) by naive_solver.
        rewrite (bool_decide_false (r0 = r0 /\ _)); [done|]. intros [_ [_ ?]%app_inj_tail]. done.
    + rewrite (bool_decide_false (p = p0 /\ _)) by naive_solver.
      rewrite (bool_decide_false (r = r0 /\ _)); [done|]. intros [-> [-> _]%app_inj_tail]. congruence.
Qed.

Lemma forest_grown :
  (length path0 <= 3)%nat -> entry T p0 i0 = 0 -> forest R grown (nxt + 1).
Proof using HF HR Hreach Ht0.
  intros Hl0 He. pose proof (forest_lt _ _ Ht0) as Hp0. pose proof (forest_nxt _ _ _ HF) as Hn.
  assert (Hno : forall r path, R r -> (length path <= 4)%nat -> reach T r path <> Some nxt).
  { intros r path Hr Hl Hp. pose proof (forest_reach_lt r path nxt Hr Hl Hp). lia. }
  split.
  - intros p Hp. unfold grown. rewrite !lookup_insert_ne by lia.
    apply (forest_fresh _ _ _ HF). lia.
  - lia.
  - intros r path p Hr Hl. rewrite reach_grown by done. unfold grown. case_bool_decide.
    + intros [= <-]. split; [done|]. rewrite lookup_insert_ne, lookup_insert_eq by lia. by eexists.
    + intros Hp. destruct (forest_alloc _ _ _ HF r path p Hr Hl Hp) as [? Hs]. split; [done|].
      destruct (decide (p = p0)) as [->|]; [rewrite lookup_insert_eq; by eexists|].
      rewrite lookup_insert_ne by done. destruct (decide (p = nxt)) as [->|].
      * rewrite lookup_insert_eq. by eexists.
      * by rewrite lookup_insert_ne by done.
  - intros r path r' path' p Hr Hr' Hl Hl'. rewrite !reach_grown by done.
    case_bool_decide as H1; case_bool_decide as H2; intros Hp Hp'.
    + by destruct H1 as [-> ->], H2 as [-> ->].
    + injection Hp as <-. by apply Hno in Hp'.
    + injection Hp' as <-. by apply Hno in Hp.
    + by eapply (forest_inj _ _ _ HF).
Qed.

(** Creating a table changes no page. *)
Lemma pte_at_grown r g :
  (length path0 <= 3)%nat -> entry T p0 i0 = 0 -> R r -> pte_at grown r g = pte_at T r g.
Proof using HF HR Hreach Ht0.
  intros Hl0 He Hr. pose proof (forest_lt _ _ Ht0) as Hp0.
  unfold pte_at. rewrite reach_grown by done. case_bool_decide as Hc.
  - destruct Hc as [-> ->]. rewrite reach_snoc, Hreach, entry_grown.
    rewrite (bool_decide_false (nxt = p0 /\ _)) by naive_solver lia.
    rewrite bool_decide_true by done. simpl. unfold child. by rewrite He.
  - destruct (reach T r (page_path g)) as [p|] eqn:Hp; [|done].
    pose proof (forest_reach_lt r _ p Hr (page_path_le g) Hp).
    rewrite entry_grown, (bool_decide_false (p = nxt)) by lia.
    rewrite bool_decide_false; [done|]. intros [-> _].
    destruct (forest_inj _ _ _ HF r (page_path g) r0 path0 p0) as [_ Hpath]; try done; [lia|].
    rewrite <- Hpath, page_path_length in Hl0. lia.
Qed.

(** Writing an entry of a last-level table. *)
Definition written (v : Z) : gmap Z (gmap Z Z) := <[p0 := <[i0 := v]> t0]> T.

Lemma reach_written v r path :
  length path0 = 4%nat -> R r -> (length path <= 4)%nat ->
  reach (written v) r path = reach T r path.
Proof using HF HR Hreach Ht0.
  intros Hl0 Hr. induction path as [|i path IH] using rev_ind; [done|].
  rewrite length_app, !reach_snoc. simpl. intros Hl. rewrite IH by lia.
  destruct (reach T r path) as [p|] eqn:Hp; [|done]. simpl.
  unfold child, written. rewrite entry_insert by done.
  rewrite (bool_decide_false (p = p0 /\ _)); [done|].
  intros [-> _]. destruct (forest_inj _ _ _ HF r path r0 path0 p0) as [_ ->]; try done; lia.
Qed.

Lemma forest_written v : length path0 = 4%nat -> forest R (written v) nxt.
Proof using HF HR Hreach Ht0.
  intros Hl0. split.
  - intros p Hp. pose proof (forest_lt _ _ Ht0). unfold written.
    rewrite lookup_insert_ne by lia. by apply (forest_fresh _ _ _ HF).
  - apply (forest_nxt _ _ _ HF).
  - intros r path p Hr Hl. rewrite reach_written by done. intros Hp.
    destruct (forest_alloc _ _ _ HF r path p Hr Hl Hp) as [? Hs]. split; [done|].
    unfold written. destruct (decide (p = p0)) as [->|]; [rewrite lookup_insert_eq; by eexists|].
    by rewrite lookup_insert_ne.
  - intros r path r' path' p Hr Hr' Hl Hl'. rewrite !reach_written by done.
    by apply (forest_inj _ _ _ HF).
Qed.

Lemma pte_at_written v r g :
  length path0 = 4%nat -> R r ->
  pte_at (written v) r g =
  if bool_decide (r = r0 /\ page_path g = path0 /\ page_index g = i0) then v else pte_at T r g.
Proof using HF HR Hreach Ht0.
  intros Hl0 Hr. unfold pte_at. rewrite reach_written by done.
  destruct (reach T r (page_path g)) as [p|] eqn:Hp.
  - unfold written. rewrite entry_insert by done.
    destruct (decide (p = p0)) as [->|Hne].
    + destruct (forest_inj _ _ _ HF r (page_path g) r0 path0 p0) as [-> ->]; try done; [lia|].
      repeat case_bool_decide; naive_solver.
    + rewrite bool_decide_false by naive_solver. rewrite bool_decide_false; [done|].
      intros (-> & Hpp & _). rewrite Hpp in Hp. congruence.
  - rewrite bool_decide_false; [done|]. intros (-> & Hpp & _). rewrite Hpp in Hp. congruence.
Qed.
End forest.

(** ** Lemmas: pages *)

Lemma page_ok_u64 g : page_ok g -> 0 <= g < 2 ^ 52.
Proof. unfold page_ok, user_page, kernel_page. lia. Qed.

Lemma page_ok_canonical g : page_ok g -> is_u64 (pgn_addr g) /\ canonical (pgn_addr g).
Proof.
  intros H. pose proof (page_ok_u64 g H). rewrite pgn_addr_mul by done.
  unfold page_ok, user_page, kernel_page, is_u64, canonical, user_addr, kernel_addr in *. lia.
Qed.

Lemma addr_pgn_pgn_addr g : page_ok g -> addr_pgn (pgn_addr g) = g.
Proof.
  intros H%page_ok_u64. rewrite addr_pgn_div, pgn_addr_mul by done. by rewrite Z.div_mul.
Qed.

Lemma page_path_inj g g' :
  page_ok g -> page_ok g' -> page_path g = page_path g' -> page_index g = page_index g' -> g = g'.
Proof.
  intros Hg Hg' Hp Hi. rewrite <- (addr_pgn_pgn_addr g Hg), <- (addr_pgn_pgn_addr g' Hg').
  destruct (page_ok_canonical g Hg), (page_ok_canonical g' Hg').
  apply get_pd_inj; try done. unfold page_path, page_index in *.
  destruct (snd (get_pd_from_address (pgn_addr g))), (snd (get_pd_from_address (pgn_addr g'))).
  simpl in *. congruence.
Qed.

(** ** Lemmas: the operations *)

Lemma pt_step_refl R m : forest R (tables m) (next_table m) -> pt_step R m m.
Proof. intros HF. split; [by repeat split|]. split; [done|]. split; [by intros ???|done]. Qed.

Lemma same_rest_trans m1 m2 m3 : same_rest m1 m2 -> same_rest m2 m3 -> same_rest m1 m3.
Proof. unfold same_rest. intuition congruence. Qed.

Lemma paths_kept_trans R m1 m2 m3 :
  paths_kept R m1 m2 -> paths_kept R m2 m3 -> paths_kept R m1 m3.
Proof. unfold paths_kept. eauto. Qed.

Lemma pt_step_trans R m1 m2 m3 : pt_step R m1 m2 -> pt_step R m2 m3 -> pt_step R m1 m3.
Proof.
  intros (? & ? & ? & E1) (? & ? & ? & E2).
  split_and!; [by eapply same_rest_trans|done|by eapply paths_kept_trans|].
  intros r g Hr. by rewrite E2, E1.
Qed.

Lemma pt_step_upd R r g v m1 m2 m3 : pt_step R m1 m2 -> pt_upd R r g v m2 m3 -> pt_upd R r g v m1 m3.
Proof.
  intros (? & ? & ? & E1) (? & ? & ? & E2).
  split_and!; [by eapply same_rest_trans|done|by eapply paths_kept_trans|].
  intros r' g' Hr Hg. by rewrite E2, E1.
Qed.

Lemma pt_step_oom R m m' : pt_step R m m' -> may_oom m' -> may_oom m.
Proof. intros ((_ & _ & _ & _ & Ho) & _) [n Hn]. exists n. by rewrite <- Ho. Qed.

(** Any change that leaves the tables alone. *)
Lemma pt_step_tables R m m' :
  forest R (tables m) (next_table m) -> same_rest m m' ->
  tables m' = tables m -> next_table m' = next_table m -> pt_step R m m'.
Proof.
  intros HF Hs Ht Hn. split_and!; [done|by rewrite Ht, Hn| |by rewrite Ht].
  intros r path p Hr Hl. by rewrite Ht.
Qed.

Lemma note_walk_spec R kernel p f m :
  forest R (tables m) (next_table m) ->
  wp (note_walk kernel p f) (fun _ m' => pt_step R m m' /\ tables m' = tables m) m.
Proof. intros HF. unfold wp, note_walk. by destruct kernel; split; try apply pt_step_tables. Qed.

Lemma tbl_read_ok m p i t :
  tables m !! p = Some t -> 0 <= i < 512 -> tbl_read p i m = Ret (entry (tables m) p i) m.
Proof.
  intros Ht Hi. unfold tbl_read, entry. rewrite Ht. by rewrite bool_decide_true.
Qed.

Lemma tbl_write_ok m p i v t :
  tables m !! p = Some t -> 0 <= i < 512 ->
  tbl_write p i v m = Ret tt (set_tables m (<[p := <[i := v]> t]> (tables m))).
Proof. intros Ht Hi. unfold tbl_write. rewrite Ht. by rewrite bool_decide_true. Qed.

Section walk.
Context (R : Z -> Prop).

Lemma next_level_spec m r path p i create :
  forest R (tables m) (next_table m) -> R r -> (length path <= 3)%nat ->
  reach (tables m) r path = Some p -> 0 <= i < 512 ->
  wp (next_level p i create) (fun q m' =>
    pt_step R m m' /\ (create = false -> tables m' = tables m) /\
    (q <> 0 -> reach (tables m') r (path ++ [i]) = Some q) /\
    (q = 0 -> reach (tables m) r (path ++ [i]) = None /\ (create = true -> may_oom m))) m.
Proof.
  intros HF Hr Hl Hp Hi.
  destruct (forest_alloc _ _ _ HF r path p Hr ltac:(lia) Hp) as [_ [t Ht]].
  assert (Hchild : reach (tables m) r (path ++ [i]) = child (tables m) p i)
    by (by rewrite reach_snoc, Hp).
  unfold next_level. apply wp_bind. eapply wp_eq; [by eapply tbl_read_ok|].
  destruct (decide (entry (tables m) p i = 0)) as [He|He].
  2:{ rewrite bool_decide_false by done. simpl. apply wp_ret. rewrite Hchild.
      unfold child. rewrite bool_decide_false by done. split; [by apply pt_step_refl|]. done. }
  rewrite bool_decide_true by done. destruct create; simpl.
  2:{ apply wp_ret. rewrite Hchild. unfold child. rewrite bool_decide_true by done.
      split; [by apply pt_step_refl|done]. }
  unfold alloc_page_table, wp, bind, malloc, ret. simpl.
  destruct (oom m (mallocs m)) eqn:Ho; simpl.
  - split; [by apply pt_step_tables|]. split; [done|]. split; [done|]. intros _.
    split; [|intros _; by exists (mallocs m)]. rewrite Hchild. unfold child.
    by rewrite bool_decide_true.
  - pose proof (forest_nxt _ _ _ HF). rewrite bool_decide_false by lia.
    pose proof (forest_lt _ _ _ HF _ _ Ht).
    unfold tbl_write. simpl. rewrite lookup_insert_ne, Ht by lia.
    rewrite bool_decide_true by done. simpl.
    fold (grown (tables m) (next_table m) p i t).
    split_and!; try done.
    + split_and!; [done| | |]; simpl.
      * by apply (forest_grown R _ _ HF r path).
      * intros r' path' q Hr' Hl' Hq. unfold tables, set_tables.
        rewrite (reach_grown R _ _ HF r path p i t) by done. rewrite bool_decide_false; [done|].
        intros [-> ->]. rewrite Hchild in Hq. unfold child in Hq.
        by rewrite bool_decide_true in Hq.
      * intros r' g Hr'. by apply (pte_at_grown R _ _ HF r path).
    + intros _. rewrite (reach_grown R _ _ HF r path p i t) by (rewrite ?length_app; simpl; done || lia).
      by rewrite bool_decide_true.
    + lia.
Qed.

(** The state of a walk that has reached [q] through [path], or stopped. *)
Definition walked (m m' : machine) (create : bool) (r : Z) (path : list Z) (q : Z) : Prop :=
  pt_step R m m' /\ (create = false -> tables m' = tables m) /\
  (q <> 0 -> reach (tables m') r path = Some q) /\
  (q = 0 -> reach (tables m) r path = None /\ (create = true -> may_oom m)).

Lemma walk_next {A} m m1 create r path p i (k : Z -> M machine (option A)) Q :
  walked m m1 create r path p -> p <> 0 -> R r -> (length path <= 3)%nat -> 0 <= i < 512 ->
  (forall q m', walked m m' create r (path ++ [i]) q -> wp (k q) Q m') ->
  wp (let* q := next_level p i create in k q) Q m1.
Proof.
  intros (Hs & Hc & Hp & _) Hp0 Hr Hl Hi Hk. apply wp_bind.
  eapply wp_mono; [apply (next_level_spec m1 r path p i create); try done|].
  - apply Hs.
  - by apply Hp.
  - intros q m' (Hs' & Hc' & Hq & Hq0). apply Hk. split_and!.
    + by eapply pt_step_trans.
    + intros H. by rewrite Hc', Hc.
    + done.
    + intros H. destruct (Hq0 H) as [HN HO]. split; [|intros E; by eapply pt_step_oom, HO].
      destruct (reach (tables m) r (path ++ [i])) as [t|] eqn:Ht; [|done].
      rewrite <- HN. symmetry. apply Hs in Ht; [done|done|]. rewrite length_app. simpl. lia.
Qed.

Lemma walk_note {A} m m1 create r path p kernel who f (k : M machine (option A)) Q :
  walked m m1 create r path p ->
  (forall m', walked m m' create r path p -> wp k Q m') ->
  wp (note_walk kernel who f ;; k) Q m1.
Proof.
  intros (Hs & Hc & Hp & H0) Hk. apply wp_bind.
  eapply wp_mono; [apply (note_walk_spec R); apply Hs|].
  intros _ m' [Hs' Ht]. apply Hk. split_and!; try done.
  - by eapply pt_step_trans.
  - intros H. by rewrite Ht, Hc.
  - intros H. by rewrite Ht, Hp.
Qed.
End walk.

(** ** Lemmas: processes *)

Lemma get_krnl_ok m p k : p <> 0 -> krnl_of m p = Some k -> get_krnl p m = Ret (Some k) m.
Proof.
  intros Hp Hk. unfold get_krnl, krnl_of in *. rewrite bool_decide_false by done.
  unfold bind, get_pcb, ret. destruct (procs m !! p) as [x|]; [|done]. simpl in Hk. by rewrite Hk.
Qed.

Lemma get_mm_ok m p k x : has_mm m p k x -> get_mm p m = Ret (Some x) m.
Proof.
  intros (Hp & Hk & Hx). unfold get_mm, bind. rewrite (get_krnl_ok m p k) by done.
  unfold ret. simpl. by rewrite Hx.
Qed.

Lemma has_mm_same m m' p k x : procs m' = procs m -> has_mm m p k x -> has_mm m' p k x.
Proof. unfold has_mm, krnl_of. by intros ->. Qed.

Lemma has_mm_det m p k x k' x' : has_mm m p k x -> has_mm m p k' x' -> k' = k /\ x' = x.
Proof. intros (_ & ? & ?) (_ & ? & ?). split; congruence. Qed.

(** The addresses a walk accepts are those of the pages that are [page_ok]. *)
Lemma get_pd_page_ok g :
  page_ok g -> get_pd_from_address (pgn_addr g) = (0, snd (get_pd_from_address (pgn_addr g))).
Proof.
  intros Hg. destruct (page_ok_canonical g Hg) as [H1 H2].
  apply (get_pd_ok _ H1) in H2. by rewrite (surjective_pairing (get_pd_from_address (pgn_addr g))), H2.
Qed.

(** Writing the entry of a page in the table the walk has reached. *)
Lemma pte_write_spec R m m' r g t v :
  pt_step R m m' -> R r -> page_ok g -> reach (tables m') r (page_path g) = Some t ->
  wp (tbl_write t (page_index g) v) (fun _ m2 => pt_upd R r g v m m2) m'.
Proof.
  intros Hs HR Hg Ho. pose proof (proj1 (proj2 Hs)) as HF'.
  destruct (forest_alloc _ _ _ HF' _ _ _ HR (page_path_le g) Ho) as [_ [b Hb]].
  pose proof (get_pd_ix_range (pgn_addr g)) as (_ & _ & _ & _ & H5).
  eapply wp_eq; [by eapply tbl_write_ok|].
  eapply pt_step_upd; [exact Hs|]. fold (written (tables m') t (page_index g) b v).
  split_and!; [done| | |]; simpl.
  - by apply (forest_written R _ _ HF' r (page_path g)).
  - intros r' path q Hr' Hl' Hq. cbn [tables set_tables].
    by rewrite (reach_written R _ _ HF' r (page_path g)).
  - intros r' g' Hr' Hg'.
    rewrite (pte_at_written R _ _ HF' r (page_path g)) by done.
    repeat case_bool_decide; try done.
    + destruct H as (-> & Hpath & Hidx). exfalso. apply H0. split; [done|]. by apply page_path_inj.
    + destruct H0 as [-> ->]. naive_solver.
Qed.

Section pte.
Context (R : Z -> Prop) (m : machine) (p : Z) (k : krnl_t) (x : mm_struct).
Context (HF : forest R (tables m) (next_table m)) (Hp : has_mm m p k x).

Lemma walk_root_ok (kernel create : bool) :
  (if kernel then krnl_pgd k else pgd x) <> 0 ->
  walk_root p kernel create m = Ret (if kernel then krnl_pgd k else pgd x) m.
Proof using Hp.
  intros Hr. destruct Hp as (Hp0 & Hk & Hx). unfold walk_root, bind.
  rewrite (get_krnl_ok m p k) by done. destruct kernel.
  - rewrite bool_decide_false by done. done.
  - rewrite Hx, bool_decide_false by done. done.
Qed.

(** Stop at a NULL pointer of the walk. *)
Lemma if_ptr_wp {A} m' create r path rest q (c : M machine (option A)) (Q : option A -> machine -> Prop) :
  walked R m m' create r path q ->
  (forall m', pt_step R m m' -> (create = false -> tables m' = tables m) ->
     reach (tables m) r (path ++ rest) = None -> (create = true -> may_oom m) -> Q None m') ->
  (q <> 0 -> wp c Q m') -> wp (if_ptr q c) Q m'.
Proof.
  intros (Hs & Hc & _ & H0) HN Hk. unfold if_ptr. case_bool_decide as Hq; [|by apply Hk].
  destruct (H0 Hq). apply wp_ret, HN; try done. by apply reach_none_app.
Qed.

Lemma walk_pte_spec g create :
  page_ok g -> R (root_for k x g) ->
  wp (walk_pte p (pgn_addr g) create) (fun o m' =>
    pt_step R m m' /\ (create = false -> tables m' = tables m) /\
    match o with
    | Some (t, i) => reach (tables m') (root_for k x g) (page_path g) = Some t /\ i = page_index g
    | None => reach (tables m) (root_for k x g) (page_path g) = None /\ (create = true -> may_oom m)
    end) m.
Proof using HF Hp.
  intros Hg HR. unfold walk_pte. apply wp_bind.
  eapply wp_eq; [by eapply get_mm_ok|]. rewrite (get_pd_page_ok g Hg).
  rewrite bool_decide_false by naive_solver. unfold page_path, page_index.
  pose proof (get_pd_ix_range (pgn_addr g)) as (H1 & H2 & H3 & H4 & H5). cbv zeta in *.
  set (ix := snd (get_pd_from_address (pgn_addr g))) in *.
  destruct (forest_alloc _ _ _ HF _ [] _ HR ltac:(simpl; lia) eq_refl) as [Hr0 _].
  apply wp_bind. eapply wp_eq; [apply walk_root_ok; fold (root_for k x g); lia|].
  fold (root_for k x g). set (r := root_for k x g) in *.
  assert (W : walked R m m create r [] r).
  { split; [by apply pt_step_refl|]. split; [done|]. split; [done|]. lia. }
  eapply (if_ptr_wp _ _ _ [] [pgd_ix ix; p4d_ix ix; pud_ix ix; pmd_ix ix]); [done|by intuition|].
  intros Hr. eapply walk_next; [done|done|done|simpl; lia|done|]. intros q1 m1 W1.
  eapply (if_ptr_wp _ _ _ _ [p4d_ix ix; pud_ix ix; pmd_ix ix]); [done|by intuition|].
  intros Hq1. eapply walk_note; [done|]. clear W1. intros m1' W1.
  eapply walk_next; [done|done|done|simpl; lia|done|]. intros q2 m2 W2.
  eapply (if_ptr_wp _ _ _ _ [pud_ix ix; pmd_ix ix]); [done|by intuition|].
  intros Hq2. eapply walk_note; [done|]. clear W2. intros m2' W2.
  eapply walk_next; [done|done|done|simpl; lia|done|]. intros q3 m3 W3.
  eapply (if_ptr_wp _ _ _ _ [pmd_ix ix]); [done|by intuition|].
  intros Hq3. eapply walk_note; [done|]. clear W3. intros m3' W3.
  eapply walk_next; [done|done|done|simpl; lia|done|]. intros q4 m4 W4.
  eapply (if_ptr_wp _ _ _ _ []); [done|by intuition|].
  intros Hq4. eapply walk_note; [done|]. clear W4. intros m4' (Hs & Hc & Hq & _).
  apply wp_ret. split_and!; try done. by apply Hq.
Qed.

Lemma pte_get_spec g :
  page_ok g -> R (root_for k x g) ->
  wp (pte_get_entry p g) (fun v m' =>
    v = pte_at (tables m) (root_for k x g) g /\ pt_step R m m') m.
Proof using HF Hp.
  intros Hg HR. unfold pte_get_entry. apply wp_bind.
  eapply wp_mono; [by apply walk_pte_spec|]. intros o m' (Hs & Ht & Ho).
  specialize (Ht eq_refl). rewrite Ht in Ho. destruct o as [[t i]|].
  - destruct Ho as [Ho ->]. destruct (forest_alloc _ _ _ HF _ _ _ HR (page_path_le g) Ho) as [_ [b Hb]].
    pose proof (get_pd_ix_range (pgn_addr g)) as (_ & _ & _ & _ & H5).
    eapply wp_eq; [eapply tbl_read_ok; [by rewrite Ht|done]|].
    split; [|done]. unfold pte_at. by rewrite Ho, Ht.
  - apply wp_ret. split; [|done]. unfold pte_at. by destruct Ho as [-> _].
Qed.

Lemma pte_set_spec g v :
  page_ok g -> R (root_for k x g) ->
  wp (pte_set_entry p g v) (fun s m' =>
    (s = 0 /\ pt_upd R (root_for k x g) g v m m') \/
    (s = -1 /\ reach (tables m) (root_for k x g) (page_path g) = None /\ may_oom m /\
     pt_step R m m')) m.
Proof using HF Hp.
  intros Hg HR. unfold pte_set_entry. apply wp_bind.
  eapply wp_mono; [by apply walk_pte_spec|]. intros o m' (Hs & _ & Ho). destruct o as [[t i]|].
  2:{ apply wp_ret. right. naive_solver. }
  destruct Ho as [Ho ->]. apply wp_bind.
  eapply wp_mono; [by eapply (pte_write_spec R m m' (root_for k x g))|].
  intros [] m2 Hu. apply wp_ret. by left.
Qed.
End pte.

(** The two writes of an entry amount to the second one. *)
Lemma tbl_write_twice t i u v m :
  (tbl_write t i u ;; tbl_write t i v) m = tbl_write t i v m.
Proof.
  unfold bind, tbl_write. destruct (tables m !! t) as [b|] eqn:Hb; [|done].
  case_bool_decide as Hi; [|done]. cbn [tables set_tables]. rewrite lookup_insert_eq.
  unfold set_tables. simpl. by rewrite !insert_insert_eq.
Qed.

Lemma store_twice (o : option (Z * Z)) u v m :
  match o with
  | None => ret (-1)
  | Some (t, i) => tbl_write t i u ;; tbl_write t i v ;; ret 0
  end m =
  match o with None => ret (-1) | Some (t, i) => tbl_write t i v ;; ret 0 end m.
Proof.
  destruct o as [[t i]|]; [|done]. pose proof (tbl_write_twice t i u v m) as H.
  unfold bind in *. destruct (tbl_write t i u m); try done; by rewrite <- H.
Qed.

Lemma pte_set_fpn_entry p g f m : pte_set_fpn p g f m = pte_set_entry p g (fpn_pte f) m.
Proof. unfold pte_set_fpn, pte_set_entry, bind. destruct walk_pte; [apply store_twice|done..]. Qed.

Lemma pte_set_swap_entry p g typ off m :
  pte_set_swap p g typ off m = pte_set_entry p g (swap_pte typ off) m.
Proof. unfold pte_set_swap, pte_set_entry, bind. destruct walk_pte; [apply store_twice|done..]. Qed.

(** An address outside the canonical space is refused, nothing is created. *)
Lemma walk_pte_noncanonical m p k x addr create :
  has_mm m p k x -> is_u64 addr -> ~ canonical addr -> walk_pte p addr create m = Ret None m.
Proof.
  intros Hp Ha Hc. unfold walk_pte, bind. rewrite (get_mm_ok m p k x) by done.
  rewrite <- (get_pd_ok addr Ha) in Hc. destruct (get_pd_from_address addr) as [st ix].
  simpl in Hc. by rewrite bool_decide_true.
Qed.

(** ** Lemmas: ranges of pages *)

(** The [i]-th page of a range that [validate_page_range] accepts. *)
Lemma valid_range_page addr pgnum i :
  is_u64 addr -> pgnum < 2 ^ 31 -> validate_page_range addr pgnum = 0 -> 0 <= i < pgnum ->
  let g := addr_pgn addr + i in
  page_ok g /\ u64 g = g /\ pgn_addr g = addr + i * 4096 /\
  is_kernel_address (pgn_addr g) = is_kernel_address addr.
Proof.
  intros Ha Hn Hv Hi. destruct (validate_page_range_sound addr pgnum Ha Hn Hv) as (Hal & _ & Hall).
  destruct (Hall i Hi) as [Hlt Hspace]. cbv zeta.
  assert (Hg : addr_pgn addr + i = (addr + i * 4096) / 4096)
    by (rewrite addr_pgn_div; Z.div_mod_to_equations; lia).
  unfold is_u64 in Ha.
  assert (Hr : 0 <= addr_pgn addr + i < 2 ^ 52) by (rewrite Hg; Z.div_mod_to_equations; lia).
  assert (Hpa : pgn_addr (addr_pgn addr + i) = addr + i * 4096)
    by (rewrite pgn_addr_mul by done; rewrite Hg; Z.div_mod_to_equations; lia).
  rewrite Hpa. split_and!; [|apply u64_small; unfold is_u64; lia|done|].
  - unfold page_ok, user_page, kernel_page.
    destruct (is_kernel_address addr); unfold kernel_addr, user_addr in Hspace;
      [right|left]; rewrite Hg; Z.div_mod_to_equations; lia.
  - pose proof (is_kernel_address_spec addr) as H1.
    pose proof (is_kernel_address_spec (addr + i * 4096)) as H2.
    destruct (Hall 0 ltac:(lia)) as [_ H0]. replace (addr + 0 * 4096) with addr in H0 by lia.
    rewrite H2; try (unfold is_u64; lia); revert Hspace H0;
      destruct (is_kernel_address addr); unfold canonical, user_addr, kernel_addr in *;
      try case_bool_decide; intros; try done; lia.
Qed.

(** All pages of the range are under one root. *)
Lemma valid_range_root k x addr pgnum i :
  is_u64 addr -> pgnum < 2 ^ 31 -> validate_page_range addr pgnum = 0 -> 0 <= i < pgnum ->
  root_for k x (addr_pgn addr + i) = root_for k x (addr_pgn addr).
Proof.
  intros Ha Hn Hv Hi. unfold root_for.
  destruct (valid_range_page addr pgnum i Ha Hn Hv Hi) as (_ & _ & _ & ->).
  destruct (valid_range_page addr pgnum 0 Ha Hn Hv ltac:(lia)) as (_ & _ & _ & H0).
  rewrite Z.add_0_r in H0. by rewrite H0.
Qed.

Lemma seqZ_split n xs i ys :
  seqZ 0 n = xs ++ i :: ys -> i = Z.of_nat (length xs) /\ 0 <= i < n.
Proof.
  intros H. assert (Hi : seqZ 0 n !! length xs = Some i) by (rewrite H; by apply list_lookup_middle).
  apply lookup_seqZ in Hi. lia.
Qed.

(** A run of entries under one root set to [v], nothing else changed. *)
Definition pt_fill (R : Z -> Prop) (r base n v : Z) (m m' : machine) : Prop :=
  same_rest m m' /\ forest R (tables m') (next_table m') /\ paths_kept R m m' /\
  forall r' g', R r' -> page_ok g' -> pte_at (tables m') r' g' =
    if bool_decide (r' = r /\ base <= g' < base + n) then v else pte_at (tables m) r' g'.

Lemma pt_fill_snoc R r base n v m1 m2 m3 :
  0 <= n -> pt_fill R r base n v m1 m2 -> pt_upd R r (base + n) v m2 m3 ->
  pt_fill R r base (n + 1) v m1 m3.
Proof.
  intros Hn (S1 & _ & K1 & H1) (S2 & F2 & K2 & H2).
  split_and!; [by eapply same_rest_trans|done|by eapply paths_kept_trans|].
  intros r' g' Hr Hg. rewrite H2, H1 by done. repeat case_bool_decide; try done; lia.
Qed.

Lemma vmap_pgd_memset_spec R m p k x addr pgnum :
  forest R (tables m) (next_table m) -> has_mm m p k x -> is_u64 addr -> pgnum < 2 ^ 31 ->
  R (root_for k x (addr_pgn addr)) ->
  wp (vmap_pgd_memset p addr pgnum) (fun s m' =>
    if bool_decide (validate_page_range addr pgnum <> 0) then s = -1 /\ m' = m
    else (s = 0 /\ pt_fill R (root_for k x (addr_pgn addr)) (addr_pgn addr) pgnum
                     PAGING64_DUMMY_PTE m m') \/
         (s = -1 /\ may_oom m)) m.
Proof.
  intros HF Hp Ha Hn HR. unfold vmap_pgd_memset. apply wp_bind.
  eapply wp_eq; [by eapply get_mm_ok|]. case_bool_decide as Hv; [by apply wp_ret|].
  destruct (validate_page_range_sound addr pgnum Ha Hn Hv) as (_ & H0 & _).
  apply (wp_for_each _ (fun xs m' => pt_fill R (root_for k x (addr_pgn addr)) (addr_pgn addr)
    (Z.of_nat (length xs)) PAGING64_DUMMY_PTE m m')).
  - split_and!; [done|done|by intros ???|]. intros r' g' _ _. rewrite bool_decide_false; [done|]. simpl. lia.
  - intros xs i ys m1 Hl (S1 & F1 & K1 & H1). destruct (seqZ_split _ _ _ _ Hl) as [Hi Hin].
    destruct (valid_range_page addr pgnum i Ha Hn Hv Hin) as (Hg & -> & _ & _).
    assert (Hroot := valid_range_root k x addr pgnum i Ha Hn Hv Hin).
    apply wp_bind. eapply wp_mono; [apply (pte_set_spec R m1 p k x); try done|].
    + eapply has_mm_same; [apply S1|done].
    + by rewrite Hroot.
    + intros s m2 [[-> Hu]|(-> & _ & Ho & Hs)]; apply wp_ret; simpl.
      * rewrite length_app. simpl. rewrite Nat2Z.inj_add. subst i. rewrite Hroot in Hu.
        by eapply pt_fill_snoc; [lia|split_and!|exact Hu].
      * right. split; [done|]. destruct Ho as [n Hn']. exists n.
        by destruct S1 as (_ & _ & _ & _ & <-).
  - intros m1 HI. left. split; [done|]. rewrite length_seqZ in HI.
    by rewrite Z2Nat.id in HI by done.
Qed.

(** ** A small machine

    Two empty root tables, of the kernel and of one process, devices of four
    frames, and the process known to the scheduler: the state after the loader
    has created its first process. *)

Lemma forest_roots (R : Z -> Prop) T nxt :
  (forall r, R r -> 0 < r < nxt /\ T !! r = Some ∅) ->
  (forall p, nxt <= p -> T !! p = None) -> 0 < nxt -> forest R T nxt.
Proof.
  intros HR Hf Hn.
  assert (Hreach : forall r path p, R r -> reach T r path = Some p -> path = [] /\ p = r).
  { intros r path p Hr. destruct path as [|i path]; [by intros [= ->]|].
    change (i :: path) with ([i] ++ path). rewrite reach_none_app; [done|].
    unfold reach, child, entry. simpl. destruct (HR r Hr) as [_ ->]. done. }
  split; [done|done| |].
  - intros r path p Hr _ [-> ->]%Hreach; [|done]. destruct (HR r Hr) as [? ->]. split; [lia|by eexists].
  - intros r path r' path' p Hr Hr' _ _ [-> ->]%Hreach; [|done]. by intros [-> ->]%Hreach.
Qed.

Definition demo_mm : mm_struct :=
  mkMm 2 [mkVma 0 0 0 0 []] (replicate 30 (mkRg 0 0 0)) [] None.
Definition demo_krnl : krnl_t := mkKrnl (Some demo_mm) true true 0 1.
Definition demo_sched : sched :=
  match add_proc (fun _ => 0) 100 (init_scheduler static_sched) with
  | Ret _ s => s
  | _ => init_scheduler static_sched
  end.
Definition demo : machine :=
  mkMachine {[1 := ∅; 2 := ∅]} 3
    {[100 := mkPcb 1 0 [] (replicate 10 0) 0 0 (Some demo_krnl) 1024]}
    (fresh_memphy 16384) (fresh_memphy 16384) demo_sched ∅ ∅
    (fun _ => false) 0.
Definition demo_roots (r : Z) : Prop := r = 1 \/ r = 2.

Lemma demo_forest : forest demo_roots (tables demo) (next_table demo).
Proof.
  unfold demo. cbn [tables next_table]. apply forest_roots; [| |done].
  - intros r [-> | ->]; split; try lia; reflexivity.
  - intros q Hq. by rewrite lookup_insert_ne, lookup_singleton_ne by lia.
Qed.

Lemma demo_has_mm : has_mm demo 100 demo_krnl demo_mm.
Proof. repeat split; done. Qed.

(** ** Properties *)

(** C13. The five-level tables implement a flat map from pages to entries: for
    every page of the canonical space, reading an entry returns the value of
    the flat map and changes nothing in it; each of the three writers changes
    exactly the entry of that page under that root (no other page, no other
    process, not the kernel), or, only when a table of the path is missing and
    an allocation fails, returns -1 with the flat map unchanged.  No table is
    ever shared or unhooked. *)
Theorem page_tables_refine_flat_map R m p k x g v fpn typ off :
  forest R (tables m) (next_table m) -> has_mm m p k x -> page_ok g -> R (root_for k x g) ->
  let writes v s m' :=
    (s = 0 /\ pt_upd R (root_for k x g) g v m m') \/
    (s = -1 /\ reach (tables m) (root_for k x g) (page_path g) = None /\ may_oom m /\
     pt_step R m m') in
  wp (pte_get_entry p g)
    (fun u m' => u = pte_at (tables m) (root_for k x g) g /\ pt_step R m m') m /\
  wp (pte_set_entry p g v) (writes v) m /\
  wp (pte_set_fpn p g fpn) (writes (fpn_pte fpn)) m /\
  wp (pte_set_swap p g typ off) (writes (swap_pte typ off)) m.
Proof.
  intros HF Hp Hg HR writes. unfold wp. rewrite pte_set_fpn_entry, pte_set_swap_entry.
  split_and!; [by apply (pte_get_spec R m p k x)|by apply (pte_set_spec R m p k x)..].
Qed.

Lemma page_tables_refine_flat_map_witness :
  wp (pte_set_fpn 100 5 3)
    (fun s m' => (s = 0 /\ pt_upd demo_roots 2 5 (fpn_pte 3) demo m') \/
                 (s = -1 /\ reach (tables demo) 2 (page_path 5) = None /\ may_oom demo /\
                  pt_step demo_roots demo m')) demo.
Proof.
  assert (page_ok 5) as Hg by (left; unfold user_page; lia).
  pose proof (page_tables_refine_flat_map demo_roots demo 100 demo_krnl demo_mm 5 0 3 0 0
    demo_forest demo_has_mm Hg ltac:(right; reflexivity)) as (_ & _ & H & _).
  exact H.
Defined.

(** [vmap_pgd_memset] is all or nothing as far as validation goes: a range
    that is not page aligned, not canonical or crosses the two spaces is
    refused with the state untouched; an accepted range ends up with the dummy
    (unmapped) entry in exactly its pages, unless an allocation failed. *)
Theorem vmap_pgd_memset_exact R m p k x addr pgnum :
  forest R (tables m) (next_table m) -> has_mm m p k x -> is_u64 addr -> pgnum < 2 ^ 31 ->
  R (root_for k x (addr_pgn addr)) ->
  wp (vmap_pgd_memset p addr pgnum) (fun s m' =>
    if bool_decide (validate_page_range addr pgnum <> 0) then s = -1 /\ m' = m
    else (s = 0 /\ pt_fill R (root_for k x (addr_pgn addr)) (addr_pgn addr) pgnum
                     PAGING64_DUMMY_PTE m m') \/
         (s = -1 /\ may_oom m)) m.
Proof. apply vmap_pgd_memset_spec. Qed.

Lemma vmap_pgd_memset_exact_witness :
  (match vmap_pgd_memset 100 0x1000 2 demo with
   | Ret s m' => s = 0 /\ pte_at (tables m') 2 2 = PAGING64_DUMMY_PTE
   | _ => False
   end) /\
  wp (vmap_pgd_memset 100 0x1001 2) (fun s m' =>
    if bool_decide (validate_page_range 0x1001 2 <> 0) then s = -1 /\ m' = demo
    else (s = 0 /\ pt_fill demo_roots 2 1 2 PAGING64_DUMMY_PTE demo m') \/
         (s = -1 /\ may_oom demo)) demo.
Proof.
  split; [vm_compute; split; reflexivity|].
  exact (vmap_pgd_memset_exact demo_roots demo 100 demo_krnl demo_mm 0x1001 2
    demo_forest demo_has_mm ltac:(unfold is_u64; lia) ltac:(lia) ltac:(right; reflexivity)).
Defined.
