(* ===== verification/Swap.v ===== *)
(** * Frames, swapping and page access ([src/mm64.c], [src/libmem.c], [src/mm-vm.c])

    How pages get frames: the free list of the RAM first, then the frame of a
    victim page whose content is moved to the active swap device; how a
    swapped page comes back ([pg_getpage]); and byte access to virtual memory
    ([pg_getval], [pg_setval]).  Lists of frame nodes are lists of frame
    numbers, [fifo_pgn] has the newest page first. *)

From S2P Require Import Prelude.
From S2P Require Import Word.
From S2P Require Import Paging.
From S2P Require Import Queue.
From S2P Require Import Sched.
From S2P Require Import MemPhy.
From S2P Require Import Region.
From S2P Require Import Machine.
From S2P Require Import PageTable.

(** ** Lists of frames and pages *)

Definition enlist_pgn_node (caller pgn : Z) : M machine Z :=
  let* ok := malloc in
  if ok then upd_mm caller (fun mm => set_fifo_pgn mm (pgn :: fifo_pgn mm)) ;; ret 0
  else ret (-1).

Definition find_victim_page (caller : Z) : M machine (option Z) :=
  let* mm := get_mm caller in
  match mm with
  | None => ub
  | Some mm =>
    match last (fifo_pgn mm) with
    | None => ret None
    | Some pgn =>
      upd_mm caller (fun mm => set_fifo_pgn mm (take (length (fifo_pgn mm) - 1) (fifo_pgn mm))) ;;
      ret (Some pgn)
    end
  end.

(** Give the frames of a list back to the RAM of the caller. *)
Fixpoint release_frame_list (caller : Z) (l : list Z) : M machine unit :=
  match l with
  | [] => ret tt
  | fpn :: rest =>
    let* k := get_krnl caller in
    match k with
    | Some k =>
      if mram k then dev_put_freefp (k_mram k) fpn ;; release_frame_list caller rest
      else release_frame_list caller rest
    | None => release_frame_list caller rest
    end
  end.

(** ** Choosing a victim *)

(** The loop takes pages off [fifo_pgn] until one is resident; [fuel] is the
    length of the list plus one, every round removes one page. *)
Fixpoint victim_loop (p : Z) (fuel : nat) : M machine (option (Z * Z)) :=
  match fuel with
  | O => ub
  | S f =>
    let* v := find_victim_page p in
    match v with
    | None => ret None
    | Some vicpgn =>
      let* vicpte := pte_get_entry p vicpgn in
      if PAGING64_PAGE_PRESENT vicpte && negb (PAGING64_PAGE_SWAPPED vicpte)
      then ret (Some (vicpgn, vicpte))
      else victim_loop p f
    end
  end.

Definition find_present_victim_in_proc (p : Z) : M machine (option (Z * Z)) :=
  let* mm := get_mm p in
  match mm with
  | None => ret None
  | Some mm => victim_loop p (S (length (fifo_pgn mm)))
  end.

(** The scan of the running list from index [idx] on. *)
Fixpoint victim_scan (caller : Z) (l : list Z) : M machine (option (Z * Z * Z)) :=
  match l with
  | [] => ret None
  | p :: rest =>
    if bool_decide (p = 0) || bool_decide (p = caller) then victim_scan caller rest
    else
      let* v := find_present_victim_in_proc p in
      match v with
      | Some (pgn, pte) => ret (Some (p, pgn, pte))
      | None => victim_scan caller rest
      end
  end.

Definition find_global_victim (caller : Z) : M machine (option (Z * Z * Z)) :=
  let* v := find_present_victim_in_proc caller in
  match v with
  | Some (pgn, pte) => ret (Some (caller, pgn, pte))
  | None =>
    let* k := get_krnl caller in
    match k with
    | None => ret None
    | Some _ =>
      let* m := get in
      if bool_decide (caller ∈ linked (sch m)) then
        let q := running_list (sch m) in victim_scan caller (take (size q) (proc q))
      else ret None
    end
  end.

(** ** Moving pages *)

Definition __swap_cp_page (mpsrc : option dev) (srcfpn : Z) (mpdst : option dev) (dstfpn : Z) :
    M machine Z :=
  for_each (fun cellidx =>
    let addrsrc := u64 (srcfpn * PAGING64_PAGESZ + cellidx) in
    let addrdst := u64 (dstfpn * PAGING64_PAGESZ + cellidx) in
    let* data := dev_read mpsrc addrsrc in
    match data with
    | None => ret (-1)
    | Some data =>
      let* r := dev_write mpdst addrdst data in
      ret (if bool_decide (r <> 0) then -1 else 0)
    end) (seqZ 0 PAGING64_PAGESZ).

Definition __mm_swap_page (caller vicfpn swpfpn : Z) : M machine Z :=
  let* k := get_krnl caller in
  match k with
  | None => ret (-1)
  | Some k =>
    if negb (mram k) || negb (active_mswp k) then ret (-1)
    else __swap_cp_page (k_mram k) vicfpn (k_mswp k) swpfpn
  end.

(** The frame set free, or [None] for status -1. *)
Definition swap_out_victim_page (caller : Z) : M machine (option Z) :=
  let* k := get_krnl caller in
  match k with
  | None => ret None
  | Some k =>
    if bool_decide (mm k = None) || negb (mram k) || negb (active_mswp k) then ret None
    else
      let* swpfpn := dev_get_freefp (k_mswp k) in
      match swpfpn with
      | None => ret None
      | Some swpfpn =>
        let* victim := find_global_victim caller in
        match victim with
        | None => dev_put_freefp (k_mswp k) swpfpn ;; ret None
        | Some (victim_proc, vicpgn, vicpte) =>
          let retfpn := PAGING64_PTE_FPN vicpte in
          let* r := __swap_cp_page (k_mram k) retfpn (k_mswp k) swpfpn in
          if bool_decide (r <> 0) then dev_put_freefp (k_mswp k) swpfpn ;; ret None
          else
            let* r := pte_set_swap victim_proc vicpgn (active_mswp_id k) swpfpn in
            if bool_decide (r <> 0) then dev_put_freefp (k_mswp k) swpfpn ;; ret None
            else ret (Some retfpn)
        end
      end
  end.

(** The allocation loop, [n] frames to go; the status is an [addr_t]. *)
Fixpoint alloc_loop (caller : Z) (d : option dev) (n : nat) (got : list Z) :
    M machine (Z * list Z) :=
  match n with
  | O => ret (0, got)
  | S n' =>
    let* f := dev_get_freefp d in
    let* f := (match f with Some fpn => ret (Some fpn) | None => swap_out_victim_page caller end) in
    match f with
    | None => release_frame_list caller got ;; ret (u64 (-3000), [])
    | Some fpn =>
      let* ok := malloc in
      if ok then alloc_loop caller d n' (got ++ [fpn])
      else dev_put_freefp d fpn ;; release_frame_list caller got ;; ret (u64 (-1), [])
    end
  end.

(** Status and frame list (empty, as the caller initialised it, on failure). *)
Definition alloc_pages_range (caller req_pgnum : Z) : M machine (Z * list Z) :=
  let* k := get_krnl caller in
  match k with
  | None => ret (u64 (-1), [])
  | Some k =>
    if negb (mram k) || bool_decide (req_pgnum < 0) then ret (u64 (-1), [])
    else alloc_loop caller (k_mram k) (Z.to_nat req_pgnum) []
  end.

(** [n * PAGING64_PAGESZ] for an [int]: overflow is undefined. *)
Definition page_bytes (n : Z) : M machine Z :=
  if bool_decide (n * PAGING64_PAGESZ < 2 ^ 31) then ret (n * PAGING64_PAGESZ) else ub.

(** The mapping loop from page [pgit] on: status, and the end of the mapped
    region. *)
Fixpoint map_loop (caller : Z) (d : option dev) (addr pgn pgit : Z) (n : nat) (frames : list Z) :
    M machine (Z * Z) :=
  let stop s := let* b := page_bytes pgit in ret (s, u64 (addr + b)) in
  match n, frames with
  | S n', fpn :: next =>
    let g := u64 (pgn + pgit) in
    let* r := pte_set_fpn caller g fpn in
    if bool_decide (r <> 0) then release_frame_list caller frames ;; stop (u64 (-1))
    else
      let* r := enlist_pgn_node caller g in
      if bool_decide (r <> 0) then
        pte_set_entry caller g 0 ;; dev_put_freefp d fpn ;;
        release_frame_list caller next ;; stop (u64 (-1))
      else map_loop caller d addr pgn (pgit + 1) n' next
  | _, _ => stop 0
  end.

(** Status and the returned region; [None] where the region is not written. *)
Definition vmap_page_range (caller addr pgnum : Z) (frames : list Z) :
    M machine (Z * option (Z * Z)) :=
  let pgn := addr_pgn addr in
  let* k := get_krnl caller in
  match k with
  | Some k =>
    if bool_decide (mm k = None) || bool_decide (validate_page_range addr pgnum <> 0)
    then release_frame_list caller frames ;; ret (u64 (-1), None)
    else
      let* b := page_bytes pgnum in
      let* r := for_each (fun pgit =>
        let* pte := walk_pte caller (pgn_addr (u64 (pgn + pgit))) true in
        ret (if bool_decide (pte = None) then -1 else 0)) (seqZ 0 pgnum) in
      if bool_decide (r <> 0)
      then release_frame_list caller frames ;; ret (u64 (-1), Some (addr, addr))
      else
        let* (s, e) := map_loop caller (k_mram k) addr pgn 0 (Z.to_nat pgnum) frames in
        ret (s, Some (addr, e))
  | None => release_frame_list caller frames ;; ret (u64 (-1), None)
  end.

(** [ret_alloc] is unsigned, so [ret_alloc < 0] is never true. *)
Definition vm_map_ram (caller mapstart incpgnum : Z) : M machine (Z * option (Z * Z)) :=
  let* (ret_alloc, frm_lst) := alloc_pages_range caller incpgnum in
  if bool_decide (ret_alloc < 0) && bool_decide (ret_alloc <> u64 (-3000)) then ret (u64 (-1), None)
  else if bool_decide (ret_alloc = u64 (-3000)) then ret (u64 (-1), None)
  else
    let* (s, rg) := vmap_page_range caller mapstart incpgnum frm_lst in
    if bool_decide (s = u64 (-1)) then ret (u64 (-1), rg) else ret (0, rg).

(** ** Access to a page *)

(** The frame of a page, brought in from swap if needed. *)
Definition pg_getpage (pgn caller : Z) : M machine (option Z) :=
  let* pte := pte_get_entry caller pgn in
  let present := let* pte := pte_get_entry caller pgn in ret (Some (PAGING64_PTE_FPN pte)) in
  if PAGING64_PAGE_PRESENT pte then present
  else if negb (PAGING64_PAGE_SWAPPED pte) then ret None
  else
    let req_swpoff := PAGING64_PTE_SWP pte in
    let* t := swap_out_victim_page caller in
    match t with
    | None => ret None
    | Some tgtfpn =>
      let* k := get_krnl caller in
      match k with
      | None => ub
      | Some k =>
        let* r := __swap_cp_page (k_mswp k) req_swpoff (k_mram k) tgtfpn in
        if bool_decide (r <> 0) then ret None
        else
          dev_put_freefp (k_mswp k) req_swpoff ;;
          pte_set_fpn caller pgn tgtfpn ;;
          enlist_pgn_node caller pgn ;;
          present
      end
    end.

Definition caller_mram (caller : Z) : M machine (option dev) :=
  let* k := get_krnl caller in
  match k with None => ub | Some k => ret (k_mram k) end.

Definition pg_getval (addr caller : Z) : M machine (option Z) :=
  let pgn := addr_pgn addr in
  let off := Z.land addr PAGING64_ADDR_OFFST_MASK in
  let* fpn := pg_getpage pgn caller in
  match fpn with
  | None => ret None
  | Some fpn =>
    let phyaddr := u64 (fpn * PAGING64_PAGESZ + off) in
    let* d := caller_mram caller in dev_read d phyaddr
  end.

Definition pg_setval (addr value caller : Z) : M machine Z :=
  let pgn := addr_pgn addr in
  let off := Z.land addr PAGING64_ADDR_OFFST_MASK in
  let* fpn := pg_getpage pgn caller in
  match fpn with
  | None => ret (-1)
  | Some fpn =>
    let phyaddr := u64 (fpn * PAGING64_PAGESZ + off) in
    let* d := caller_mram caller in
    let* r := dev_write d phyaddr value in
    ret (if bool_decide (r < 0) then -1 else 0)
  end.
