(* ===== verification/Vm.v ===== *)
(** * Virtual memory: invariant and abstract view

    The state of the memory system seen from above: what each page of each
    process is ([page_state]) and what each byte of virtual memory contains
    ([vbyte]), whether its page is in RAM or on the swap device.  [vm_inv] is
    the invariant: page tables form a forest, and no frame of RAM or swap is
    in two places (free list, list of kernel frames, page of a process, or a
    local variable of the running operation: the lists [E] and [F]). *)

From S2P Require Import Prelude.
From S2P Require Import Word.
From S2P Require Import Exclusive.
From S2P Require Import Paging.
From S2P Require Import Queue.
From S2P Require Import Sched.
From S2P Require Import MemPhy.
From S2P Require Import Region.
From S2P Require Import Machine.
From S2P Require Import PageTable.
From S2P Require Import Swap.

#[export] Instance user_page_dec g : Decision (user_page g).
Proof. unfold user_page. apply _. Defined.

(** ** The abstract view *)

Definition page_state (m : machine) (p g : Z) : pte_state :=
  match mm_of m p with
  | Some x => decode_pte (pte_at (tables m) (pgd x) g)
  | None => Unmapped
  end.

(** The byte at offset [i] of a page. *)
Definition page_byte (m : machine) (s : pte_state) (i : Z) : option Z :=
  match s with
  | Resident f => Some (cell (ram m) (f * PAGING64_PAGESZ + i))
  | Swapped o => Some (cell (swp m) (o * PAGING64_PAGESZ + i))
  | Unmapped => None
  end.

(** The byte of process [p] at user address [a]. *)
Definition vbyte (m : machine) (p a : Z) : option Z :=
  page_byte m (page_state m p (addr_pgn a)) (a mod PAGING64_PAGESZ).

Definition resident_in (s : pte_state) : option Z :=
  match s with Resident f => Some f | _ => None end.
Definition swapped_in (s : pte_state) : option Z :=
  match s with Swapped o => Some o | _ => None end.

(** The frame and the swap slot a user page holds. *)
Definition ram_held (m : machine) (o : Z * Z) : option Z :=
  if decide (user_page (snd o)) then resident_in (page_state m (fst o) (snd o)) else None.
Definition swp_held (m : machine) (o : Z * Z) : option Z :=
  if decide (user_page (snd o)) then swapped_in (page_state m (fst o) (snd o)) else None.

(** ** The invariant *)

(** The roots of the page tables. *)
Definition roots (m : machine) (r : Z) : Prop :=
  exists p k x, has_mm m p k x /\ (r = pgd x \/ r = krnl_pgd k).

Definition proc_ok (k : krnl_t) (x : mm_struct) : Prop :=
  mram k = true /\ active_mswp k = true /\ Forall user_page (fifo_pgn x).

(** The processes of the running list. *)
Definition running (m : machine) : list Z :=
  take (size (running_list (sch m))) (proc (running_list (sch m))).

(** The entries below a process's own root: none for the kernel's half of the
    address space, and never both present and swapped. *)
Definition user_pte_ok (g v : Z) : Prop :=
  (kernel_page g -> v = 0) /\ PAGING64_PAGE_PRESENT v && PAGING64_PAGE_SWAPPED v = false.

Record vm_shape (m : machine) : Prop := mkShape {
  vs_ram : mem_ok (ram m);
  vs_swp : mem_ok (swp m);
  vs_procs : forall p x, procs m !! p = Some x ->
    exists k y, has_mm m p k y /\ proc_ok k y;
  vs_forest : forest (roots m) (tables m) (next_table m);
  vs_pgd : forall p k x p' k' x', has_mm m p k x -> has_mm m p' k' x' ->
    pgd x = pgd x' -> p = p';
  vs_kpgd : forall p k x p' k' x', has_mm m p k x -> has_mm m p' k' x' ->
    krnl_pgd k = krnl_pgd k' /\ pgd x <> krnl_pgd k';
  vs_run : forall p, p ∈ running m -> p = 0 \/ is_Some (procs m !! p);
  vs_kern : forall p k x g f, has_mm m p k x -> kernel_page g ->
    decode_pte (pte_at (tables m) (krnl_pgd k) g) = Resident f -> f ∈ used_fp_list (ram m);
  vs_user : forall p k x g, has_mm m p k x -> page_ok g ->
    user_pte_ok g (pte_at (tables m) (pgd x) g);
}.

Definition ram_lists (m : machine) : list Z := free_fp_list (ram m) ++ used_fp_list (ram m).
Definition swp_lists (m : machine) : list Z := free_fp_list (swp m) ++ used_fp_list (swp m).

Record vm_inv (E F : list Z) (m : machine) : Prop := mkVmInv {
  vi_shape : vm_shape m;
  vi_ram : exclusive (nframes (ram m)) (ram_lists m ++ E) (ram_held m);
  vi_swp : exclusive (nframes (swp m)) (swp_lists m ++ F) (swp_held m);
}.

(** ** What an operation leaves alone *)

(** A process without its page queue. *)
Definition erase_fifo (x : pcb_t) : pcb_t :=
  set_krnl x ((fun k => set_k_mm k ((fun y => set_fifo_pgn y []) <$> mm k)) <$> krnl x).

(** Everything but page tables, page queues and memory contents. *)
Definition keeps_procs (m m' : machine) : Prop :=
  erase_fifo <$> procs m' = erase_fifo <$> procs m /\ sch m' = sch m /\ oom m' = oom m /\
  maxsz (ram m') = maxsz (ram m) /\ maxsz (swp m') = maxsz (swp m).

(** The kernel's frames, their contents and the kernel's page table. *)
Definition keeps_kernel (m m' : machine) : Prop :=
  used_fp_list (ram m') = used_fp_list (ram m) /\
  (forall f i, f ∈ used_fp_list (ram m) -> 0 <= i < PAGING64_PAGESZ ->
     cell (ram m') (f * PAGING64_PAGESZ + i) = cell (ram m) (f * PAGING64_PAGESZ + i)) /\
  (forall p k x g, has_mm m p k x -> kernel_page g ->
     pte_at (tables m') (krnl_pgd k) g = pte_at (tables m) (krnl_pgd k) g).

(** All of virtual memory. *)
Definition keeps_bytes (m m' : machine) : Prop :=
  forall p a, user_addr a -> vbyte m' p a = vbyte m p a.

Definition keeps (m m' : machine) : Prop :=
  keeps_procs m m' /\ keeps_kernel m m' /\ keeps_bytes m m'.

(** ** Lemmas: processes up to their page queue *)

Lemma has_mm_procs m p k x :
  has_mm m p k x <-> p <> 0 /\ exists y, procs m !! p = Some y /\ krnl y = Some k /\ mm k = Some x.
Proof.
  unfold has_mm, krnl_of. split.
  - intros (Hp & Hk & Hx). split; [done|]. destruct (procs m !! p) as [y|]; [|done]. by exists y.
  - intros (Hp & y & Hy & Hk & Hx). rewrite Hy. done.
Qed.

Lemma mm_of_has_mm m p k x : has_mm m p k x -> mm_of m p = Some x.
Proof. intros (_ & Hk & Hx). unfold mm_of, krnl_of in *. by rewrite Hk. Qed.

Lemma erase_has_mm m m' p k x :
  erase_fifo <$> procs m' !! p = erase_fifo <$> procs m !! p -> has_mm m p k x ->
  exists k' x', has_mm m' p k' x' /\
    set_k_mm k' None = set_k_mm k None /\ set_fifo_pgn x' [] = set_fifo_pgn x [].
Proof.
  intros Hk (Hp & y & Hy & Hky & Hx)%has_mm_procs. rewrite Hy in Hk.
  destruct (procs m' !! p) as [y'|] eqn:Hy'; [|done]. simpl in Hk. apply (inj Some) in Hk.
  unfold erase_fifo, set_krnl in Hk. rewrite Hky in Hk. simpl in Hk. rewrite Hx in Hk.
  destruct (krnl y') as [k'|] eqn:Hk'; simpl in Hk; [|by simplify_eq].
  destruct (mm k') as [x'|] eqn:Hx'; simpl in Hk; unfold set_k_mm in Hk; [|by simplify_eq].
  exists k', x'. split; [apply has_mm_procs; eauto|].
  unfold set_k_mm, set_fifo_pgn in *. injection Hk. intros. split; congruence.
Qed.

Lemma keeps_has_mm m m' p k x :
  keeps_procs m m' -> has_mm m p k x ->
  exists k' x', has_mm m' p k' x' /\
    set_k_mm k' None = set_k_mm k None /\ set_fifo_pgn x' [] = set_fifo_pgn x [].
Proof.
  intros (Hk & _). apply erase_has_mm. apply (f_equal (lookup p)) in Hk. by rewrite !lookup_fmap in Hk.
Qed.

Lemma keeps_procs_sym m m' : keeps_procs m m' -> keeps_procs m' m.
Proof. unfold keeps_procs. naive_solver. Qed.

(** What the two records of a process still have in common. *)
Lemma erased_fields k k' x x' :
  set_k_mm k' None = set_k_mm k None -> set_fifo_pgn x' [] = set_fifo_pgn x [] ->
  pgd x' = pgd x /\ krnl_pgd k' = krnl_pgd k /\ mram k' = mram k /\
  active_mswp k' = active_mswp k /\ active_mswp_id k' = active_mswp_id k /\
  mmap x' = mmap x /\ symrgtbl x' = symrgtbl x /\ kcpooltbl x' = kcpooltbl x.
Proof. unfold set_k_mm, set_fifo_pgn. destruct k, k', x, x'; simpl. naive_solver. Qed.

Lemma keeps_roots m m' r : keeps_procs m m' -> roots m' r -> roots m r.
Proof.
  intros Hk (p & k & x & Hp & Hr). apply keeps_procs_sym in Hk.
  destruct (keeps_has_mm _ _ _ _ _ Hk Hp) as (k' & x' & Hp' & Ek & Ex).
  destruct (erased_fields _ _ _ _ Ek Ex) as (E1 & E2 & _). exists p, k', x'. split; [done|].
  rewrite E1, E2. done.
Qed.

Lemma forest_mono (R R' : Z -> Prop) T n :
  (forall r, R' r -> R r) -> forest R T n -> forest R' T n.
Proof.
  intros HR [H1 H2 H3 H4]. split; [done|done| |].
  - intros r path p Hr. by apply H3, HR.
  - intros r path r' path' p Hr Hr'. apply H4; by apply HR.
Qed.

Lemma mm_of_pgd m m' p :
  keeps_procs m m' -> pgd <$> mm_of m' p = pgd <$> mm_of m p.
Proof.
  intros (Hk & _). apply (f_equal (lookup p)) in Hk. rewrite !lookup_fmap in Hk.
  unfold mm_of. destruct (procs m !! p) as [y|], (procs m' !! p) as [y'|]; simpl in *; try done.
  apply (inj Some) in Hk. unfold erase_fifo, set_krnl in Hk.
  destruct (krnl y) as [k|], (krnl y') as [k'|]; simpl in *; simplify_eq/=; try done.
  unfold set_k_mm in Hk.
  destruct (mm k) as [x|], (mm k') as [x'|]; simpl in *; simplify_eq/=; try done.
  f_equal. unfold set_fifo_pgn in *. congruence.
Qed.

Lemma roots_user m p k x : has_mm m p k x -> roots m (pgd x).
Proof. intros H. exists p, k, x. auto. Qed.
Lemma roots_kernel m p k x : has_mm m p k x -> roots m (krnl_pgd k).
Proof. intros H. exists p, k, x. auto. Qed.
#[export] Hint Resolve roots_user roots_kernel : ossim.

(** ** Lemmas: devices *)

Definition dev_of (m : machine) (d : dev) : memphy_struct :=
  match d with Ram => ram m | Swp => swp m end.
Definition set_dev (m : machine) (d : dev) (v : memphy_struct) : machine :=
  match d with Ram => set_ram m v | Swp => set_swp m v end.

Lemma set_dev_same m d : set_dev m d (dev_of m d) = m.
Proof. by destruct d, m. Qed.
Lemma set_dev_twice m d u v : set_dev (set_dev m d u) d v = set_dev m d v.
Proof. by destruct d. Qed.
Lemma dev_of_set m d v : dev_of (set_dev m d v) d = v.
Proof. by destruct d. Qed.
Lemma dev_of_set_ne m d d' v : d' <> d -> dev_of (set_dev m d v) d' = dev_of m d'.
Proof. by destruct d, d'. Qed.

Lemma on_dev_eq {A} d (op : M memphy_struct A) m :
  on_dev d op m = match op (dev_of m d) with
                  | Ret a v => Ret a (set_dev m d v)
                  | Ub => Ub
                  | Exit v => Exit (set_dev m d v)
                  end.
Proof. by destruct d. Qed.

Lemma dev_read_ok m d a :
  mem_ok (dev_of m d) -> 0 <= a < maxsz (dev_of m d) ->
  dev_read (Some d) a m = Ret (Some (cell (dev_of m d) a)) m.
Proof.
  intros Hm Ha. unfold dev_read. rewrite on_dev_eq, MEMPHY_read_ok by (done || lia).
  by rewrite bool_decide_true, set_dev_same by lia.
Qed.

Lemma dev_write_ok m d a v :
  mem_ok (dev_of m d) -> 0 <= a < maxsz (dev_of m d) ->
  dev_write (Some d) a v m =
  Ret 0 (set_dev m d (set_storage (dev_of m d) (<[a := v]> (storage (dev_of m d))))).
Proof.
  intros Hm Ha. unfold dev_write. rewrite on_dev_eq, MEMPHY_write_ok by (done || lia).
  by rewrite bool_decide_true by lia.
Qed.

(** A byte of a frame of the device is inside the device. *)
Lemma frame_byte_range mp f i :
  mem_ok mp -> 0 <= f < nframes mp -> 0 <= i < PAGING64_PAGESZ ->
  0 <= f * PAGING64_PAGESZ + i < maxsz mp /\
  u64 (f * PAGING64_PAGESZ + i) = f * PAGING64_PAGESZ + i.
Proof.
  unfold mem_ok, nframes, PAGING64_PAGESZ. intros (Hm & _ & _) Hf Hi.
  assert (0 <= f * 4096 + i < maxsz mp) by (Z.div_mod_to_equations; lia).
  split; [done|]. apply u64_small. unfold is_u64. lia.
Qed.

(** Two frames do not overlap. *)
Lemma frame_disjoint f f' i i' :
  0 <= i < PAGING64_PAGESZ -> 0 <= i' < PAGING64_PAGESZ ->
  f * PAGING64_PAGESZ + i = f' * PAGING64_PAGESZ + i' -> f = f' /\ i = i'.
Proof. unfold PAGING64_PAGESZ. lia. Qed.

(** [m'] is [m] with a frame of one device copied over a frame of the other. *)
Definition frame_copied (s : dev) (sf : Z) (d : dev) (df : Z) (m m' : machine) : Prop :=
  exists st, m' = set_dev m d (set_storage (dev_of m d) st) /\
  forall f i, 0 <= i < PAGING64_PAGESZ ->
    cell (dev_of m' d) (f * PAGING64_PAGESZ + i) =
    if bool_decide (f = df) then cell (dev_of m s) (sf * PAGING64_PAGESZ + i)
    else cell (dev_of m d) (f * PAGING64_PAGESZ + i).

Lemma swap_cp_page_spec s sf d df m :
  s <> d -> mem_ok (dev_of m s) -> mem_ok (dev_of m d) ->
  0 <= sf < nframes (dev_of m s) -> 0 <= df < nframes (dev_of m d) ->
  wp (__swap_cp_page (Some s) sf (Some d) df) (fun r m' => r = 0 /\ frame_copied s sf d df m m') m.
Proof.
  intros Hsd Hs Hd Hsf Hdf. unfold __swap_cp_page.
  apply (wp_for_each _ (fun xs m' => exists st,
    m' = set_dev m d (set_storage (dev_of m d) st) /\
    forall f i, 0 <= i < PAGING64_PAGESZ ->
      default 0 (st !! (f * PAGING64_PAGESZ + i)) =
      if bool_decide (f = df /\ i < Z.of_nat (length xs))
      then cell (dev_of m s) (sf * PAGING64_PAGESZ + i)
      else cell (dev_of m d) (f * PAGING64_PAGESZ + i))).
  - exists (storage (dev_of m d)). split; [by destruct d, m as [? ? ? [] [] ? ? ? ? ?]|].
    intros f i Hi. rewrite bool_decide_false; [done|]. simpl. lia.
  - intros xs c ys m1 Hl (st & -> & Hst). destruct (seqZ_split _ _ _ _ Hl) as [Hc Hin].
    destruct (frame_byte_range _ sf c Hs Hsf Hin) as [R1 ->].
    destruct (frame_byte_range _ df c Hd Hdf Hin) as [R2 ->].
    apply wp_bind. eapply wp_eq; [apply dev_read_ok; rewrite dev_of_set_ne; done|].
    apply wp_bind. eapply wp_eq.
    { apply dev_write_ok; rewrite dev_of_set; [by apply mem_ok_set_storage|done]. }
    apply wp_ret. simpl. rewrite dev_of_set, set_dev_twice.
    eexists. split; [reflexivity|]. cbn [storage set_storage].
    rewrite dev_of_set_ne by done. intros f i Hi. rewrite length_app. simpl.
    destruct (decide (f * PAGING64_PAGESZ + i = df * PAGING64_PAGESZ + c)) as [He|He].
    + rewrite He, lookup_insert_eq. apply frame_disjoint in He as [-> ->]; [|done..].
      rewrite bool_decide_true by (split; [done|lia]). done.
    + rewrite lookup_insert_ne by congruence. rewrite Hst by done.
      repeat case_bool_decide; try done; exfalso; [lia|].
      destruct H0 as [-> ?]. assert (i <> c) by congruence. lia.
  - intros m1 (st & -> & Hst). split; [done|]. exists st. split; [done|].
    intros f i Hi. rewrite dev_of_set. unfold cell at 1. cbn [storage set_storage].
    rewrite Hst by done. rewrite length_seqZ. repeat case_bool_decide; try done; lia.
Qed.

(** ** Lemmas: steps that keep the shape *)

Lemma mm_of_inv m p x : vm_shape m -> mm_of m p = Some x -> exists k, has_mm m p k x.
Proof.
  intros HS Hx. unfold mm_of in Hx. destruct (procs m !! p) as [y|] eqn:Hy; [|done].
  destruct (vs_procs m HS p y Hy) as (k & x' & Hp & _).
  pose proof Hp as (_ & y' & Hy' & Hk & Hx')%has_mm_procs. simplify_eq.
  simpl in Hx. rewrite Hk in Hx. simpl in Hx. exists k. congruence.
Qed.

(** The processes are the same up to what the memory system does not depend
    on: registers, areas, regions, page queues. *)
Definition procs_sim (m m' : machine) : Prop :=
  (forall p, is_Some (procs m' !! p) <-> is_Some (procs m !! p)) /\
  (forall p k x, has_mm m p k x -> exists k' x', has_mm m' p k' x' /\ pgd x' = pgd x /\
     krnl_pgd k' = krnl_pgd k /\ mram k' = mram k /\ active_mswp k' = active_mswp k) /\
  sch m' = sch m.

Lemma keeps_procs_sim m m' : keeps_procs m m' -> procs_sim m m'.
Proof.
  intros Hk. pose proof Hk as (Hp & Hs & _). split_and!; [| |done].
  - intros p. apply (f_equal (lookup p)) in Hp. rewrite !lookup_fmap in Hp.
    destruct (procs m !! p), (procs m' !! p); simpl in Hp; try done; split; by intros [].
  - intros p k x H. destruct (keeps_has_mm _ _ _ _ _ Hk H) as (k' & x' & H' & Ek & Ex).
    destruct (erased_fields _ _ _ _ Ek Ex) as (? & ? & ? & ? & _). by exists k', x'.
Qed.

(** A process of the new state is one of the old state. *)
Lemma procs_sim_back m m' p k' x' :
  vm_shape m -> procs_sim m m' -> has_mm m' p k' x' ->
  exists k x, has_mm m p k x /\ pgd x = pgd x' /\ krnl_pgd k = krnl_pgd k' /\
    mram k = mram k' /\ active_mswp k = active_mswp k'.
Proof.
  intros HS (Hd & Hsim & _) Hp'. pose proof Hp' as (_ & y & Hy & _)%has_mm_procs.
  destruct (proj1 (Hd p) (ex_intro _ y Hy)) as [z Hz].
  destruct (vs_procs m HS p z Hz) as (k & x & Hp & _).
  destruct (Hsim p k x Hp) as (k2 & x2 & Hp2 & ? & ? & ? & ?).
  destruct (has_mm_det _ _ _ _ _ _ Hp' Hp2) as [-> ->]. by exists k, x.
Qed.

Lemma procs_sim_roots m m' r : vm_shape m -> procs_sim m m' -> roots m' r -> roots m r.
Proof.
  intros HS Hs (p & k & x & Hp & Hr).
  destruct (procs_sim_back _ _ _ _ _ HS Hs Hp) as (k' & x' & Hp' & E1 & E2 & _).
  exists p, k', x'. split; [done|]. by rewrite E1, E2.
Qed.

Lemma shape_gen m m' :
  vm_shape m -> procs_sim m m' -> mem_ok (ram m') -> mem_ok (swp m') ->
  (forall p k x, has_mm m' p k x -> Forall user_page (fifo_pgn x)) ->
  forest (roots m) (tables m') (next_table m') ->
  (forall p k x g f, has_mm m p k x -> kernel_page g ->
     decode_pte (pte_at (tables m') (krnl_pgd k) g) = Resident f -> f ∈ used_fp_list (ram m')) ->
  (forall p k x g, has_mm m p k x -> page_ok g -> user_pte_ok g (pte_at (tables m') (pgd x) g)) ->
  vm_shape m'.
Proof.
  intros HS Hk Hr Hs Hf HF Hkern Huser.
  assert (back := fun p k' x' => procs_sim_back m m' p k' x' HS Hk).
  split; try done.
  - intros p y' Hy'. pose proof Hk as (Hd & Hsim & _).
    destruct (proj1 (Hd p) (ex_intro _ y' Hy')) as [y Hy].
    destruct (vs_procs m HS p y Hy) as (k & x & Hpk & Hok1 & Hok2 & _).
    destruct (Hsim p k x Hpk) as (k' & x' & Hp' & _ & _ & E1 & E2).
    exists k', x'. split; [done|]. split_and!; [congruence|congruence|by eapply Hf].
  - eapply forest_mono; [|exact HF]. intros r. by apply procs_sim_roots.
  - intros p k x p' k' x' (k0 & x0 & H0 & E0 & _)%back (k1 & x1 & H1 & E1 & _)%back He.
    eapply (vs_pgd m HS); [exact H0|exact H1|congruence].
  - intros p k x p' k' x' (k0 & x0 & H0 & E0 & D0 & _)%back (k1 & x1 & H1 & E1 & D1 & _)%back.
    destruct (vs_kpgd m HS _ _ _ _ _ _ H0 H1). split; congruence.
  - intros p. unfold running. destruct Hk as (Hd & _ & ->). intros Hin.
    destruct (vs_run m HS p Hin) as [->|Hy]; [by left|right]. by apply Hd.
  - intros p k' x' g f (k & x & Hp & _ & <- & _)%back Hg. by apply (Hkern p k x).
  - intros p k' x' g (k & x & Hp & <- & _)%back. by apply (Huser p k x).
Qed.

Lemma shape_sim m m' :
  vm_shape m -> procs_sim m m' -> mem_ok (ram m') -> mem_ok (swp m') ->
  used_fp_list (ram m') = used_fp_list (ram m) ->
  (forall p k x, has_mm m' p k x -> Forall user_page (fifo_pgn x)) ->
  forest (roots m) (tables m') (next_table m') ->
  (forall p k x g, has_mm m p k x -> kernel_page g ->
     pte_at (tables m') (krnl_pgd k) g = pte_at (tables m) (krnl_pgd k) g) ->
  (forall p k x g, has_mm m p k x -> page_ok g -> user_pte_ok g (pte_at (tables m') (pgd x) g)) ->
  vm_shape m'.
Proof.
  intros HS Hk Hr Hs Hu Hf HF Hkern Huser. apply (shape_gen m); try done.
  intros p k x g f Hp Hg. rewrite (Hkern p k x g Hp Hg), Hu. by apply (vs_kern m HS p k x).
Qed.

Lemma shape_step m m' :
  vm_shape m -> keeps_procs m m' -> mem_ok (ram m') -> mem_ok (swp m') ->
  used_fp_list (ram m') = used_fp_list (ram m) ->
  (forall p k x, has_mm m' p k x -> Forall user_page (fifo_pgn x)) ->
  forest (roots m) (tables m') (next_table m') ->
  (forall p k x g, has_mm m p k x -> kernel_page g ->
     pte_at (tables m') (krnl_pgd k) g = pte_at (tables m) (krnl_pgd k) g) ->
  (forall p k x g, has_mm m p k x -> page_ok g -> user_pte_ok g (pte_at (tables m') (pgd x) g)) ->
  vm_shape m'.
Proof. intros HS Hk. apply shape_sim; [done|by apply keeps_procs_sim]. Qed.

Lemma keeps_refl m : keeps m m.
Proof. by repeat split. Qed.

Lemma keeps_procs_trans m1 m2 m3 : keeps_procs m1 m2 -> keeps_procs m2 m3 -> keeps_procs m1 m3.
Proof. unfold keeps_procs. intuition congruence. Qed.

Lemma keeps_trans m1 m2 m3 : keeps m1 m2 -> keeps m2 m3 -> keeps m1 m3.
Proof.
  intros (P1 & (U1 & C1 & K1) & B1) (P2 & (U2 & C2 & K2) & B2). split_and!.
  - by eapply keeps_procs_trans.
  - split_and!; [congruence| |].
    + intros f i Hf Hi. rewrite C2, C1 by (rewrite ?U1; done). done.
    + intros p k x g Hp Hg. destruct (keeps_has_mm _ _ _ _ _ P1 Hp) as (k' & x' & Hp' & Ek & Ex).
      destruct (erased_fields _ _ _ _ Ek Ex) as (_ & E & _).
      rewrite <- (K1 p k x g Hp Hg), <- E. by apply (K2 p k' x').
  - intros p a Ha. by rewrite B2, B1.
Qed.

Lemma has_mm_fifo m p k x : vm_shape m -> has_mm m p k x -> Forall user_page (fifo_pgn x).
Proof.
  intros HS Hp. pose proof Hp as (_ & y & Hy & _)%has_mm_procs.
  destruct (vs_procs m HS p y Hy) as (k' & x' & Hp' & _ & _ & Hf).
  by destruct (has_mm_det _ _ _ _ _ _ Hp Hp') as [_ <-].
Qed.

Lemma has_mm_flags m p k x :
  vm_shape m -> has_mm m p k x -> mram k = true /\ active_mswp k = true.
Proof.
  intros HS Hp. pose proof Hp as (_ & y & Hy & _)%has_mm_procs.
  destruct (vs_procs m HS p y Hy) as (k' & x' & Hp' & H1 & H2 & _).
  destruct (has_mm_det _ _ _ _ _ _ Hp Hp') as [<- _]. done.
Qed.

Lemma page_state_same m m' p g :
  procs m' = procs m -> tables m' = tables m -> page_state m' p g = page_state m p g.
Proof. unfold page_state, mm_of. by intros -> ->. Qed.

(** Contents are kept when every page keeps its bytes. *)
Lemma keeps_bytes_pages m m' :
  (forall p g i, user_page g -> 0 <= i < PAGING64_PAGESZ ->
     page_byte m' (page_state m' p g) i = page_byte m (page_state m p g) i) ->
  keeps_bytes m m'.
Proof.
  intros H p a Ha. unfold vbyte. apply H.
  - unfold user_page, user_addr in *. rewrite addr_pgn_div. Z.div_mod_to_equations. lia.
  - unfold PAGING64_PAGESZ. apply Z.mod_pos_bound. lia.
Qed.

Lemma held_same m m' :
  (forall p g, user_page g -> page_state m' p g = page_state m p g) ->
  (forall o, ram_held m' o = ram_held m o) /\ (forall o, swp_held m' o = swp_held m o).
Proof.
  intros H. unfold ram_held, swp_held. split; intros [p g]; simpl; case_decide; try done; by rewrite H.
Qed.

(** The invariant is kept by a change that keeps pages and frame lists. *)
Lemma inv_same_pages E F m m' :
  vm_inv E F m -> vm_shape m' -> ram_lists m' = ram_lists m -> swp_lists m' = swp_lists m ->
  nframes (ram m') = nframes (ram m) -> nframes (swp m') = nframes (swp m) ->
  (forall p g, user_page g -> page_state m' p g = page_state m p g) -> vm_inv E F m'.
Proof.
  intros [HS HR HW] HS' L1 L2 N1 N2 Hpg. destruct (held_same m m' Hpg) as [H1 H2]. split; [done| |].
  - rewrite N1, L1. by eapply exclusive_ext.
  - rewrite N2, L2. by eapply exclusive_ext.
Qed.

(** Page-table work that keeps the flat map. *)
Lemma inv_pt_step E F m m' :
  vm_inv E F m -> pt_step (roots m) m m' ->
  vm_inv E F m' /\ keeps m m' /\ forall p g, page_state m' p g = page_state m p g.
Proof.
  intros HI ((Hp & Hr & Hs & Hc & Ho) & HF & _ & Hpte). pose proof (vi_shape _ _ _ HI) as HS.
  assert (Hps : forall p g, page_state m' p g = page_state m p g).
  { intros p g. unfold page_state, mm_of. rewrite Hp.
    destruct ((procs m !! p ≫= krnl) ≫= mm) as [x|] eqn:Hx; [|done].
    destruct (mm_of_inv m p x HS Hx) as [k Hk]. rewrite Hpte; eauto with ossim. }
  assert (Hkern : forall p k x g, has_mm m p k x -> kernel_page g ->
            pte_at (tables m') (krnl_pgd k) g = pte_at (tables m) (krnl_pgd k) g)
    by (intros; apply Hpte; eauto with ossim).
  assert (Hkp : keeps_procs m m') by (unfold keeps_procs; by rewrite Hp, Hr, Hs, Hc, Ho).
  split_and!; [| |done].
  - eapply inv_same_pages; [done| |by unfold ram_lists, swp_lists; rewrite ?Hr, ?Hs..|by intros; apply Hps].
    apply (shape_step m); rewrite ?Hr, ?Hs; try done; try apply HS.
    + intros p k x Hpk. eapply (has_mm_fifo m); [done|]. eapply has_mm_same; [|exact Hpk]. done.
    + intros p k x g Hpk Hg. rewrite Hpte by eauto with ossim. by apply (vs_user m HS p k x).
  - split_and!; [done| |].
    + split_and!; [by rewrite Hr|by rewrite Hr|done].
    + apply keeps_bytes_pages. intros p g i Hg Hi. rewrite Hps. unfold page_byte. by rewrite Hr, Hs.
Qed.

(** A step that keeps every page where it is; frames may move between the
    lists of a device and the variables of the operation. *)
Definition quiet (E F : list Z) (m m' : machine) : Prop :=
  vm_inv E F m' /\ keeps m m' /\ forall p g, page_state m' p g = page_state m p g.

Lemma quiet_refl E F m : vm_inv E F m -> quiet E F m m.
Proof. intros H. split_and!; [done|apply keeps_refl|done]. Qed.

Lemma quiet_trans E F E' F' m1 m2 m3 : quiet E F m1 m2 -> quiet E' F' m2 m3 -> quiet E' F' m1 m3.
Proof.
  intros (_ & K1 & P1) (? & K2 & P2). split_and!; [done|by eapply keeps_trans|].
  intros p g. by rewrite P2, P1.
Qed.

Lemma quiet_has_mm E F m m' p k x :
  quiet E F m m' -> has_mm m p k x ->
  exists k' x', has_mm m' p k' x' /\
    set_k_mm k' None = set_k_mm k None /\ set_fifo_pgn x' [] = set_fifo_pgn x [].
Proof. intros (_ & (HP & _) & _). by apply keeps_has_mm. Qed.

(** One entry of a user page changed. *)
Lemma shape_pt_upd m m' p k x g v :
  vm_shape m -> has_mm m p k x -> user_page g -> PAGING64_PAGE_PRESENT v && PAGING64_PAGE_SWAPPED v = false ->
  pt_upd (roots m) (pgd x) g v m m' ->
  vm_shape m' /\ keeps_procs m m' /\ keeps_kernel m m' /\
  forall p' g', user_page g' ->
    page_state m' p' g' = if bool_decide (p' = p /\ g' = g) then decode_pte v else page_state m p' g'.
Proof.
  intros HS Hpk Hg Hv ((Hp & Hr & Hs & Hc & Ho) & HF & _ & Hpte).
  assert (Hkern : forall q k x g, has_mm m q k x -> kernel_page g ->
            pte_at (tables m') (krnl_pgd k) g = pte_at (tables m) (krnl_pgd k) g).
  { intros q kq xq gq Hq Hgq. rewrite Hpte; [|eauto with ossim|by right].
    rewrite bool_decide_false; [done|]. intros [He _].
    by destruct (vs_kpgd m HS _ _ _ _ _ _ Hpk Hq) as [_ []]. }
  assert (Hkp : keeps_procs m m') by (unfold keeps_procs; by rewrite Hp, Hr, Hs, Hc, Ho).
  split; [|split; [done|split; [by split_and!; [rewrite Hr|rewrite Hr|]|]]].
  - apply (shape_step m); rewrite ?Hr, ?Hs; try done; try apply HS.
    + intros q kq xq Hq. eapply (has_mm_fifo m); [done|]. eapply has_mm_same; [|exact Hq]. done.
    + intros q kq xq g' Hq Hg'. rewrite Hpte by eauto with ossim. case_bool_decide as Hc'; [|by apply (vs_user m HS q kq xq)].
      destruct Hc' as [_ ->]. split; [|done]. unfold kernel_page, user_page in *. lia.
  - intros p' g' Hg'. unfold page_state, mm_of. rewrite Hp. fold (mm_of m p').
    destruct (mm_of m p') as [x'|] eqn:Hx'.
    + destruct (mm_of_inv m p' x' HS Hx') as [k' Hk']. rewrite Hpte; [|eauto with ossim|by left].
      repeat case_bool_decide; try done; exfalso.
      * destruct H as [He ->]. apply H0. split; [|done]. by eapply (vs_pgd m HS).
      * destruct H0 as [-> ->]. apply H. split; [|done].
        by destruct (has_mm_det _ _ _ _ _ _ Hpk Hk') as [_ ->].
    + rewrite bool_decide_false; [done|]. intros [-> _].
      by rewrite (mm_of_has_mm _ _ _ _ Hpk) in Hx'.
Qed.

Lemma upd_mm_eq m p k x y f :
  procs m !! p = Some y -> krnl y = Some k -> mm k = Some x ->
  upd_mm p f m =
  Ret tt (set_procs m (<[p := set_krnl y (Some (set_k_mm k (Some (f x))))]> (procs m))).
Proof.
  intros Hy Hk Hx. unfold upd_mm, upd_krnl, bind, get_pcb, put_pcb. rewrite Hy, Hk. simpl.
  by rewrite Hx.
Qed.

(** The page queue of one process changed. *)
Lemma upd_fifo_spec E F m p k x (f : mm_struct -> list Z) :
  vm_inv E F m -> has_mm m p k x -> Forall user_page (f x) ->
  wp (upd_mm p (fun y => set_fifo_pgn y (f y))) (fun _ m' =>
    quiet E F m m' /\ has_mm m' p (set_k_mm k (Some (set_fifo_pgn x (f x)))) (set_fifo_pgn x (f x)) /\
    tables m' = tables m /\ ram m' = ram m /\ swp m' = swp m) m.
Proof.
  intros HI Hpk Hf. pose proof Hpk as (Hp0 & y & Hy & Hk & Hx)%has_mm_procs.
  pose proof (vi_shape _ _ _ HI) as HS.
  eapply wp_eq; [by eapply upd_mm_eq|].
  set (m' := set_procs m _).
  assert (Hkp : keeps_procs m m').
  { split; [|done]. unfold m'. cbn [procs set_procs]. rewrite fmap_insert.
    apply map_eq. intros q. destruct (decide (q = p)) as [->|Hq].
    - rewrite lookup_insert_eq, lookup_fmap, Hy. simpl. unfold erase_fifo. simpl. rewrite Hk. simpl.
      by rewrite Hx.
    - by rewrite lookup_insert_ne by done. }
  assert (Hps : forall q g, page_state m' q g = page_state m q g).
  { intros q g. pose proof (mm_of_pgd m m' q Hkp) as Hq. unfold page_state.
    destruct (mm_of m q), (mm_of m' q); simpl in Hq; simplify_eq; [|done]. by rewrite Hq. }
  assert (Hnew : has_mm m' p (set_k_mm k (Some (set_fifo_pgn x (f x)))) (set_fifo_pgn x (f x))).
  { apply has_mm_procs. split; [done|]. eexists. unfold m'. cbn [procs set_procs].
    by rewrite lookup_insert_eq. }
  assert (HS' : vm_shape m').
  { apply (shape_step m); try done; try apply HS.
    intros q kq xq Hq. destruct (decide (q = p)) as [->|Hne].
    - by destruct (has_mm_det _ _ _ _ _ _ Hnew Hq) as [_ ->].
    - apply (has_mm_fifo m q kq xq HS). apply has_mm_procs. apply has_mm_procs in Hq.
      unfold m' in Hq. cbn [procs set_procs] in Hq. by rewrite lookup_insert_ne in Hq by done. }
  split_and!; try done. split_and!; [|split_and!|done]; try done.
  - by eapply inv_same_pages.
  - apply keeps_bytes_pages. intros q g i _ _. by rewrite Hps.
Qed.

Lemma malloc_spec E F m :
  vm_inv E F m ->
  wp malloc (fun b m' => quiet E F m m' /\ procs m' = procs m /\ tables m' = tables m /\
                ram m' = ram m /\ swp m' = swp m /\ (b = false -> may_oom m)) m.
Proof.
  intros HI. unfold wp, malloc. split_and!; try done.
  - apply (inv_pt_step E F m); [done|]. apply pt_step_tables; try done. apply HI.
  - intros H. exists (mallocs m). by apply negb_false_iff in H.
Qed.

(** ** Lemmas: frame lists *)

(** A device with another free list, and nothing else changed. *)
Lemma shape_set_free m d l :
  vm_shape m -> vm_shape (set_dev m d (set_free (dev_of m d) l)).
Proof.
  intros HS. apply (shape_step m); try done; destruct d; try apply HS; done || idtac.
  all: intros p k x Hp; eapply (has_mm_fifo m); [done|]; by eapply has_mm_same; [|exact Hp].
Qed.

Lemma keeps_set_free m d l : keeps m (set_dev m d (set_free (dev_of m d) l)).
Proof. by destruct d. Qed.

Lemma page_state_set_free m d l p g :
  page_state (set_dev m d (set_free (dev_of m d) l)) p g = page_state m p g.
Proof. by destruct d. Qed.

Lemma inv_set_free_ram E E' F m l :
  vm_inv E F m -> l ++ used_fp_list (ram m) ++ E' ⊆+ ram_lists m ++ E ->
  vm_inv E' F (set_dev m Ram (set_free (ram m) l)).
Proof.
  intros [HS HR HW] Hl. split; [by apply (shape_set_free m Ram)| |exact HW].
  eapply exclusive_sub; [exact HR|]. unfold ram_lists. simpl. by rewrite <- app_assoc.
Qed.

Lemma inv_set_free_swp E F F' m l :
  vm_inv E F m -> l ++ used_fp_list (swp m) ++ F' ⊆+ swp_lists m ++ F ->
  vm_inv E F' (set_dev m Swp (set_free (swp m) l)).
Proof.
  intros [HS HR HW] Hl. split; [by apply (shape_set_free m Swp)|exact HR|].
  eapply exclusive_sub; [exact HW|]. unfold swp_lists. simpl. by rewrite <- app_assoc.
Qed.

Lemma ram_get_spec E F m :
  vm_inv E F m ->
  wp (dev_get_freefp (Some Ram)) (fun o m' => match o with
    | None => m' = m /\ free_fp_list (ram m) = []
    | Some f => quiet (f :: E) F m m' /\ procs m' = procs m end) m.
Proof.
  intros HI. unfold wp, dev_get_freefp. rewrite on_dev_eq. unfold MEMPHY_get_freefp. simpl.
  destruct (free_fp_list (ram m)) as [|f l] eqn:Hl; [by destruct m|].
  split; [|done]. split_and!; [|apply (keeps_set_free m Ram)|apply (page_state_set_free m Ram)].
  apply (inv_set_free_ram E); [done|]. unfold ram_lists. rewrite Hl. solve_submseteq.
Qed.

Lemma swp_get_spec E F m :
  vm_inv E F m ->
  wp (dev_get_freefp (Some Swp)) (fun o m' => match o with
    | None => m' = m /\ free_fp_list (swp m) = []
    | Some f => quiet E (f :: F) m m' /\ procs m' = procs m /\ tables m' = tables m end) m.
Proof.
  intros HI. unfold wp, dev_get_freefp. rewrite on_dev_eq. unfold MEMPHY_get_freefp. simpl.
  destruct (free_fp_list (swp m)) as [|f l] eqn:Hl; [by destruct m|].
  split; [|split; done]. split_and!; [|apply (keeps_set_free m Swp)|apply (page_state_set_free m Swp)].
  apply (inv_set_free_swp E F); [done|]. unfold swp_lists. rewrite Hl. solve_submseteq.
Qed.

(** Fewer frames in the variables: a frame may be dropped. *)
Lemma inv_drop E F E' F' m : vm_inv E F m -> E' ⊆+ E -> F' ⊆+ F -> vm_inv E' F' m.
Proof.
  intros [HS HR HW] HE HF. split; [done| |].
  - eapply exclusive_sub; [exact HR|]. by apply submseteq_app.
  - eapply exclusive_sub; [exact HW|]. by apply submseteq_app.
Qed.

Lemma put_spec d E F E' F' f m :
  vm_inv E F m -> (d = Ram -> E = f :: E' /\ F = F') -> (d = Swp -> F = f :: F' /\ E = E') ->
  wp (dev_put_freefp (Some d) f) (fun _ m' => quiet E' F' m m' /\ procs m' = procs m /\
    tables m' = tables m) m.
Proof.
  intros HI HR HW. unfold dev_put_freefp. apply wp_bind.
  eapply wp_mono; [by apply malloc_spec|]. intros ok m1 (HQ & Hp & Ht & _).
  unfold wp. rewrite on_dev_eq. unfold MEMPHY_put_freefp.
  pose proof (proj1 HQ) as HI1. destruct ok.
  - split_and!; [|by destruct d|by destruct d]. eapply quiet_trans; [exact HQ|].
    split_and!; [|apply keeps_set_free|apply page_state_set_free]. destruct d.
    + destruct HR as [-> ->]; [done|]. apply (inv_set_free_ram (f :: E')); [done|].
      unfold ram_lists. simpl. solve_submseteq.
    + destruct HW as [-> ->]; [done|]. apply (inv_set_free_swp E' (f :: F')); [done|].
      unfold swp_lists. simpl. solve_submseteq.
  - rewrite set_dev_same. split_and!; [|done|done]. destruct HQ as (_ & HK & HP).
    split_and!; [|done|done]. eapply inv_drop; [exact HI1| |].
    + destruct d; [destruct HR as [-> _]|destruct HW as [_ ->]]; try done. solve_submseteq.
    + destruct d; [destruct HR as [_ ->]|destruct HW as [-> _]]; try done. solve_submseteq.
Qed.

Lemma ram_put_spec E F f m :
  vm_inv (f :: E) F m ->
  wp (dev_put_freefp (Some Ram) f) (fun _ m' => quiet E F m m' /\ procs m' = procs m /\
    tables m' = tables m) m.
Proof. intros HI. by apply (put_spec Ram (f :: E) F). Qed.

Lemma swp_put_spec E F f m :
  vm_inv E (f :: F) m ->
  wp (dev_put_freefp (Some Swp) f) (fun _ m' => quiet E F m m' /\ procs m' = procs m /\
    tables m' = tables m) m.
Proof. intros HI. by apply (put_spec Swp E (f :: F)). Qed.

(** ** Lemmas: changing the record of one process *)

(** Nothing but process records changed. *)
Definition same_mem (m m' : machine) : Prop :=
  tables m' = tables m /\ next_table m' = next_table m /\ ram m' = ram m /\ swp m' = swp m /\
  sch m' = sch m /\ oom m' = oom m.

Lemma put_pcb_inv E F m p y y' k x k' x' :
  vm_inv E F m -> procs m !! p = Some y -> krnl y = Some k -> mm k = Some x ->
  krnl y' = Some k' -> mm k' = Some x' ->
  pgd x' = pgd x -> krnl_pgd k' = krnl_pgd k -> mram k' = mram k ->
  active_mswp k' = active_mswp k -> Forall user_page (fifo_pgn x') ->
  let m' := set_procs m (<[p := y']> (procs m)) in
  vm_inv E F m' /\ has_mm m' p k' x' /\ same_mem m m' /\
  (forall q g, page_state m' q g = page_state m q g) /\ keeps_kernel m m' /\ keeps_bytes m m'.
Proof.
  intros HI Hy Hk Hx Hk' Hx' E1 E2 E3 E4 Hf m'. pose proof (vi_shape _ _ _ HI) as HS.
  assert (Hp0 : p <> 0) by (destruct (vs_procs m HS p y Hy) as (? & ? & (? & _) & _); done).
  assert (Hnew : has_mm m' p k' x').
  { apply has_mm_procs. split; [done|]. exists y'. unfold m'. cbn [procs set_procs].
    by rewrite lookup_insert_eq. }
  assert (Hold : forall q kq xq, q <> p -> has_mm m' q kq xq <-> has_mm m q kq xq).
  { intros q kq xq Hq. rewrite !has_mm_procs. unfold m'. cbn [procs set_procs].
    by rewrite lookup_insert_ne by done. }
  assert (Hsim : procs_sim m m').
  { split_and!; [| |done].
    - intros q. unfold m'. cbn [procs set_procs]. destruct (decide (q = p)) as [->|Hq].
      + rewrite lookup_insert_eq, Hy. split; by eexists.
      + by rewrite lookup_insert_ne by done.
    - intros q kq xq Hq. destruct (decide (q = p)) as [->|Hne].
      + assert (has_mm m p k x) as Hpk by (apply has_mm_procs; eauto).
        destruct (has_mm_det _ _ _ _ _ _ Hpk Hq) as [-> ->]. by exists k', x'.
      + exists kq, xq. split; [by apply Hold|done]. }
  assert (Hps : forall q g, page_state m' q g = page_state m q g).
  { intros q g. unfold page_state. unfold m' at 2. cbn [tables set_procs].
    destruct (decide (q = p)) as [->|Hq].
    - rewrite (mm_of_has_mm _ _ _ _ Hnew), (mm_of_has_mm m p k x) by (apply has_mm_procs; eauto).
      by rewrite E1.
    - unfold mm_of, m'. cbn [procs set_procs]. by rewrite lookup_insert_ne by done. }
  split; [|split; [done|split; [done|split; [done|split]]]].
  - eapply inv_same_pages; [exact HI| |done|done|done|done|by intros; apply Hps].
    apply (shape_sim m); try done; try apply HS. intros q kq xq Hq.
    destruct (decide (q = p)) as [->|Hne].
    + by destruct (has_mm_det _ _ _ _ _ _ Hnew Hq) as [_ ->].
    + apply (has_mm_fifo m q kq xq HS). by apply Hold.
  - done.
  - apply keeps_bytes_pages. intros q g i _ _. by rewrite Hps.
Qed.

(** A process without its kernel record. *)
Definition bare (y : pcb_t) : pcb_t := set_krnl y None.

(** [upd_mm] with a change of anything but the root table and the page queue. *)
Lemma upd_mm_spec E F m p k x f :
  vm_inv E F m -> has_mm m p k x -> pgd (f x) = pgd x -> fifo_pgn (f x) = fifo_pgn x ->
  wp (upd_mm p f) (fun _ m' =>
    vm_inv E F m' /\ has_mm m' p (set_k_mm k (Some (f x))) (f x) /\ same_mem m m' /\
    (forall q, q <> p -> procs m' !! q = procs m !! q) /\ bare <$> procs m' = bare <$> procs m /\
    (forall q g, page_state m' q g = page_state m q g) /\ keeps_kernel m m' /\ keeps_bytes m m') m.
Proof.
  intros HI Hp E1 E2. pose proof Hp as (Hp0 & y & Hy & Hk & Hx)%has_mm_procs.
  eapply wp_eq; [by eapply upd_mm_eq|].
  destruct (put_pcb_inv E F m p y (set_krnl y (Some (set_k_mm k (Some (f x))))) k x
    (set_k_mm k (Some (f x))) (f x)) as (? & ? & ? & ? & ? & ?); try done.
  { rewrite E2. by eapply has_mm_fifo; [apply HI|]. }
  split_and!; try done; cbn [procs set_procs].
  - intros q Hq. by rewrite lookup_insert_ne by done.
  - rewrite fmap_insert. apply map_eq. intros q. destruct (decide (q = p)) as [->|Hq].
    + by rewrite lookup_insert_eq, lookup_fmap, Hy.
    + by rewrite lookup_insert_ne by done.
Qed.

(** ** The invariant of a fresh machine *)

Lemma pte_at_empty T r g : T !! r = Some ∅ -> pte_at T r g = 0.
Proof.
  intros HT. unfold pte_at, page_path. simpl. unfold reach. cbn [foldl].
  replace (Some r ≫= fun p => child T p _) with (@None Z); [done|].
  unfold child, entry. simpl. rewrite HT. done.
Qed.

Lemma demo_page_state p g : page_state demo p g = Unmapped.
Proof.
  unfold page_state, mm_of, demo. cbn [procs tables]. destruct (decide (p = 100)) as [->|Hp].
  - rewrite lookup_singleton_eq. simpl. by rewrite pte_at_empty.
  - by rewrite lookup_singleton_ne.
Qed.

Lemma demo_procs_inv p k x : has_mm demo p k x -> p = 100 /\ k = demo_krnl /\ x = demo_mm.
Proof.
  intros (_ & y & Hy & Hk & Hx)%has_mm_procs. unfold demo in Hy. cbn [procs] in Hy.
  apply lookup_singleton_Some in Hy as [<- <-]. simpl in Hk. injection Hk as <-.
  simpl in Hx. by injection Hx as <-.
Qed.

Lemma demo_shape : vm_shape demo.
Proof.
  pose proof (fresh_memphy_ok 16384 ltac:(lia)) as (Hm & _).
  split; try done.
  - intros p x Hx. assert (p = 100) as ->.
    { unfold demo in Hx. cbn [procs] in Hx. by apply lookup_singleton_Some in Hx as [<- _]. }
    exists demo_krnl, demo_mm. split; [apply demo_has_mm|]. by repeat split.
  - eapply forest_mono; [|apply demo_forest]. intros r (p & k & x & Hp & Hr).
    apply demo_procs_inv in Hp as (-> & -> & ->). destruct Hr as [-> | ->]; [by right|by left].
  - intros p k x p' k' x' (-> & _)%demo_procs_inv (-> & _)%demo_procs_inv. done.
  - by intros p k x p' k' x' (_ & -> & ->)%demo_procs_inv (_ & -> & ->)%demo_procs_inv.
  - intros p. replace (running demo) with [100] by (vm_compute; reflexivity).
    intros ->%list_elem_of_singleton. right. by eexists.
  - intros p k x g f (_ & -> & _)%demo_procs_inv _. simpl.
    rewrite pte_at_empty, decode_zero by done. done.
  - intros p k x g (_ & _ & ->)%demo_procs_inv _. simpl. by rewrite pte_at_empty.
Qed.

(** The frames of a fresh device, none of them held. *)
Lemma fresh_exclusive (held : Z * Z -> option Z) :
  (forall o, held o = None) ->
  exclusive (nframes (fresh_memphy 16384)) ((free_fp_list (fresh_memphy 16384) ++ used_fp_list (fresh_memphy 16384)) ++ []) held.
Proof.
  intros Hh. replace (_ ++ []) with [0; 1; 2; 3] by (vm_compute; reflexivity).
  replace (nframes _) with 4 by (vm_compute; reflexivity). split.
  - by apply (bool_decide_unpack _).
  - intros f Hf. repeat (apply elem_of_cons in Hf as [->|Hf]; [lia|]). by apply elem_of_nil in Hf.
  - intros o f. by rewrite Hh.
  - intros o o' f. by rewrite Hh.
Qed.

Lemma demo_inv : vm_inv [] [] demo.
Proof.
  split; [apply demo_shape| |]; apply fresh_exclusive; intros [p g]; [unfold ram_held|unfold swp_held]; simpl;
    rewrite demo_page_state; by case_decide.
Qed.
