(* ===== verification/Evict.v ===== *)
(** * Page replacement ([src/mm64.c], [src/libmem.c])

    Proofs about choosing a victim page, moving it to swap, and allocating
    frames: every step keeps the invariant and all contents of virtual memory,
    and the victim is the oldest resident page of its process. *)

From S2P Require Import Prelude.
From S2P Require Import Word.
From S2P Require Import Exclusive.
From S2P Require Import Paging.
From S2P Require Import Queue.
From S2P Require Import Sched.
From S2P Require Import MemPhy.
From S2P Require Import Region.
From S2P Require Import Machine.
From S2P Require Import PageTable.
From S2P Require Import Swap.
From S2P Require Import Vm.

(** The entry of a user page, and the test a victim has to pass. *)
Definition user_pte (m : machine) (p g : Z) : Z :=
  match mm_of m p with Some x => pte_at (tables m) (pgd x) g | None => 0 end.
Definition evictable (m : machine) (p g : Z) : bool :=
  PAGING64_PAGE_PRESENT (user_pte m p g) && negb (PAGING64_PAGE_SWAPPED (user_pte m p g)).

Lemma page_state_user_pte m p g : page_state m p g = decode_pte (user_pte m p g).
Proof. unfold page_state, user_pte. destruct (mm_of m p); [done|]. by rewrite decode_zero. Qed.

Lemma evictable_resident m p g :
  evictable m p g = true -> page_state m p g = Resident (PAGING64_PTE_FPN (user_pte m p g)).
Proof.
  rewrite page_state_user_pte. unfold evictable, decode_pte.
  by intros [-> _]%andb_true_iff.
Qed.

Lemma is_kernel_user_page g : user_page g -> is_kernel_address (pgn_addr g) = false.
Proof.
  intros Hg. unfold user_page in Hg. rewrite pgn_addr_mul by lia.
  rewrite is_kernel_address_spec.
  - rewrite bool_decide_false; [done|]. unfold kernel_addr. lia.
  - unfold is_u64. lia.
  - left. unfold user_addr. lia.
Qed.

Lemma root_for_user k x g : user_page g -> root_for k x g = pgd x.
Proof. intros Hg. unfold root_for. by rewrite is_kernel_user_page. Qed.

(** Reading the entry of a user page. *)
Lemma user_pte_spec E F m p k x g :
  vm_inv E F m -> has_mm m p k x -> user_page g ->
  wp (pte_get_entry p g) (fun v m' => v = user_pte m p g /\ pt_step (roots m) m m') m.
Proof.
  intros HI Hp Hg. eapply wp_mono.
  - apply (pte_get_spec (roots m) m p k x); try done; [apply HI|by left|].
    rewrite root_for_user by done. eauto with ossim.
  - intros v m' [-> Hs]. split; [|done]. unfold user_pte.
    by rewrite (mm_of_has_mm _ _ _ _ Hp), root_for_user.
Qed.

Lemma user_pte_step R m m' p g :
  roots m = R -> vm_shape m -> pt_step R m m' -> user_pte m' p g = user_pte m p g.
Proof.
  intros <- HS ((Hp & _) & _ & _ & Hpte). unfold user_pte, mm_of. rewrite Hp. fold (mm_of m p).
  destruct (mm_of m p) as [x|] eqn:Hx; [|done]. destruct (mm_of_inv m p x HS Hx) as [k Hk].
  rewrite Hpte; eauto with ossim.
Qed.

(** ** The victim of one process *)

Lemma find_victim_page_spec E F m p k x :
  vm_inv E F m -> has_mm m p k x ->
  wp (find_victim_page p) (fun o m' => match o with
    | None => m' = m /\ fifo_pgn x = []
    | Some g => exists l k' x', quiet E F m m' /\ fifo_pgn x = l ++ [g] /\ user_page g /\
        has_mm m' p k' x' /\ fifo_pgn x' = l /\ forall p g, user_pte m' p g = user_pte m p g
    end) m.
Proof.
  intros HI Hp. pose proof (has_mm_fifo m p k x (vi_shape _ _ _ HI) Hp) as Hu.
  unfold find_victim_page. apply wp_bind. eapply wp_eq; [by eapply get_mm_ok|].
  cbv beta iota. destruct (last (fifo_pgn x)) as [g|] eqn:Hlast.
  2:{ apply wp_ret. split; [done|]. by apply last_None. }
  apply last_Some in Hlast as [l Hf]. rewrite Hf in Hu. apply Forall_app in Hu as [Hl [Hg _]%Forall_cons_1].
  assert (Ht : take (length (fifo_pgn x) - 1) (fifo_pgn x) = l).
  { rewrite Hf, length_app. simpl. rewrite Nat.add_sub. apply take_app_length. }
  apply wp_bind. eapply wp_mono.
  - apply (upd_fifo_spec E F m p k x (fun y => take (length (fifo_pgn y) - 1) (fifo_pgn y)) HI Hp).
    by rewrite Ht.
  - intros _ m' (HQ & Hm' & Htb & _). rewrite Ht in Hm'. apply wp_ret.
    eexists l, _, _. split_and!; try done.
    intros q gq. unfold user_pte. rewrite Htb. pose proof (mm_of_pgd m m' q (proj1 (proj1 (proj2 HQ)))) as Hq.
    destruct (mm_of m q), (mm_of m' q); simpl in Hq; simplify_eq; [|done]. by rewrite Hq.
Qed.

Definition victim_post (E F : list Z) (m : machine) (p : Z) (x : mm_struct)
    (o : option (Z * Z)) (m' : machine) : Prop :=
  quiet E F m m' /\ (forall p g, user_pte m' p g = user_pte m p g) /\
  match o with
  | None => forall g, g ∈ fifo_pgn x -> evictable m p g = false
  | Some (g, pte) => user_page g /\ pte = user_pte m p g /\ evictable m p g = true /\
      exists l1 l2, fifo_pgn x = l1 ++ g :: l2 /\ forall g', g' ∈ l2 -> evictable m p g' = false
  end.

Lemma victim_loop_spec E F p fuel : forall m k x,
  vm_inv E F m -> has_mm m p k x -> (length (fifo_pgn x) < fuel)%nat ->
  wp (victim_loop p fuel) (victim_post E F m p x) m.
Proof.
  induction fuel as [|fuel IH]; intros m k x HI Hp Hfuel; [lia|].
  simpl. apply wp_bind. eapply wp_mono; [by apply (find_victim_page_spec E F m p k x)|].
  intros [g|] m1.
  2:{ intros [-> Hf]. apply wp_ret. split_and!; [by apply quiet_refl|done|].
      intros g. rewrite Hf. by intros []%elem_of_nil. }
  intros (l & k1 & x1 & HQ1 & Hf & Hg & Hp1 & Hf1 & Hpte1).
  pose proof (proj1 HQ1) as HI1. apply wp_bind.
  eapply wp_mono; [by eapply user_pte_spec|]. intros v m2 [-> Hs2].
  pose proof (inv_pt_step _ _ _ _ HI1 Hs2) as HQ2.
  assert (Hpte2 : forall p g, user_pte m2 p g = user_pte m p g).
  { intros q gq. rewrite (user_pte_step _ _ _ _ _ eq_refl (vi_shape _ _ _ HI1) Hs2). apply Hpte1. }
  assert (HQ : quiet E F m m2) by (eapply quiet_trans; [exact HQ1|exact HQ2]).
  rewrite Hpte1. fold (evictable m p g). destruct (evictable m p g) eqn:He.
  - apply wp_ret. split_and!; try done. exists l, []. split; [done|]. intros g' []%elem_of_nil.
  - assert (Hp2 : has_mm m2 p k1 x1) by (eapply has_mm_same; [apply Hs2|done]).
    eapply wp_mono; [apply (IH m2 k1 x1 (proj1 HQ2) Hp2)|].
    { rewrite Hf1. rewrite Hf, length_app in Hfuel. simpl in Hfuel. lia. }
    intros o m' (HQ' & Hpte' & Ho).
    assert (Hev : forall g, evictable m2 p g = evictable m p g)
      by (intros g'; unfold evictable; by rewrite Hpte2).
    split_and!; [by eapply quiet_trans|intros q gq; by rewrite Hpte'|].
    rewrite Hf1 in Ho. destruct o as [[g' pte]|].
    + destruct Ho as (Hg' & -> & He' & l1 & l2 & -> & Hl2). rewrite Hev in He'.
      split_and!; [done|by rewrite Hpte2|done|]. exists l1, (l2 ++ [g]). split.
      * rewrite Hf. by rewrite <- app_assoc.
      * intros g2 [Hin| ->%list_elem_of_singleton]%elem_of_app; [|done]. rewrite <- Hev. by apply Hl2.
    + intros g'. rewrite Hf. intros [Hin| ->%list_elem_of_singleton]%elem_of_app; [|done].
      rewrite <- Hev. by apply Ho.
Qed.

Lemma find_present_victim_spec E F m p k x :
  vm_inv E F m -> has_mm m p k x ->
  wp (find_present_victim_in_proc p) (victim_post E F m p x) m.
Proof.
  intros HI Hp. unfold find_present_victim_in_proc. apply wp_bind.
  eapply wp_eq; [by eapply get_mm_ok|]. eapply victim_loop_spec; eauto.
Qed.

(** ** The victim of the whole system *)

Definition global_post (E F : list Z) (m : machine) (o : option (Z * Z * Z)) (m' : machine) : Prop :=
  quiet E F m m' /\ (forall p g, user_pte m' p g = user_pte m p g) /\
  match o with
  | None => True
  | Some (q, g, pte) => user_page g /\ pte = user_pte m q g /\ evictable m q g = true
  end.

Lemma victim_scan_spec E F caller l : forall m,
  vm_inv E F m -> (forall q, q ∈ l -> q = 0 \/ is_Some (procs m !! q)) ->
  wp (victim_scan caller l) (global_post E F m) m.
Proof.
  induction l as [|q l IH]; intros m HI Hl; simpl.
  { apply wp_ret. split_and!; [by apply quiet_refl|done|done]. }
  destruct (bool_decide (q = 0) || bool_decide (q = caller)) eqn:Hq.
  { apply IH; [done|]. intros q' Hq'. apply Hl. by right. }
  apply orb_false_iff in Hq as [Hq0%bool_decide_eq_false _].
  destruct (Hl q ltac:(left)) as [?|[y Hy]]; [done|].
  destruct (vs_procs m (vi_shape _ _ _ HI) q y Hy) as (k & x & Hqk & _).
  apply wp_bind. eapply wp_mono; [by eapply find_present_victim_spec|].
  intros [[g pte]|] m1 (HQ & Hpte & Ho).
  - apply wp_ret. destruct Ho as (Hg & Hp & He & _). by split_and!.
  - eapply wp_mono; [apply (IH m1 (proj1 HQ))|].
    + intros q' Hq'. destruct (Hl q' ltac:(by right)) as [?|[y' Hy']]; [by left|right].
      destruct HQ as (_ & ((Hkp & _) & _) & _). apply (f_equal (lookup q')) in Hkp.
      rewrite !lookup_fmap, Hy' in Hkp. destruct (procs m1 !! q'); [by eexists|done].
    + intros o m' (HQ' & Hpte' & Ho'). split_and!; [by eapply quiet_trans|intros; by rewrite Hpte'|].
      destruct o as [[[q' g'] pte']|]; [|done]. destruct Ho' as (? & -> & He).
      unfold evictable in *. rewrite Hpte in He |- *. done.
Qed.

Lemma find_global_victim_spec E F m p k x :
  vm_inv E F m -> has_mm m p k x ->
  wp (find_global_victim p) (fun o m' => global_post E F m o m' /\
    (o = None -> forall g, g ∈ fifo_pgn x -> evictable m p g = false)) m.
Proof.
  intros HI Hp. unfold find_global_victim. apply wp_bind.
  eapply wp_mono; [by eapply find_present_victim_spec|]. intros [[g pte]|] m1 (HQ & Hpte & Ho).
  { apply wp_ret. destruct Ho as (Hg & Hp' & He & _). split; [by split_and!|done]. }
  destruct (quiet_has_mm _ _ _ _ _ _ _ HQ Hp) as (k1 & x1 & Hp1 & _).
  apply wp_bind. eapply wp_eq; [eapply get_krnl_ok; apply Hp1|]. cbv beta iota.
  apply wp_bind. eapply wp_eq; [reflexivity|]. cbv beta iota. case_bool_decide.
  - eapply wp_mono; [apply (victim_scan_spec E F p _ m1 (proj1 HQ))|].
    + intros q Hq. apply (vs_run m1 (vi_shape _ _ _ (proj1 HQ)) q Hq).
    + intros o m' (HQ' & Hpte' & Ho'). split; [|done].
      split_and!; [by eapply quiet_trans|intros; by rewrite Hpte'|].
      destruct o as [[[q' g'] pte']|]; [|done]. destruct Ho' as (? & -> & He).
      unfold evictable in *. rewrite Hpte in He |- *. done.
  - apply wp_ret. split; [by split_and!|done].
Qed.

(** ** Moving a page *)

(** Overwriting a frame that no page and no kernel region holds. *)
Lemma copy_quiet E F m m' s sf d df :
  vm_inv E F m -> frame_copied s sf d df m m' ->
  (d = Ram -> df ∈ E) -> (d = Swp -> df ∈ F) -> quiet E F m m'.
Proof.
  intros HI (st & -> & Hc) HE HF. pose proof (vi_shape _ _ _ HI) as HS.
  set (m' := set_dev m d _) in *.
  assert (Hps : forall p g, page_state m' p g = page_state m p g)
    by (intros; apply page_state_same; unfold m'; by destruct d).
  assert (Hkp : keeps_procs m m') by (unfold m'; by destruct d).
  assert (HS' : vm_shape m').
  { apply (shape_step m); try done; unfold m'; destruct d; try apply HS; try done.
    all: try (apply mem_ok_set_storage; apply HS).
    all: intros p k x Hp; eapply (has_mm_fifo m); [done|]; by eapply has_mm_same; [|exact Hp]. }
  assert (HI' : vm_inv E F m').
  { eapply inv_same_pages; [exact HI|done|..]; try (by unfold m'; destruct d). }
  split_and!; [done| |done]. split_and!; [done| |].
  - split_and!; [by unfold m'; destruct d| |by unfold m'; destruct d].
    intros f i Hf Hi. destruct d; [|done]. simpl in Hc. rewrite Hc by done.
    rewrite bool_decide_false; [done|]. intros ->.
    destruct (NoDup_app (ram_lists m) E) as [HN _].
    destruct (HN (ex_nodup _ _ _ (vi_ram _ _ _ HI))) as (_ & Hdis & _).
    eapply (Hdis df); [|by apply HE]. apply elem_of_app. by right.
  - apply keeps_bytes_pages. intros p g i Hg Hi. rewrite Hps.
    destruct (page_state m p g) as [f|o|] eqn:Hst; simpl; [| |done]; f_equal.
    + destruct d; [|done]. simpl in Hc. rewrite Hc by done. rewrite bool_decide_false; [done|].
      intros ->. destruct (ex_held _ _ _ (vi_ram _ _ _ HI) (p, g) df) as [_ Hn].
      { unfold ram_held. simpl. by rewrite decide_True, Hst. }
      apply Hn, elem_of_app. right. by apply HE.
    + destruct d; [done|]. simpl in Hc. rewrite Hc by done. rewrite bool_decide_false; [done|].
      intros ->. destruct (ex_held _ _ _ (vi_swp _ _ _ HI) (p, g) df) as [_ Hn].
      { unfold swp_held. simpl. by rewrite decide_True, Hst. }
      apply Hn, elem_of_app. right. by apply HF.
Qed.

(** The states of all pages after one page changed. *)
Definition pages_upd (m m' : machine) (q g : Z) (s : pte_state) : Prop :=
  forall p' g', user_page g' ->
    page_state m' p' g' = if bool_decide (p' = q /\ g' = g) then s else page_state m p' g'.

Lemma held_upd m m' q g s :
  pages_upd m m' q g s -> user_page g ->
  (forall o, ram_held m' o = upd_held (ram_held m) (q, g) (resident_in s) o) /\
  (forall o, swp_held m' o = upd_held (swp_held m) (q, g) (swapped_in s) o).
Proof.
  intros Hu Hg. unfold ram_held, swp_held, upd_held.
  split; intros [p' g']; simpl; destruct (decide (user_page g')) as [Hg'|Hg'].
  all: try (rewrite Hu by done); destruct (decide ((p', g') = (q, g))) as [He|He]; simplify_eq/=; try done.
  1,3: by rewrite bool_decide_true.
  1,2: by rewrite bool_decide_false by (intros [-> ->]; done).
Qed.

Lemma ram_frame_small m f : vm_shape m -> 0 <= f < nframes (ram m) -> 0 <= f < 2 ^ 40.
Proof.
  intros HS Hf. destruct (vs_ram m HS) as (Hm & _). unfold nframes, PAGING64_PAGESZ in Hf.
  Z.div_mod_to_equations. lia.
Qed.
Lemma swp_frame_small m f : vm_shape m -> 0 <= f < nframes (swp m) -> 0 <= f < 2 ^ 40.
Proof.
  intros HS Hf. destruct (vs_swp m HS) as (Hm & _). unfold nframes, PAGING64_PAGESZ in Hf.
  Z.div_mod_to_equations. lia.
Qed.

(** A page's frame or slot is one of the device. *)
Lemma resident_range E F m p g f :
  vm_inv E F m -> user_page g -> page_state m p g = Resident f -> 0 <= f < nframes (ram m).
Proof.
  intros HI Hg Hs. destruct (ex_held _ _ _ (vi_ram _ _ _ HI) (p, g) f) as [? _]; [|done].
  unfold ram_held. simpl. by rewrite decide_True, Hs.
Qed.
Lemma swapped_range E F m p g o :
  vm_inv E F m -> user_page g -> page_state m p g = Swapped o -> 0 <= o < nframes (swp m).
Proof.
  intros HI Hg Hs. destruct (ex_held _ _ _ (vi_swp _ _ _ HI) (p, g) o) as [? _]; [|done].
  unfold swp_held. simpl. by rewrite decide_True, Hs.
Qed.

(** Contents are kept when one page moves together with its bytes and the
    devices do not change. *)
Lemma keeps_bytes_move m m' q g s :
  ram m' = ram m -> storage (swp m') = storage (swp m) -> pages_upd m m' q g s ->
  (forall i, 0 <= i < PAGING64_PAGESZ -> page_byte m s i = page_byte m (page_state m q g) i) ->
  keeps_bytes m m'.
Proof.
  intros Hr Hs Hu Hb. apply keeps_bytes_pages. intros p' g' i Hg' Hi. rewrite Hu by done.
  assert (E : forall s i, page_byte m' s i = page_byte m s i)
    by (intros [] ?; simpl; unfold cell; rewrite ?Hr, ?Hs; done).
  rewrite E. case_bool_decide as H; [|done]. destruct H as [-> ->]. by apply Hb.
Qed.

Lemma move_out E F m m' q k x g f o id :
  vm_inv E (o :: F) m -> has_mm m q k x -> user_page g -> page_state m q g = Resident f ->
  (forall i, 0 <= i < PAGING64_PAGESZ ->
     cell (swp m) (o * PAGING64_PAGESZ + i) = cell (ram m) (f * PAGING64_PAGESZ + i)) ->
  pt_upd (roots m) (pgd x) g (swap_pte id o) m m' ->
  vm_inv (f :: E) F m' /\ keeps m m' /\ pages_upd m m' q g (Swapped o).
Proof.
  intros HI Hp Hg Hst Hc Hu. pose proof (vi_shape _ _ _ HI) as HS.
  destruct (shape_pt_upd m m' q k x g _ HS Hp Hg (swap_pte_clean id o) Hu) as (HS' & Hkp & Hkk & Hps).
  destruct Hu as ((Hpr & Hr & Hs & _ & _) & _).
  assert (Ho : 0 <= o < 2 ^ 40).
  { apply (swp_frame_small m); [done|]. apply (ex_range _ _ _ (vi_swp _ _ _ HI)).
    apply elem_of_app. right. left. }
  rewrite decode_swap_pte in Hps by done. fold (pages_upd m m' q g (Swapped o)) in Hps.
  destruct (held_upd m m' q g _ Hps Hg) as [H1 H2]. split_and!; try done.
  - split; [done| |]; rewrite ?Hr, ?Hs.
    + eapply exclusive_ext; [|exact H1].
      apply (exclusive_perm _ (f :: ram_lists m ++ E)).
      * apply exclusive_take; [apply HI|]. unfold ram_held. simpl. by rewrite decide_True, Hst.
      * unfold ram_lists. rewrite Hr. symmetry. apply Permutation_middle.
    + eapply exclusive_ext; [|exact H2]. apply exclusive_give.
      eapply exclusive_perm; [apply HI|]. unfold swp_lists. rewrite Hs. apply Permutation_middle.
  - split_and!; try done. apply (keeps_bytes_move m m' q g (Swapped o)); try done; [by rewrite Hs|].
    intros i Hi. rewrite Hst. simpl. by rewrite Hc.
Qed.

(** What [swap_out_victim_page] does: nothing, or one page moves out and its
    frame is handed to the caller. *)
(** Why no frame can be freed: the swap device is full, or no page that the
    process has queued is in RAM. *)
Definition no_victim (m : machine) (p : Z) : Prop :=
  free_fp_list (swp m) = [] \/
  forall k x g, has_mm m p k x -> g ∈ fifo_pgn x -> evictable m p g = false.

Definition swap_out_post (E F : list Z) (m : machine) (p : Z) (r : option Z) (m' : machine) : Prop :=
  match r with
  | None => quiet E F m m' /\ no_victim m p
  | Some f => vm_inv (f :: E) F m' /\ keeps m m' /\
      exists q g o, user_page g /\ page_state m q g = Resident f /\ pages_upd m m' q g (Swapped o)
  end.

Lemma pages_upd_quiet E F m m1 m2 q g s :
  quiet E F m m1 -> pages_upd m1 m2 q g s -> pages_upd m m2 q g s.
Proof. intros (_ & _ & H1) H2 p' g' Hg. by rewrite H2, H1. Qed.

(** The pages that have an entry have their tables. *)
Lemma reach_mapped T r g : decode_pte (pte_at T r g) <> Unmapped -> reach T r (page_path g) <> None.
Proof. unfold pte_at. intros H E. rewrite E in H. by rewrite decode_zero in H. Qed.

(** The last part of [swap_out_victim_page]: the victim is copied out and its
    entry rewritten; neither can fail. *)
Lemma evict_page_spec E F m q k x g f o id (err : M machine (option Z)) :
  vm_inv E (o :: F) m -> has_mm m q k x -> user_page g -> page_state m q g = Resident f ->
  wp (let* r := __swap_cp_page (Some Ram) f (Some Swp) o in
      if bool_decide (r <> 0) then err
      else let* r := pte_set_swap q g id o in
           if bool_decide (r <> 0) then err else ret (Some f))
    (fun r m' => r = Some f /\ vm_inv (f :: E) F m' /\ keeps m m' /\
                 pages_upd m m' q g (Swapped o)) m.
Proof.
  intros HI Hq Hg Hst. pose proof (vi_shape _ _ _ HI) as HS. apply wp_bind. eapply wp_mono.
  { apply (swap_cp_page_spec Ram f Swp o m); [done|apply HS|apply HS| |].
    - by eapply resident_range.
    - apply (ex_range _ _ _ (vi_swp _ _ _ HI)). apply elem_of_app. right. left. }
  intros r m1 [-> Hcp]. cbv beta iota. rewrite bool_decide_false by (by intros []).
  assert (HQ1 : quiet E (o :: F) m m1).
  { eapply copy_quiet; [exact HI|exact Hcp|done|]. intros _. left. }
  assert (Hq1 : has_mm m1 q k x).
  { eapply has_mm_same; [|exact Hq]. by destruct Hcp as (st & -> & _). }
  assert (Hst1 : page_state m1 q g = Resident f) by (by rewrite (proj2 (proj2 HQ1))).
  pose proof (proj1 HQ1) as HI1. apply wp_bind. unfold wp at 1. rewrite pte_set_swap_entry.
  pose proof (pte_set_spec (roots m1) m1 q k x) as Hset.
  specialize (Hset (vs_forest _ (vi_shape _ _ _ HI1)) Hq1 g (swap_pte id o)).
  rewrite root_for_user in Hset by done.
  specialize (Hset ltac:(by left) ltac:(eauto with ossim)).
  unfold wp in Hset. destruct (pte_set_entry q g _ m1) as [s m2| |]; try done.
  destruct Hset as [[-> Hu]|(_ & Hno & _)].
  2:{ exfalso. revert Hno. apply reach_mapped. unfold page_state in Hst1.
      rewrite (mm_of_has_mm _ _ _ _ Hq1) in Hst1. by rewrite Hst1. }
  apply wp_ret. destruct (move_out E F m1 m2 q k x g f o id) as (HI2 & HK2 & HP2); try done.
  { intros i Hi. destruct Hcp as (st & -> & Hcp). simpl in Hcp |- *. rewrite Hcp by done.
    by rewrite bool_decide_true. }
  split_and!; [done|done| |by eapply pages_upd_quiet]. by eapply keeps_trans; [apply HQ1|].
Qed.

Lemma swap_out_spec E F m p k x :
  vm_inv E F m -> has_mm m p k x -> wp (swap_out_victim_page p) (swap_out_post E F m p) m.
Proof.
  intros HI Hp. destruct (has_mm_flags m p k x (vi_shape _ _ _ HI) Hp) as [Hf1 Hf2].
  unfold swap_out_victim_page. apply wp_bind.
  eapply wp_eq; [apply get_krnl_ok; apply Hp|]. cbv beta iota. unfold k_mram, k_mswp. rewrite Hf1, Hf2.
  pose proof Hp as (Hp0 & Hk & Hx). rewrite Hx. simpl. apply wp_bind.
  eapply wp_mono; [by apply (swp_get_spec E F)|]. intros [o|] m1; [|intros [-> ?]; apply wp_ret; split; [by apply quiet_refl|by left]].
  intros (HQ1 & Hpr1 & Ht1). assert (Hp1 : has_mm m1 p k x) by (by eapply has_mm_same).
  apply wp_bind. eapply wp_mono; [by eapply find_global_victim_spec; [apply HQ1|]|].
  intros [[[q g] pte]|] m2 ((HQ2 & Hpte2 & Hv) & Hnone);
    pose proof (quiet_trans _ _ _ _ _ _ _ HQ1 HQ2) as HQ.
  2:{ assert (Hnv : no_victim m p).
      { right. intros k' x' g Hp' Hg. destruct (has_mm_det _ _ _ _ _ _ Hp Hp') as [_ <-].
        specialize (Hnone eq_refl g Hg). unfold evictable, user_pte, mm_of in *. by rewrite Hpr1, Ht1 in Hnone. }
      apply wp_bind. eapply wp_mono; [apply (swp_put_spec E F o m2), HQ2|]. intros _ m3 (HQ3 & _).
      apply wp_ret. split; [by eapply quiet_trans|done]. }
  destruct Hv as (Hg & -> & Hst%evictable_resident). rewrite <- (proj2 (proj2 HQ2)) in Hst.
  destruct (mm_of m2 q) as [xq|] eqn:Hxq; [|unfold page_state in Hst; by rewrite Hxq in Hst].
  destruct (mm_of_inv m2 q xq (vi_shape _ _ _ (proj1 HQ2)) Hxq) as [kq Hq2].
  eapply wp_mono; [eapply (evict_page_spec E F m2 q kq xq g); [apply HQ2|done..]|].
  intros r m3 (-> & HI3 & HK3 & HP3). split_and!; [done|by eapply keeps_trans; [apply HQ|]|].
  exists q, g, o. split_and!; [done| |by eapply pages_upd_quiet].
  rewrite <- Hst. by rewrite (proj2 (proj2 HQ)).
Qed.

(** ** Allocating frames *)

(** A process pointer the operations may be called with. *)
Definition valid (m : machine) (p : Z) : Prop := exists k x, has_mm m p k x.

Lemma keeps_valid m m' p : keeps m m' -> valid m p -> valid m' p.
Proof. intros [HP _] (k & x & H). destruct (keeps_has_mm _ _ _ _ _ HP H) as (k' & x' & ? & _). by exists k', x'. Qed.

Lemma valid_krnl E F m p :
  vm_inv E F m -> valid m p ->
  exists k x, get_krnl p m = Ret (Some k) m /\ has_mm m p k x /\
    k_mram k = Some Ram /\ k_mswp k = Some Swp.
Proof.
  intros HI (k & x & H). exists k, x. pose proof H as (Hp & Hk & _).
  destruct (has_mm_flags m p k x (vi_shape _ _ _ HI) H) as [H1 H2].
  unfold k_mram, k_mswp. rewrite H1, H2. split_and!; [by apply get_krnl_ok|done|done|done].
Qed.

Lemma inv_perm E E' F m : vm_inv E F m -> E' ≡ₚ E -> vm_inv E' F m.
Proof. intros HI HE. eapply inv_drop; [exact HI| |done]. by rewrite HE. Qed.

Lemma release_frame_list_spec F p l : forall E m,
  vm_inv (l ++ E) F m -> valid m p ->
  wp (release_frame_list p l) (fun _ m' => quiet E F m m') m.
Proof.
  induction l as [|f l IH]; intros E m HI Hv; simpl; [by apply wp_ret, quiet_refl|].
  destruct (valid_krnl _ _ _ _ HI Hv) as (k & x & Hk & Hp & Hr & _). apply wp_bind.
  eapply wp_eq; [exact Hk|]. cbv beta iota. destruct (has_mm_flags _ _ _ _ (vi_shape _ _ _ HI) Hp) as [-> _].
  rewrite Hr. apply wp_bind. eapply wp_mono; [by apply (ram_put_spec (l ++ E) F)|].
  intros _ m1 (HQ & _). eapply wp_mono; [apply (IH E m1 (proj1 HQ))|].
  - eapply keeps_valid; [apply HQ|done].
  - intros [] m2 HQ2. by eapply quiet_trans.
Qed.

Definition alloc_post (E F : list Z) (n : nat) (m : machine) (r : Z * list Z) (m' : machine) : Prop :=
  keeps m m' /\
  ((fst r = 0 /\ vm_inv (snd r ++ E) F m' /\ length (snd r) = n) \/
   ((fst r = u64 (-3000) \/ fst r = u64 (-1) /\ may_oom m) /\ snd r = [] /\ vm_inv E F m')).

Lemma may_oom_keeps m m' : keeps m m' -> may_oom m' -> may_oom m.
Proof. intros ((_ & _ & Ho & _) & _) [n Hn]. exists n. by rewrite <- Ho. Qed.

Lemma alloc_loop_spec E F p n : forall got m,
  vm_inv (got ++ E) F m -> valid m p ->
  wp (alloc_loop p (Some Ram) n got) (alloc_post E F (length got + n) m) m.
Proof.
  induction n as [|n IH]; intros got m HI Hv; cbn [alloc_loop].
  { apply wp_ret. split; [apply keeps_refl|]. left. by rewrite Nat.add_0_r. }
  apply wp_bind. eapply wp_mono; [by apply (ram_get_spec (got ++ E) F)|]. intros f0 m1 H0.
  assert (Hget : wp (match f0 with Some fpn => ret (Some fpn) | None => swap_out_victim_page p end)
            (fun o m2 => keeps m m2 /\ match o with
               | Some f => vm_inv (f :: got ++ E) F m2
               | None => vm_inv (got ++ E) F m2 end) m1).
  { destruct f0 as [f|].
    - destruct H0 as [HQ _]. apply wp_ret. by split; [apply HQ|apply HQ].
    - destruct H0 as [-> _]. destruct Hv as (k & x & Hp).
      eapply wp_mono; [by eapply swap_out_spec|]. intros [f|] m2; simpl.
      + intros (? & ? & _). done.
      + intros ((? & ? & _) & _). done. }
  apply wp_bind. eapply wp_mono; [exact Hget|]. clear H0 Hget. intros [f|] m2 [HK HI2].
  2:{ apply wp_bind. eapply wp_mono; [apply release_frame_list_spec; [exact HI2|by eapply keeps_valid]|].
      intros [] m3 (HI3 & HK3 & _). apply wp_ret. split; [by eapply keeps_trans|]. right. auto. }
  apply wp_bind. eapply wp_mono; [by apply malloc_spec|].
  intros ok m3 ((HI3 & HK3 & _) & _ & _ & _ & _ & Ho). pose proof (keeps_trans _ _ _ HK HK3) as HK'.
  destruct ok.
  - eapply wp_mono; [apply (IH (got ++ [f]))|].
    + eapply inv_perm; [exact HI3|]. rewrite <- app_assoc. symmetry. apply Permutation_middle.
    + by eapply keeps_valid.
    + intros r m4 [HK4 H4]. split; [by eapply keeps_trans|]. rewrite length_app in H4. simpl in H4.
      replace (length got + S n)%nat with (length got + 1 + n)%nat by lia.
      destruct H4 as [?|([|[? ?]] & ? & ?)]; [by left|right; by auto|right].
      split_and!; try done. right. split; [done|]. by eapply may_oom_keeps.
  - apply wp_bind. eapply wp_mono; [by apply (ram_put_spec (got ++ E) F)|].
    intros _ m4 ((HI4 & HK4 & _) & _ & _). pose proof (keeps_trans _ _ _ HK' HK4) as HK''.
    apply wp_bind. eapply wp_mono; [apply release_frame_list_spec; [exact HI4|by eapply keeps_valid]|].
    intros [] m5 (HI5 & HK5 & _). apply wp_ret. split; [by eapply keeps_trans|].
    right. split_and!; try done. right. split; [done|]. by eapply may_oom_keeps, Ho.
Qed.

Lemma alloc_pages_range_spec E F m p n :
  vm_inv E F m -> valid m p -> 0 <= n ->
  wp (alloc_pages_range p n) (alloc_post E F (Z.to_nat n) m) m.
Proof.
  intros HI Hv Hn. unfold alloc_pages_range.
  destruct (valid_krnl _ _ _ _ HI Hv) as (k & x & Hk & Hp & Hr & _). apply wp_bind.
  eapply wp_eq; [exact Hk|]. cbv beta iota. destruct (has_mm_flags _ _ _ _ (vi_shape _ _ _ HI) Hp) as [-> _].
  rewrite bool_decide_false, Hr by lia. simpl. by apply (alloc_loop_spec E F p _ []).
Qed.

(** ** Properties *)

(** Replacement is first in, first out: [find_present_victim_in_proc]
    terminates and returns the oldest page of [fifo_pgn] that is in RAM (all
    pages queued before it are not), with its entry; it returns -1 only if no
    queued page is in RAM; it changes no page and no contents. *)
Theorem victim_is_oldest_resident E F m p k x :
  vm_inv E F m -> has_mm m p k x ->
  wp (find_present_victim_in_proc p) (fun o m' =>
    vm_inv E F m' /\ keeps m m' /\ (forall q g, page_state m' q g = page_state m q g) /\
    match o with
    | None => forall g, g ∈ fifo_pgn x -> evictable m p g = false
    | Some (g, pte) => page_state m p g = Resident (PAGING64_PTE_FPN pte) /\
        exists newer older, fifo_pgn x = newer ++ g :: older /\
          forall g', g' ∈ older -> evictable m p g' = false
    end) m.
Proof.
  intros HI Hp. eapply wp_mono; [by eapply find_present_victim_spec|].
  intros o m' ((HI' & HK & HP) & _ & Ho). split_and!; try done. destruct o as [[g pte]|]; [|done].
  destruct Ho as (_ & -> & He & Hl). split; [by apply evictable_resident|done].
Qed.

Lemma victim_is_oldest_resident_witness :
  wp (find_present_victim_in_proc 100) (fun o m' =>
    vm_inv [] [] m' /\ keeps demo m' /\ (forall q g, page_state m' q g = page_state demo q g) /\
    match o with
    | None => forall g, g ∈ fifo_pgn demo_mm -> evictable demo 100 g = false
    | Some (g, pte) => page_state demo 100 g = Resident (PAGING64_PTE_FPN pte) /\
        exists newer older, fifo_pgn demo_mm = newer ++ g :: older /\
          forall g', g' ∈ older -> evictable demo 100 g' = false
    end) demo.
Proof. exact (victim_is_oldest_resident [] [] demo 100 demo_krnl demo_mm demo_inv demo_has_mm). Defined.

(** C10. Swapping out is invisible: [swap_out_victim_page] either fails, only if
    the swap device is full or no queued page of the caller is in RAM, and
    changes no page, or moves exactly one resident page, of any process, to a
    swap slot and hands its frame, now owned by nobody else, to the caller; in
    both cases no byte of any process's virtual memory and nothing of the
    kernel's memory changes. *)
Theorem swap_out_preserves_memory E F m p k x :
  vm_inv E F m -> has_mm m p k x ->
  wp (swap_out_victim_page p) (fun r m' => keeps m m' /\
    match r with
    | None => vm_inv E F m' /\ no_victim m p /\ forall q g, page_state m' q g = page_state m q g
    | Some f => vm_inv (f :: E) F m' /\ exists q g o, user_page g /\
        page_state m q g = Resident f /\ pages_upd m m' q g (Swapped o)
    end) m.
Proof.
  intros HI Hp. eapply wp_mono; [by eapply swap_out_spec|].
  intros [f|] m'; [intros (? & ? & ?)|intros ((? & ? & ?) & ?)]; done.
Qed.

Lemma swap_out_preserves_memory_witness :
  wp (swap_out_victim_page 100) (fun r m' => keeps demo m' /\
    match r with
    | None => vm_inv [] [] m' /\ no_victim demo 100 /\ forall q g, page_state m' q g = page_state demo q g
    | Some f => vm_inv [f] [] m' /\ exists q g o, user_page g /\
        page_state demo q g = Resident f /\ pages_upd demo m' q g (Swapped o)
    end) demo.
Proof. exact (swap_out_preserves_memory [] [] demo 100 demo_krnl demo_mm demo_inv demo_has_mm). Defined.

(** [alloc_pages_range] hands out frames that belong to nobody: it always
    returns; with status 0 it returns exactly the requested number of frames,
    distinct, disjoint from every free list, kernel frame and mapped page; any
    other status gives all frames back; no byte of virtual memory changes. *)
Theorem alloc_pages_range_exclusive E F m p n :
  vm_inv E F m -> valid m p -> 0 <= n ->
  wp (alloc_pages_range p n) (fun r m' => keeps m m' /\
    ((fst r = 0 /\ vm_inv (snd r ++ E) F m' /\ length (snd r) = Z.to_nat n) \/
     ((fst r = u64 (-3000) \/ fst r = u64 (-1) /\ may_oom m) /\ snd r = [] /\ vm_inv E F m'))) m.
Proof. apply alloc_pages_range_spec. Qed.

Lemma alloc_pages_range_exclusive_witness :
  (match alloc_pages_range 100 3 demo with Ret r _ => r = (0, [0; 1; 2]) | _ => False end) /\
  wp (alloc_pages_range 100 3) (fun r m' => keeps demo m' /\
    ((fst r = 0 /\ vm_inv (snd r ++ []) [] m' /\ length (snd r) = 3%nat) \/
     ((fst r = u64 (-3000) \/ fst r = u64 (-1) /\ may_oom demo) /\ snd r = [] /\ vm_inv [] [] m'))) demo.
Proof.
  split; [vm_compute; reflexivity|].
  exact (alloc_pages_range_exclusive [] [] demo 100 3 demo_inv
    (ex_intro _ demo_krnl (ex_intro _ demo_mm demo_has_mm)) ltac:(lia)).
Defined.
