(* ===== verification/Access.v ===== *)
(** * Byte access to virtual memory ([src/libmem.c]: [pg_getpage], [pg_getval],
    [pg_setval])

    Proofs that bringing a page in, and reading and writing a byte through
    whatever swapping that takes, implement a plain byte memory per process. *)

From S2P Require Import Prelude.
From S2P Require Import Word.
From S2P Require Import Exclusive.
From S2P Require Import Paging.
From S2P Require Import Queue.
From S2P Require Import Sched.
From S2P Require Import MemPhy.
From S2P Require Import Region.
From S2P Require Import Machine.
From S2P Require Import PageTable.
From S2P Require Import Swap.
From S2P Require Import Vm.
From S2P Require Import Evict.

(** ** Swapping a page in *)

(** [pg_getpage] frees the swap slot before it rewrites the entry, so for a
    moment the slot is both free and in use; the invariant holds again once
    the entry is written. *)
Lemma put_slot_shape m o :
  vm_shape m ->
  wp (dev_put_freefp (Some Swp) o) (fun _ m' =>
    vm_shape m' /\ procs m' = procs m /\ tables m' = tables m /\ ram m' = ram m /\
    sch m' = sch m /\ oom m' = oom m /\
    exists l, swp m' = set_free (swp m) l /\ l ⊆+ o :: free_fp_list (swp m)) m.
Proof.
  intros HS. unfold wp, dev_put_freefp, bind, malloc, on_dev, on_swp, MEMPHY_put_freefp. cbn [swp set_mallocs].
  destruct (oom m (mallocs m)); cbn [negb].
  all: split_and!; try done.
  all: try (apply (shape_step m); try done; try apply HS;
    intros p k x Hp; eapply (has_mm_fifo m); [done|]; by eapply has_mm_same; [|exact Hp]).
  - exists (free_fp_list (swp m)). split; [by destruct (swp m)|]. apply submseteq_cons, reflexivity.
  - by eexists.
Qed.

Lemma move_in E F m m1 m' p k x g f o l :
  vm_inv (f :: E) F m -> has_mm m p k x -> user_page g -> page_state m p g = Swapped o ->
  (forall i, 0 <= i < PAGING64_PAGESZ ->
     cell (ram m) (f * PAGING64_PAGESZ + i) = cell (swp m) (o * PAGING64_PAGESZ + i)) ->
  vm_shape m1 -> procs m1 = procs m -> tables m1 = tables m -> ram m1 = ram m ->
  sch m1 = sch m -> oom m1 = oom m ->
  swp m1 = set_free (swp m) l -> l ⊆+ o :: free_fp_list (swp m) ->
  pt_upd (roots m1) (pgd x) g (fpn_pte f) m1 m' ->
  vm_inv E F m' /\ keeps m m' /\ pages_upd m m' p g (Resident f).
Proof.
  intros HI Hp Hg Hst Hc HS1 Ep Et Er Ec Eo Es Hl Hu. pose proof (vi_shape _ _ _ HI) as HS.
  assert (Hp1 : has_mm m1 p k x) by (by eapply has_mm_same).
  destruct (shape_pt_upd m1 m' p k x g _ HS1 Hp1 Hg (fpn_pte_clean f) Hu) as (HS' & Hkp & Hkk & Hps).
  destruct Hu as ((Hpr & Hr & Hs & _ & _) & _).
  assert (Hf : 0 <= f < 2 ^ 40).
  { apply (ram_frame_small m); [done|]. apply (ex_range _ _ _ (vi_ram _ _ _ HI)).
    apply elem_of_app. right. left. }
  assert (Hpu : pages_upd m m' p g (Resident f)).
  { intros p' g' Hg'. rewrite Hps, decode_fpn_pte by done. by rewrite (page_state_same m m1). }
  destruct (held_upd m m' p g _ Hpu Hg) as [H1 H2]. split_and!; try done.
  - split; [done| |]; rewrite ?Hr, ?Er, ?Hs, ?Es.
    + eapply exclusive_ext; [|exact H1]. apply exclusive_give.
      eapply exclusive_perm; [apply HI|]. unfold ram_lists. rewrite Hr, Er. apply Permutation_middle.
    + eapply exclusive_ext; [|exact H2].
      apply (exclusive_sub _ (o :: swp_lists m ++ F)).
      * apply exclusive_take; [apply HI|]. unfold swp_held. simpl. by rewrite decide_True, Hst.
      * unfold swp_lists. rewrite Hs, Es. simpl. rewrite <- app_assoc.
        change (o :: (free_fp_list (swp m) ++ used_fp_list (swp m)) ++ F) with
          ((o :: free_fp_list (swp m) ++ used_fp_list (swp m)) ++ F).
        rewrite app_assoc. apply submseteq_skips_r.
        change (o :: free_fp_list (swp m) ++ used_fp_list (swp m)) with
          ((o :: free_fp_list (swp m)) ++ used_fp_list (swp m)). by apply submseteq_skips_r.
  - split_and!.
    + eapply keeps_procs_trans; [|exact Hkp]. unfold keeps_procs. rewrite Ep, Er, Ec, Eo, Es. done.
    + destruct Hkk as (U & C & K). rewrite Er in U, C. split_and!; [done|done|].
      intros q kq xq gq Hq Hgq. rewrite (K q kq xq gq); [by rewrite Et| |done]. by eapply has_mm_same.
    + apply (keeps_bytes_move m m' p g (Resident f)); try done; [by rewrite Hr|by rewrite Hs, Es|].
      intros i Hi. rewrite Hst. simpl. by rewrite Hc.
Qed.

Lemma enlist_pgn_spec E F m p g :
  vm_inv E F m -> valid m p -> user_page g ->
  wp (enlist_pgn_node p g) (fun r m' => quiet E F m m' /\ (r = 0 \/ r = -1 /\ may_oom m)) m.
Proof.
  intros HI Hv Hg. unfold enlist_pgn_node. apply wp_bind.
  eapply wp_mono; [by apply malloc_spec|]. intros ok m1 (HQ & Hp & _ & _ & _ & Ho).
  destruct ok; [|apply wp_ret; split; [done|]; right; by split; [|apply Ho]].
  destruct (keeps_valid _ _ _ (proj1 (proj2 HQ)) Hv) as (k & x & H1). apply wp_bind.
  eapply wp_mono.
  - eapply (upd_fifo_spec E F m1 p k x (fun y => g :: fifo_pgn y)); [apply HQ|done|].
    constructor; [done|]. eapply has_mm_fifo; [apply HQ|done].
  - intros _ m2 (HQ2 & _). apply wp_ret. split; [by eapply quiet_trans|]. by left.
Qed.

(** The frame of a page that is resident. *)
Lemma present_spec E F m p g f :
  vm_inv E F m -> valid m p -> user_page g -> page_state m p g = Resident f ->
  wp (let* pte := pte_get_entry p g in ret (Some (PAGING64_PTE_FPN pte)))
    (fun o m' => o = Some f /\ quiet E F m m') m.
Proof.
  intros HI (k & x & Hp) Hg Hst. apply wp_bind. eapply wp_mono; [by eapply user_pte_spec|].
  intros v m1 [-> Hs]. apply wp_ret. split; [|by apply inv_pt_step].
  rewrite page_state_user_pte in Hst. unfold decode_pte in Hst.
  destruct (PAGING64_PAGE_PRESENT _); [congruence|]. by destruct (PAGING64_PAGE_SWAPPED _).
Qed.

(** The last part of [pg_getpage]: from the swap slot into a free frame. *)
Lemma swap_in_spec E F m p k x g f o (err : M machine (option Z)) :
  vm_inv (f :: E) F m -> has_mm m p k x -> user_page g -> page_state m p g = Swapped o ->
  wp (let* r := __swap_cp_page (Some Swp) o (Some Ram) f in
      if bool_decide (r <> 0) then err
      else dev_put_freefp (Some Swp) o ;; pte_set_fpn p g f ;; enlist_pgn_node p g ;;
           (let* pte := pte_get_entry p g in ret (Some (PAGING64_PTE_FPN pte))))
    (fun r m' => r = Some f /\ vm_inv E F m' /\ keeps m m' /\ pages_upd m m' p g (Resident f)) m.
Proof.
  intros HI Hp Hg Hst. pose proof (vi_shape _ _ _ HI) as HS. apply wp_bind. eapply wp_mono.
  { apply (swap_cp_page_spec Swp o Ram f m); [done|apply HS|apply HS| |].
    - by eapply swapped_range.
    - apply (ex_range _ _ _ (vi_ram _ _ _ HI)). apply elem_of_app. right. left. }
  intros r m1 [-> Hcp]. cbv beta iota. rewrite bool_decide_false by (by intros []).
  assert (HQ1 : quiet (f :: E) F m m1).
  { eapply copy_quiet; [exact HI|exact Hcp| |done]. intros _. left. }
  assert (Hp1 : has_mm m1 p k x).
  { eapply has_mm_same; [|exact Hp]. by destruct Hcp as (st & -> & _). }
  assert (Hst1 : page_state m1 p g = Swapped o) by (by rewrite (proj2 (proj2 HQ1))).
  pose proof (proj1 HQ1) as HI1. apply wp_bind.
  eapply wp_mono; [apply put_slot_shape, HI1|].
  intros r2 m2 (HS2 & Ep & Et & Er & Ec & Eo & l & Es & Hl). cbv beta.
  assert (Hp2 : has_mm m2 p k x) by (by eapply has_mm_same).
  apply wp_bind. unfold wp at 1. rewrite pte_set_fpn_entry.
  pose proof (pte_set_spec (roots m2) m2 p k x (vs_forest _ HS2) Hp2 g (fpn_pte f)) as Hset.
  rewrite root_for_user in Hset by done.
  specialize (Hset ltac:(by left) ltac:(eauto with ossim)). unfold wp in Hset.
  destruct (pte_set_entry p g _ m2) as [s m3| |]; try done.
  destruct Hset as [[-> Hu]|(_ & Hno & _)].
  2:{ exfalso. revert Hno. apply reach_mapped. unfold page_state in Hst1.
      rewrite (mm_of_has_mm _ _ _ _ Hp1), <- Et in Hst1. by rewrite Hst1. }
  destruct (move_in E F m1 m2 m3 p k x g f o l) as (HI3 & HK3 & HP3); try done.
  { intros i Hi. destruct Hcp as (st & -> & Hcp). simpl in Hcp |- *. rewrite Hcp by done.
    by rewrite bool_decide_true. }
  pose proof (keeps_trans _ _ _ (proj1 (proj2 HQ1)) HK3) as HK.
  assert (Hv3 : valid m3 p) by (eapply keeps_valid; [exact HK|by exists k, x]).
  apply wp_bind. eapply wp_mono; [by apply (enlist_pgn_spec E F m3 p g)|].
  intros r4 m4 [HQ4 _]. eapply wp_mono.
  { apply (present_spec E F m4 p g f); [apply HQ4|by eapply keeps_valid; [apply HQ4|]|done|].
    rewrite (proj2 (proj2 HQ4)), HP3 by done. by rewrite bool_decide_true. }
  intros o5 m5 [-> HQ5]. pose proof (quiet_trans _ _ _ _ _ _ _ HQ4 HQ5) as HQ45.
  split_and!; [done|apply HQ5|by eapply keeps_trans; [exact HK|apply HQ45]|].
  intros p' g' Hg'. rewrite (proj2 (proj2 HQ45)). by rewrite (pages_upd_quiet _ _ _ _ _ _ _ _ HQ1 HP3).
Qed.

(** Reading an entry does not change which pages can be evicted. *)
Lemma no_victim_step m m' p :
  vm_shape m -> pt_step (roots m) m m' -> no_victim m' p -> no_victim m p.
Proof.
  intros HS Hs Hn. pose proof Hs as ((Hp & _ & Hsw & _) & _). unfold no_victim in *. rewrite Hsw in Hn.
  destruct Hn as [?|Hn]; [by left|right]. intros k x g Hk Hg.
  assert (Hk' : has_mm m' p k x) by (by eapply has_mm_same). specialize (Hn k x g Hk' Hg).
  unfold evictable in *. by rewrite (user_pte_step _ m m' p g eq_refl HS Hs) in Hn.
Qed.

(** The only reasons to refuse a page: it is unmapped, or it is on the swap
    device and no frame can be freed. *)
Definition not_loadable (m : machine) (p g : Z) : Prop :=
  match page_state m p g with
  | Resident _ => False
  | Unmapped => True
  | Swapped _ => no_victim m p
  end.

(** [pg_getpage]: a resident page is found in place, an unmapped page is
    refused, a swapped page is brought in or, when no frame can be freed,
    refused; contents never change. *)
Definition getpage_post (E F : list Z) (m : machine) (p g : Z) (o : option Z) (m' : machine) : Prop :=
  vm_inv E F m' /\ keeps m m' /\
  match o with
  | Some f => page_state m' p g = Resident f
  | None => not_loadable m p g
  end /\
  (page_state m p g = Unmapped -> o = None).

Lemma pg_getpage_spec E F m p g :
  vm_inv E F m -> valid m p -> user_page g ->
  wp (pg_getpage g p) (getpage_post E F m p g) m.
Proof.
  intros HI Hv Hg. pose proof Hv as (k & x & Hp). unfold pg_getpage. apply wp_bind.
  eapply wp_mono; [by eapply user_pte_spec|]. intros v m1 [-> Hs1].
  pose proof (inv_pt_step _ _ _ _ HI Hs1) as HQ1.
  assert (Hv1 : valid m1 p) by (eapply keeps_valid; [apply HQ1|done]).
  pose proof (page_state_user_pte m p g) as Hst. unfold decode_pte in Hst.
  destruct (PAGING64_PAGE_PRESENT (user_pte m p g)); [|destruct (PAGING64_PAGE_SWAPPED (user_pte m p g))].
  - set (f := PAGING64_PTE_FPN _) in Hst. eapply wp_mono.
    + apply (present_spec E F m1 p g f); [apply HQ1|done|done|]. by rewrite (proj2 (proj2 HQ1)).
    + intros o m2 [-> HQ2]. pose proof (quiet_trans _ _ _ _ _ _ _ HQ1 HQ2) as (HI2 & HK2 & HP2).
      split_and!; [done|done|by rewrite HP2|by rewrite Hst].
  - cbn [negb]. set (o := PAGING64_PTE_SWP _) in *. apply wp_bind.
    destruct Hv1 as (k1 & x1 & Hp1). eapply wp_mono; [by eapply swap_out_spec; [apply HQ1|]|].
    intros [f|] m2.
    2:{ intros [HQ2 Hnv]. apply wp_ret. pose proof (quiet_trans _ _ _ _ _ _ _ HQ1 HQ2) as (? & ? & _).
        split_and!; [done|done| |by rewrite Hst]. unfold not_loadable. rewrite Hst.
        eapply no_victim_step; [apply HI|exact Hs1|exact Hnv]. }
    intros (HI2 & HK2 & q & gv & ov & Hgv & Hsv & Hpu).
    pose proof (keeps_trans _ _ _ (proj1 (proj2 HQ1)) HK2) as HK.
    destruct (valid_krnl _ _ _ _ HI2 (keeps_valid _ _ _ HK Hv)) as (k2 & x2 & Hk2 & Hp2 & R2 & S2).
    apply wp_bind. eapply wp_eq; [exact Hk2|]. cbv beta iota. rewrite R2, S2.
    rewrite (proj2 (proj2 HQ1)) in Hsv.
    eapply wp_mono; [apply (swap_in_spec E F m2 p k2 x2 g f o); try done|].
    + rewrite Hpu, (proj2 (proj2 HQ1)) by done. rewrite bool_decide_false; [done|].
      intros [-> ->]. congruence.
    + intros r m3 (-> & HI3 & HK3 & HP3). split_and!; [done|by eapply keeps_trans| |by rewrite Hst].
      rewrite HP3 by done. by rewrite bool_decide_true.
  - apply wp_ret. destruct HQ1 as (? & ? & _). split_and!; try done. unfold not_loadable. by rewrite Hst.
Qed.

(** ** Bytes *)

(** One byte of a resident page written. *)
Lemma byte_written E F m p g f i v :
  vm_inv E F m -> user_page g -> page_state m p g = Resident f -> 0 <= i < PAGING64_PAGESZ ->
  let m' := set_dev m Ram (set_storage (ram m) (<[f * PAGING64_PAGESZ + i := v]> (storage (ram m)))) in
  vm_inv E F m' /\ keeps_procs m m' /\ keeps_kernel m m' /\
  (forall p g, page_state m' p g = page_state m p g) /\
  (forall p' g' i', user_page g' -> 0 <= i' < PAGING64_PAGESZ ->
     page_byte m' (page_state m p' g') i' =
     if bool_decide (p' = p /\ g' = g /\ i' = i) then Some v
     else page_byte m (page_state m p' g') i').
Proof.
  intros HI Hg Hst Hi m'. pose proof (vi_shape _ _ _ HI) as HS.
  assert (Hheld : ram_held m (p, g) = Some f) by (unfold ram_held; simpl; by rewrite decide_True, Hst).
  assert (Hc : forall a, cell (ram m') a =
            if bool_decide (a = f * PAGING64_PAGESZ + i) then v else cell (ram m) a)
    by (intros a; unfold m', set_dev; cbn [ram set_ram]; rewrite cell_set_storage;
        repeat case_bool_decide; done || congruence).
  assert (HS' : vm_shape m').
  { apply (shape_step m); try done; unfold m'; try apply HS.
    intros q k x Hp. eapply (has_mm_fifo m); [done|]. by eapply has_mm_same; [|exact Hp]. }
  split; [|split; [done|split; [split; [done|split; [|done]]|split; [done|]]]].
  - by eapply inv_same_pages.
  - intros f' i' Hf' Hi'. rewrite Hc, bool_decide_false; [done|].
    intros [-> _]%frame_disjoint; [|done..].
    destruct (ex_held _ _ _ (vi_ram _ _ _ HI) (p, g) f Hheld) as [_ Hn].
    apply Hn, elem_of_app. left. apply elem_of_app. by right.
  - intros p' g' i' Hg' Hi'. destruct (page_state m p' g') as [f'|o'|] eqn:Hst'; simpl.
    + rewrite Hc. destruct (decide (f' * PAGING64_PAGESZ + i' = f * PAGING64_PAGESZ + i)) as [He|He].
      * rewrite bool_decide_true by done. apply frame_disjoint in He as [-> ->]; [|done..].
        assert ((p', g') = (p, g)) as [= -> ->].
        { apply (ex_inj _ _ _ (vi_ram _ _ _ HI) _ _ f); [|done]. unfold ram_held. simpl.
          by rewrite decide_True, Hst'. }
        by rewrite bool_decide_true.
      * rewrite bool_decide_false by done. rewrite bool_decide_false; [done|].
        intros (-> & -> & ->). rewrite Hst in Hst'. congruence.
    + rewrite bool_decide_false; [done|]. intros (-> & -> & _). congruence.
    + rewrite bool_decide_false; [done|]. intros (-> & -> & _). congruence.
Qed.

Lemma user_addr_split a :
  user_addr a -> user_page (addr_pgn a) /\ Z.land a PAGING64_ADDR_OFFST_MASK = a mod PAGING64_PAGESZ /\
  0 <= a mod PAGING64_PAGESZ < PAGING64_PAGESZ.
Proof.
  intros Ha. rewrite land_offst_mask, addr_pgn_div. unfold user_addr, user_page, PAGING64_PAGESZ in *.
  split_and!; try done; Z.div_mod_to_equations; lia.
Qed.

Lemma same_addr a b :
  addr_pgn a = addr_pgn b -> a mod PAGING64_PAGESZ = b mod PAGING64_PAGESZ -> a = b.
Proof. rewrite !addr_pgn_div. unfold PAGING64_PAGESZ. Z.div_mod_to_equations. lia. Qed.

Lemma caller_mram_ok E F m p : vm_inv E F m -> valid m p -> caller_mram p m = Ret (Some Ram) m.
Proof.
  intros HI Hv. destruct (valid_krnl _ _ _ _ HI Hv) as (k & x & Hk & _ & Hr & _).
  unfold caller_mram, bind. rewrite Hk. unfold ret. by rewrite Hr.
Qed.

Definition not_resident (m : machine) (p a : Z) : Prop := not_loadable m p (addr_pgn a).

Lemma pg_getval_spec E F m p a :
  vm_inv E F m -> valid m p -> user_addr a ->
  wp (pg_getval a p) (fun o m' => vm_inv E F m' /\ keeps m m' /\
    match o with Some v => vbyte m p a = Some v | None => not_resident m p a end /\
    (vbyte m p a = None -> o = None)) m.
Proof.
  intros HI Hv Ha. destruct (user_addr_split a Ha) as (Hg & Hoff & Hi).
  unfold pg_getval. rewrite Hoff. apply wp_bind. eapply wp_mono; [by eapply pg_getpage_spec|].
  intros o m1 (HI1 & HK1 & Ho & Hu). destruct o as [f|]; [|by apply wp_ret].
  pose proof (resident_range _ _ _ _ _ _ HI1 Hg Ho) as Hf.
  destruct (frame_byte_range (ram m1) f (a mod PAGING64_PAGESZ) (vs_ram _ (vi_shape _ _ _ HI1)) Hf Hi)
    as [Hr Hu64]. rewrite Hu64.
  apply wp_bind. eapply wp_eq; [eapply caller_mram_ok; [exact HI1|by eapply keeps_valid]|].
  eapply wp_eq; [apply (dev_read_ok m1 Ram); [apply (vi_shape _ _ _ HI1)|done]|].
  assert (Hb : vbyte m p a = Some (cell (ram m1) (f * PAGING64_PAGESZ + a mod PAGING64_PAGESZ))).
  { rewrite <- (proj2 (proj2 HK1)) by done. unfold vbyte. by rewrite Ho. }
  split_and!; try done. by rewrite Hb.
Qed.

Definition stored (m m' : machine) (p a v : Z) : Prop :=
  keeps_procs m m' /\ keeps_kernel m m' /\
  forall p' a', user_addr a' ->
    vbyte m' p' a' = if bool_decide (p' = p /\ a' = a) then Some v else vbyte m p' a'.

Lemma pg_setval_spec E F m p a v :
  vm_inv E F m -> valid m p -> user_addr a ->
  wp (pg_setval a v p) (fun r m' => vm_inv E F m' /\
    ((r = 0 /\ stored m m' p a v /\ vbyte m p a <> None /\
      exists f, page_state m' p (addr_pgn a) = Resident f) \/
     (r = -1 /\ keeps m m' /\ not_resident m p a))) m.
Proof.
  intros HI Hv Ha. destruct (user_addr_split a Ha) as (Hg & Hoff & Hi).
  unfold pg_setval. rewrite Hoff. apply wp_bind. eapply wp_mono; [by eapply pg_getpage_spec|].
  intros o m1 (HI1 & HK1 & Ho & Hu). destruct o as [f|]; [|apply wp_ret; split; [done|by right]].
  pose proof (resident_range _ _ _ _ _ _ HI1 Hg Ho) as Hf.
  destruct (frame_byte_range (ram m1) f (a mod PAGING64_PAGESZ) (vs_ram _ (vi_shape _ _ _ HI1)) Hf Hi)
    as [Hr Hu64]. rewrite Hu64.
  apply wp_bind. eapply wp_eq; [eapply caller_mram_ok; [exact HI1|by eapply keeps_valid]|].
  apply wp_bind. eapply wp_eq; [apply (dev_write_ok m1 Ram); [apply (vi_shape _ _ _ HI1)|done]|].
  apply wp_ret. simpl.
  destruct (byte_written E F m1 p (addr_pgn a) f _ v HI1 Hg Ho Hi) as (HI2 & HP2 & HKk2 & Hps2 & Hb2).
  split; [exact HI2|]. left. split_and!; [done| | |by exists f; rewrite <- Ho, <- Hps2].
  - destruct HK1 as (HP1 & HKk1 & HB1). split_and!.
    + by eapply keeps_procs_trans.
    + destruct HKk1 as (U1 & C1 & K1), HKk2 as (U2 & C2 & K2). split_and!; [exact (eq_trans U2 U1)| |].
      * intros f' i' Hf' Hi'. rewrite C2, C1 by (rewrite ?U1; done). done.
      * intros q kq xq gq Hq Hgq. by apply (K1 q kq xq).
    + intros p' a' Ha'. destruct (user_addr_split a' Ha') as (Hg' & _ & Hi').
      unfold vbyte at 1. rewrite Hps2, Hb2 by done. fold (vbyte m1 p' a'). rewrite HB1 by done.
      repeat case_bool_decide; try done; exfalso; [|naive_solver].
      destruct H as (-> & H1 & H2). apply H0. split; [done|]. by apply same_addr.
  - intros Hn. assert (Hst : page_state m p (addr_pgn a) = Unmapped).
    { unfold vbyte in Hn. by destruct (page_state m p (addr_pgn a)). }
    by specialize (Hu Hst).
Qed.

(** ** Properties *)

(** C1. Demand paging implements a byte memory: reading a user address returns
    the byte last stored there, wherever its page was, and changes nothing;
    writing changes exactly that byte of that process and nothing else, user or
    kernel.  An unmapped address is always refused; an access to a mapped page
    fails only if the page is on the swap device and either that device is full
    or no queued page of the process is in RAM.
    The ownership invariant is kept throughout and both operations return. *)
Theorem byte_memory_refinement E F m p a v :
  vm_inv E F m -> valid m p -> user_addr a ->
  wp (pg_getval a p) (fun o m' => vm_inv E F m' /\ keeps m m' /\
    match o with Some b => vbyte m p a = Some b | None => not_resident m p a end /\
    (vbyte m p a = None -> o = None)) m /\
  wp (pg_setval a v p) (fun r m' => vm_inv E F m' /\
    ((r = 0 /\ stored m m' p a v /\ vbyte m p a <> None /\
      exists f, page_state m' p (addr_pgn a) = Resident f) \/
     (r = -1 /\ keeps m m' /\ not_resident m p a))) m.
Proof. intros. split; [by apply pg_getval_spec|by apply pg_setval_spec]. Qed.

Lemma byte_memory_refinement_witness :
  wp (pg_getval 4096 100) (fun o m' => vm_inv [] [] m' /\ keeps demo m' /\
    match o with Some b => vbyte demo 100 4096 = Some b | None => not_resident demo 100 4096 end /\
    (vbyte demo 100 4096 = None -> o = None)) demo.
Proof.
  exact (proj1 (byte_memory_refinement [] [] demo 100 4096 7 demo_inv
    (ex_intro _ demo_krnl (ex_intro _ demo_mm demo_has_mm)) ltac:(unfold user_addr; lia))).
Defined.

(** [pg_getpage] never gives two pages the same frame and never loses a
    page: it returns the frame in which the page is resident afterwards; it
    refuses every unmapped page, no resident one, and a swapped one only if the
    swap device is full or the process has no queued page in RAM; contents are
    unchanged. *)
Theorem pg_getpage_sound E F m p g :
  vm_inv E F m -> valid m p -> user_page g ->
  wp (pg_getpage g p) (fun o m' => vm_inv E F m' /\ keeps m m' /\
    match o with
    | Some f => page_state m' p g = Resident f
    | None => not_loadable m p g
    end /\ (page_state m p g = Unmapped -> o = None)) m.
Proof. apply pg_getpage_spec. Qed.

Lemma pg_getpage_sound_witness :
  wp (pg_getpage 3 100) (fun o m' => vm_inv [] [] m' /\ keeps demo m' /\
    match o with
    | Some f => page_state m' 100 3 = Resident f
    | None => not_loadable demo 100 3
    end /\ (page_state demo 100 3 = Unmapped -> o = None)) demo.
Proof.
  exact (pg_getpage_sound [] [] demo 100 3 demo_inv
    (ex_intro _ demo_krnl (ex_intro _ demo_mm demo_has_mm)) ltac:(unfold user_page; lia)).
Defined.
