(* ===== verification/Mapping.v ===== *)
(** * Mapping ranges of pages ([src/mm64.c]: [vmap_page_range], [vm_map_ram])

    Proofs that mapping frames to a range of pages keeps the ownership
    invariant on every path, the failing ones included, and touches nothing
    outside the range. *)

From S2P Require Import Prelude.
From S2P Require Import Word.
From S2P Require Import Exclusive.
From S2P Require Import Paging.
From S2P Require Import Queue.
From S2P Require Import Sched.
From S2P Require Import MemPhy.
From S2P Require Import Region.
From S2P Require Import Machine.
From S2P Require Import PageTable.
From S2P Require Import Swap.
From S2P Require Import Vm.
From S2P Require Import Evict.
From S2P Require Import Access.

(** [m'] differs from [m] only in pages [lo, hi) of process [p]. *)
Definition range_step (E F : list Z) (p lo hi : Z) (m m' : machine) : Prop :=
  vm_inv E F m' /\ keeps_procs m m' /\ keeps_kernel m m' /\
  (forall q g, user_page g -> ~ (q = p /\ lo <= g < hi) -> page_state m' q g = page_state m q g) /\
  (forall q a, user_addr a -> ~ (q = p /\ lo <= addr_pgn a < hi) -> vbyte m' q a = vbyte m q a).

Lemma keeps_kernel_trans m1 m2 m3 :
  keeps_procs m1 m2 -> keeps_kernel m1 m2 -> keeps_kernel m2 m3 -> keeps_kernel m1 m3.
Proof.
  intros P1 (U1 & C1 & K1) (U2 & C2 & K2). split_and!; [congruence| |].
  - intros f i Hf Hi. rewrite C2, C1 by (rewrite ?U1; done). done.
  - intros q k x g Hq Hg. destruct (keeps_has_mm _ _ _ _ _ P1 Hq) as (k' & x' & Hq' & Ek & Ex).
    destruct (erased_fields _ _ _ _ Ek Ex) as (_ & E & _).
    rewrite <- (K1 q k x g Hq Hg), <- E. by apply (K2 q k' x').
Qed.

Lemma quiet_range E F p lo hi m m' : quiet E F m m' -> range_step E F p lo hi m m'.
Proof. intros (HI & (HP & HK & HB) & Hps). split_and!; try done; intros; auto. Qed.

Lemma range_step_trans E F E' F' p lo hi m1 m2 m3 :
  range_step E F p lo hi m1 m2 -> range_step E' F' p lo hi m2 m3 -> range_step E' F' p lo hi m1 m3.
Proof.
  intros (_ & P1 & K1 & S1 & B1) (I2 & P2 & K2 & S2 & B2). split_and!; [done| | | |].
  - by eapply keeps_procs_trans.
  - by eapply keeps_kernel_trans.
  - intros q g Hg Hn. by rewrite S2, S1.
  - intros q a Ha Hn. by rewrite B2, B1.
Qed.

Lemma range_valid E F p lo hi m m' q : range_step E F p lo hi m m' -> valid m q -> valid m' q.
Proof.
  intros (_ & HP & _) (k & x & H). destruct (keeps_has_mm _ _ _ _ _ HP H) as (k' & x' & ? & _).
  by exists k', x'.
Qed.

(** One page changed and the devices as they were. *)
Lemma pages_upd_range E F p g s m m' lo hi :
  vm_inv E F m' -> keeps_procs m m' -> keeps_kernel m m' -> ram m' = ram m -> swp m' = swp m ->
  pages_upd m m' p g s -> lo <= g < hi -> range_step E F p lo hi m m'.
Proof.
  intros HI HP HK Hr Hs Hu Hg.
  assert (Hst : forall q g', user_page g' -> ~ (q = p /\ lo <= g' < hi) ->
            page_state m' q g' = page_state m q g').
  { intros q g' Hg' Hn. rewrite Hu by done. rewrite bool_decide_false; [done|].
    intros [-> ->]. apply Hn. split; [done|lia]. }
  split_and!; try done. intros q a Ha Hn. destruct (user_addr_split a Ha) as (Hga & _).
  unfold vbyte. rewrite Hst by done. unfold page_byte. by rewrite Hr, Hs.
Qed.

(** Giving a page a frame. *)
Lemma map_page_spec E F m p f g lo hi :
  vm_inv (f :: E) F m -> valid m p -> user_page g -> lo <= g < hi ->
  wp (pte_set_fpn p g f) (fun r m' =>
    (r = 0 /\ range_step E F p lo hi m m' /\ pages_upd m m' p g (Resident f)) \/
    (r = -1 /\ may_oom m /\ quiet (f :: E) F m m')) m.
Proof.
  intros HI (k & x & Hp) Hg Hlo. pose proof (vi_shape _ _ _ HI) as HS.
  unfold wp. rewrite pte_set_fpn_entry.
  pose proof (pte_set_spec (roots m) m p k x (vs_forest _ HS) Hp g (fpn_pte f)) as Hset.
  rewrite root_for_user in Hset by done.
  specialize (Hset ltac:(by left) ltac:(eauto with ossim)). unfold wp in Hset.
  destruct (pte_set_entry p g _ m) as [s m'| |]; try done.
  destruct Hset as [[-> Hu]|(-> & _ & Ho & Hs)]; [left|right].
  2:{ split_and!; [done|done|by apply inv_pt_step|by apply (inv_pt_step (f :: E) F)..]. }
  destruct (shape_pt_upd m m' p k x g _ HS Hp Hg (fpn_pte_clean f) Hu) as (HS' & Hkp & Hkk & Hps).
  destruct Hu as ((_ & Hr & Hsw & _ & _) & _).
  assert (Hf : 0 <= f < 2 ^ 40).
  { apply (ram_frame_small m); [done|]. apply (ex_range _ _ _ (vi_ram _ _ _ HI)).
    apply elem_of_app. right. left. }
  rewrite decode_fpn_pte in Hps by done. fold (pages_upd m m' p g (Resident f)) in Hps.
  destruct (held_upd m m' p g _ Hps Hg) as [H1 H2].
  split; [done|]. split; [|done]. apply (pages_upd_range E F p g (Resident f)); try done.
  split; [done| |]; rewrite ?Hr, ?Hsw.
  - eapply exclusive_ext; [|exact H1]. apply exclusive_give.
    eapply exclusive_perm; [apply HI|]. unfold ram_lists. rewrite Hr. apply Permutation_middle.
  - eapply exclusive_ext; [|exact H2]. simpl. unfold swp_lists. rewrite Hsw. apply exclusive_forget, HI.
Qed.

(** Taking the frame of a page away again. *)
Lemma unmap_page_spec E F m p f g lo hi :
  vm_inv E F m -> valid m p -> user_page g -> lo <= g < hi -> page_state m p g = Resident f ->
  wp (pte_set_entry p g 0) (fun _ m' => range_step (f :: E) F p lo hi m m') m.
Proof.
  intros HI (k & x & Hp) Hg Hlo Hst. pose proof (vi_shape _ _ _ HI) as HS.
  pose proof (pte_set_spec (roots m) m p k x (vs_forest _ HS) Hp g 0) as Hset.
  rewrite root_for_user in Hset by done.
  specialize (Hset ltac:(by left) ltac:(eauto with ossim)). eapply wp_mono; [exact Hset|].
  intros s m' [[-> Hu]|(_ & Hno & _)].
  2:{ exfalso. revert Hno. apply reach_mapped. unfold page_state in Hst.
      rewrite (mm_of_has_mm _ _ _ _ Hp) in Hst. by rewrite Hst. }
  destruct (shape_pt_upd m m' p k x g 0 HS Hp Hg eq_refl Hu) as (HS' & Hkp & Hkk & Hps).
  destruct Hu as ((_ & Hr & Hsw & _ & _) & _).
  rewrite decode_zero in Hps. fold (pages_upd m m' p g Unmapped) in Hps.
  destruct (held_upd m m' p g _ Hps Hg) as [H1 H2].
  apply (pages_upd_range (f :: E) F p g Unmapped); try done.
  split; [done| |]; rewrite ?Hr, ?Hsw.
  - eapply exclusive_ext; [|exact H1]. apply (exclusive_perm _ (f :: ram_lists m ++ E)).
    + apply exclusive_take; [apply HI|]. unfold ram_held. simpl. by rewrite decide_True, Hst.
    + unfold ram_lists. rewrite Hr. symmetry. apply Permutation_middle.
  - eapply exclusive_ext; [|exact H2]. simpl. unfold swp_lists. rewrite Hsw. apply exclusive_forget, HI.
Qed.

Lemma range_widen E F p lo hi lo' hi' m m' :
  lo <= lo' -> hi' <= hi -> range_step E F p lo' hi' m m' -> range_step E F p lo hi m m'.
Proof.
  intros Hl Hh (HI & HP & HK & HS & HB). split_and!; try done; intros q ? ? Hn.
  - apply HS; [done|]. intros [-> ?]. apply Hn. split; [done|lia].
  - apply HB; [done|]. intros [-> ?]. apply Hn. split; [done|lia].
Qed.

Lemma range_oom E F p lo hi m m' : range_step E F p lo hi m m' -> may_oom m' -> may_oom m.
Proof. intros (_ & (_ & _ & Ho & _) & _) [n Hn]. exists n. by rewrite <- Ho. Qed.

Lemma page_bytes_ok n m : n * PAGING64_PAGESZ < 2 ^ 31 -> page_bytes n m = Ret (n * PAGING64_PAGESZ) m.
Proof. intros H. unfold page_bytes. by rewrite bool_decide_true. Qed.

Section map_loop.
Context (E F : list Z) (p addr pgn n0 : Z).
Context (Hpages : forall j, 0 <= j < n0 -> user_page (pgn + j)) (Hsz : n0 * PAGING64_PAGESZ < 2 ^ 31).

Definition map_post (pgit : Z) (m : machine) (r : Z * Z) (m' : machine) : Prop :=
  range_step E F p (pgn + pgit) (pgn + n0) m m' /\
  ((fst r = 0 /\ snd r = u64 (addr + n0 * PAGING64_PAGESZ) /\
    forall g, pgn + pgit <= g < pgn + n0 -> exists f, page_state m' p g = Resident f) \/
   (fst r = u64 (-1) /\ may_oom m)).

Lemma stop_spec pgit m m' :
  0 <= pgit <= n0 -> range_step E F p (pgn + pgit) (pgn + n0) m m' -> may_oom m ->
  wp (let* b := page_bytes pgit in ret (u64 (-1), u64 (addr + b))) (map_post pgit m) m'.
Proof using Hsz.
  intros Hp HR Ho. apply wp_bind. eapply wp_eq.
  - apply page_bytes_ok. unfold PAGING64_PAGESZ in *. lia.
  - apply wp_ret. split; [done|]. by right.
Qed.

Lemma map_loop_spec fs : forall pgit m,
  0 <= pgit -> pgit + Z.of_nat (length fs) = n0 -> vm_inv (fs ++ E) F m -> valid m p ->
  wp (map_loop p (Some Ram) addr pgn pgit (length fs) fs) (map_post pgit m) m.
Proof using Hpages Hsz.
  induction fs as [|f fs IH]; intros pgit m H0 Hn HI Hv; simpl.
  - simpl in Hn. rewrite Z.add_0_r in Hn. subst pgit. apply wp_bind.
    eapply wp_eq; [by apply page_bytes_ok|]. apply wp_ret.
    split; [by apply quiet_range, quiet_refl|]. left. split_and!; [done|done|]. intros g Hg. lia.
  - simpl in Hn. assert (Hj : 0 <= pgit < n0) by lia. pose proof (Hpages pgit Hj) as Hg.
    rewrite (u64_small (pgn + pgit)) by (unfold is_u64, user_page in *; lia).
    apply wp_bind. eapply wp_mono.
    { apply (map_page_spec (fs ++ E) F m p f (pgn + pgit) (pgn + pgit) (pgn + n0)); try done. lia. }
    intros r m1 [(-> & HR1 & HU1)|(-> & Ho & HQ1)].
    2:{ simpl. apply wp_bind. eapply wp_mono.
        - apply (release_frame_list_spec F p (f :: fs) E m1); [apply HQ1|].
          eapply keeps_valid; [apply HQ1|done].
        - intros [] m2 HQ2. apply stop_spec; [lia| |done].
          apply quiet_range. by eapply quiet_trans. }
    simpl. pose proof (range_valid _ _ _ _ _ _ _ _ HR1 Hv) as Hv1.
    assert (Hst1 : page_state m1 p (pgn + pgit) = Resident f)
      by (rewrite HU1 by done; by rewrite bool_decide_true).
    apply wp_bind. eapply wp_mono; [apply (enlist_pgn_spec (fs ++ E) F m1 p); [apply HR1|done|done]|].
    intros r2 m2 (HQ2 & Hr2).
    pose proof (range_step_trans _ _ _ _ _ _ _ _ _ _ HR1 (quiet_range _ _ p _ _ _ _ HQ2)) as HR2.
    pose proof (range_valid _ _ _ _ _ _ _ _ HR2 Hv) as Hv2.
    assert (Hst2 : page_state m2 p (pgn + pgit) = Resident f) by (by rewrite (proj2 (proj2 HQ2))).
    destruct Hr2 as [-> | [-> Ho]]; simpl.
    + eapply wp_mono; [apply (IH (pgit + 1) m2); [lia|lia|apply HR2|done]|].
      intros r m3 [HR3 Hr3]. split.
      { eapply range_step_trans; [exact HR2|]. eapply range_widen; [| |exact HR3]; lia. }
      destruct Hr3 as [(? & ? & Hpg)|(? & Ho)]; [left|right].
      * split_and!; try done. intros g Hgr. destruct (decide (g = pgn + pgit)) as [->|Hne].
        -- exists f. rewrite <- Hst2. apply HR3; [done|lia].
        -- apply Hpg. lia.
      * split; [done|]. by eapply range_oom.
    + apply wp_bind. eapply wp_mono.
      { apply (unmap_page_spec (fs ++ E) F m2 p f (pgn + pgit) (pgn + pgit) (pgn + n0));
          [apply HR2|done|done|lia|done]. }
      intros r3 m3 HR3; cbv beta in HR3. pose proof (range_step_trans _ _ _ _ _ _ _ _ _ _ HR2 HR3) as HR3'.
      apply wp_bind. eapply wp_mono; [apply (ram_put_spec (fs ++ E) F), HR3'|].
      intros _ m4 (HQ4 & _). apply wp_bind. eapply wp_mono.
      { apply (release_frame_list_spec F p fs E m4); [apply HQ4|].
        eapply keeps_valid; [apply HQ4|]. by eapply range_valid. }
      intros [] m5 HQ5. apply stop_spec; [lia| |exact (range_oom _ _ _ _ _ _ _ HR1 Ho)].
      eapply range_step_trans; [exact HR3'|]. apply quiet_range. by eapply quiet_trans.
Qed.
End map_loop.

(** ** The whole mapping operation *)

Lemma user_range_valid addr n :
  addr mod 4096 = 0 -> 0 <= addr -> 0 <= n < 2 ^ 31 -> addr + n * 4096 <= 2 ^ 56 ->
  validate_page_range addr n = 0 /\ forall j, 0 <= j < n -> user_page (addr_pgn addr + j).
Proof.
  intros Ha H0 Hn Hend. split.
  - apply validate_page_range_complete; [unfold is_u64; lia|lia|done|].
    intros i Hi. split; [lia|]. rewrite is_kernel_address_spec.
    + rewrite bool_decide_false by (unfold kernel_addr; lia). unfold user_addr. lia.
    + unfold is_u64; lia.
    + left. unfold user_addr. lia.
  - intros j Hj. rewrite addr_pgn_div. unfold user_page. Z.div_mod_to_equations. lia.
Qed.

(** The first loop of [vmap_page_range] creates the tables of the range. *)
Lemma create_tables_spec R m p k x pgn n :
  forest R (tables m) (next_table m) -> has_mm m p k x -> R (pgd x) ->
  (forall j, 0 <= j < n -> user_page (pgn + j)) ->
  wp (for_each (fun pgit =>
        let* pte := walk_pte p (pgn_addr (u64 (pgn + pgit))) true in
        ret (if bool_decide (pte = None) then -1 else 0)) (seqZ 0 n))
    (fun r m' => pt_step R m m' /\ (r = 0 \/ r = -1 /\ may_oom m)) m.
Proof.
  intros HF Hp HR Hpg. apply (wp_for_each _ (fun _ m' => pt_step R m m')).
  - by apply pt_step_refl.
  - intros xs i ys m1 Hl Hs. destruct (seqZ_split _ _ _ _ Hl) as [_ Hi].
    pose proof (Hpg i Hi) as Hg.
    rewrite (u64_small (pgn + i)) by (unfold is_u64, user_page in *; lia).
    apply wp_bind. eapply wp_mono.
    { apply (walk_pte_spec R m1 p k x); [apply Hs|eapply has_mm_same; [apply Hs|done]|by left|].
      by rewrite root_for_user. }
    intros o m2 (Hs2 & _ & Ho). pose proof (pt_step_trans _ _ _ _ Hs Hs2) as Hs'.
    apply wp_ret. destruct o as [[t j]|].
    + by rewrite (bool_decide_false (Some (t, j) = None)).
    + rewrite (bool_decide_true (None = None)) by done. simpl. split; [done|]. right. split; [done|].
      eapply pt_step_oom; [exact Hs|]. by apply Ho.
  - intros m1 Hs. auto.
Qed.

Definition map_range_post (E F : list Z) (p addr n : Z) (m : machine)
    (r : Z * option (Z * Z)) (m' : machine) : Prop :=
  range_step E F p (addr_pgn addr) (addr_pgn addr + n) m m' /\
  ((fst r = 0 /\ snd r = Some (addr, addr + n * PAGING64_PAGESZ) /\
    forall g, addr_pgn addr <= g < addr_pgn addr + n -> exists f, page_state m' p g = Resident f) \/
   (fst r = u64 (-1) /\ may_oom m)).

Lemma vmap_page_range_spec E F m p addr n fs :
  vm_inv (fs ++ E) F m -> valid m p -> Z.of_nat (length fs) = n -> n * PAGING64_PAGESZ < 2 ^ 31 ->
  addr mod 4096 = 0 -> 0 <= addr -> addr + n * 4096 <= 2 ^ 56 ->
  wp (vmap_page_range p addr n fs) (map_range_post E F p addr n m) m.
Proof.
  intros HI Hv Hn Hsz Ha H0 Hend.
  assert (0 <= n < 2 ^ 31) as Hn' by (unfold PAGING64_PAGESZ in Hsz; lia).
  destruct (user_range_valid addr n Ha H0 Hn' Hend) as [Hval Hpg].
  destruct (valid_krnl _ _ _ _ HI Hv) as (k & x & Hk & Hp & Hr & _).
  unfold vmap_page_range. apply wp_bind. eapply wp_eq; [exact Hk|]. cbv beta iota.
  pose proof Hp as (_ & _ & Hx). rewrite Hx, Hval. cbn [bool_decide].
  rewrite !bool_decide_false by (done || by intros []). simpl orb. cbv iota.
  apply wp_bind. eapply wp_eq; [by apply page_bytes_ok|]. cbv beta.
  apply wp_bind. eapply wp_mono.
  { apply (create_tables_spec (roots m) m p k x); eauto with ossim. apply HI. }
  intros r m1 [Hs Hr1]. pose proof (inv_pt_step _ _ _ _ HI Hs) as HQ1.
  assert (Hv1 : valid m1 p) by (eapply keeps_valid; [apply HQ1|done]).
  destruct Hr1 as [-> | [-> Ho]]; simpl.
  - rewrite Hr. apply wp_bind. replace (Z.to_nat n) with (length fs) by lia.
    eapply wp_mono; [apply (map_loop_spec E F p addr (addr_pgn addr) n Hpg Hsz fs 0 m1); [lia|lia|apply HQ1|done]|].
    intros [s e] m2 [HR2 Hres]. rewrite Z.add_0_r in *. apply wp_ret. split.
    + eapply range_step_trans; [|exact HR2]. by apply quiet_range.
    + simpl in *. destruct Hres as [(-> & -> & Hg)|(-> & Ho)]; [left|right].
      * split_and!; [done| |done]. f_equal. f_equal. apply u64_small. unfold is_u64, PAGING64_PAGESZ. lia.
      * split; [done|]. eapply pt_step_oom; [exact Hs|done].
  - apply wp_bind. eapply wp_mono; [apply (release_frame_list_spec F p fs E m1); [apply HQ1|done]|].
    intros [] m2 HQ2. apply wp_ret. split; [|by right]. apply quiet_range. by eapply quiet_trans.
Qed.

(** Frames are certain when the free list is long enough. *)
Lemma alloc_loop_enough p n : forall got m,
  (forall i, oom m i = false) -> (n <= length (free_fp_list (ram m)))%nat ->
  wp (alloc_loop p (Some Ram) n got) (fun r _ => fst r = 0) m.
Proof.
  induction n as [|n IH]; intros got m Ho Hl; cbn [alloc_loop]; [by apply wp_ret|].
  apply wp_bind. destruct (free_fp_list (ram m)) as [|f l] eqn:Hf; [simpl in Hl; lia|].
  eapply wp_eq.
  { unfold dev_get_freefp. rewrite on_dev_eq. unfold MEMPHY_get_freefp. simpl. by rewrite Hf. }
  cbv beta. apply wp_bind, wp_ret. apply wp_bind. eapply wp_eq; [reflexivity|]. simpl. rewrite Ho. simpl.
  apply IH; simpl; [done|]. simpl in Hl. lia.
Qed.

Lemma vm_map_ram_spec E F m p addr n :
  vm_inv E F m -> valid m p -> 0 <= n -> n * PAGING64_PAGESZ < 2 ^ 31 -> ~ may_oom m ->
  addr mod 4096 = 0 -> 0 <= addr -> addr + n * 4096 <= 2 ^ 56 ->
  wp (vm_map_ram p addr n) (fun r m' =>
    (exists m1, fst r = 0 /\ snd r = Some (addr, addr + n * PAGING64_PAGESZ) /\ keeps m m1 /\
       range_step E F p (addr_pgn addr) (addr_pgn addr + n) m1 m' /\
       forall g, addr_pgn addr <= g < addr_pgn addr + n -> exists f, page_state m' p g = Resident f) \/
    (fst r = u64 (-1) /\ snd r = None /\ vm_inv E F m' /\ keeps m m' /\
     (length (free_fp_list (ram m)) < Z.to_nat n)%nat)) m.
Proof.
  intros HI Hv Hn Hsz Hoom Ha H0 Hend. unfold vm_map_ram. apply wp_bind.
  assert (Henough : (Z.to_nat n <= length (free_fp_list (ram m)))%nat ->
            wp (alloc_pages_range p n) (fun r _ => fst r = 0) m).
  { intros Hl. destruct (valid_krnl _ _ _ _ HI Hv) as (k & x & Hk & Hp & Hr & _).
    unfold alloc_pages_range. apply wp_bind. eapply wp_eq; [exact Hk|]. cbv beta iota.
    destruct (has_mm_flags _ _ _ _ (vi_shape _ _ _ HI) Hp) as [-> _].
    rewrite bool_decide_false, Hr by lia. simpl. apply alloc_loop_enough; [|done].
    intros i. destruct (oom m i) eqn:Ho; [|done]. exfalso. apply Hoom. by exists i. }
  pose proof (alloc_pages_range_spec E F m p n HI Hv Hn) as Hspec.
  apply wp_elim in Hspec as ([s fs] & m1 & Hrun & HK1 & Hres). unfold wp at 1. rewrite Hrun.
  simpl in Hres. destruct Hres as [(-> & HI1 & Hlen)|([-> | [-> Ho]] & -> & HI1)]; [| |done].
  - apply wp_bind. eapply wp_mono.
    { apply (vmap_page_range_spec E F m1 p addr n fs); try done; [by eapply keeps_valid|lia]. }
    intros [s rg] m2 [HR2 Hres]. simpl in Hres. destruct Hres as [(-> & -> & Hg)|(_ & Ho)].
    + apply wp_ret. left. exists m1. by split_and!.
    + exfalso. apply Hoom. by eapply may_oom_keeps.
  - apply wp_ret. right. split_and!; try done.
    destruct (decide (Z.to_nat n <= length (free_fp_list (ram m)))%nat) as [Hl|Hl]; [|lia].
    specialize (Henough Hl). unfold wp in Henough. rewrite Hrun in Henough. done.
Qed.
