(* ===== verification/Area.v ===== *)
(** * Virtual memory areas ([src/mm-vm.c], [src/libmem.c])

    The areas of an [mm_struct] are a list; a pointer to one is its index.
    [inc_vma_limit] moves the break of an area and maps the new pages,
    [get_free_vmrg_area] takes space from its list of free regions. *)

From S2P Require Import Prelude.
From S2P Require Import Word.
From S2P Require Import Paging.
From S2P Require Import Region.
From S2P Require Import Machine.
From S2P Require Import PageTable.
From S2P Require Import Swap.

(** The search loop from the area at index [i] on, with [l] the rest of the
    list; running off the list dereferences NULL. *)
Fixpoint vma_loop (l : list vm_area_struct) (i : nat) (vmaid : Z) : M machine nat :=
  match l with
  | [] => ub
  | v :: rest =>
    if bool_decide (i32 (vm_id v) < vmaid) then vma_loop rest (S i) vmaid else ret i
  end.

Definition get_vma_by_num (x : mm_struct) (vmaid : Z) : M machine (option nat) :=
  match mmap x with
  | [] => ret None
  | l => let* i := vma_loop l 0 vmaid in ret (Some i)
  end.

(** [caller->krnl->mm] without a test. *)
Definition the_mm (caller : Z) : M machine mm_struct :=
  let* x := get_mm caller in match x with Some x => ret x | None => ub end.

(** The area behind a pointer. *)
Definition the_vma (caller : Z) (i : nat) : M machine vm_area_struct :=
  let* x := the_mm caller in
  match mmap x !! i with Some v => ret v | None => ub end.
Definition upd_vma (caller : Z) (i : nat) (f : vm_area_struct -> vm_area_struct) : M machine unit :=
  upd_mm caller (fun x => set_mmap x (alter f i (mmap x))).

Definition set_limits (e : Z) (v : vm_area_struct) : vm_area_struct :=
  mkVma (vm_id v) (vm_start v) e e (vm_freerg_list v).
Definition set_freerg (l : list vm_rg_struct) (v : vm_area_struct) : vm_area_struct :=
  mkVma (vm_id v) (vm_start v) (vm_end v) (sbrk v) l.

Definition OVERLAP (x1 x2 y1 y2 : Z) : bool := bool_decide (x1 < y2) && bool_decide (y1 < x2).

Definition validate_overlap_vm_area (caller vmaid vmastart vmaend : Z) : M machine Z :=
  if bool_decide (vmaend <= vmastart) then ret (-1)
  else
    let* x := the_mm caller in
    let* cur := get_vma_by_num x vmaid in
    match cur with
    | None => ret (-1)
    | Some cur_area =>
      let hit := existsb (fun iv => negb (bool_decide (fst iv = cur_area)) &&
                            OVERLAP vmastart vmaend (vm_start (snd iv)) (vm_end (snd iv)))
                   (imap pair (mmap x)) in
      ret (if hit then -1 else 0)
    end.

(** [vm_map_ram] returns an [addr_t], so the test [< 0] never holds; a region
    it did not fill in is uninitialised memory, and linking it is undefined. *)
Definition inc_vma_limit (caller vmaid inc_sz : Z) : M machine Z :=
  let* ok := malloc in
  if negb ok then ret (-1)
  else
    let inc_amt := PAGING64_PAGE_ALIGNSZ inc_sz in
    let incnumpage := i32 (inc_amt / PAGING64_PAGESZ) in
    let* x := the_mm caller in
    let* cur := get_vma_by_num x vmaid in
    match cur with
    | None => ret (-1)
    | Some cur_vma =>
      let* v := the_vma caller cur_vma in
      let old_end := sbrk v in
      let new_end := u64 (old_end + inc_amt) in
      let* r := validate_overlap_vm_area caller vmaid old_end new_end in
      if bool_decide (r < 0) then ret (-1)
      else
        upd_vma caller cur_vma (set_limits new_end) ;;
        let* (r, newrg) := vm_map_ram caller old_end incnumpage in
        if bool_decide (r < 0) then upd_vma caller cur_vma (set_limits old_end) ;; ret (-1)
        else
          match newrg with
          | None => ub
          | Some (s, e) =>
            upd_vma caller cur_vma (fun v =>
              set_freerg (snd (enlist_vm_rg_node (vm_freerg_list v) (mkRg 0 s e))) v) ;;
            ret 0
          end
    end.

(** [size] is an [int] parameter; [None] stands for status -1. *)
Definition get_free_vmrg_area (caller vmaid size : Z) : M machine (option (Z * Z)) :=
  let* x := the_mm caller in
  let* cur := get_vma_by_num x vmaid in
  match cur with
  | None => ub
  | Some cur_vma =>
    let* v := the_vma caller cur_vma in
    let '(st, newrg, l') := get_free_vmrg (vm_freerg_list v) size in
    upd_vma caller cur_vma (set_freerg l') ;;
    ret (if bool_decide (st = 0) then Some newrg else None)
  end.

Definition get_symrg_byid (x : option mm_struct) (rgid : Z) : option vm_rg_struct :=
  match x with
  | None => None
  | Some x =>
    if bool_decide (rgid < 0) || bool_decide (PAGING_MAX_SYMTBL_SZ <= rgid) then None
    else symrgtbl x !! Z.to_nat rgid
  end.

Definition set_symrg (caller rgid : Z) (r : vm_rg_struct) : M machine unit :=
  upd_mm caller (fun x => set_symrgtbl x (<[Z.to_nat rgid := r]> (symrgtbl x))).
