(* ===== verification/Syscall.v ===== *)
(** * System calls ([src/sys_mem.c], [src/syscall.c], [src/libstd.c],
    [src/sys_listsyscall.c], [src/sys_compat101.c], [src/sys_xxxhandler.c])

    The dispatch table, the memory-map call with its five operations, and the
    user-side wrapper.  Logging and the listing of the table are output only. *)

From S2P Require Import Prelude.
From S2P Require Import Word.
From S2P Require Import Sched.
From S2P Require Import Machine.
From S2P Require Import PageTable.
From S2P Require Import Swap.
From S2P Require Import Area.

(** The three fields of [sc_regs] that a handler reads. *)
Record sc_regs := mkScRegs { a1 : Z; a2 : Z; a3 : Z }.

Definition SYSMEM_MAP_OP : Z := 1.
Definition SYSMEM_INC_OP : Z := 2.
Definition SYSMEM_SWP_OP : Z := 3.
Definition SYSMEM_IO_READ : Z := 4.
Definition SYSMEM_IO_WRITE : Z := 5.

(** [find_proc] on the running list of the scheduler. *)
Definition m_find_proc (pid_ : Z) : M machine Z := fun m =>
  Ret (find_proc (fun p => match procs m !! p with Some x => pid x | None => 0 end) (sch m) pid_) m.

(** The bounds test of the two byte operations on area 0: its outcome is the
    status to return, or [None] to go on. *)
Definition io_bounds (caller addr : Z) : M machine (option Z) :=
  let* x := the_mm caller in
  let* cur := get_vma_by_num x 0 in
  match cur with
  | None => ret (Some (-1))
  | Some i =>
    let* v := the_vma caller i in
    ret (if bool_decide (addr < vm_start v) || bool_decide (sbrk v <= addr) then Some (-1) else None)
  end.

(** [krnl] tells whether the [krnl_t] pointer is set. *)
Definition __sys_memmap (krnl : bool) (pid_ : Z) (regs : sc_regs) : M machine (Z * sc_regs) :=
  let memop := i32 (a1 regs) in
  let* caller := m_find_proc pid_ in
  if negb krnl || bool_decide (caller = 0) then ret (-1, regs)
  else if bool_decide (memop = SYSMEM_MAP_OP) then
    let* r := vmap_pgd_memset caller (a2 regs) (i32 (a3 regs)) in
    ret (if bool_decide (r <> 0) then -1 else 0, regs)
  else if bool_decide (memop = SYSMEM_INC_OP) then
    let* r := inc_vma_limit caller (i32 (a2 regs)) (a3 regs) in
    ret (if bool_decide (r < 0) then -1 else 0, regs)
  else if bool_decide (memop = SYSMEM_SWP_OP) then
    let* r := __mm_swap_page caller (a2 regs) (a3 regs) in
    ret (if bool_decide (r < 0) then -1 else 0, regs)
  else if bool_decide (memop = SYSMEM_IO_READ) then
    let* b := io_bounds caller (a2 regs) in
    match b with
    | Some s => ret (s, regs)
    | None =>
      let* value := pg_getval (a2 regs) caller in
      match value with
      | None => ret (-1, regs)
      | Some value => ret (0, mkScRegs (a1 regs) (a2 regs) (u64 value))
      end
    end
  else if bool_decide (memop = SYSMEM_IO_WRITE) then
    let* b := io_bounds caller (a2 regs) in
    match b with
    | Some s => ret (s, regs)
    | None =>
      let* r := pg_setval (a2 regs) (i8 (Z.land (a3 regs) 0xFF)) caller in
      ret (if bool_decide (r < 0) then -1 else 0, regs)
    end
  else ret (-1, regs).

Definition __sys_listsyscall (krnl : bool) (pid_ : Z) (regs : sc_regs) : M machine (Z * sc_regs) :=
  ret (0, regs).
Definition __sys_compat101 (krnl : bool) (pid_ : Z) (regs : sc_regs) : M machine (Z * sc_regs) :=
  ret (0, regs).
Definition __sys_xxxhandler (krnl : bool) (pid_ : Z) (regs : sc_regs) : M machine (Z * sc_regs) :=
  ret (0, regs).
Definition __sys_ni_syscall (krnl : bool) (regs : sc_regs) : M machine (Z * sc_regs) :=
  ret (-1, regs).

Definition _syscall (krnl : bool) (pid_ nr : Z) (regs : sc_regs) : M machine (Z * sc_regs) :=
  if bool_decide (nr = 0) then __sys_listsyscall krnl pid_ regs
  else if bool_decide (nr = 17) then __sys_memmap krnl pid_ regs
  else if bool_decide (nr = 101) then __sys_compat101 krnl pid_ regs
  else if bool_decide (nr = 440) then __sys_xxxhandler krnl pid_ regs
  else __sys_ni_syscall krnl regs.

Definition libsyscall (caller syscall_idx a1_ a2_ a3_ : Z) : M machine Z :=
  let* k := get_krnl caller in
  match k with
  | None => ret (-1)
  | Some _ =>
    let* x := get_pcb caller in
    let* (r, regs) := _syscall true (pid x) syscall_idx (mkScRegs a1_ a2_ a3_) in
    if bool_decide (r = 0) && bool_decide (syscall_idx = 17) && bool_decide (a1_ = SYSMEM_IO_READ)
    then
      if bool_decide (10 <= a3_) then ret (-1)
      else set_reg caller a3_ (a3 regs) ;; ret r
    else ret r
  end.
