(* ===== verification/Libmem.v ===== *)
(** * The user memory library ([src/libmem.c])

    Allocation, release and byte access of the regions in a process's symbol
    table, as the instructions ALLOC, FREE, READ and WRITE use them.  The
    dumps after each operation are in [Trace]. *)

From S2P Require Import Prelude.
From S2P Require Import Word.
From S2P Require Import Exclusive.
From S2P Require Import Paging.
From S2P Require Import Queue.
From S2P Require Import Sched.
From S2P Require Import MemPhy.
From S2P Require Import Region.
From S2P Require Import Machine.
From S2P Require Import PageTable.
From S2P Require Import Swap.
From S2P Require Import Vm.
From S2P Require Import Evict.
From S2P Require Import Access.
From S2P Require Import Area.
From S2P Require Import Syscall.

(** The address of the region, or [None] for status -1. *)
Definition __alloc (caller vmaid rgid size : Z) : M machine (option Z) :=
  let* x := get_mm caller in
  match x with
  | None => ret None
  | Some x =>
    if bool_decide (rgid < 0) || bool_decide (PAGING_MAX_SYMTBL_SZ <= rgid) || bool_decide (size = 0)
    then ret None
    else
      let* cur_vma := get_vma_by_num x vmaid in
      match cur_vma with
      | None => ret None
      | Some _ =>
        let* rg := get_free_vmrg_area caller vmaid (i32 size) in
        match rg with
        | Some (s, e) => set_symrg caller rgid (mkRg vmaid s e) ;; ret (Some s)
        | None =>
          let inc_amt := PAGING64_PAGE_ALIGNSZ size in
          let* y := get_pcb caller in
          let* (sret, _) := _syscall true (pid y) 17 (mkScRegs SYSMEM_INC_OP (u64 vmaid) inc_amt) in
          if bool_decide (sret < 0) then ret None
          else
            let* rg := get_free_vmrg_area caller vmaid (i32 size) in
            match rg with
            | Some (s, e) => set_symrg caller rgid (mkRg vmaid s e) ;; ret (Some s)
            | None => ret None
            end
        end
      end
  end.

Definition __free (caller vmaid rgid : Z) : M machine Z :=
  let* x := get_mm caller in
  match x with
  | None => ret (-1)
  | Some x =>
    if bool_decide (rgid < 0) || bool_decide (PAGING_MAX_SYMTBL_SZ <= rgid) then ret (-1)
    else
      match get_symrg_byid (Some x) rgid with
      | None => ub
      | Some rgnode =>
        if bool_decide (rg_start rgnode = 0) && bool_decide (rg_end rgnode = 0) then ret (-1)
        else
          let* ok := malloc in
          if negb ok then ret (-1)
          else
            set_symrg caller rgid (mkRg (Region.vmaid rgnode) 0 0) ;;
            let* x := the_mm caller in
            let* cur_vma := get_vma_by_num x vmaid in
            match cur_vma with
            | None => ret (-1)
            | Some i =>
              upd_vma caller i (fun v =>
                set_freerg (snd (enlist_vm_rg_node (vm_freerg_list v)
                                   (mkRg 0 (rg_start rgnode) (rg_end rgnode)))) v) ;;
              ret 0
            end
      end
  end.

Definition liballoc (caller size reg_index : Z) : M machine Z :=
  let* r := __alloc caller 0 (i32 reg_index) size in
  ret (match r with None => -1 | Some _ => 0 end).

Definition libfree (caller reg_index : Z) : M machine Z :=
  let* r := __free caller 0 (i32 reg_index) in
  ret (if bool_decide (r = -1) then -1 else 0).

(** The address of byte [offset] of a region, if it is a user address. *)
Definition access_addr (rg : vm_rg_struct) (offset : Z) : option Z :=
  if bool_decide (u64 (rg_end rg - rg_start rg) <= offset) then None
  else
    let a := u64 (rg_start rg + offset) in
    if bool_decide (a < rg_start rg) || negb (is_user_vaddr_range (rg_start rg) (rg_end rg))
       || negb (is_user_vaddr_range a (u64 (a + 1)))
    then None else Some a.

(** The byte, or [None] for status -1. *)
Definition __read (caller rgid offset : Z) : M machine (option Z) :=
  let* k := get_krnl caller in
  match k with
  | None => ub
  | Some k =>
    match get_symrg_byid (mm k) rgid with
    | None => ret None
    | Some rg =>
      if bool_decide (rg_start rg = rg_end rg) then ret None
      else match access_addr rg offset with
           | None => ret None
           | Some a => pg_getval a caller
           end
    end
  end.

Definition __write (caller vmaid rgid offset value : Z) : M machine Z :=
  let* k := get_krnl caller in
  match k with
  | None => ub
  | Some k =>
    match mm k with
    | None => ub
    | Some x =>
      let* cur_vma := get_vma_by_num x vmaid in
      match get_symrg_byid (mm k) rgid, cur_vma with
      | Some rg, Some _ =>
        if bool_decide (rg_start rg = rg_end rg) then ret (-1)
        else match access_addr rg offset with
             | None => ret (-1)
             | Some a => pg_setval a value caller
             end
      | _, _ => ret (-1)
      end
    end
  end.

(** A byte is a [char]; stored in a register it is sign-extended. *)
Definition libread (caller source offset destination : Z) : M machine Z :=
  let* r := __read caller (i32 source) offset in
  match r with
  | None => ret (-1)
  | Some data => set_reg caller destination (u64 data) ;; ret 0
  end.

Definition libwrite (caller data destination offset : Z) : M machine Z :=
  let* r := __write caller 0 (i32 destination) offset data in
  ret (if bool_decide (r = -1) then -1 else r).

(** ** Lemmas: region access *)

Lemma user_range_spec s e :
  is_u64 s -> is_u64 e -> is_user_vaddr_range s e = bool_decide (s < e /\ e <= 2 ^ 56).
Proof.
  intros Hs He. unfold is_user_vaddr_range, is_u64 in *.
  case_bool_decide as H1; [by rewrite bool_decide_false by lia|].
  rewrite (u64_small (e - 1)) by (unfold is_u64; lia).
  pose proof (get_pd_ok s) as C1. pose proof (get_pd_ok (e - 1)) as C2.
  unfold is_u64 in C1, C2. specialize (C1 ltac:(lia)). specialize (C2 ltac:(lia)).
  rewrite !bit56_mod. unfold canonical, user_addr, kernel_addr in *.
  repeat case_bool_decide; try done; exfalso; Z.div_mod_to_equations; lia.
Qed.

(** A region of user space. *)
Definition user_rg (rg : vm_rg_struct) : Prop := rg_start rg < rg_end rg /\ rg_end rg <= 2 ^ 56.

#[export] Instance user_rg_dec rg : Decision (user_rg rg).
Proof. unfold user_rg. apply _. Defined.

(** The byte at [offset] exists exactly when the region is one of user space
    and the offset is inside it. *)
Lemma access_addr_exact rg offset :
  rg_ok rg -> is_u64 offset ->
  access_addr rg offset =
  if bool_decide (user_rg rg /\ offset < rg_end rg - rg_start rg)
  then Some (rg_start rg + offset) else None.
Proof.
  intros (H0 & H1 & H2) Ho. unfold access_addr, user_rg. unfold is_u64 in *.
  rewrite (u64_small (rg_end rg - rg_start rg)) by (unfold is_u64; lia).
  rewrite user_range_spec by (unfold is_u64; lia).
  case_bool_decide as Hlt; [by rewrite bool_decide_false by lia|].
  rewrite (u64_small (rg_start rg + offset)) by (unfold is_u64; lia).
  rewrite (u64_small (rg_start rg + offset + 1)) by (unfold is_u64; lia).
  rewrite user_range_spec by (unfold is_u64; lia).
  repeat case_bool_decide; simpl; try done; lia.
Qed.

(** The index of a region from a 32-bit register number. *)
Lemma get_symrg_ok x r rg :
  0 <= r < 30 -> symrgtbl x !! Z.to_nat r = Some rg -> get_symrg_byid (Some x) (i32 r) = Some rg.
Proof.
  intros Hr Hrg. unfold get_symrg_byid. rewrite i32_small by lia.
  unfold PAGING_MAX_SYMTBL_SZ. by rewrite !bool_decide_false by lia.
Qed.

(** Area 0 is the first one. *)
Lemma get_vma0 x m v l :
  mmap x = v :: l -> 0 <= i32 (vm_id v) -> get_vma_by_num x 0 m = Ret (Some 0%nat) m.
Proof.
  intros Hm Hv. unfold get_vma_by_num. rewrite Hm. unfold bind. simpl.
  by rewrite bool_decide_false by lia.
Qed.

Section access.
Context (E F : list Z) (m : machine) (p : Z) (k : krnl_t) (x : mm_struct).
Context (HI : vm_inv E F m) (Hp : has_mm m p k x).
Context (r off : Z) (rg : vm_rg_struct).
Context (Hr : 0 <= r < 30) (Hrg : symrgtbl x !! Z.to_nat r = Some rg) (Hok : rg_ok rg).
Context (Hoff : is_u64 off).

(** The byte the region has at the offset. *)
Definition in_region : Prop := user_rg rg /\ off < rg_end rg - rg_start rg.

Lemma in_region_user : in_region -> user_addr (rg_start rg + off).
Proof using Hok Hoff. unfold in_region, user_rg, rg_ok, user_addr, is_u64 in *. lia. Qed.

Lemma read_spec :
  wp (__read p (i32 r) off) (fun o m' => vm_inv E F m' /\ keeps m m' /\
    match o with
    | Some b => in_region /\ vbyte m p (rg_start rg + off) = Some b
    | None => in_region -> not_resident m p (rg_start rg + off)
    end) m.
Proof using All.
  pose proof Hp as (Hp0 & Hk & Hx). unfold __read. apply wp_bind.
  eapply wp_eq; [by apply get_krnl_ok|]. cbv beta iota. rewrite Hx, (get_symrg_ok x r rg) by done.
  case_bool_decide as He.
  { apply wp_ret. split_and!; [done|apply keeps_refl|]. intros [[Hlt _] _]. lia. }
  rewrite access_addr_exact by done. fold in_region. case_bool_decide as Hin.
  - eapply wp_mono; [apply (pg_getval_spec E F m p); [done|by exists k, x|by apply in_region_user]|].
    intros o m' (HI' & HK & Ho & _). split_and!; try done. by destruct o.
  - apply wp_ret. split_and!; [done|apply keeps_refl|done].
Qed.

Lemma write_spec v l val :
  mmap x = v :: l -> 0 <= i32 (vm_id v) ->
  wp (__write p 0 (i32 r) off val) (fun s m' => vm_inv E F m' /\
    ((s = 0 /\ in_region /\ stored m m' p (rg_start rg + off) val /\
      exists f, page_state m' p (addr_pgn (rg_start rg + off)) = Resident f) \/
     (s = -1 /\ keeps m m' /\ (in_region -> not_resident m p (rg_start rg + off))))) m.
Proof using All.
  intros Hm Hv. pose proof Hp as (Hp0 & Hk & Hx). unfold __write. apply wp_bind.
  eapply wp_eq; [by apply get_krnl_ok|]. cbv beta iota. rewrite Hx. apply wp_bind.
  eapply wp_eq; [by eapply get_vma0|]. rewrite (get_symrg_ok x r rg) by done.
  case_bool_decide as He.
  { apply wp_ret. split; [done|]. right. split_and!; [done|apply keeps_refl|]. intros [[Hlt _] _]. lia. }
  rewrite access_addr_exact by done. fold in_region. case_bool_decide as Hin.
  - eapply wp_mono; [apply (pg_setval_spec E F m p); [done|by exists k, x|by apply in_region_user]|].
    intros s m' (HI' & [(-> & Hst & _ & Hf)|(-> & HK & Hn)]); split; try done; [left|right]; done.
  - apply wp_ret. split; [done|]. right. split_and!; [done|apply keeps_refl|done].
Qed.
End access.

(** Register [i] of a process. *)
Definition reg (m : machine) (p i : Z) : option Z :=
  procs m !! p ≫= fun y => regs y !! Z.to_nat i.

Lemma set_reg_spec E F m p i v :
  vm_inv E F m -> valid m p -> 0 <= i < 10 -> is_Some (reg m p i) ->
  wp (set_reg p i v) (fun _ m' => vm_inv E F m' /\ keeps_kernel m m' /\ keeps_bytes m m' /\
    reg m' p i = Some v /\ (forall q j, q <> p \/ Z.to_nat j <> Z.to_nat i -> reg m' q j = reg m q j) /\
    (forall q, mm_of m' q = mm_of m q)) m.
Proof.
  intros HI (k & x & Hp) Hi Hreg. pose proof Hp as (Hp0 & y & Hy & Hk & Hx)%has_mm_procs.
  unfold reg in Hreg. rewrite Hy in Hreg. simpl in Hreg.
  unfold set_reg. apply wp_bind. eapply wp_eq; [unfold get_pcb; by rewrite Hy|].
  unfold NREGS. rewrite bool_decide_true by done. eapply wp_eq; [reflexivity|].
  destruct (put_pcb_inv E F m p y (set_regs y (<[Z.to_nat i := v]> (regs y))) k x k x)
    as (HI' & _ & _ & Hps & HKk & HB); try done.
  { by eapply has_mm_fifo; [apply HI|]. }
  assert (Hlk : procs (set_procs m (<[p:=set_regs y (<[Z.to_nat i:=v]> (regs y))]> (procs m))) !! p
                = Some (set_regs y (<[Z.to_nat i := v]> (regs y)))) by (simpl; by rewrite lookup_insert_eq).
  split_and!; try done.
  - unfold reg. rewrite Hlk. simpl. rewrite list_lookup_insert_eq; [done|]. by apply lookup_lt_is_Some.
  - intros q j Hqj. unfold reg. cbn [procs set_procs]. destruct (decide (q = p)) as [->|Hq].
    + rewrite lookup_insert_eq, Hy. simpl. rewrite list_lookup_insert_ne; [done|]. naive_solver.
    + by rewrite lookup_insert_ne by done.
  - intros q. unfold mm_of. cbn [procs set_procs]. destruct (decide (q = p)) as [->|Hq].
    + by rewrite lookup_insert_eq, Hy.
    + by rewrite lookup_insert_ne by done.
Qed.

(** Registers do not depend on what [keeps_procs] leaves open. *)
Lemma reg_keeps m m' p i : keeps_procs m m' -> reg m' p i = reg m p i.
Proof.
  intros (Hp & _). apply (f_equal (lookup p)) in Hp. rewrite !lookup_fmap in Hp. unfold reg.
  destruct (procs m !! p) as [y|], (procs m' !! p) as [y'|]; simpl in *; try done.
  apply (inj Some) in Hp. assert (regs y' = regs y) as ->; [|done]. by apply (f_equal regs) in Hp.
Qed.

Lemma libread_spec E F m p k x r off rg dst :
  vm_inv E F m -> has_mm m p k x -> 0 <= r < 30 -> symrgtbl x !! Z.to_nat r = Some rg ->
  rg_ok rg -> is_u64 off -> 0 <= dst < 10 -> is_Some (reg m p dst) ->
  wp (libread p r off dst) (fun s m' => vm_inv E F m' /\ keeps_kernel m m' /\ keeps_bytes m m' /\
    ((s = 0 /\ in_region off rg /\ exists b, vbyte m p (rg_start rg + off) = Some b /\
        reg m' p dst = Some (u64 b)) \/
     (s = -1 /\ keeps m m' /\ (in_region off rg -> not_resident m p (rg_start rg + off))))) m.
Proof.
  intros HI Hp Hr Hrg Hok Hoff Hd Hreg. unfold libread. apply wp_bind.
  eapply wp_mono; [by apply (read_spec E F m p k x HI Hp r off rg)|].
  intros [b|] m1 (HI1 & HK1 & Ho).
  2:{ apply wp_ret. pose proof HK1 as (_ & ? & ?). split_and!; try done. by right. }
  destruct Ho as [Hin Hb]. apply wp_bind. eapply wp_mono.
  { apply (set_reg_spec E F m1 p dst (u64 b) HI1); [|done|].
    - eapply keeps_valid; [exact HK1|by exists k, x].
    - by rewrite (reg_keeps m m1) by apply HK1. }
  intros _ m2 (HI2 & HKk2 & HB2 & Hr2 & _ & Hmm). apply wp_ret.
  destruct HK1 as (HP1 & HKk1 & HB1). split_and!; [done| | |].
  - destruct HKk1 as (U1 & C1 & K1), HKk2 as (U2 & C2 & K2). split_and!; [congruence| |].
    + intros f i Hf Hi. rewrite C2, C1 by (rewrite ?U1; done). done.
    + intros q kq xq g Hq Hg. destruct (keeps_has_mm _ _ _ _ _ HP1 Hq) as (k' & x' & Hq' & Ek & Ex).
      destruct (erased_fields _ _ _ _ Ek Ex) as (_ & Ekp & _).
      rewrite <- (K1 q kq xq g Hq Hg), <- Ekp. by apply (K2 q k' x').
  - intros q a Ha. by rewrite HB2, HB1.
  - left. split_and!; try done. by exists b.
Qed.

Lemma libwrite_spec E F m p k x r off rg v l data :
  vm_inv E F m -> has_mm m p k x -> 0 <= r < 30 -> symrgtbl x !! Z.to_nat r = Some rg ->
  rg_ok rg -> is_u64 off -> mmap x = v :: l -> 0 <= i32 (vm_id v) ->
  wp (libwrite p data r off) (fun s m' => vm_inv E F m' /\
    ((s = 0 /\ in_region off rg /\ stored m m' p (rg_start rg + off) data /\
      exists f, page_state m' p (addr_pgn (rg_start rg + off)) = Resident f) \/
     (s = -1 /\ keeps m m' /\ (in_region off rg -> not_resident m p (rg_start rg + off))))) m.
Proof.
  intros HI Hp Hr Hrg Hok Hoff Hm Hv. unfold libwrite. apply wp_bind.
  eapply wp_mono; [by apply (write_spec E F m p k x HI Hp r off rg Hr Hrg Hok Hoff v l data)|].
  intros s m' (HI' & Hs). apply wp_ret. split; [done|].
  destruct Hs as [(-> & ?)|(-> & ?)]; [by left|by right].
Qed.

(** What a store leaves: the process, its regions, the resident page. *)
Lemma stored_has_mm m m' p a v q k x :
  stored m m' p a v -> has_mm m q k x -> exists k' x', has_mm m' q k' x' /\ symrgtbl x' = symrgtbl x.
Proof.
  intros (HP & _) Hq. destruct (keeps_has_mm _ _ _ _ _ HP Hq) as (k' & x' & Hq' & Ek & Ex).
  destruct (erased_fields _ _ _ _ Ek Ex) as (_ & _ & _ & _ & _ & _ & Es & _). by exists k', x'.
Qed.

(** ** Properties *)



(** What is written can be read back: if WRITE to a region succeeds, the
    READ of the same byte that follows succeeds too, and delivers the value
    written (as a sign-extended [char]). *)
Theorem write_then_read E F m p k x r off rg v l data dst :
  vm_inv E F m -> has_mm m p k x -> 0 <= r < 30 -> symrgtbl x !! Z.to_nat r = Some rg ->
  rg_ok rg -> is_u64 off -> mmap x = v :: l -> 0 <= i32 (vm_id v) ->
  0 <= dst < 10 -> is_Some (reg m p dst) ->
  wp (let* s := libwrite p data r off in
      if bool_decide (s = 0) then let* s2 := libread p r off dst in ret (s, s2) else ret (s, 0))
    (fun s m' => s = (-1, 0) \/ (s = (0, 0) /\ reg m' p dst = Some (u64 data))) m.
Proof.
  intros HI Hp Hr Hrg Hok Hoff Hm Hv Hd Hreg. apply wp_bind.
  eapply wp_mono; [by eapply libwrite_spec|]. intros s m1 (HI1 & Hs).
  destruct Hs as [(-> & Hin & Hst & f & Hf)|(-> & _)]; simpl; [|apply wp_ret; by left].
  destruct (stored_has_mm _ _ _ _ _ _ _ _ Hst Hp) as (k1 & x1 & Hp1 & Es).
  destruct Hst as (HP1 & _ & HB1). apply wp_bind. eapply wp_mono.
  { eapply (libread_spec E F m1 p k1 x1 r off rg dst); try done; [by rewrite Es|].
    by rewrite (reg_keeps m m1). }
  intros s2 m2 (_ & _ & _ & Hs2). apply wp_ret. right.
  assert (Hb : vbyte m1 p (rg_start rg + off) = Some data).
  { rewrite HB1 by (by apply in_region_user). by rewrite bool_decide_true. }
  destruct Hs2 as [(-> & _ & b & Hb' & Hr2)|(_ & _ & Hn)].
  - split; [done|]. rewrite Hr2. f_equal. congruence.
  - exfalso. specialize (Hn Hin). unfold not_resident, not_loadable in Hn. by rewrite Hf in Hn.
Qed.

Lemma write_then_read_witness :
  wp (let* s := libwrite 100 7 3 8 in
      if bool_decide (s = 0) then let* s2 := libread 100 3 8 2 in ret (s, s2) else ret (s, 0))
    (fun s m' => s = (-1, 0) \/ (s = (0, 0) /\ reg m' 100 2 = Some (u64 7))) demo.
Proof.
  exact (write_then_read [] [] demo 100 demo_krnl demo_mm 3 8 (mkRg 0 0 0)
    (mkVma 0 0 0 0 []) [] 7 2 demo_inv demo_has_mm ltac:(lia) eq_refl
    ltac:(unfold rg_ok; simpl; lia) ltac:(unfold is_u64; lia) eq_refl ltac:(vm_compute; discriminate)
    ltac:(lia) ltac:(by eexists)).
Defined.

(** The destination register of READ is not checked: when the read itself
    succeeds, a destination of 10 or more writes outside the ten registers of
    the process, which is undefined behaviour. *)
Theorem libread_register_overflow p r off dst m b m1 :
  __read p (i32 r) off m = Ret (Some b) m1 -> is_Some (procs m1 !! p) -> 10 <= dst ->
  libread p r off dst m = Ub.
Proof.
  intros Hr [y Hy] Hd. unfold libread, bind. rewrite Hr. unfold set_reg, bind, get_pcb.
  rewrite Hy. unfold NREGS. by rewrite bool_decide_false by lia.
Qed.

(** A machine after an allocation of 300 bytes and a write into it. *)
Definition demo_written : machine :=
  match (liballoc 100 300 0 ;; libwrite 100 77 0 20) demo with Ret _ m => m | _ => demo end.

Lemma libread_register_overflow_witness : libread 100 0 20 20 demo_written = Ub.
Proof.
  apply (libread_register_overflow 100 0 20 20 demo_written 77
    (match __read 100 (i32 0) 20 demo_written with Ret _ m => m | _ => demo end)).
  - vm_compute. reflexivity.
  - vm_compute. by eexists.
  - lia.
Defined.

(** Running out of frames is not reported: an ALLOC that needs more frames
    than RAM has is undefined behaviour (the failure of the mapping is tested
    with [< 0] on an unsigned value, and the region it did not fill in is
    linked into the free list). *)
Theorem alloc_beyond_ram_undefined : liballoc 100 20480 0 demo = Ub /\
  (exists m', liballoc 100 16384 0 demo = Ret 0 m').
Proof. split; [vm_compute; reflexivity|]. eexists. vm_compute. reflexivity. Qed.
