(* ===== verification/Heap.v ===== *)
(** * User allocation: areas and regions ([src/mm-vm.c], [src/libmem.c])

    Proofs about growing an area, allocating and freeing a region.  The
    invariant of an area: its free regions and the regions of the symbol table
    are pairwise disjoint and below the break, every byte in them is mapped,
    nothing above the break is. *)

From S2P Require Import Prelude.
From S2P Require Import Word.
From S2P Require Import Exclusive.
From S2P Require Import Paging.
From S2P Require Import Queue.
From S2P Require Import Sched.
From S2P Require Import MemPhy.
From S2P Require Import Region.
From S2P Require Import Machine.
From S2P Require Import PageTable.
From S2P Require Import Swap.
From S2P Require Import Vm.
From S2P Require Import Evict.
From S2P Require Import Access.
From S2P Require Import Mapping.
From S2P Require Import Area.
From S2P Require Import Syscall.
From S2P Require Import Libmem.

(** ** The invariant of a process's area *)

(** [m] matters only through the bytes of process [p]. *)
Record area_ok (m : machine) (p : Z) (x : mm_struct) (v : vm_area_struct) : Prop := mkArea {
  ao_mmap : mmap x = [v];
  ao_ids : vm_id v = 0 /\ vm_start v = 0 /\ vm_end v = sbrk v;
  ao_brk : 0 <= sbrk v <= 2 ^ 56 /\ sbrk v mod 4096 = 0;
  ao_free : rgs_ok (vm_freerg_list v) /\ Forall (fun r => rg_end r <= sbrk v) (vm_freerg_list v);
  ao_syms : length (symrgtbl x) = 30%nat /\ rgs_ok (symrgtbl x);
  ao_disj : forall a, user_addr a ->
    cov (vm_freerg_list v) a + cov (symrgtbl x) a <= within 0 (sbrk v) a;
  ao_mapped : forall a, user_addr a ->
    0 < cov (vm_freerg_list v) a + cov (symrgtbl x) a -> vbyte m p a <> None;
  ao_above : forall a, user_addr a -> sbrk v <= a -> vbyte m p a = None;
}.

Lemma area_ok_same m m' p x x' v :
  area_ok m p x v -> mmap x' = mmap x -> symrgtbl x' = symrgtbl x ->
  (forall a, user_addr a -> vbyte m' p a = vbyte m p a) -> area_ok m' p x' v.
Proof.
  intros [H1 H2 H3 H4 H5 H6 H7 H8] Em Es Hb. split; rewrite ?Em, ?Es; try done.
  - intros a Ha. rewrite Hb by done. by apply H7.
  - intros a Ha. rewrite Hb by done. by apply H8.
Qed.

(** ** Steps of one process *)

(** What a library call of process [p] may not touch: other processes, the
    kernel, the scheduler, and everything of its own record but [mm]. *)
Definition lib_step (p : Z) (m m' : machine) : Prop :=
  procs_sim m m' /\ keeps_kernel m m' /\ bare <$> procs m' = bare <$> procs m /\
  oom m' = oom m /\
  forall q, q <> p -> erase_fifo <$> procs m' !! q = erase_fifo <$> procs m !! q.

Lemma lib_step_trans p m1 m2 m3 : lib_step p m1 m2 -> lib_step p m2 m3 -> lib_step p m1 m3.
Proof.
  intros ((D1 & S1 & C1) & (U1 & B1 & K1) & R1 & O1 & E1) ((D2 & S2 & C2) & (U2 & B2 & K2) & R2 & O2 & E2).
  split_and!; try congruence.
  - split_and!; [intros q; by rewrite D2, D1| |congruence].
    intros q k x Hq. destruct (S1 q k x Hq) as (k1 & x1 & Hq1 & ? & ? & ? & ?).
    destruct (S2 q k1 x1 Hq1) as (k2 & x2 & Hq2 & ? & ? & ? & ?). exists k2, x2.
    split_and!; [done|congruence..].
  - split_and!; [congruence| |].
    + intros f i Hf Hi. rewrite B2, B1 by (rewrite ?U1; done). done.
    + intros q k x g Hq Hg. destruct (S1 q k x Hq) as (k1 & x1 & Hq1 & _ & Ek & _).
      rewrite <- (K1 q k x g Hq Hg), <- Ek. by apply (K2 q k1 x1).
  - intros q Hq. by rewrite E2, E1.
Qed.

Lemma keeps_procs_bare m m' : keeps_procs m m' -> bare <$> procs m' = bare <$> procs m.
Proof.
  intros (Hp & _). apply map_eq. intros q. apply (f_equal (lookup q)) in Hp.
  rewrite !lookup_fmap in *.
  destruct (procs m !! q) as [y|], (procs m' !! q) as [y'|]; simpl in *; try done.
  apply (inj Some) in Hp. f_equal. apply (f_equal bare) in Hp. exact Hp.
Qed.

Lemma keeps_procs_lib p m m' : keeps_procs m m' -> keeps_kernel m m' -> lib_step p m m'.
Proof.
  intros HP HK. split_and!; [by apply keeps_procs_sim|done|by apply keeps_procs_bare| |].
  - by destruct HP as (_ & _ & ? & _).
  - intros q _. destruct HP as (HP & _). apply (f_equal (lookup q)) in HP.
    by rewrite !lookup_fmap in HP.
Qed.

Lemma lib_step_mapped p m m' : lib_step p m m' -> may_oom m' -> may_oom m.
Proof. intros (_ & _ & _ & Ho & _) [n Hn]. exists n. by rewrite <- Ho. Qed.

(** A change of the process's own record. *)
Lemma upd_mm_lib E F m p k x f :
  vm_inv E F m -> has_mm m p k x -> pgd (f x) = pgd x -> fifo_pgn (f x) = fifo_pgn x ->
  wp (upd_mm p f) (fun _ m' =>
    vm_inv E F m' /\ (exists k', has_mm m' p k' (f x)) /\ lib_step p m m' /\ keeps_bytes m m' /\
    ram m' = ram m) m.
Proof.
  intros HI Hp E1 E2. eapply wp_mono; [by eapply upd_mm_spec|].
  intros _ m' (HI' & Hp' & (Ht & _ & Hr & Hs & Hc & Ho) & Hq & Hb & Hps & HK & HB).
  split; [done|]. split; [by eexists|]. split; [|done]. split_and!; try done.
  - split_and!; [| |done].
    + intros q. apply (f_equal (lookup q)) in Hb. rewrite !lookup_fmap in Hb.
      destruct (procs m !! q), (procs m' !! q); simpl in Hb; try done; split; by intros [].
    + intros q kq xq Hqk. destruct (decide (q = p)) as [->|Hne].
      * destruct (has_mm_det _ _ _ _ _ _ Hp Hqk) as [-> ->]. eexists _, _. by split.
      * exists kq, xq. split; [|done]. apply has_mm_procs. apply has_mm_procs in Hqk.
        by rewrite Hq by done.
  - intros q Hne. by rewrite Hq.
Qed.

Lemma upd_vma_eq p f : upd_vma p 0 f = upd_mm p (fun x => set_mmap x (alter f 0%nat (mmap x))).
Proof. done. Qed.

Lemma the_mm_ok m p k x : has_mm m p k x -> the_mm p m = Ret x m.
Proof. intros Hp. unfold the_mm, bind. by rewrite (get_mm_ok m p k x). Qed.

Lemma the_vma_ok m p k x v : has_mm m p k x -> mmap x = [v] -> the_vma p 0 m = Ret v m.
Proof. intros Hp Hv. unfold the_vma, bind. rewrite (the_mm_ok m p k x) by done. by rewrite Hv. Qed.

Lemma get_vma_area m p x v m' : area_ok m p x v -> get_vma_by_num x 0 m' = Ret (Some 0%nat) m'.
Proof.
  intros HA. apply (get_vma0 x m' v []); [apply HA|]. destruct (ao_ids _ _ _ _ HA) as (-> & _). done.
Qed.

(** The area record replaced. *)
Lemma upd_vma_lib E F m p k x v f :
  vm_inv E F m -> has_mm m p k x -> mmap x = [v] ->
  wp (upd_vma p 0 f) (fun _ m' =>
    vm_inv E F m' /\ (exists k', has_mm m' p k' (set_mmap x [f v])) /\ lib_step p m m' /\
    keeps_bytes m m' /\ ram m' = ram m) m.
Proof.
  intros HI Hp Hv. rewrite upd_vma_eq.
  eapply wp_mono; [by eapply (upd_mm_lib E F m p k x (fun x => set_mmap x (alter f 0%nat (mmap x))))|].
  intros [] m'. cbv beta. by rewrite Hv.
Qed.

(** ** Growing the area *)

(** The pages a request of [sz] bytes needs. *)
Definition pages_for (sz : Z) : Z := (sz + 4095) / 4096.

Lemma align_pages sz :
  0 < sz < 2 ^ 31 - 4096 ->
  PAGING64_PAGE_ALIGNSZ sz = pages_for sz * 4096 /\ 0 < pages_for sz /\ sz <= pages_for sz * 4096 /\
  pages_for sz * 4096 < 2 ^ 31 /\
  i32 (PAGING64_PAGE_ALIGNSZ sz / PAGING64_PAGESZ) = pages_for sz.
Proof.
  intros Hs. unfold pages_for, PAGING64_PAGESZ.
  assert (PAGING64_PAGE_ALIGNSZ sz = (sz + 4095) / 4096 * 4096) as ->.
  { rewrite PAGE_ALIGNSZ_spec by lia. done. }
  rewrite Z.div_mul by done. split_and!; try done; try (Z.div_mod_to_equations; lia).
  apply i32_small. Z.div_mod_to_equations; lia.
Qed.

Lemma no_overlap E F m p k x v s e :
  vm_inv E F m -> has_mm m p k x -> area_ok m p x v -> s < e ->
  validate_overlap_vm_area p 0 s e m = Ret 0 m.
Proof.
  intros HI Hp HA Hse. unfold validate_overlap_vm_area. rewrite bool_decide_false by lia.
  unfold bind. rewrite (the_mm_ok m p k x) by done. rewrite (get_vma_area m p x v) by done.
  by rewrite (ao_mmap _ _ _ _ HA).
Qed.

(** The bytes of a range of pages. *)
Lemma addr_in_pages a b n :
  b mod 4096 = 0 -> addr_pgn b <= addr_pgn a < addr_pgn b + n <-> b <= a < b + n * 4096.
Proof. rewrite !addr_pgn_div. intros H. split; intros; Z.div_mod_to_equations; lia. Qed.

Lemma area_grown m m' p x x' v l n :
  area_ok m p x v -> 0 < n -> sbrk v + n * 4096 <= 2 ^ 56 ->
  symrgtbl x' = symrgtbl x ->
  (exists v', mmap x' = [v'] /\ v' = set_freerg l (set_limits (sbrk v + n * 4096) v)) ->
  rgs_ok l -> Forall (fun r => rg_end r <= sbrk v + n * 4096) l ->
  (forall a, cov l a = cov (vm_freerg_list v) a + within (sbrk v) (sbrk v + n * 4096) a) ->
  (forall a, user_addr a -> ~ (sbrk v <= a < sbrk v + n * 4096) -> vbyte m' p a = vbyte m p a) ->
  (forall a, sbrk v <= a < sbrk v + n * 4096 -> vbyte m' p a <> None) ->
  area_ok m' p x' (set_freerg l (set_limits (sbrk v + n * 4096) v)).
Proof.
  intros HA Hn Hend Es (v' & Em & ->) Hl Hle Hcov Hout Hin.
  pose proof (ao_brk _ _ _ _ HA) as [Hb Hmod]. pose proof (ao_ids _ _ _ _ HA) as (I1 & I2 & I3).
  split; simpl; try done.
  - split; [lia|]. rewrite Z.add_mod, Z.mod_mul, Hmod by lia. done.
  - rewrite Es. apply HA.
  - intros a Ha. rewrite Es, Hcov. pose proof (ao_disj _ _ _ _ HA a Ha).
    rewrite (within_split 0 (sbrk v) (sbrk v + n * 4096)) by lia. lia.
  - intros a Ha. rewrite Es, Hcov. intros Hpos.
    destruct (decide (sbrk v <= a < sbrk v + n * 4096)) as [Hi|Hi]; [by apply Hin|].
    rewrite Hout by done. apply (ao_mapped _ _ _ _ HA a Ha). unfold within in Hpos.
    rewrite bool_decide_false in Hpos by done. lia.
  - intros a Ha Hab. rewrite Hout; [|done|lia]. apply (ao_above _ _ _ _ HA); [done|lia].
Qed.

(** The result of growing the area by the pages for [sz] bytes. *)
Definition grow_post (E F : list Z) (m : machine) (p : Z) (x : mm_struct) (v : vm_area_struct)
    (sz : Z) (m' : machine) : Prop :=
  let new_end := sbrk v + pages_for sz * 4096 in
  vm_inv E F m' /\ lib_step p m m' /\
  (forall q a, user_addr a -> ~ (q = p /\ sbrk v <= a < new_end) -> vbyte m' q a = vbyte m q a) /\
  exists k' x' l, has_mm m' p k' x' /\ (symrgtbl x' = symrgtbl x /\ kcpooltbl x' = kcpooltbl x) /\
    area_ok m' p x' (set_freerg l (set_limits new_end v)) /\
    (forall a, cov l a = cov (vm_freerg_list v) a + within (sbrk v) new_end a) /\
    exists r, r ∈ l /\ has_room sz r.

Lemma resident_byte m p a f : page_state m p (addr_pgn a) = Resident f -> vbyte m p a <> None.
Proof. unfold vbyte. by intros ->. Qed.

(** The free list with the new region. *)
Lemma grown_free m p x v sz :
  area_ok m p x v -> 0 < sz < 2 ^ 31 - 4096 -> sbrk v + pages_for sz * 4096 <= 2 ^ 56 ->
  let new_end := sbrk v + pages_for sz * 4096 in
  let l := snd (enlist_vm_rg_node (vm_freerg_list v) (mkRg 0 (sbrk v) new_end)) in
  rgs_ok l /\ Forall (fun r => rg_end r <= new_end) l /\
  (forall a, cov l a = cov (vm_freerg_list v) a + within (sbrk v) new_end a) /\ exists r, r ∈ l /\ has_room sz r.
Proof.
  intros HA Hsz Hend new_end l. destruct (align_pages sz Hsz) as (_ & Hn & Hle & _). pose proof (ao_brk _ _ _ _ HA) as [Hb _].
  destruct (ao_free _ _ _ _ HA) as [Hrok Hends]. set (n := mkRg 0 (sbrk v) new_end) in l.
  assert (Hnok : rg_ok n) by (unfold rg_ok, n, new_end; simpl; lia).
  pose proof (enlist_spec (vm_freerg_list v) n Hrok Hnok) as Hen.
  rewrite bool_decide_false in Hen by (unfold n, new_end; simpl; lia).
  destruct Hen as (l' & Hl' & Hlok & Hcov).
  assert (l = l') as Hll by (unfold l; by rewrite Hl'). rewrite <- Hll in Hlok, Hcov. split_and!; [done| |done|].
  - apply (enlist_ends (fun e => e <= new_end)); [|done].
    eapply Forall_impl; [exact Hends|]. intros r Hr. simpl in *. unfold new_end. lia.
  - destruct (enlist_contains (vm_freerg_list v) n Hrok) as (r & Hr & H1 & H2).
    { unfold n, new_end; simpl; lia. }
    exists r. split; [done|]. unfold has_room, n, new_end in *. simpl in *. lia.
Qed.

(** The new region enlisted: from the state after the mapping to the end. *)
Lemma grow_finish E F m m3 p x x3 k3 v sz :
  area_ok m p x v -> 0 < sz < 2 ^ 31 - 4096 -> sbrk v + pages_for sz * 4096 <= 2 ^ 56 ->
  let new_end := sbrk v + pages_for sz * 4096 in
  vm_inv E F m3 -> lib_step p m m3 -> has_mm m3 p k3 x3 -> symrgtbl x3 = symrgtbl x /\ kcpooltbl x3 = kcpooltbl x ->
  mmap x3 = [set_limits new_end v] ->
  (forall q a, user_addr a -> ~ (q = p /\ sbrk v <= a < new_end) -> vbyte m3 q a = vbyte m q a) ->
  (forall a, sbrk v <= a < new_end -> vbyte m3 p a <> None) ->
  wp (upd_vma p 0 (fun w => set_freerg
        (snd (enlist_vm_rg_node (vm_freerg_list w) (mkRg 0 (sbrk v) new_end))) w))
    (fun _ m' => grow_post E F m p x v sz m') m3.
Proof.
  intros HA Hsz Hend new_end HI HL Hp [Es Et] Em Hout Hin.
  destruct (align_pages sz Hsz) as (_ & Hn & _). pose proof (ao_brk _ _ _ _ HA) as [Hb _].
  destruct (grown_free m p x v sz HA Hsz Hend) as (Hlok & Hends & Hcov & Hroom).
  eapply wp_mono; [by eapply upd_vma_lib|]. simpl. fold new_end in Hlok, Hends, Hcov, Hroom.
  set (l := snd (enlist_vm_rg_node (vm_freerg_list v) _)) in *.
  intros _ m' (HI' & (k' & Hp') & HL' & HB' & _).
  split_and!; [done|by eapply lib_step_trans| |].
  { intros q a Ha Hn'. rewrite HB' by done. by apply Hout. }
  eexists k', _, l. split_and!; [exact Hp'|done|done| |exact Hcov|done].
  apply (area_grown m m' p x _ v l (pages_for sz)); try done.
  - by eexists.
  - intros a Ha Ho. rewrite HB' by done. apply Hout; [done|]. naive_solver.
  - intros a Ha. rewrite HB'; [by apply Hin|]. unfold user_addr, new_end in *. lia.
Qed.

Lemma quiet_lib E F p m m' : quiet E F m m' -> lib_step p m m'.
Proof. intros (_ & (HP & HK & _) & _). by apply keeps_procs_lib. Qed.

Lemma inc_vma_limit_spec E F m p k x v sz :
  vm_inv E F m -> has_mm m p k x -> area_ok m p x v -> ~ may_oom m ->
  0 < sz < 2 ^ 31 - 4096 -> sbrk v + pages_for sz * 4096 <= 2 ^ 56 ->
  pages_for sz <= Z.of_nat (length (free_fp_list (ram m))) ->
  wp (inc_vma_limit p 0 sz) (fun r m' => r = 0 /\ grow_post E F m p x v sz m') m.
Proof.
  intros HI Hp HA Hoom Hsz Hend Hfr. pose proof (ao_brk _ _ _ _ HA) as [Hb Hmod].
  destruct (align_pages sz Hsz) as (Hal & Hn & Hle & Hsm & Hi32).
  unfold inc_vma_limit. apply wp_bind. eapply wp_mono; [by apply malloc_spec|].
  intros ok m1 (HQ1 & Hpr1 & _ & Hr1 & _ & Ho). destruct ok; [|by destruct Hoom; apply Ho]. simpl.
  assert (Hp1 : has_mm m1 p k x) by (by eapply has_mm_same).
  assert (HA1 : area_ok m1 p x v).
  { eapply area_ok_same; [exact HA|done|done|]. intros a Ha. by apply (proj2 (proj1 (proj2 HQ1))). }
  rewrite Hi32, Hal. apply wp_bind. eapply wp_eq; [by eapply the_mm_ok|].
  apply wp_bind. eapply wp_eq; [by eapply get_vma_area|]. cbv beta iota.
  apply wp_bind. eapply wp_eq; [eapply the_vma_ok; [done|apply HA]|]. cbv beta.
  rewrite u64_small by (unfold is_u64; lia). apply wp_bind.
  eapply wp_eq; [eapply no_overlap; [apply HQ1|done|done|lia]|]. cbv beta.
  rewrite bool_decide_false by done. set (new_end := sbrk v + pages_for sz * 4096) in *.
  apply wp_bind. eapply wp_mono; [eapply upd_vma_lib; [apply HQ1|done|apply HA]|].
  intros [] m2 (HI2 & (k2 & Hp2) & HL2 & HB2 & Hr2).
  pose proof (lib_step_trans _ _ _ _ (quiet_lib _ _ p _ _ HQ1) HL2) as HL.
  assert (HB : keeps_bytes m m2) by (intros q a Ha; rewrite HB2 by done; by apply HQ1).
  apply wp_bind. eapply wp_mono.
  { apply (vm_map_ram_spec E F m2 p (sbrk v) (pages_for sz)); try done; try lia.
    - by exists k2, (set_mmap x [set_limits new_end v]).
    - intros Ho2. by apply Hoom, (lib_step_mapped p m m2). }
  intros [s rg] m3 [(m2' & Hs & Hrg & HK & HR & Hres)|(_ & _ & _ & _ & Hfew)].
  2:{ exfalso. rewrite Hr2, Hr1 in Hfew. lia. }
  simpl in Hs, Hrg. subst s rg. cbv beta iota. rewrite bool_decide_false by done.
  destruct HR as (HI3 & HP3 & HKk3 & Hps3 & HB3).
  assert (HL3 : lib_step p m m3).
  { eapply lib_step_trans; [exact HL|]. eapply lib_step_trans; [|by eapply keeps_procs_lib].
    destruct HK as (? & ? & _). by apply keeps_procs_lib. }
  assert (Hp3 : exists k3 x3, has_mm m3 p k3 x3 /\ (symrgtbl x3 = symrgtbl x /\ kcpooltbl x3 = kcpooltbl x) /\
    mmap x3 = [set_limits new_end v]).
  { pose proof (keeps_procs_trans _ _ _ (proj1 HK) HP3) as HP.
    destruct (keeps_has_mm _ _ _ _ _ HP Hp2) as (k3 & x3 & ? & Ek & Ex).
    destruct (erased_fields _ _ _ _ Ek Ex) as (_ & _ & _ & _ & _ & ? & ? & ?). by exists k3, x3. }
  destruct Hp3 as (k3 & x3 & Hp3 & Es3 & Em3).
  apply wp_bind. eapply wp_mono.
  { apply (grow_finish E F m m3 p x x3 k3 v sz); try done.
    - intros q a Ha Hout. rewrite HB3; [|done|].
      + rewrite (proj2 (proj2 HK)) by done. by apply HB.
      + by rewrite addr_in_pages.
    - intros a Ha. destruct (Hres (addr_pgn a)) as [f Hf].
      + by apply addr_in_pages.
      + by eapply resident_byte. }
  intros [] m4 H4. apply wp_ret. done.
Qed.

(** ** Taking a region *)

Definition take_post (E F : list Z) (m : machine) (p : Z) (x : mm_struct) (v : vm_area_struct)
    (size : Z) (o : option (Z * Z)) (m' : machine) : Prop :=
  vm_inv E F m' /\ lib_step p m m' /\ keeps_bytes m m' /\ ram m' = ram m /\
  exists k' l, has_mm m' p k' (set_mmap x [set_freerg l v]) /\
    match o with
    | Some (s, e) => e = s + size /\ 0 <= s /\ e <= sbrk v /\ rgs_ok l /\
        Forall (fun r => rg_end r <= sbrk v) l /\
        forall a, cov (vm_freerg_list v) a = cov l a + within s e a
    | None => l = vm_freerg_list v /\ Forall (fun r => ~ has_room size r) l
    end.

Lemma get_free_vmrg_area_spec E F m p k x v size :
  vm_inv E F m -> has_mm m p k x -> area_ok m p x v -> 0 < size < 2 ^ 31 ->
  wp (get_free_vmrg_area p 0 size) (take_post E F m p x v size) m.
Proof.
  intros HI Hp HA Hsz. destruct (ao_free _ _ _ _ HA) as [Hrok Hends].
  pose proof (ao_brk _ _ _ _ HA) as [Hb _].
  unfold get_free_vmrg_area. apply wp_bind. eapply wp_eq; [by eapply the_mm_ok|].
  apply wp_bind. eapply wp_eq; [by eapply get_vma_area|]. cbv beta iota.
  apply wp_bind. eapply wp_eq; [eapply the_vma_ok; [done|apply HA]|]. cbv beta.
  pose proof (take_free_spec size (vm_freerg_list v) Hrok Hsz) as Hspec.
  assert (Hw : forall r, r ∈ vm_freerg_list v -> rg_start r + size < 2 ^ 64).
  { intros r Hr. unfold rgs_ok in Hrok. rewrite Forall_forall in Hrok, Hends.
    destruct (Hrok r Hr) as (_ & ? & _). specialize (Hends r Hr). simpl in Hends. lia. }
  specialize (Hspec Hw). pose proof (take_free_ends (fun e => e <= sbrk v) size _ Hends) as Hends'.
  unfold get_free_vmrg. destruct (vm_freerg_list v) as [|r0 l0] eqn:Hl.
  { apply wp_bind. eapply wp_mono; [eapply upd_vma_lib; [done|done|apply HA]|].
    intros [] m' (HI' & (k' & Hp') & HL & HB & Hr). apply wp_ret. split_and!; try done.
    exists k', []. simpl. rewrite Hl. split; [done|]. split; [done|constructor]. }
  rewrite <- Hl in *. destruct (take_free size (vm_freerg_list v)) as [[[s e]|] l'] eqn:Ht; simpl.
  all: apply wp_bind; eapply wp_mono; [eapply upd_vma_lib; [done|done|apply HA]|].
  all: intros [] m' (HI' & (k' & Hp') & HL & HB & Hr); apply wp_ret; split_and!; try done; exists k', l'.
  - destruct Hspec as (-> & Hs0 & Hlt & Hok' & (l1 & r & l2 & Hsplit & _ & Hsr & Her) & Hcov).
    rewrite (bool_decide_false (s = ULLONG_MAX)) by (unfold ULLONG_MAX; lia). simpl.
    split_and!; try done. rewrite Forall_forall in Hends.
    specialize (Hends r ltac:(rewrite Hsplit; apply elem_of_app; right; left)). simpl in Hends. lia.
  - destruct Hspec as [-> Hno]. done.
Qed.

(** The free list of the area replaced by a smaller one. *)
Lemma area_taken m m' p x v l s e r :
  area_ok m p x v -> rgs_ok l -> Forall (fun r => rg_end r <= sbrk v) l ->
  0 <= s <= e -> e <= sbrk v -> (forall a, cov (vm_freerg_list v) a = cov l a + within s e a) ->
  (r < 30)%nat -> (forall a, user_addr a -> vbyte m' p a = vbyte m p a) ->
  area_ok m' p (set_symrgtbl (set_mmap x [set_freerg l v])
                  (<[r := mkRg 0 s e]> (symrgtbl x))) (set_freerg l v).
Proof.
  intros HA Hl Hends Hse Heb Hcov Hr Hb. destruct (ao_syms _ _ _ _ HA) as [Hlen Hsok].
  pose proof (ao_brk _ _ _ _ HA) as [Hbrk _].
  assert (Hrok : rg_ok (mkRg 0 s e)) by (unfold rg_ok; simpl; lia).
  destruct (lookup_lt_is_Some_2 (symrgtbl x) r ltac:(lia)) as [rg0 Hrg0].
  assert (Hcs : forall a, cov (<[r := mkRg 0 s e]> (symrgtbl x)) a =
            cov (symrgtbl x) a - rg_cov rg0 a + within s e a).
  { intros a. rewrite <- (take_drop_middle _ _ _ Hrg0) at 2.
    rewrite insert_take_drop by lia. rewrite !cov_app, !cov_cons. unfold rg_cov at 1. simpl. lia. }
  assert (Hnn : forall a, 0 <= rg_cov rg0 a) by (intros a; apply within_range).
  split; simpl; try apply HA; try done.
  - rewrite length_insert. split; [done|]. by apply Forall_insert.
  - intros a Ha. rewrite Hcs. pose proof (ao_disj _ _ _ _ HA a Ha). rewrite Hcov in H.
    specialize (Hnn a). lia.
  - intros a Ha. rewrite Hcs, Hb by done. intros Hpos. apply (ao_mapped _ _ _ _ HA a Ha).
    rewrite Hcov. specialize (Hnn a). lia.
  - intros a Ha Hab. rewrite Hb by done. by apply (ao_above _ _ _ _ HA).
Qed.

(** ** Allocation *)

Definition pid_at (m : machine) (p : Z) : Z :=
  match procs m !! p with Some x => pid x | None => 0 end.

(** The process is found under its own identifier in the running list. *)
Definition findable (m : machine) (p : Z) : Prop := find_proc (pid_at m) (sch m) (pid_at m p) = p.

Lemma find_proc_from_ext f g l n i fuel :
  (forall p, f p = g p) -> find_proc_from f l n i fuel = find_proc_from g l n i fuel.
Proof.
  intros Hfg. revert i. induction fuel as [|fuel IH]; intros i; [done|]. simpl.
  by rewrite Hfg, IH.
Qed.

Lemma bare_pid m m' p : bare <$> procs m' = bare <$> procs m -> pid_at m' p = pid_at m p.
Proof.
  intros Hb. apply (f_equal (lookup p)) in Hb. rewrite !lookup_fmap in Hb. unfold pid_at.
  destruct (procs m !! p) as [y|], (procs m' !! p) as [y'|]; simpl in *; try done.
  apply (inj Some) in Hb. by apply (f_equal pid) in Hb.
Qed.

Lemma findable_lib p m m' : lib_step p m m' -> findable m p -> findable m' p.
Proof.
  intros ((_ & _ & Hs) & _ & Hb & _) Hf. unfold findable in *. rewrite Hs, (bare_pid m m' p Hb).
  rewrite <- Hf at 2. apply find_proc_from_ext. intros q. by apply bare_pid.
Qed.

(** The memory-map system call with the grow operation. *)
Lemma syscall_inc E F m p k x v y sz :
  vm_inv E F m -> has_mm m p k x -> procs m !! p = Some y -> area_ok m p x v -> findable m p ->
  ~ may_oom m -> 0 < sz < 2 ^ 31 - 4096 -> sbrk v + pages_for sz * 4096 <= 2 ^ 56 ->
  pages_for sz <= Z.of_nat (length (free_fp_list (ram m))) ->
  wp (_syscall true (pid y) 17 (mkScRegs SYSMEM_INC_OP (u64 0) sz))
    (fun r m' => fst r = 0 /\ grow_post E F m p x v sz m') m.
Proof.
  intros HI Hp Hy HA Hf Hoom Hsz Hend Hfr. unfold _syscall.
  rewrite (bool_decide_false (17 = 0)), (bool_decide_true (17 = 17)) by done. cbv iota.
  unfold __sys_memmap. cbn [a1 a2 a3]. apply wp_bind.
  eapply wp_eq; [unfold m_find_proc; reflexivity|]. cbv beta.
  assert (Hfp : find_proc (fun q => match procs m !! q with Some x => pid x | None => 0 end)
                  (sch m) (pid y) = p).
  { unfold findable, pid_at in Hf. rewrite Hy in Hf. exact Hf. }
  rewrite Hfp. pose proof Hp as (Hp0 & _). rewrite (bool_decide_false (p = 0)) by done.
  unfold SYSMEM_INC_OP, SYSMEM_MAP_OP. change (i32 2) with 2. change (i32 (u64 0)) with 0.
  cbn [negb orb]. rewrite (bool_decide_false (2 = 1)), (bool_decide_true (2 = 2)) by done. cbv iota.
  apply wp_bind. eapply wp_mono; [by apply (inc_vma_limit_spec E F m p k x v sz)|].
  intros r m' [-> HG]. apply wp_ret. done.
Qed.

Definition alloc_result (E F : list Z) (m : machine) (p : Z) (x : mm_struct) (r size : Z)
    (o : option Z) (m' : machine) : Prop :=
  vm_inv E F m' /\ lib_step p m m' /\
  (forall q a, user_addr a -> q <> p \/ vbyte m q a <> None -> vbyte m' q a = vbyte m q a) /\
  exists s k' x' v', o = Some s /\ has_mm m' p k' x' /\ area_ok m' p x' v' /\
    0 <= s /\ s + size <= sbrk v' /\
    symrgtbl x' = <[Z.to_nat r := mkRg 0 s (s + size)]> (symrgtbl x) /\ kcpooltbl x' = kcpooltbl x.

(** Recording the region that was taken. *)
Lemma record_region E F m m1 p x x1 v r size s e :
  area_ok m1 p x1 v -> 0 < size -> 0 <= r < 30 -> symrgtbl x1 = symrgtbl x /\ kcpooltbl x1 = kcpooltbl x ->
  lib_step p m m1 ->
  (forall q a, user_addr a -> q <> p \/ vbyte m q a <> None -> vbyte m1 q a = vbyte m q a) ->
  forall m2, take_post E F m1 p x1 v size (Some (s, e)) m2 ->
  wp (set_symrg p r (mkRg 0 s e) ;; ret (Some s)) (alloc_result E F m p x r size) m2.
Proof.
  intros HA Hsz Hr [Es Et] HL HB m2 (HI2 & HL2 & HB2 & _ & k2 & l & Hp2 & -> & Hs0 & Heb & Hlok & Hends & Hcov).
  apply wp_bind. unfold set_symrg. eapply wp_mono.
  { apply (upd_mm_lib E F m2 p k2 _ (fun x => set_symrgtbl x (<[Z.to_nat r := mkRg 0 s (s + size)]> (symrgtbl x)))
      HI2 Hp2); done. }
  intros [] m3 (HI3 & (k3 & Hp3) & HL3 & HB3 & _). apply wp_ret. split_and!; [done| | |].
  - eapply lib_step_trans; [exact HL|]. by eapply lib_step_trans.
  - intros q a Ha Hm. rewrite HB3, HB2 by done. by apply HB.
  - eexists s, k3, _, (set_freerg l v). split_and!; [done|exact Hp3| |done|done|simpl; by rewrite Es|done].
    apply (area_taken m1 m3 p x1 v l s (s + size) (Z.to_nat r)); try done; try lia.
    intros a Ha. by rewrite HB3, HB2.
Qed.

Lemma set_mmap_same x v : mmap x = [v] -> set_mmap x [set_freerg (vm_freerg_list v) v] = x.
Proof. destruct x, v. simpl. by intros ->. Qed.

Lemma pages_for_aligned size :
  0 < size -> pages_for (pages_for size * 4096) = pages_for size.
Proof. unfold pages_for. intros H. Z.div_mod_to_equations. lia. Qed.

Lemma room_exists l size : (exists r, r ∈ l /\ has_room size r) -> ~ Forall (fun r => ~ has_room size r) l.
Proof. intros (r & Hr & Hroom) HF. rewrite Forall_forall in HF. by apply (HF r). Qed.

(** A request that the free list and the free frames can serve. *)
Record request_ok (m : machine) (p : Z) (x : mm_struct) (v : vm_area_struct) (r size : Z) : Prop := mkReq {
  rq_reg : 0 <= r < 30;
  rq_size : 0 < size < 2 ^ 31 - 8192;
  rq_brk : sbrk v + pages_for size * 4096 <= 2 ^ 56;
  rq_frames : pages_for size <= Z.of_nat (length (free_fp_list (ram m)));
  rq_oom : ~ may_oom m;
  rq_find : findable m p;
}.

Lemma alloc_spec E F m p k x v r size :
  vm_inv E F m -> has_mm m p k x -> area_ok m p x v -> request_ok m p x v r size ->
  wp (__alloc p 0 (i32 r) size) (alloc_result E F m p x r size) m.
Proof.
  intros HI Hp HA [Hr Hsz Hbrk Hfr Hoom Hfind].
  destruct (align_pages size ltac:(lia)) as (Hal & Hn & Hle & _ & _).
  assert (Hsm : pages_for size * 4096 <= size + 4095)
    by (unfold pages_for; Z.div_mod_to_equations; lia).
  unfold __alloc. apply wp_bind. eapply wp_eq; [by eapply get_mm_ok|]. cbv beta iota.
  rewrite !i32_small by lia. unfold PAGING_MAX_SYMTBL_SZ. rewrite !bool_decide_false by lia. cbn [orb].
  apply wp_bind. eapply wp_eq; [by eapply get_vma_area|]. cbv beta iota.
  apply wp_bind. eapply wp_mono; [by eapply (get_free_vmrg_area_spec E F m p k x v); [..|lia]|].
  intros [[s e]|] m1 H1.
  { eapply record_region; [exact HA|lia|done|done| |done|exact H1].
    apply keeps_procs_lib; [apply keeps_refl|apply keeps_refl]. }
  destruct H1 as (HI1 & HL1 & HB1 & Hr1 & k1 & l & Hp1 & -> & Hno).
  rewrite set_mmap_same in Hp1 by apply HA.
  assert (HA1 : area_ok m1 p x v) by (eapply area_ok_same; [exact HA|done|done|]; intros; by apply HB1).
  pose proof Hp1 as (_ & y & Hy & _)%has_mm_procs.
  apply wp_bind. eapply wp_eq; [unfold get_pcb; by rewrite Hy|]. cbv beta.
  rewrite Hal. apply wp_bind. eapply wp_mono.
  { apply (syscall_inc E F m1 p k1 x v y (pages_for size * 4096)); rewrite ?pages_for_aligned by lia;
      try done; try lia.
    - by eapply findable_lib.
    - intros Ho. by apply Hoom, (lib_step_mapped p m m1).
    - by rewrite Hr1. }
  intros [sret rg] m2 [Hs HG]. simpl in Hs. subst sret. cbv beta iota. rewrite bool_decide_false by done.
  unfold grow_post in HG. rewrite pages_for_aligned in HG by lia.
  destruct HG as (HI2 & HL2 & HB2 & k2 & x2 & l2 & Hp2 & Es2 & HA2 & Hcov2 & Hroom).
  apply wp_bind. eapply wp_mono; [by eapply (get_free_vmrg_area_spec E F m2 p k2 x2); [..|lia]|].
  intros [[s e]|] m3 H3.
  - eapply record_region; [exact HA2|lia|done|done|by eapply lib_step_trans| |exact H3].
    intros q a Ha Hm. rewrite HB2; [by apply HB1|done|]. intros [-> Hin].
    destruct Hm as [[]|Hm]; [done|]. apply Hm, (ao_above _ _ _ _ HA); [done|lia].
  - exfalso. destruct H3 as (_ & _ & _ & _ & k3 & l3 & _ & -> & Hno3). revert Hno3.
    apply room_exists. destruct Hroom as (rr & Hin & Hrr). exists rr. split; [done|].
    unfold has_room in *. lia.
Qed.

(** With room in the free list no frame is needed.  The size that counts is
    the low half of the size asked for, as a signed number. *)
Lemma alloc_room_spec E F m p k x v r size :
  vm_inv E F m -> has_mm m p k x -> area_ok m p x v -> 0 <= r < 30 ->
  size <> 0 -> 0 < i32 size < 2 ^ 31 ->
  (exists rg, rg ∈ vm_freerg_list v /\ has_room (i32 size) rg) ->
  wp (__alloc p 0 (i32 r) size) (alloc_result E F m p x r (i32 size)) m.
Proof.
  intros HI Hp HA Hr Hnz Hsz Hroom. unfold __alloc. apply wp_bind.
  eapply wp_eq; [by eapply get_mm_ok|]. cbv beta iota.
  rewrite (i32_small r) by lia. unfold PAGING_MAX_SYMTBL_SZ. rewrite !bool_decide_false by lia. cbn [orb].
  apply wp_bind. eapply wp_eq; [by eapply get_vma_area|]. cbv beta iota.
  apply wp_bind. eapply wp_mono; [by eapply (get_free_vmrg_area_spec E F m p k x v); [..|lia]|].
  intros [[s e]|] m1 H1.
  - eapply record_region; [exact HA|lia|done|done| |done|exact H1].
    apply keeps_procs_lib; [apply keeps_refl|apply keeps_refl].
  - destruct H1 as (_ & _ & _ & _ & k1 & l & _ & -> & Hno). by apply room_exists in Hno.
Qed.

(** ** Release *)

Lemma cov_insert l r rg rg' a :
  l !! r = Some rg -> cov (<[r := rg']> l) a = cov l a - rg_cov rg a + rg_cov rg' a.
Proof.
  intros Hr. pose proof (lookup_lt_Some _ _ _ Hr). rewrite <- (take_drop_middle _ _ _ Hr) at 2.
  rewrite insert_take_drop by lia. rewrite !cov_app, !cov_cons. lia.
Qed.

Lemma area_freed m m' p x v l r rg :
  area_ok m p x v -> symrgtbl x !! r = Some rg -> rgs_ok l ->
  Forall (fun r => rg_end r <= sbrk v) l ->
  (forall a, cov l a = cov (vm_freerg_list v) a + rg_cov rg a) ->
  (forall a, user_addr a -> vbyte m' p a = vbyte m p a) ->
  area_ok m' p (set_mmap (set_symrgtbl x (<[r := mkRg (vmaid rg) 0 0]> (symrgtbl x))) [set_freerg l v])
    (set_freerg l v).
Proof.
  intros HA Hrg Hl Hends Hcov Hb. destruct (ao_syms _ _ _ _ HA) as [Hlen Hsok].
  assert (Hcs : forall a, cov (<[r := mkRg (vmaid rg) 0 0]> (symrgtbl x)) a = cov (symrgtbl x) a - rg_cov rg a).
  { intros a. rewrite (cov_insert _ _ rg) by done. unfold rg_cov at 2. simpl. rewrite within_empty by lia. lia. }
  split; simpl; try apply HA; try done.
  - rewrite length_insert. split; [done|]. apply Forall_insert; [done|]. unfold rg_ok. simpl. lia.
  - intros a Ha. rewrite Hcs, Hcov. pose proof (ao_disj _ _ _ _ HA a Ha). lia.
  - intros a Ha. rewrite Hcs, Hcov, Hb by done. intros Hpos. apply (ao_mapped _ _ _ _ HA a Ha). lia.
  - intros a Ha Hab. rewrite Hb by done. by apply (ao_above _ _ _ _ HA).
Qed.

Lemma free_spec E F m p k x v r rg :
  vm_inv E F m -> has_mm m p k x -> area_ok m p x v -> ~ may_oom m -> 0 <= r < 30 ->
  symrgtbl x !! Z.to_nat r = Some rg -> rg_start rg < rg_end rg -> rg_end rg <= sbrk v ->
  wp (__free p 0 (i32 r)) (fun s m' => s = 0 /\ vm_inv E F m' /\ lib_step p m m' /\ keeps_bytes m m' /\
    exists k' x' l, has_mm m' p k' x' /\ area_ok m' p x' (set_freerg l v) /\
      symrgtbl x' = <[Z.to_nat r := mkRg (vmaid rg) 0 0]> (symrgtbl x) /\
      (forall a, cov l a = cov (vm_freerg_list v) a + rg_cov rg a) /\
      exists r', r' ∈ l /\ rg_start r' <= rg_start rg /\ rg_end rg <= rg_end r') m.
Proof.
  intros HI Hp HA Hoom Hr Hrg Hne Heb. destruct (ao_free _ _ _ _ HA) as [Hrok Hends].
  destruct (ao_syms _ _ _ _ HA) as [Hlen Hsok].
  assert (Hrgok : rg_ok rg) by (eapply Forall_lookup_1; [exact Hsok|exact Hrg]).
  unfold __free. apply wp_bind. eapply wp_eq; [by eapply get_mm_ok|]. cbv beta iota.
  rewrite (get_symrg_ok x r rg) by done. rewrite i32_small by lia. unfold PAGING_MAX_SYMTBL_SZ.
  rewrite (bool_decide_false (r < 0)), (bool_decide_false (30 <= r)) by lia. cbn [orb].
  assert (bool_decide (rg_start rg = 0) && bool_decide (rg_end rg = 0) = false) as ->.
  { repeat case_bool_decide; simpl; try done. lia. }
  apply wp_bind. eapply wp_mono; [by apply malloc_spec|].
  intros ok m1 (HQ1 & Hpr1 & _ & _ & _ & Ho). destruct ok; [|by destruct Hoom; apply Ho]. simpl.
  assert (Hp1 : has_mm m1 p k x) by (by eapply has_mm_same).
  apply wp_bind. unfold set_symrg. eapply wp_mono.
  { apply (upd_mm_lib E F m1 p k x (fun x => set_symrgtbl x (<[Z.to_nat r := mkRg (vmaid rg) 0 0]> (symrgtbl x))));
      [apply HQ1|done..]. }
  intros [] m2 (HI2 & (k2 & Hp2) & HL2 & HB2 & _). set (x2 := set_symrgtbl _ _) in Hp2.
  apply wp_bind. eapply wp_eq; [by eapply the_mm_ok|]. apply wp_bind.
  eapply wp_eq; [apply (get_vma0 x2 m2 v []); [apply HA|by rewrite (proj1 (ao_ids _ _ _ _ HA))]|]. cbv beta iota.
  apply wp_bind. eapply wp_mono; [by eapply (upd_vma_lib E F m2 p k2 x2 v); [..|apply HA]|].
  intros [] m3 (HI3 & (k3 & Hp3) & HL3 & HB3 & _). apply wp_ret.
  set (n := mkRg 0 (rg_start rg) (rg_end rg)) in *.
  pose proof (enlist_spec (vm_freerg_list v) n Hrok Hrgok) as Hen.
  rewrite bool_decide_false in Hen by (unfold n; simpl; lia). destruct Hen as (l & Hl & Hlok & Hcov).
  rewrite Hl in Hp3. cbn [snd] in Hp3.
  assert (HB : keeps_bytes m m3).
  { intros q a Ha. rewrite HB3, HB2 by done. by apply HQ1. }
  split_and!; [done|done| |done|].
  - eapply lib_step_trans; [by eapply quiet_lib|]. by eapply lib_step_trans.
  - eexists k3, _, l. split_and!; [exact Hp3| |done|exact Hcov|].
    + apply (area_freed m m3 p x v l (Z.to_nat r) rg); try done.
      * change l with (snd (0, l)). rewrite <- Hl. by apply (enlist_ends (fun e => e <= sbrk v)).
      * intros a Ha. by apply HB.
    + destruct (enlist_contains (vm_freerg_list v) n Hrok) as (r' & Hr' & H1 & H2); [unfold n; simpl; lia|].
      rewrite Hl in Hr'. by exists r'.
Qed.

(** The refusals of [libfree]. *)
Lemma libfree_refused m p k x r rg :
  has_mm m p k x -> 0 <= r < 2 ^ 31 ->
  30 <= r \/ (symrgtbl x !! Z.to_nat r = Some rg /\ rg_start rg = 0 /\ rg_end rg = 0) ->
  libfree p r m = Ret (-1) m.
Proof.
  intros Hp Hr Hcase. unfold libfree, bind, __free, bind. rewrite (get_mm_ok m p k x) by done.
  rewrite i32_small by lia. unfold PAGING_MAX_SYMTBL_SZ. rewrite (bool_decide_false (r < 0)) by lia.
  destruct (decide (30 <= r)) as [Hge|Hlt].
  { by rewrite bool_decide_true. }
  destruct Hcase as [?|(Hrg & Hs & He)]; [done|]. rewrite bool_decide_false by done. cbn [orb].
  unfold get_symrg_byid, PAGING_MAX_SYMTBL_SZ. rewrite !bool_decide_false by lia. cbn [orb].
  rewrite Hrg, Hs, He. done.
Qed.

Lemma libfree_spec E F m p k x v r rg :
  vm_inv E F m -> has_mm m p k x -> area_ok m p x v -> ~ may_oom m -> 0 <= r < 30 ->
  symrgtbl x !! Z.to_nat r = Some rg -> rg_start rg < rg_end rg -> rg_end rg <= sbrk v ->
  wp (libfree p r) (fun s m' => s = 0 /\ vm_inv E F m' /\ lib_step p m m' /\ keeps_bytes m m' /\
    exists k' x' l, has_mm m' p k' x' /\ area_ok m' p x' (set_freerg l v) /\
      symrgtbl x' = <[Z.to_nat r := mkRg (vmaid rg) 0 0]> (symrgtbl x) /\
      (forall a, cov l a = cov (vm_freerg_list v) a + rg_cov rg a) /\
      exists r', r' ∈ l /\ rg_start r' <= rg_start rg /\ rg_end rg <= rg_end r') m.
Proof.
  intros. unfold libfree. apply wp_bind. eapply wp_mono; [by eapply free_spec|].
  intros s m' [-> HF]. apply wp_ret. done.
Qed.

(** ** Regions in the symbol table do not meet *)

Lemma cov_ge l i rg a : l !! i = Some rg -> rg_cov rg a <= cov l a.
Proof.
  intros Hi. pose proof (cov_insert l i rg (mkRg 0 0 0) a Hi) as He.
  pose proof (cov_nonneg (<[i := mkRg 0 0 0]> l) a). unfold rg_cov at 2 in He. simpl in He.
  rewrite within_empty in He by lia. lia.
Qed.

Lemma cov_two l i j rg rg' a :
  l !! i = Some rg -> l !! j = Some rg' -> i <> j -> rg_cov rg a + rg_cov rg' a <= cov l a.
Proof.
  intros Hi Hj Hij. pose proof (cov_insert l i rg (mkRg 0 0 0) a Hi) as He.
  unfold rg_cov at 2 in He. simpl in He. rewrite within_empty in He by lia.
  assert (<[i := mkRg 0 0 0]> l !! j = Some rg') as Hj' by (by rewrite list_lookup_insert_ne).
  pose proof (cov_ge _ _ _ a Hj'). lia.
Qed.

Lemma rg_cov_in rg a : rg_start rg <= a < rg_end rg -> rg_cov rg a = 1.
Proof. intros H. unfold rg_cov, within. by rewrite bool_decide_true. Qed.

(** A byte of a region: mapped, and in no other region. *)
Lemma region_byte m p x v r rg a :
  area_ok m p x v -> symrgtbl x !! r = Some rg -> rg_start rg <= a < rg_end rg -> user_addr a ->
  vbyte m p a <> None /\
  forall i rg', i <> r -> symrgtbl x !! i = Some rg' -> ~ (rg_start rg' <= a < rg_end rg').
Proof.
  intros HA Hr Ha Hu. pose proof (cov_ge _ _ _ a Hr) as Hge. rewrite rg_cov_in in Hge by done.
  pose proof (cov_nonneg (vm_freerg_list v) a). split; [apply (ao_mapped _ _ _ _ HA a Hu); lia|].
  intros i rg' Hi Hrg' Hin. pose proof (cov_two _ _ _ _ _ a Hr Hrg' (not_eq_sym Hi)) as H2.
  rewrite !rg_cov_in in H2 by done. pose proof (ao_disj _ _ _ _ HA a Hu).
  pose proof (within_range 0 (sbrk v) a). lia.
Qed.

(** The area of a process that has not allocated anything. *)
Lemma empty_area m p x :
  mmap x = [mkVma 0 0 0 0 []] -> symrgtbl x = replicate 30 (mkRg 0 0 0) -> (forall a, vbyte m p a = None) ->
  area_ok m p x (mkVma 0 0 0 0 []).
Proof.
  intros Em Es Hb. assert (Hc : forall a, cov (symrgtbl x) a = 0).
  { intros a. rewrite Es. generalize 30%nat. intros n.
    induction n as [|n IH]; [done|]. cbn [replicate]. rewrite cov_cons, IH.
    unfold rg_cov. cbn [rg_start rg_end]. rewrite within_empty by lia. done. }
  split; cbn [mmap vm_id vm_start vm_end sbrk vm_freerg_list].
  - done.
  - done.
  - split; [lia|reflexivity].
  - split; constructor.
  - rewrite Es. split; [reflexivity|]. apply Forall_replicate. unfold rg_ok. cbn [rg_start rg_end]. lia.
  - intros a _. rewrite Hc. pose proof (within_range 0 0 a). unfold cov. simpl. lia.
  - intros a _. rewrite Hc. unfold cov. simpl. lia.
  - intros a _ _. apply Hb.
Qed.

Lemma demo_area : area_ok demo 100 demo_mm (mkVma 0 0 0 0 []).
Proof. apply empty_area; [done|done|]. intros a. unfold vbyte. by rewrite demo_page_state. Qed.

Lemma demo_no_oom : ~ may_oom demo.
Proof. by intros [n Hn]. Qed.

Lemma demo_request : request_ok demo 100 demo_mm (mkVma 0 0 0 0 []) 2 5000.
Proof.
  split; [lia|lia| | |apply demo_no_oom|by vm_compute].
  - vm_compute. discriminate.
  - vm_compute. discriminate.
Qed.

(** ** Properties *)






(** C18. Freed space can be allocated again, and freed only once: after FREE of
    a region, a second FREE of the register is refused, and ALLOC of at most
    its size succeeds even if no free frame is left. *)
Theorem free_then_reuse E F m p k x v r rg r2 size :
  vm_inv E F m -> has_mm m p k x -> area_ok m p x v -> ~ may_oom m -> 0 <= r < 30 ->
  symrgtbl x !! Z.to_nat r = Some rg -> rg_start rg < rg_end rg -> rg_end rg <= sbrk v ->
  0 <= r2 < 30 -> 0 < size < 2 ^ 31 -> size <= rg_end rg - rg_start rg ->
  wp (libfree p r ;; libfree p r) (fun s m' => s = -1 /\ keeps_bytes m m') m /\
  wp (libfree p r ;; liballoc p size r2) (fun s m' => s = 0 /\ vm_inv E F m' /\ lib_step p m m' /\
    exists a k' x', has_mm m' p k' x' /\ symrgtbl x' !! Z.to_nat r2 = Some (mkRg 0 a (a + size))) m.
Proof.
  intros HI Hp HA Ho Hr Hrg Hne Heb Hr2 Hsz Hfit. destruct (ao_syms _ _ _ _ HA) as [Hlen _].
  split; apply wp_bind; (eapply wp_mono; [by eapply (libfree_spec E F m p k x v r rg)|]);
    intros s m1 (_ & HI1 & HL1 & HB1 & k1 & x1 & l & Hp1 & HA1 & Es & _ & (rr & Hrr & H1 & H2)).
  - eapply wp_eq; [|split; [reflexivity|exact HB1]].
    eapply (libfree_refused m1 p k1 x1 r (mkRg (vmaid rg) 0 0)); [done|lia|right].
    split; [|done]. rewrite Es. apply list_lookup_insert_eq. lia.
  - unfold liballoc. apply wp_bind. eapply wp_mono.
    { eapply (alloc_room_spec E F m1 p k1 x1 _ r2 size HI1 Hp1 HA1); [lia|lia|rewrite i32_small; lia|].
      exists rr. rewrite i32_small by lia. split; [done|]. unfold has_room. lia. }
    rewrite i32_small by lia.
    intros o m2 (HI2 & HL2 & _ & a & k2 & x2 & v2 & -> & Hp2 & _ & _ & _ & Es2 & _).
    apply wp_ret. split_and!; [done|done|by eapply lib_step_trans|]. exists a, k2, x2. split; [done|].
    rewrite Es2. apply list_lookup_insert_eq. rewrite Es, length_insert. lia.
Qed.

Lemma free_then_reuse_witness :
  wp (liballoc 100 5000 2 ;; libfree 100 2 ;; liballoc 100 4000 7) (fun s _ => s = 0) demo.
Proof.
  unfold liballoc at 1. apply wp_bind, wp_bind. eapply wp_mono.
  { apply (alloc_spec [] [] demo 100 demo_krnl demo_mm (mkVma 0 0 0 0 []) 2 5000
      demo_inv demo_has_mm demo_area demo_request). }
  intros o m' (HI & HL & _ & a & k & x & v & -> & Hp & HA & Ha & He & Es & _). apply wp_ret.
  assert (Ho : ~ may_oom m') by (intros Ho; by apply demo_no_oom, (lib_step_mapped 100 demo m')).
  destruct (free_then_reuse [] [] m' 100 k x v 2 (mkRg 0 a (a + 5000)) 7 4000 HI Hp HA Ho) as [_ H];
    simpl; try lia.
  { by rewrite Es. }
  eapply wp_mono; [exact H|]. by intros s m2 (-> & _).
Defined.

(** The size of ALLOC is truncated to 32 bits on its way to the free list:
    with room for [size mod 2^32] bytes in the free list, an ALLOC of 4 GiB or
    more succeeds and delivers a region of only [size mod 2^32] bytes. *)
Theorem alloc_size_truncated E F m p k x v r size :
  vm_inv E F m -> has_mm m p k x -> area_ok m p x v -> 0 <= r < 30 ->
  2 ^ 32 <= size -> 0 < i32 size < 2 ^ 31 ->
  (exists rg, rg ∈ vm_freerg_list v /\ has_room (i32 size) rg) ->
  wp (liballoc p size r) (fun s m' => s = 0 /\ exists a k' x', has_mm m' p k' x' /\
    symrgtbl x' !! Z.to_nat r = Some (mkRg 0 a (a + i32 size)) /\ i32 size < size) m.
Proof.
  intros HI Hp HA Hr Hbig Hsz Hroom. destruct (ao_syms _ _ _ _ HA) as [Hlen _].
  unfold liballoc. apply wp_bind.
  eapply wp_mono; [apply (alloc_room_spec E F m p k x v r size HI Hp HA Hr ltac:(lia) Hsz Hroom)|].
  intros o m' (_ & _ & _ & a & k' & x' & v' & -> & Hp' & _ & _ & _ & Es & _).
  apply wp_ret. split; [done|]. exists a, k', x'. split; [done|]. rewrite Es. split; [|lia].
  apply list_lookup_insert_eq. lia.
Qed.

Lemma alloc_size_truncated_witness :
  wp (liballoc 100 5000 2 ;; libfree 100 2 ;; liballoc 100 (2 ^ 32 + 16) 7) (fun s _ => s = 0) demo.
Proof.
  unfold liballoc at 1. apply wp_bind, wp_bind. eapply wp_mono.
  { apply (alloc_spec [] [] demo 100 demo_krnl demo_mm (mkVma 0 0 0 0 []) 2 5000
      demo_inv demo_has_mm demo_area demo_request). }
  intros o m1 (HI & HL & _ & a & k & x & v & -> & Hp & HA & Ha & He & Es & _). apply wp_ret.
  assert (Ho : ~ may_oom m1) by (intros Ho; by apply demo_no_oom, (lib_step_mapped 100 demo m1)).
  apply wp_bind. eapply wp_mono.
  { eapply (libfree_spec [] [] m1 100 k x v 2 (mkRg 0 a (a + 5000)) HI Hp HA Ho); simpl; try lia.
    by rewrite Es. }
  intros s m2 (_ & HI2 & _ & _ & k2 & x2 & l & Hp2 & HA2 & _ & _ & (rr & Hrr & H1 & H2)).
  assert (H16 : i32 (2 ^ 32 + 16) = 16) by (vm_compute; reflexivity).
  eapply wp_mono.
  { apply (alloc_size_truncated [] [] m2 100 k2 x2 _ 7 (2 ^ 32 + 16) HI2 Hp2 HA2); rewrite ?H16; try lia.
    exists rr. split; [done|]. unfold has_room. simpl in *. lia. }
  by intros s' m3 (-> & _).
Defined.

(** Growing an area that does not exist is undefined behaviour: the search
    for the area runs off the list, and a process reaches it with the memory
    system call. *)
Theorem grow_unknown_area_undefined m p k x a2 a3 :
  has_mm m p k x -> findable m p -> oom m (mallocs m) = false ->
  mmap x <> [] -> Forall (fun v => i32 (vm_id v) < i32 a2) (mmap x) ->
  libsyscall p 17 SYSMEM_INC_OP a2 a3 m = Ub.
Proof.
  intros Hp Hf Ho Hne Hall. pose proof Hp as (Hp0 & Hk & Hx).
  pose proof Hp as (_ & y & Hy & Hyk & Hyx)%has_mm_procs.
  unfold libsyscall, bind. rewrite (get_krnl_ok m p k) by done. unfold get_pcb. rewrite Hy.
  unfold _syscall. rewrite (bool_decide_false (17 = 0)), (bool_decide_true (17 = 17)) by done.
  unfold __sys_memmap, bind. cbn [Syscall.a1 Syscall.a2 Syscall.a3]. unfold m_find_proc.
  unfold findable, pid_at in Hf. rewrite Hy in Hf. rewrite Hf.
  rewrite (bool_decide_false (p = 0)) by done. unfold SYSMEM_INC_OP, SYSMEM_MAP_OP.
  change (i32 2) with 2. cbn [negb orb]. rewrite (bool_decide_false (2 = 1)), (bool_decide_true (2 = 2)) by done.
  unfold inc_vma_limit, bind, malloc. rewrite Ho. cbn [negb].
  assert (Hp1 : forall n, has_mm (set_mallocs m n) p k x) by (intros n; by eapply has_mm_same).
  rewrite (the_mm_ok _ p k x) by apply Hp1.
  unfold get_vma_by_num, bind. destruct (mmap x) as [|v l]; [done|].
  assert (Hub : forall l i m', Forall (fun v => i32 (vm_id v) < i32 a2) l -> vma_loop l i (i32 a2) m' = Ub).
  { clear. intros l. induction l as [|v l IH]; intros i m' Hl; [done|].
    apply Forall_cons in Hl as [Hv Hl]. cbn [vma_loop]. rewrite bool_decide_true by done. by apply IH. }
  by rewrite Hub.
Qed.

Lemma grow_unknown_area_undefined_witness : libsyscall 100 17 SYSMEM_INC_OP 1 4096 demo = Ub.
Proof.
  apply (grow_unknown_area_undefined demo 100 demo_krnl demo_mm 1 4096 demo_has_mm).
  - by vm_compute.
  - reflexivity.
  - done.
  - repeat constructor.
Defined.
