(* ===== verification/Kmem.v ===== *)
(** * Kernel memory ([src/libmem.c])

    Contiguous frames for the kernel, their direct mapping at
    [KMEM_VADDR_BASE + frame * page size], [kmalloc], caches of fixed-size
    objects, and the copies between user and kernel regions.  A node of a frame
    list is identified by its frame number (the numbers of a list are distinct,
    which [vm_inv] states); its [owner] is written and never read.  The slab an
    object comes from is the head of a list, so removing it by its pointer is
    dropping the head. *)

From S2P Require Import Prelude.
From S2P Require Import Word.
From S2P Require Import Paging.
From S2P Require Import MemPhy.
From S2P Require Import Region.
From S2P Require Import Machine.
From S2P Require Import PageTable.
From S2P Require Import Swap.
From S2P Require Import Area.
From S2P Require Import Libmem.

(** A product of two [int]s: overflow is undefined. *)
Definition int_mul (a b : Z) : M machine Z :=
  if bool_decide (- 2 ^ 31 <= a * b < 2 ^ 31) then ret (a * b) else ub.

(** ** Contiguous frames *)

(** The list without the node of a frame, if it has one. *)
Fixpoint unlink (fpn : Z) (l : list Z) : option (list Z) :=
  match l with
  | [] => None
  | f :: l' => if bool_decide (f = fpn) then Some l' else cons f <$> unlink fpn l'
  end.

Definition kernel_get_free_frame_node (mp : memphy_struct) (fpn : Z) : option memphy_struct :=
  set_free mp <$> unlink fpn (free_fp_list mp).
Definition kernel_get_used_frame_node (mp : memphy_struct) (fpn : Z) : option memphy_struct :=
  set_used mp <$> unlink fpn (used_fp_list mp).

(** A node moves from the free list to the front of the used list. *)
Definition claim_frame (mp : memphy_struct) (fpn : Z) : memphy_struct :=
  match kernel_get_free_frame_node mp fpn with
  | Some mp => set_used mp (fpn :: used_fp_list mp)
  | None => mp
  end.

(** And back. *)
Definition unclaim_frame (mp : memphy_struct) (fpn : Z) : memphy_struct :=
  match kernel_get_used_frame_node mp fpn with
  | Some mp => set_free mp (fpn :: free_fp_list mp)
  | None => mp
  end.

(** The search for a run: [prev] is [list[idx - 1]], [rest] is the list from
    [idx] on; the index where a run of [req] frames starts. *)
Fixpoint find_run (req prev run idx : Z) (rest : list Z) : option Z :=
  match rest with
  | [] => None
  | fpn :: rest' =>
    let run := if bool_decide (fpn = u64 (prev + 1)) then run + 1 else 1 in
    if bool_decide (run = req) then Some (idx - req + 1)
    else find_run req fpn run (idx + 1) rest'
  end.

Definition select_start (req : Z) (list : list Z) : option Z :=
  if bool_decide (req = 1) then Some 0
  else match list with
       | [] => None
       | fpn :: rest => find_run req fpn 1 1 rest
       end.

(** The first frame of the block, or [None] for status -1. *)
Definition kernel_allocate_contiguous_frames (caller req_pgnum : Z) : M machine (option Z) :=
  let* k := get_krnl caller in
  match k with
  | None => ret None
  | Some k =>
    if negb (mram k) then ret None
    else if bool_decide (req_pgnum <= 0) then ret None
    else
      let* m := get in
      let free := free_fp_list (ram m) in
      if bool_decide (Z.of_nat (length free) < req_pgnum) then ret None
      else
        let* ok := malloc in
        if negb ok then ret None
        else
          let list := merge_sort Z.le free in
          match select_start req_pgnum list with
          | None => ret None
          | Some start =>
            let block := take (Z.to_nat req_pgnum) (drop (Z.to_nat start) list) in
            match block with
            | [] => ub
            | start_fpn :: _ =>
              on_ram (modify (fun mp => foldl claim_frame mp block)) ;; ret (Some start_fpn)
            end
          end
  end.

(** ** The kernel page table *)

Definition kernel_walk_pte (caller addr : Z) (create : bool) : M machine (option (Z * Z)) :=
  let* k := get_krnl caller in
  match k with
  | None => ret None
  | Some k =>
    let '(st, ix) := get_pd_from_address addr in
    if bool_decide (st <> 0) then ret None
    else
      let* root :=
        (if bool_decide (krnl_pgd k = 0) then
           if negb create then ret 0
           else
             let* (r, k') := init_kernel_page_table caller k in
             upd_krnl caller (fun _ => k') ;;
             ret (if bool_decide (r <> 0) then 0 else krnl_pgd k')
         else ret (krnl_pgd k)) in
      if_ptr root (
      let* p4d_ptr := next_level root (pgd_ix ix) create in
      if_ptr p4d_ptr (
      let* pud_ptr := next_level p4d_ptr (p4d_ix ix) create in
      if_ptr pud_ptr (
      let* pmd_ptr := next_level pud_ptr (pud_ix ix) create in
      if_ptr pmd_ptr (
      let* pt_ptr := next_level pmd_ptr (pmd_ix ix) create in
      if_ptr pt_ptr (
      note_walk true caller (fun _ => mkWalk p4d_ptr pud_ptr pmd_ptr pt_ptr) ;;
      ret (Some (pt_ptr, pt_ix ix)))))))
  end.

Definition kernel_vaddr_from_fpn (fpn : Z) : Z := u64 (KMEM_VADDR_BASE + fpn * PAGING64_PAGESZ).
Definition kernel_fpn_from_vaddr (addr : Z) : Z := u64 (addr - KMEM_VADDR_BASE) / PAGING64_PAGESZ.

Definition kernel_pte (fpn : Z) : Z :=
  PAGING64_PTE_SET_FPN
    (CLRBIT (CLRBIT (SETBIT 0 PAGING64_PTE_PRESENT_MASK) PAGING64_PTE_SWAPPED_MASK)
       PAGING64_PTE_DIRTY_MASK) fpn.

Definition kernel_map_page (caller addr fpn : Z) : M machine Z :=
  let* pte := kernel_walk_pte caller addr true in
  match pte with
  | None => ret (-1)
  | Some (t, i) => tbl_write t i 0 ;; tbl_write t i (kernel_pte fpn) ;; ret 0
  end.

Definition kernel_release_contiguous_region (caller base_addr pgnum : Z) : M machine unit :=
  let* k := get_krnl caller in
  match k with
  | None => ret tt
  | Some k =>
    if negb (mram k) || bool_decide (pgnum <= 0) then ret tt
    else
      for_each (fun page =>
        let* b := int_mul page PAGING64_PAGESZ in
        let* pte := kernel_walk_pte caller (u64 (base_addr + b)) false in
        match pte with
        | None => ret 0
        | Some (t, i) => tbl_write t i 0 ;; ret 0
        end) (seqZ 0 pgnum) ;;
      let first_fpn := kernel_fpn_from_vaddr base_addr in
      on_ram (modify (fun mp =>
        foldl unclaim_frame mp ((fun page => u64 (first_fpn + page)) <$> seqZ 0 pgnum)))
  end.

(** Base address and size in whole pages, or [None] for status -1. *)
Definition kernel_alloc_contiguous_region (caller size : Z) : M machine (option (Z * Z)) :=
  let* k := get_krnl caller in
  match k with
  | None => ret None
  | Some _ =>
    if bool_decide (size = 0) then ret None
    else
      let aligned_size := PAGING64_PAGE_ALIGNSZ size in
      let req_pgnum := i32 (aligned_size / PAGING64_PAGESZ) in
      let* first := kernel_allocate_contiguous_frames caller req_pgnum in
      match first with
      | None => ret None
      | Some first_fpn =>
        let start_addr := kernel_vaddr_from_fpn first_fpn in
        let* r := for_each (fun page =>
          let* b := int_mul page PAGING64_PAGESZ in
          let* r := kernel_map_page caller (u64 (start_addr + b)) (u64 (first_fpn + page)) in
          ret (if bool_decide (r <> 0) then -1 else 0)) (seqZ 0 req_pgnum) in
        if bool_decide (r <> 0)
        then kernel_release_contiguous_region caller start_addr req_pgnum ;; ret None
        else ret (Some (start_addr, aligned_size))
      end
  end.

Definition kernel_translate_vaddr (caller addr : Z) : M machine (option Z) :=
  let* pte := kernel_walk_pte caller addr false in
  match pte with
  | None => ret None
  | Some (t, i) =>
    let* pte := tbl_read t i in
    if negb (PAGING64_PAGE_PRESENT pte) then ret None
    else ret (Some (u64 (PAGING64_PTE_FPN pte * PAGING64_PAGESZ +
                         Z.land addr PAGING64_ADDR_OFFST_MASK)))
  end.

(** The region, if [size] bytes at [offset] are inside it. *)
Definition kernel_region_valid (x : option mm_struct) (rgid size offset : Z) : option vm_rg_struct :=
  match get_symrg_byid x rgid with
  | None => None
  | Some rg =>
    if bool_decide (rg_end rg <= rg_start rg) then None
    else
      let region_size := u64 (rg_end rg - rg_start rg) in
      if bool_decide (region_size < size) || bool_decide (u64 (region_size - size) < offset)
      then None else Some rg
  end.

(** ** kmalloc *)

(** The address, or [None] for [(addr_t)-1]. *)
Definition __kmalloc (caller rgid size : Z) : M machine (option Z) :=
  let* x := get_mm caller in
  match x with
  | None => ret None
  | Some x =>
    if bool_decide (size = 0) then ret None
    else if bool_decide (rgid < 0) || bool_decide (PAGING_MAX_SYMTBL_SZ <= rgid) then ret None
    else
      match symrgtbl x !! Z.to_nat rgid with
      | None => ub
      | Some symrg =>
        if bool_decide (rg_start symrg <> 0) || bool_decide (rg_end symrg <> 0) then ret None
        else
          let* r := kernel_alloc_contiguous_region caller size in
          match r with
          | None => ret None
          | Some (base_addr, _) =>
            set_symrg caller rgid (mkRg 0 base_addr (u64 (base_addr + size))) ;; ret (Some base_addr)
          end
      end
  end.

Definition libkmem_malloc (caller size reg_index : Z) : M machine Z :=
  let* k := get_krnl caller in
  match k with
  | None => ret (-1)
  | Some _ =>
    if bool_decide (size = 0) then ret (-1)
    else if bool_decide (PAGING_MAX_SYMTBL_SZ <= reg_index) then ret (-1)
    else
      let* r := __kmalloc caller (i32 reg_index) size in
      match r with
      | None => ret (-1)
      | Some alloc_addr => set_reg caller reg_index alloc_addr ;; ret 0
      end
  end.

(** ** Caches *)

(** The slots from [idx] on; [None] when a [malloc] fails. *)
Fixpoint slab_slots (base_addr slot_size idx : Z) (n : nat) : M machine (option (list Z)) :=
  match n with
  | O => ret (Some [])
  | S n' =>
    let* ok := malloc in
    if negb ok then ret None
    else
      let* off := int_mul idx slot_size in
      let* rest := slab_slots base_addr slot_size (idx + 1) n' in
      ret (cons (u64 (base_addr + off)) <$> rest)
  end.

Definition create_cache_slab (base_addr slot_size slot_count : Z) :
    M machine (option kmem_cache_slab_struct) :=
  let* ok := malloc in
  if negb ok then ret None
  else
    let* slots := slab_slots base_addr slot_size 0 (Z.to_nat slot_count) in
    ret (mkSlab base_addr slot_size slot_count slot_count <$> slots).

(** The pool table with at least [n] entries, the new ones zeroed; [None] when
    [calloc] fails. *)
Definition grow_pool_table (tbl : option (list kcache_pool_struct)) (n : Z) :
    M machine (option (list kcache_pool_struct)) :=
  match tbl with
  | None =>
    let* ok := malloc in
    ret (if ok then Some (replicate (Z.to_nat n) zero_pool) else None)
  | Some l =>
    if bool_decide (Z.of_nat (length l) < n) then
      let* ok := malloc in
      ret (if ok then Some (l ++ replicate (Z.to_nat n - length l) zero_pool) else None)
    else ret (Some l)
  end.

Definition set_pool (caller id : Z) (pool : kcache_pool_struct) : M machine unit :=
  upd_mm caller (fun x => set_kcpooltbl x (<[Z.to_nat id := pool]> <$> kcpooltbl x)).

Definition libkmem_cache_pool_create (caller size align cache_pool_id : Z) : M machine Z :=
  let* x := get_mm caller in
  match x with
  | None => ret (-1)
  | Some x =>
    if bool_decide (PAGING_MAX_SYMTBL_SZ <= cache_pool_id) || bool_decide (size = 0)
       || bool_decide (align = 0) then ret (-1)
    else
      let usable_size := size / align * align in
      if bool_decide (usable_size = 0) then ret (-1)
      else
        let slot_count := i32 (usable_size / align) in
        if bool_decide (slot_count = 0) then ret (-1)
        else
          let* tbl := grow_pool_table (kcpooltbl x) (cache_pool_id + 1) in
          match tbl with
          | None => ret (-1)
          | Some tbl =>
            upd_mm caller (fun x => set_kcpooltbl x (Some tbl)) ;;
            match tbl !! Z.to_nat cache_pool_id with
            | None => ub
            | Some pool =>
              if bool_decide (pool_size pool <> 0) then ret (-1)
              else
                let* r := kernel_alloc_contiguous_region caller size in
                match r with
                | None => ret (-1)
                | Some (alloc_addr, alloc_size) =>
                  let pool := mkPool (i32 usable_size) (i32 align) slot_count alloc_addr alloc_size [] [] [] in
                  set_pool caller cache_pool_id pool ;;
                  let* slab := create_cache_slab alloc_addr (i32 align) slot_count in
                  match slab with
                  | None =>
                    kernel_release_contiguous_region caller alloc_addr
                      (u32 (size + PAGING64_PAGESZ - 1) / PAGING64_PAGESZ) ;;
                    set_pool caller cache_pool_id zero_pool ;; ret (-1)
                  | Some slab =>
                    set_pool caller cache_pool_id
                      (mkPool (i32 usable_size) (i32 align) slot_count alloc_addr alloc_size [slab] [] []) ;;
                    ret 0
                  end
                end
            end
          end
  end.

(** Take the first free slot of the head of [partial], or else of [empty]: the
    slot and the new pool. *)
Definition take_slot (pool : kcache_pool_struct) : option (Z * kcache_pool_struct) :=
  let with_lists e p f :=
    mkPool (pool_size pool) (align pool) (slot_count pool) (pool_storage pool) (alloc_size pool) e p f in
  let used s l := mkSlab (slab_start s) (slot_size s) (slab_slot_count s) (i32 (free_count s - 1)) l in
  match partial_slabs pool with
  | s :: rest =>
    match free_list s with
    | [] => None
    | slot :: l =>
      let s' := used s l in
      Some (slot,
        if bool_decide (free_count s' = 0)
        then with_lists (empty_slabs pool) rest (s' :: full_slabs pool)
        else with_lists (empty_slabs pool) (s' :: rest) (full_slabs pool))
    end
  | [] =>
    match empty_slabs pool with
    | s :: rest =>
      match free_list s with
      | [] => None
      | slot :: l =>
        let s' := used s l in
        Some (slot,
          if bool_decide (free_count s' = 0)
          then with_lists rest [] (s' :: full_slabs pool)
          else with_lists rest [s'] (full_slabs pool))
      end
    | [] => None
    end
  end.

Definition __kmem_cache_alloc (caller rgid cache_pool_id : Z) : M machine (option Z) :=
  let* x := get_mm caller in
  match x with
  | None => ret None
  | Some x =>
    if bool_decide (cache_pool_id < 0) || bool_decide (PAGING_MAX_SYMTBL_SZ <= cache_pool_id)
       || bool_decide (rgid < 0) || bool_decide (PAGING_MAX_SYMTBL_SZ <= rgid) then ret None
    else
      match kcpooltbl x ≫= lookup (Z.to_nat cache_pool_id) with
      | None => ret None
      | Some pool =>
        if bool_decide (pool_size pool = 0) then ret None
        else
          match symrgtbl x !! Z.to_nat rgid with
          | None => ub
          | Some symrg =>
            if bool_decide (rg_start symrg <> 0) || bool_decide (rg_end symrg <> 0) then ret None
            else
              match take_slot pool with
              | None => ret None
              | Some (slot, pool') =>
                set_pool caller cache_pool_id pool' ;;
                set_symrg caller rgid (mkRg 0 slot (u64 (slot + pool_size pool))) ;;
                ret (Some slot)
              end
          end
      end
  end.

Definition libkmem_cache_alloc (proc reg_index cache_pool_id : Z) : M machine Z :=
  let* x := get_mm proc in
  match x with
  | None => ret (-1)
  | Some _ =>
    if bool_decide (PAGING_MAX_SYMTBL_SZ <= cache_pool_id)
       || bool_decide (PAGING_MAX_SYMTBL_SZ <= reg_index) then ret (-1)
    else
      let* r := __kmem_cache_alloc proc (i32 reg_index) (i32 cache_pool_id) in
      match r with
      | None => ret (-1)
      | Some addr => set_reg proc reg_index addr ;; ret 0
      end
  end.

(** ** Bytes and copies *)

Definition __read_kernel_mem (caller rgid offset : Z) : M machine (option Z) :=
  let* k := get_krnl caller in
  match k with
  | None => ret None
  | Some k =>
    match kernel_region_valid (mm k) rgid 1 offset with
    | None => ret None
    | Some rg =>
      let* phys := kernel_translate_vaddr caller (u64 (rg_start rg + offset)) in
      match phys with
      | None => ret None
      | Some phys => dev_read (k_mram k) phys
      end
    end
  end.

Definition __write_kernel_mem (caller rgid offset value : Z) : M machine Z :=
  let* k := get_krnl caller in
  match k with
  | None => ret (-1)
  | Some k =>
    match kernel_region_valid (mm k) rgid 1 offset with
    | None => ret (-1)
    | Some rg =>
      let* phys := kernel_translate_vaddr caller (u64 (rg_start rg + offset)) in
      match phys with
      | None => ret (-1)
      | Some phys => dev_write (k_mram k) phys value
      end
    end
  end.

Definition __read_user_mem (caller rgid offset : Z) : M machine (option Z) :=
  let* x := get_mm caller in
  match x with
  | None => ret None
  | Some x =>
    match get_symrg_byid (Some x) rgid with
    | None => ret None
    | Some rg =>
      if bool_decide (rg_end rg <= rg_start rg) then ret None
      else match access_addr rg offset with
           | None => ret None
           | Some a => pg_getval a caller
           end
    end
  end.

Definition __write_user_mem (caller rgid offset value : Z) : M machine Z :=
  let* x := get_mm caller in
  match x with
  | None => ret (-1)
  | Some x =>
    match get_symrg_byid (Some x) rgid with
    | None => ret (-1)
    | Some rg =>
      if bool_decide (rg_end rg <= rg_start rg) then ret (-1)
      else match access_addr rg offset with
           | None => ret (-1)
           | Some a => pg_setval a value caller
           end
    end
  end.

(** The byte loop of the two copies; [offset + idx] is computed in 32 bits. *)
Definition copy_loop (offset size : Z) (rd : Z -> M machine (option Z)) (wr : Z -> Z -> M machine Z) :
    M machine Z :=
  for_each (fun idx =>
    let off := u32 (offset + idx) in
    let* data := rd off in
    match data with
    | None => ret (-1)
    | Some data => let* r := wr off data in ret (if bool_decide (r <> 0) then -1 else 0)
    end) (seqZ 0 size).

Definition copy_guard (caller source destination size : Z) (loop : M machine Z) : M machine Z :=
  let* x := get_mm caller in
  match x with
  | None => ret (-1)
  | Some _ =>
    if bool_decide (PAGING_MAX_SYMTBL_SZ <= source) || bool_decide (PAGING_MAX_SYMTBL_SZ <= destination)
    then ret (-1)
    else if bool_decide (size = 0) then ret 0
    else loop
  end.

Definition libkmem_copy_from_user (caller source destination offset size : Z) : M machine Z :=
  copy_guard caller source destination size
    (copy_loop offset size (__read_user_mem caller (i32 source))
       (__write_kernel_mem caller (i32 destination))).

Definition libkmem_copy_to_user (caller source destination offset size : Z) : M machine Z :=
  copy_guard caller source destination size
    (copy_loop offset size (__read_kernel_mem caller (i32 source))
       (__write_user_mem caller (i32 destination))).
