(* ===== verification/Kernel.v ===== *)
(** * Kernel memory: proofs

    The kernel's frames are taken from the free list in contiguous blocks and
    mapped one to one; a kernel byte is changed only by a store to its own
    address, and never by anything that happens to user memory. *)

From S2P Require Import Prelude.
From S2P Require Import Word.
From S2P Require Import Exclusive.
From S2P Require Import Paging.
From S2P Require Import MemPhy.
From S2P Require Import Region.
From S2P Require Import Machine.
From S2P Require Import PageTable.
From S2P Require Import Swap.
From S2P Require Import Vm.
From S2P Require Import Evict.
From S2P Require Import Access.
From S2P Require Import Mapping.
From S2P Require Import Area.
From S2P Require Import Libmem.
From S2P Require Import Heap.
From S2P Require Import Kmem.

(** ** The search for a run of frames *)

(** [n] consecutive numbers from [f] on, all in [l]. *)
Definition block_in (f n : Z) (l : list Z) : Prop := forall i, f <= i < f + n -> i ∈ l.

Lemma block_snoc f n pre x run :
  (forall y, y ∈ pre -> y < x) -> x - run ∉ pre ++ [x] -> 1 <= run < n ->
  ~ block_in f n pre -> ~ block_in f n (pre ++ [x]).
Proof.
  intros Hlt Hmax Hrun Hno Hb. destruct (decide (f <= x < f + n)) as [Hx|Hx].
  - assert (Htop : f + n - 1 <= x).
    { specialize (Hb (f + n - 1) ltac:(lia)). apply elem_of_app in Hb as [Hb|Hb].
      - specialize (Hlt _ Hb). lia.
      - apply list_elem_of_singleton in Hb. lia. }
    apply Hmax, Hb. lia.
  - apply Hno. intros i Hi. specialize (Hb i Hi). apply elem_of_app in Hb as [Hb|Hb]; [done|].
    apply list_elem_of_singleton in Hb. lia.
Qed.

Lemma block_before f n pre x rest :
  StronglySorted Z.lt (pre ++ x :: rest) -> block_in f n (pre ++ x :: rest) -> f + n <= x ->
  block_in f n pre.
Proof.
  intros Hs Hb Hlt i Hi. specialize (Hb i Hi). apply elem_of_app in Hb as [Hb|Hb]; [done|].
  apply elem_of_cons in Hb as [->|Hb]; [lia|].
  apply StronglySorted_app_1_r, StronglySorted_cons in Hs as [Hs _].
  rewrite Forall_forall in Hs. specialize (Hs i Hb). lia.
Qed.

Lemma seqZ_snoc f n : 0 <= n -> seqZ f (n + 1) = seqZ f n ++ [f + n].
Proof.
  intros Hn. by rewrite seqZ_app by lia.
Qed.

(** The search from the middle: [pre] has been passed, it ends with a maximal
    run of [run] numbers and contains no block. *)
Lemma find_run_spec req rest : forall pre prev run idx,
  1 < req -> StronglySorted Z.lt (pre ++ rest) -> Forall (fun f => 0 <= f < 2 ^ 63) (pre ++ rest) ->
  (exists pre0, pre = pre0 ++ seqZ (prev - run + 1) run) -> 1 <= run < req ->
  prev - run ∉ pre -> (forall f, ~ block_in f req pre) -> idx = Z.of_nat (length pre) ->
  match find_run req prev run idx rest with
  | Some s => exists f l1 l2, pre ++ rest = l1 ++ seqZ f req ++ l2 /\ s = Z.of_nat (length l1) /\
      forall f', block_in f' req (pre ++ rest) -> f <= f'
  | None => forall f, ~ block_in f req (pre ++ rest)
  end.
Proof.
  induction rest as [|x rest IH]; intros pre prev run idx Hreq Hs Hr (pre0 & Hpre) Hrun Hmax Hno ->.
  { simpl. by rewrite app_nil_r. }
  assert (Hlt : forall y, y ∈ pre -> y < x).
  { intros y Hy. apply (StronglySorted_app_1_elem_of Z.lt pre (x :: rest)); [done|done|left]. }
  assert (Hprev : prev ∈ pre).
  { rewrite Hpre. apply elem_of_app. right. apply elem_of_seqZ. lia. }
  assert (Hle : forall y, y ∈ pre -> y <= prev).
  { intros y Hy. rewrite Hpre in Hy. apply elem_of_app in Hy as [Hy|Hy].
    - apply Z.lt_le_incl. apply (StronglySorted_app_1_elem_of Z.lt pre0 (seqZ (prev - run + 1) run)).
      + rewrite Hpre in Hs. by apply StronglySorted_app_1_l in Hs.
      + done.
      + apply elem_of_seqZ. lia.
    - apply elem_of_seqZ in Hy. lia. }
  assert (Hu : u64 (prev + 1) = prev + 1).
  { rewrite Forall_forall in Hr. specialize (Hr prev ltac:(apply elem_of_app; by left)).
    apply u64_small. unfold is_u64. lia. }
  assert (Hsplit : pre ++ x :: rest = (pre ++ [x]) ++ rest) by (by rewrite <- app_assoc).
  cbn [find_run]. rewrite Hu. destruct (decide (x = prev + 1)) as [Hx|Hx].
  - rewrite (bool_decide_true (x = prev + 1)) by done. case_bool_decide as Hfound.
    + exists (prev - run + 1), pre0, rest. split_and!.
      * rewrite Hpre, <- Hfound, seqZ_snoc, <- !app_assoc by lia. do 2 f_equal. simpl. f_equal. lia.
      * rewrite Hpre, length_app, length_seqZ. lia.
      * intros f' Hb. destruct (decide (prev - run + 1 <= f')); [done|]. exfalso.
        apply (Hno f'). eapply block_before; [exact Hs|exact Hb|lia].
    + rewrite Hsplit. apply IH; try (by rewrite <- Hsplit); try lia.
      * exists pre0. rewrite Hpre, seqZ_snoc, <- app_assoc by lia. do 2 f_equal; [f_equal; lia|]. f_equal. lia.
      * intros [?|?%list_elem_of_singleton]%elem_of_app; [|lia]. apply Hmax.
        by replace (prev - run) with (x - (run + 1)) by lia.
      * intros f. apply (block_snoc f req pre x (run + 1)); try done; try lia.
        intros [?|?%list_elem_of_singleton]%elem_of_app; [|lia]. apply Hmax.
        by replace (prev - run) with (x - (run + 1)) by lia.
      * rewrite length_app. simpl. lia.
  - rewrite (bool_decide_false (x = prev + 1)), (bool_decide_false (1 = req)) by lia.
    assert (Hm : x - 1 ∉ pre ++ [x]).
    { intros [Hy%Hle|?%list_elem_of_singleton]%elem_of_app; [|lia]. specialize (Hlt _ Hprev). lia. }
    rewrite Hsplit. apply IH; try (by rewrite <- Hsplit); try lia; try done.
    + exists pre. f_equal. rewrite seqZ_cons, seqZ_nil by lia. f_equal. lia.
    + intros f. by apply (block_snoc f req pre x 1); [|..|lia|].
    + rewrite length_app. simpl. lia.
Qed.

(** The whole search, on the sorted list of distinct frames. *)
Lemma select_start_spec req l :
  0 < req <= Z.of_nat (length l) -> StronglySorted Z.lt l -> Forall (fun f => 0 <= f < 2 ^ 63) l ->
  match select_start req l with
  | Some s => exists f l1 l2, l = l1 ++ seqZ f req ++ l2 /\ s = Z.of_nat (length l1) /\
      forall f', block_in f' req l -> f <= f'
  | None => forall f, ~ block_in f req l
  end.
Proof.
  intros Hreq Hs Hr. unfold select_start. destruct l as [|x l]; [simpl in Hreq; lia|].
  case_bool_decide as H1.
  - exists x, [], l. rewrite H1, seqZ_cons, seqZ_nil by lia. split_and!; try done.
    intros f Hf. specialize (Hf f ltac:(lia)). apply elem_of_cons in Hf as [->|Hf]; [done|].
    apply StronglySorted_cons in Hs as [Hs _]. rewrite Forall_forall in Hs. specialize (Hs f Hf). lia.
  - change (x :: l) with ([x] ++ l) in *. apply find_run_spec; try done; try lia.
    + exists []. rewrite seqZ_cons, seqZ_nil by lia. simpl. f_equal. lia.
    + rewrite list_elem_of_singleton. lia.
    + intros f Hb. pose proof (Hb f ltac:(lia)) as B1. pose proof (Hb (f + 1) ltac:(lia)) as B2.
      rewrite list_elem_of_singleton in B1, B2. lia.
Qed.

(** ** Moving frames between the lists *)

Lemma unlink_perm f l : f ∈ l -> exists l', unlink f l = Some l' /\ l ≡ₚ f :: l'.
Proof.
  induction l as [|g l IH]; [by intros []%elem_of_nil|]. intros Hf. simpl.
  case_bool_decide as Hg; [subst; by eauto|].
  apply elem_of_cons in Hf as [->|Hf]; [done|]. destruct (IH Hf) as (l' & -> & Hp).
  exists (g :: l'). split; [done|]. rewrite Hp. apply Permutation_swap.
Qed.

Lemma claim_frames_spec block : forall mp rest,
  free_fp_list mp ≡ₚ block ++ rest ->
  exists free', foldl claim_frame mp block =
    set_used (set_free mp free') (reverse block ++ used_fp_list mp) /\ free' ≡ₚ rest.
Proof.
  induction block as [|f block IH]; intros mp rest Hp; simpl.
  { exists (free_fp_list mp). split; [by destruct mp|done]. }
  destruct (unlink_perm f (free_fp_list mp)) as (l & Hl & Hpl).
  { rewrite Hp. left. }
  unfold claim_frame at 2, kernel_get_free_frame_node. rewrite Hl. simpl.
  destruct (IH (set_used (set_free mp l) (f :: used_fp_list mp)) rest) as (free' & -> & Hf).
  { simpl. rewrite Hpl in Hp. by apply (Permutation_cons_inv (a := f)). }
  exists free'. split; [|done]. rewrite reverse_cons, <- app_assoc. by destruct mp.
Qed.

Lemma unclaim_frames_spec block : forall mp rest,
  used_fp_list mp ≡ₚ block ++ rest ->
  exists used', foldl unclaim_frame mp block =
    set_free (set_used mp used') (reverse block ++ free_fp_list mp) /\ used' ≡ₚ rest.
Proof.
  induction block as [|f block IH]; intros mp rest Hp; simpl.
  { exists (used_fp_list mp). split; [by destruct mp|done]. }
  destruct (unlink_perm f (used_fp_list mp)) as (l & Hl & Hpl).
  { rewrite Hp. left. }
  unfold unclaim_frame at 2, kernel_get_used_frame_node. rewrite Hl. simpl.
  destruct (IH (set_free (set_used mp l) (f :: free_fp_list mp)) rest) as (used' & -> & Hf).
  { simpl. rewrite Hpl in Hp. by apply (Permutation_cons_inv (a := f)). }
  exists used'. split; [|done]. rewrite reverse_cons, <- app_assoc. by destruct mp.
Qed.

(** The machine with other frame lists of RAM. *)
Definition with_lists (m : machine) (free used : list Z) : machine :=
  set_ram m (set_used (set_free (ram m) free) used).

(** Frames may move between the two lists as long as the mapped kernel frames
    stay in the used list. *)
Lemma inv_lists E F m free used :
  vm_inv E F m -> free ++ used ≡ₚ ram_lists m ->
  (forall p k x g f, has_mm m p k x -> kernel_page g ->
     decode_pte (pte_at (tables m) (krnl_pgd k) g) = Resident f -> f ∈ used) ->
  vm_inv E F (with_lists m free used).
Proof.
  intros HI Hl Hk. pose proof (vi_shape _ _ _ HI) as HS. split.
  - apply (shape_gen m); try done; try apply HS.
    + by apply keeps_procs_sim.
    + intros p k x Hp. eapply (has_mm_fifo m); [done|]. by eapply has_mm_same; [|exact Hp].
  - eapply exclusive_perm; [apply HI|]. unfold ram_lists at 1. simpl. by rewrite Hl.
  - apply HI.
Qed.

(** ** Allocating a block of frames *)

Lemma free_frames_ok E F m :
  vm_inv E F m -> NoDup (free_fp_list (ram m)) /\
  forall f, f ∈ free_fp_list (ram m) -> 0 <= f < 2 ^ 19.
Proof.
  intros HI. destruct (vi_ram _ _ _ HI) as [HN HR _ _]. unfold ram_lists in *. split.
  - apply NoDup_app in HN as (HN & _). by apply NoDup_app in HN as (HN & _).
  - intros f Hf. specialize (HR f ltac:(rewrite !elem_of_app; by auto)).
    destruct (vs_ram m (vi_shape _ _ _ HI)) as (Hm & _). unfold nframes, PAGING64_PAGESZ in HR.
    Z.div_mod_to_equations. lia.
Qed.

Lemma block_length f n l : block_in f n l -> n <= Z.of_nat (length l).
Proof.
  intros Hb. assert (Hs : seqZ f n ⊆+ l).
  { apply NoDup_submseteq; [apply NoDup_seqZ|]. intros i Hi%elem_of_seqZ. by apply Hb. }
  apply submseteq_length in Hs. rewrite length_seqZ in Hs. lia.
Qed.

Lemma sorted_frames l :
  NoDup l -> (forall f, f ∈ l -> 0 <= f < 2 ^ 19) ->
  let s := merge_sort Z.le l in
  StronglySorted Z.lt s /\ Forall (fun f => 0 <= f < 2 ^ 63) s /\ s ≡ₚ l.
Proof.
  intros HN Hr s. assert (Hp : s ≡ₚ l) by apply merge_sort_Permutation. split_and!; [| |done].
  - assert (Hs : StronglySorted Z.le s) by apply (StronglySorted_merge_sort Z.le).
    rewrite <- Hp in HN. clearbody s. clear -Hs HN.
    induction Hs as [|a s Hs IH Ha]; [constructor|]. apply NoDup_cons in HN as [Hn HN].
    constructor; [by apply IH|]. rewrite Forall_forall in Ha |- *. intros b Hb. specialize (Ha b Hb).
    destruct (decide (a = b)) as [->|]; [done|lia].
  - rewrite Hp. apply Forall_forall. intros f Hf. specialize (Hr f Hf). lia.
Qed.

Definition frames_post (m : machine) (n : Z) (o : option Z) (m' : machine) : Prop :=
  exists c, match o with
  | None => m' = set_mallocs m c /\
      (n <= 0 \/ may_oom m \/ forall f, ~ block_in f n (free_fp_list (ram m)))
  | Some f => exists free', 0 < n /\ free_fp_list (ram m) ≡ₚ seqZ f n ++ free' /\
      m' = with_lists (set_mallocs m c) free' (reverse (seqZ f n) ++ used_fp_list (ram m)) /\
      forall f', block_in f' n (free_fp_list (ram m)) -> f <= f'
  end.

Lemma set_mallocs_same m : set_mallocs m (mallocs m) = m.
Proof. by destruct m. Qed.

Lemma alloc_frames_spec E F m p k x n :
  vm_inv E F m -> has_mm m p k x ->
  wp (kernel_allocate_contiguous_frames p n) (frames_post m n) m.
Proof.
  intros HI Hp. destruct (has_mm_flags _ _ _ _ (vi_shape _ _ _ HI) Hp) as [Hr _].
  destruct (free_frames_ok _ _ _ HI) as [HN Hrange].
  unfold kernel_allocate_contiguous_frames. apply wp_bind.
  eapply wp_eq; [apply get_krnl_ok; apply Hp|]. cbv beta iota. rewrite Hr. cbn [negb].
  assert (Hm : set_mallocs m (mallocs m) = m) by apply set_mallocs_same.
  case_bool_decide as Hn; [apply wp_ret; exists (mallocs m); by auto|].
  apply wp_bind. eapply wp_eq; [reflexivity|]. cbv beta zeta.
  case_bool_decide as Hlen.
  { apply wp_ret. exists (mallocs m). split; [done|]. right. right.
    intros f Hb%block_length. lia. }
  unfold malloc. apply wp_bind. unfold wp at 1.
  destruct (oom m (mallocs m)) eqn:Ho; cbn [negb].
  { eexists. split; [reflexivity|]. right. left. by exists (mallocs m). }
  destruct (sorted_frames _ HN Hrange) as (Hs & HF & Hperm). set (l := merge_sort Z.le _) in *.
  assert (Hll : length l = length (free_fp_list (ram m))) by (by apply Permutation_length).
  pose proof (select_start_spec n l ltac:(lia) Hs HF) as Hsel.
  destruct (select_start n l) as [s|].
  2:{ apply wp_ret. eexists. split; [reflexivity|]. right. right. intros f Hb. apply (Hsel f).
      intros i Hi. rewrite Hperm. by apply Hb. }
  destruct Hsel as (f & l1 & l2 & Hl & -> & Hlow). rewrite Hl, Nat2Z.id, drop_app_length.
  rewrite take_app_le by (rewrite length_seqZ; lia).
  rewrite take_ge by (rewrite length_seqZ; lia).
  destruct (seqZ f n) as [|f0 b] eqn:Hb; [rewrite seqZ_cons in Hb by lia; done|].
  assert (f0 = f) as -> by (rewrite seqZ_cons in Hb by lia; congruence). rewrite <- Hb.
  unfold on_ram. apply wp_bind. unfold wp at 1, modify. cbn [ram set_mallocs].
  destruct (claim_frames_spec (seqZ f n) (ram m) (l1 ++ l2)) as (free' & -> & Hfree).
  { rewrite <- Hperm, Hl, Hb. rewrite !app_assoc. apply Permutation_app_tail, Permutation_app_comm. }
  apply wp_ret. eexists. exists free'. split_and!; [lia| |reflexivity|].
  - rewrite Hfree, <- Hperm, Hl, Hb, !app_assoc. apply Permutation_app_tail, Permutation_app_comm.
  - intros f' Hb'. apply Hlow. intros i Hi. rewrite Hperm. by apply Hb'.
Qed.

(** ** The kernel page table *)

Section ktable.
Context (R : Z -> Prop) (m : machine) (p : Z) (k : krnl_t) (x : mm_struct).
Context (HF : forest R (tables m) (next_table m)) (Hp : has_mm m p k x) (HR : R (krnl_pgd k)).

Lemma kernel_walk_spec a create :
  is_u64 a -> canonical a ->
  wp (kernel_walk_pte p a create) (fun o m' =>
    pt_step R m m' /\ (create = false -> tables m' = tables m) /\
    match o with
    | Some (t, i) => reach (tables m') (krnl_pgd k) (page_path (addr_pgn a)) = Some t /\
                     i = page_index (addr_pgn a)
    | None => reach (tables m) (krnl_pgd k) (page_path (addr_pgn a)) = None /\
              (create = true -> may_oom m)
    end) m.
Proof using HF Hp HR.
  intros Ha Hc. unfold kernel_walk_pte, page_path, page_index. rewrite get_pd_page by done.
  apply wp_bind. eapply wp_eq; [apply get_krnl_ok; apply Hp|]. cbv beta iota.
  pose proof (proj2 (get_pd_ok a Ha) Hc) as Hst. pose proof (get_pd_ix_range a) as (H1 & H2 & H3 & H4 & H5).
  destruct (get_pd_from_address a) as [st ix]. cbn [fst snd] in *. subst st.
  rewrite bool_decide_false by naive_solver.
  destruct (forest_alloc _ _ _ HF _ [] _ HR ltac:(simpl; lia) eq_refl) as [Hr0 _].
  rewrite bool_decide_false by lia. apply wp_bind. apply wp_ret. set (r := krnl_pgd k) in *.
  assert (W : walked R m m create r [] r).
  { split; [by apply pt_step_refl|]. split; [done|]. split; [done|]. lia. }
  eapply (if_ptr_wp R m _ _ _ [] [pgd_ix ix; p4d_ix ix; pud_ix ix; pmd_ix ix]); [done|by intuition|].
  intros Hr. eapply walk_next; [done|done|done|simpl; lia|done|]. intros q1 m1 W1.
  eapply (if_ptr_wp R m _ _ _ _ [p4d_ix ix; pud_ix ix; pmd_ix ix]); [done|by intuition|].
  intros Hq1. eapply walk_next; [done|done|done|simpl; lia|done|]. intros q2 m2 W2.
  eapply (if_ptr_wp R m _ _ _ _ [pud_ix ix; pmd_ix ix]); [done|by intuition|].
  intros Hq2. eapply walk_next; [done|done|done|simpl; lia|done|]. intros q3 m3 W3.
  eapply (if_ptr_wp R m _ _ _ _ [pmd_ix ix]); [done|by intuition|].
  intros Hq3. eapply walk_next; [done|done|done|simpl; lia|done|]. intros q4 m4 W4.
  eapply (if_ptr_wp R m _ _ _ _ []); [done|by intuition|].
  intros Hq4. eapply walk_note; [done|]. clear W4. intros m4' (Hs & Hcr & Hq & _).
  apply wp_ret. split_and!; try done. by apply Hq.
Qed.

Lemma kernel_pte_fpn f : kernel_pte f = fpn_pte f.
Proof. reflexivity. Qed.

Lemma kernel_map_spec a f :
  is_u64 a -> canonical a -> page_ok (addr_pgn a) ->
  wp (kernel_map_page p a f) (fun s m' =>
    (s = 0 /\ pt_upd R (krnl_pgd k) (addr_pgn a) (fpn_pte f) m m') \/
    (s = -1 /\ may_oom m /\ pt_step R m m')) m.
Proof using HF Hp HR.
  intros Ha Hc Hg. unfold kernel_map_page. rewrite kernel_pte_fpn. apply wp_bind.
  eapply wp_mono; [by apply kernel_walk_spec|]. intros o m1 (Hs & _ & Ho).
  unfold wp. rewrite store_twice. fold (wp (match o with None => ret (-1) | Some (t, i) =>
    tbl_write t i (fpn_pte f) ;; ret 0 end) (fun s m' =>
    (s = 0 /\ pt_upd R (krnl_pgd k) (addr_pgn a) (fpn_pte f) m m') \/
    (s = -1 /\ may_oom m /\ pt_step R m m')) m1).
  destruct o as [[t i]|]; [|apply wp_ret; right; naive_solver].
  destruct Ho as [Ho ->]. apply wp_bind. eapply wp_mono; [by eapply (pte_write_spec R m m1 (krnl_pgd k))|].
  intros [] m2 Hu. apply wp_ret. by left.
Qed.

(** Clearing the entry of a page, if it has a table. *)
Lemma kernel_clear_spec a :
  is_u64 a -> canonical a -> page_ok (addr_pgn a) ->
  wp (let* pte := kernel_walk_pte p a false in
      match pte with None => ret 0 | Some (t, i) => tbl_write t i 0 ;; ret 0 end)
    (fun s m' => s = 0 /\ pt_upd R (krnl_pgd k) (addr_pgn a) 0 m m') m.
Proof using HF Hp HR.
  intros Ha Hc Hg. apply wp_bind. eapply wp_mono; [by apply kernel_walk_spec|].
  intros o m1 (Hs & Ht & Ho). destruct o as [[t i]|].
  - destruct Ho as [Ho ->]. apply wp_bind. eapply wp_mono; [by eapply (pte_write_spec R m m1 (krnl_pgd k))|].
    intros [] m2 Hu. by apply wp_ret.
  - apply wp_ret. split; [done|]. destruct Ho as [Hno _]. destruct Hs as (S1 & S2 & S3 & S4).
    split_and!; try done. intros r' g' Hr' Hg'. rewrite S4 by done. case_bool_decide as He; [|done].
    destruct He as [-> ->]. unfold pte_at. by rewrite Hno.
Qed.

Lemma kernel_translate_spec a :
  is_u64 a -> canonical a ->
  wp (kernel_translate_vaddr p a) (fun o m' => pt_step R m m' /\
    o = match decode_pte (pte_at (tables m) (krnl_pgd k) (addr_pgn a)) with
        | Resident f => Some (u64 (f * PAGING64_PAGESZ + Z.land a PAGING64_ADDR_OFFST_MASK))
        | _ => None
        end) m.
Proof using HF Hp HR.
  intros Ha Hc. unfold kernel_translate_vaddr. apply wp_bind.
  eapply wp_mono; [by apply kernel_walk_spec|]. intros o m1 (Hs & Ht & Ho).
  specialize (Ht eq_refl). rewrite Ht in Ho. unfold pte_at. destruct o as [[t i]|].
  - destruct Ho as [Ho ->]. destruct (forest_alloc _ _ _ HF _ _ _ HR (page_path_le _) Ho) as [_ [b Hb]].
    pose proof (get_pd_ix_range (pgn_addr (addr_pgn a))) as (_ & _ & _ & _ & H5).
    apply wp_bind. eapply wp_eq; [eapply tbl_read_ok; [by rewrite Ht|done]|]. rewrite Ho, Ht.
    unfold decode_pte. destruct (PAGING64_PAGE_PRESENT _); [by apply wp_ret|].
    apply wp_ret. split; [done|]. by destruct (PAGING64_PAGE_SWAPPED _).
  - apply wp_ret. destruct Ho as [-> _]. by rewrite decode_zero.
Qed.
End ktable.

(** ** Runs of kernel pages *)

(** The first page of the direct map. *)
Definition KPAGE : Z := KMEM_VADDR_BASE / PAGING64_PAGESZ.

(** Entries of a run of pages under one root given by [w], the rest kept. *)
Definition pt_map (R : Z -> Prop) (r base n : Z) (w : Z -> Z) (m m' : machine) : Prop :=
  same_rest m m' /\ forest R (tables m') (next_table m') /\ paths_kept R m m' /\
  forall r' g', R r' -> page_ok g' -> pte_at (tables m') r' g' =
    if bool_decide (r' = r /\ base <= g' < base + n) then w g' else pte_at (tables m) r' g'.

Lemma pt_map_nil R r base w m :
  forest R (tables m) (next_table m) -> pt_map R r base 0 w m m.
Proof.
  intros HF. split_and!; [done|done|by intros ???|]. intros r' g' _ _.
  rewrite bool_decide_false; [done|]. lia.
Qed.

Lemma pt_map_snoc R r base n w m1 m2 m3 :
  0 <= n -> pt_map R r base n w m1 m2 -> pt_upd R r (base + n) (w (base + n)) m2 m3 ->
  pt_map R r base (n + 1) w m1 m3.
Proof.
  intros Hn (S1 & _ & K1 & H1) (S2 & F2 & K2 & H2).
  split_and!; [by eapply same_rest_trans|done|by eapply paths_kept_trans|].
  intros r' g' Hr Hg. rewrite H2, H1 by done. repeat case_bool_decide; try done; try lia.
  by replace g' with (base + n) by lia.
Qed.

Lemma pt_map_step R r base n w m1 m2 m3 :
  pt_map R r base n w m1 m2 -> pt_step R m2 m3 -> pt_map R r base n w m1 m3.
Proof.
  intros (S1 & _ & K1 & H1) (S2 & F2 & K2 & H2).
  split_and!; [by eapply same_rest_trans|done|by eapply paths_kept_trans|].
  intros r' g' Hr Hg. by rewrite H2, H1.
Qed.

Lemma pt_map_trans R r base n i w w' m1 m2 m3 :
  i <= n -> pt_map R r base i w m1 m2 -> pt_map R r base n w' m2 m3 -> pt_map R r base n w' m1 m3.
Proof.
  intros Hi (S1 & _ & K1 & H1) (S2 & F2 & K2 & H2).
  split_and!; [by eapply same_rest_trans|done|by eapply paths_kept_trans|].
  intros r' g' Hr Hg. rewrite H2, H1 by done. repeat case_bool_decide; try done; lia.
Qed.

(** The address of a page of the direct map. *)
Lemma kaddr_page f i :
  0 <= f -> 0 <= i -> f + i < 2 ^ 19 ->
  let a := u64 (kernel_vaddr_from_fpn f + i * PAGING64_PAGESZ) in
  a = KMEM_VADDR_BASE + (f + i) * 4096 /\ is_u64 a /\ canonical a /\
  addr_pgn a = KPAGE + f + i /\ kernel_page (KPAGE + f + i).
Proof.
  intros Hf Hi Hlt. unfold kernel_vaddr_from_fpn, KPAGE, KMEM_VADDR_BASE, PAGING64_PAGESZ. cbv zeta.
  rewrite (u64_small (_ + f * 4096)) by (unfold is_u64; lia).
  rewrite u64_small by (unfold is_u64; lia). split_and!.
  - lia.
  - unfold is_u64. lia.
  - right. unfold kernel_addr. lia.
  - rewrite addr_pgn_div. change (0xffff800000000000 / 4096) with 0xffff800000000. Z.div_mod_to_equations. lia.
  - unfold kernel_page. change (0xffff800000000000 / 4096) with 0xffff800000000. lia.
Qed.

Lemma int_mul_page i m : 0 <= i < 2 ^ 19 -> int_mul i PAGING64_PAGESZ m = Ret (i * PAGING64_PAGESZ) m.
Proof. intros Hi. unfold int_mul, PAGING64_PAGESZ. by rewrite bool_decide_true by lia. Qed.

(** The mapping loop. *)
Lemma map_block_spec R m p k x f n :
  forest R (tables m) (next_table m) -> has_mm m p k x -> R (krnl_pgd k) ->
  0 <= f -> 0 < n -> f + n <= 2 ^ 19 ->
  wp (for_each (fun page =>
        let* b := int_mul page PAGING64_PAGESZ in
        let* r := kernel_map_page p (u64 (kernel_vaddr_from_fpn f + b)) (u64 (f + page)) in
        ret (if bool_decide (r <> 0) then -1 else 0)) (seqZ 0 n))
    (fun r m' => let w g := fpn_pte (g - KPAGE) in
       (r = 0 /\ pt_map R (krnl_pgd k) (KPAGE + f) n w m m') \/
       (r <> 0 /\ may_oom m /\ exists i, 0 <= i < n /\ pt_map R (krnl_pgd k) (KPAGE + f) i w m m')) m.
Proof.
  intros HF Hp HR Hf Hn Hlt. set (w := fun g => fpn_pte (g - KPAGE)).
  apply (wp_for_each _ (fun xs m' => pt_map R (krnl_pgd k) (KPAGE + f) (Z.of_nat (length xs)) w m m')).
  - by apply pt_map_nil.
  - intros xs i ys m1 Hl H1. destruct (seqZ_split _ _ _ _ Hl) as [Hi Hin]. pose proof H1 as (S1 & F1 & _ & _).
    apply wp_bind. eapply wp_eq; [apply int_mul_page; lia|]. cbv beta.
    destruct (kaddr_page f i) as (_ & Ha & Hc & Hg & Hk); [lia..|]. apply wp_bind. eapply wp_mono.
    { apply (kernel_map_spec R m1 p k x F1); [eapply has_mm_same; [apply S1|done]|done|done|done|].
      rewrite Hg. by right. }
    rewrite Hg. intros s m2 [[-> Hu]|(-> & Ho & Hs)]; apply wp_ret; simpl.
    + rewrite length_app. simpl. rewrite Nat2Z.inj_add. eapply pt_map_snoc; [lia|exact H1|].
      rewrite <- Hi. replace (w (KPAGE + f + i)) with (fpn_pte (u64 (f + i))); [done|].
      unfold w. rewrite u64_small by (unfold is_u64; lia). f_equal. lia.
    + right. split; [done|]. split.
      * destruct Ho as [c Hc']. exists c. by destruct S1 as (_ & _ & _ & _ & <-).
      * exists (Z.of_nat (length xs)). split; [lia|]. by eapply pt_map_step.
  - intros m1 H1. left. split; [done|]. rewrite length_seqZ, Z2Nat.id in H1 by lia. done.
Qed.

(** Any address of kernel memory, and the pages from there on. *)
Definition kmem_run (base n : Z) : Prop :=
  KMEM_VADDR_BASE <= base /\ base + n * 4096 <= KMEM_VADDR_BASE + 2 ^ 34.

Lemma kmem_run_page base n i :
  kmem_run base n -> 0 <= i < n ->
  let a := u64 (base + i * PAGING64_PAGESZ) in
  let g := KPAGE + (base - KMEM_VADDR_BASE) / 4096 + i in
  is_u64 a /\ canonical a /\ addr_pgn a = g /\ kernel_page g.
Proof.
  unfold kmem_run, KPAGE, KMEM_VADDR_BASE, PAGING64_PAGESZ. intros [H1 H2] Hi. cbv zeta.
  rewrite u64_small by (unfold is_u64; lia). change (0xffff800000000000 / 4096) with 0xffff800000000. split_and!.
  - unfold is_u64. lia.
  - right. unfold kernel_addr. lia.
  - rewrite addr_pgn_div. Z.div_mod_to_equations. lia.
  - unfold kernel_page. Z.div_mod_to_equations. lia.
Qed.

(** The clearing loop. *)
Lemma clear_block_spec R m p k x base n :
  forest R (tables m) (next_table m) -> has_mm m p k x -> R (krnl_pgd k) ->
  kmem_run base n -> 0 < n <= 2 ^ 19 ->
  wp (for_each (fun page =>
        let* b := int_mul page PAGING64_PAGESZ in
        let* pte := kernel_walk_pte p (u64 (base + b)) false in
        match pte with None => ret 0 | Some (t, i) => tbl_write t i 0 ;; ret 0 end) (seqZ 0 n))
    (fun r m' => pt_map R (krnl_pgd k) (KPAGE + (base - KMEM_VADDR_BASE) / 4096) n (fun _ => 0) m m') m.
Proof.
  intros HF Hp HR Hrun Hn. set (f := (base - KMEM_VADDR_BASE) / 4096).
  apply (wp_for_each _ (fun xs m' => pt_map R (krnl_pgd k) (KPAGE + f) (Z.of_nat (length xs)) (fun _ => 0) m m')).
  - by apply pt_map_nil.
  - intros xs i ys m1 Hl H1. destruct (seqZ_split _ _ _ _ Hl) as [Hi Hin]. pose proof H1 as (S1 & F1 & _ & _).
    apply wp_bind. eapply wp_eq; [apply int_mul_page; lia|]. cbv beta.
    destruct (kmem_run_page base n i Hrun) as (Ha & Hc & Hg & Hk); [lia..|]. fold f in Hg, Hk. eapply wp_mono.
    { apply (kernel_clear_spec R m1 p k x F1); [eapply has_mm_same; [apply S1|done]|done|done|done|].
      rewrite Hg. by right. }
    rewrite Hg. intros s m2 [-> Hu]. simpl. rewrite length_app. simpl. rewrite Nat2Z.inj_add.
    eapply pt_map_snoc; [lia|exact H1|]. by rewrite <- Hi.
  - intros m1 H1. rewrite length_seqZ, Z2Nat.id in H1 by lia. done.
Qed.

(** ** The kernel invariant *)

(** The entry of a kernel page, decoded; all processes share the table. *)
Definition kpage (m : machine) (p g : Z) : pte_state :=
  match krnl_of m p with
  | Some k => decode_pte (pte_at (tables m) (krnl_pgd k) g)
  | None => Unmapped
  end.

(** Every mapped kernel page is the page of its frame in the direct map. *)
Definition kmap_direct (m : machine) : Prop :=
  forall p g f, valid m p -> kernel_page g -> kpage m p g = Resident f -> g = KPAGE + f.

Definition kinv (E F : list Z) (m : machine) : Prop := vm_inv E F m /\ kmap_direct m.

(** The byte at a kernel address. *)
Definition kbyte (m : machine) (p a : Z) : option Z :=
  match kpage m p (addr_pgn a) with
  | Resident f => Some (cell (ram m) (f * PAGING64_PAGESZ + a mod PAGING64_PAGESZ))
  | _ => None
  end.

Lemma kpage_mm m p k x g :
  has_mm m p k x -> kpage m p g = decode_pte (pte_at (tables m) (krnl_pgd k) g).
Proof. intros (_ & Hk & _). unfold kpage. by rewrite Hk. Qed.

(** What kernel allocation leaves alone: processes, scheduler, swap, the
    contents of RAM, user pages. *)
Definition kstep (m m' : machine) : Prop :=
  procs m' = procs m /\ sch m' = sch m /\ oom m' = oom m /\ swp m' = swp m /\
  (exists free used, ram m' = set_used (set_free (ram m) free) used) /\
  forall q g, user_page g -> page_state m' q g = page_state m q g.

Lemma kstep_trans m1 m2 m3 : kstep m1 m2 -> kstep m2 m3 -> kstep m1 m3.
Proof.
  intros (P1 & S1 & O1 & W1 & (f1 & u1 & R1) & G1) (P2 & S2 & O2 & W2 & (f2 & u2 & R2) & G2).
  split_and!; try congruence.
  - exists f2, u2. rewrite R2, R1. done.
  - intros q g Hg. by rewrite G2, G1.
Qed.

Lemma kstep_mallocs m c : kstep m (set_mallocs m c).
Proof.
  split_and!; try done. exists (free_fp_list (ram m)), (used_fp_list (ram m)). simpl. by destruct (ram m).
Qed.

Lemma kstep_lists m free used : kstep m (with_lists m free used).
Proof. split_and!; try done. by eexists _, _. Qed.

Lemma kstep_bytes m m' : kstep m m' -> keeps_bytes m m'.
Proof.
  intros (_ & _ & _ & W & (free & used & R) & G). apply keeps_bytes_pages. intros q g i Hg _.
  rewrite G by done. unfold page_byte. by rewrite W, R.
Qed.

Lemma kstep_mm m m' p k x : kstep m m' -> has_mm m p k x -> has_mm m' p k x.
Proof. intros (P & _). by apply has_mm_same. Qed.

Lemma kstep_mm_back m m' p k x : kstep m m' -> has_mm m' p k x -> has_mm m p k x.
Proof. intros (P & _). by apply has_mm_same. Qed.

(** Kernel entries rewritten: the invariant of memory is kept when the new
    entries point to used frames. *)
Lemma pt_map_inv E F m m' p k x base n w :
  vm_inv E F m -> has_mm m p k x -> pt_map (roots m) (krnl_pgd k) base n w m m' ->
  (forall g, base <= g < base + n -> kernel_page g) ->
  (forall g f, base <= g < base + n -> decode_pte (w g) = Resident f -> f ∈ used_fp_list (ram m)) ->
  vm_inv E F m' /\ kstep m m' /\
  forall q g, valid m q -> kernel_page g ->
    kpage m' q g = if bool_decide (base <= g < base + n) then decode_pte (w g) else kpage m q g.
Proof.
  intros HI Hp ((Ep & Er & Es & Ec & Eo) & HF & _ & Hpte) Hk Hw. pose proof (vi_shape _ _ _ HI) as HS.
  assert (Hps : forall q g, user_page g -> page_state m' q g = page_state m q g).
  { intros q g Hg. unfold page_state, mm_of. rewrite Ep. fold (mm_of m q).
    destruct (mm_of m q) as [y|] eqn:Hy; [|done]. destruct (mm_of_inv m q y HS Hy) as [kq Hq].
    rewrite Hpte; [|eauto with ossim|by left]. rewrite bool_decide_false; [done|]. intros [He _].
    by destruct (vs_kpgd m HS _ _ _ _ _ _ Hq Hp) as [_ []]. }
  assert (Hkp : forall q kq xq g, has_mm m q kq xq -> kernel_page g ->
            pte_at (tables m') (krnl_pgd kq) g =
            if bool_decide (base <= g < base + n) then w g else pte_at (tables m) (krnl_pgd kq) g).
  { intros q kq xq g Hq Hg. rewrite Hpte; [|eauto with ossim|by right].
    destruct (vs_kpgd m HS _ _ _ _ _ _ Hq Hp) as [Eq _]. repeat case_bool_decide; try done; naive_solver. }
  split_and!.
  - eapply inv_same_pages; [done| |unfold ram_lists, swp_lists; by rewrite ?Er, ?Es..|done].
    apply (shape_gen m); rewrite ?Er, ?Es; try done; try apply HS.
    + apply keeps_procs_sim. unfold keeps_procs. by rewrite Ep, Er, Es, Ec, Eo.
    + intros q kq xq Hq. eapply (has_mm_fifo m); [done|]. eapply has_mm_same; [|exact Hq]. done.
    + intros q kq xq g f Hq Hg. rewrite (Hkp q kq xq) by done. case_bool_decide as Hb.
      * by apply Hw.
      * by apply (vs_kern m HS q kq xq).
    + intros q kq xq g Hq Hg. rewrite Hpte by eauto with ossim. rewrite bool_decide_false; [by apply (vs_user m HS q kq xq)|].
      intros [He _]. by destruct (vs_kpgd m HS _ _ _ _ _ _ Hq Hp) as [_ []].
  - split_and!; try done. exists (free_fp_list (ram m)), (used_fp_list (ram m)). rewrite Er. by destruct (ram m).
  - intros q g (kq & xq & Hq) Hg. assert (Hq' : has_mm m' q kq xq) by (by eapply has_mm_same).
    rewrite (kpage_mm m' q kq xq), (kpage_mm m q kq xq), (Hkp q kq xq) by done. by case_bool_decide.
Qed.

Lemma block_frames f n :
  0 <= f -> f + n <= 2 ^ 22 -> (fun page => u64 (f + page)) <$> seqZ 0 n = seqZ f n.
Proof.
  intros Hf Hn. transitivity (Z.add f <$> seqZ 0 n).
  - apply list_fmap_ext. intros i y [-> Hi]%lookup_seqZ. rewrite u64_small; [done|]. unfold is_u64. lia.
  - rewrite fmap_add_seqZ. by rewrite Z.add_0_r.
Qed.

Lemma valid_kstep m m' q : kstep m m' -> valid m' q <-> valid m q.
Proof.
  intros HS. split; intros (k & x & H); exists k, x; [by eapply kstep_mm_back|by eapply kstep_mm].
Qed.

Lemma kpage_lists m free used q g : kpage (with_lists m free used) q g = kpage m q g.
Proof. done. Qed.

Lemma vaddr_val f : 0 <= f < 2 ^ 19 -> kernel_vaddr_from_fpn f = KMEM_VADDR_BASE + f * 4096.
Proof.
  intros Hf. unfold kernel_vaddr_from_fpn, PAGING64_PAGESZ. apply u64_small. unfold is_u64, KMEM_VADDR_BASE. lia.
Qed.

(** Clearing the entries of a run of pages and taking its frames off the used
    list, whatever that does to the lists. *)
Section release.
Context (E F : list Z) (m : machine) (p : Z) (k : krnl_t) (x : mm_struct) (base n : Z).
Context (HKI : kinv E F m) (Hp : has_mm m p k x) (Hrun : kmem_run base n) (Hn : 0 < n <= 2 ^ 19).
Notation f := ((base - KMEM_VADDR_BASE) / 4096).
Context (free used : list Z).
Context (Hun : foldl unclaim_frame (ram m) (seqZ f n) = set_free (set_used (ram m) used) free).
Context (Hperm : free ++ used ≡ₚ ram_lists m).
Context (Hkept : forall f', f' ∈ used_fp_list (ram m) -> ~ f <= f' < f + n -> f' ∈ used).

Lemma release_run :
  wp (kernel_release_contiguous_region p base n) (fun _ m' =>
    kinv E F m' /\ kstep m m' /\ free_fp_list (ram m') = free /\ used_fp_list (ram m') = used /\
    forall q g, valid m q -> kernel_page g ->
      kpage m' q g = if bool_decide (KPAGE + f <= g < KPAGE + f + n) then Unmapped else kpage m q g) m.
Proof using All.
  destruct HKI as [HI HD]. destruct (has_mm_flags _ _ _ _ (vi_shape _ _ _ HI) Hp) as [Hr _].
  unfold kernel_release_contiguous_region. apply wp_bind.
  eapply wp_eq; [apply get_krnl_ok; apply Hp|]. cbv beta iota. rewrite Hr, bool_decide_false by lia. cbn [negb orb].
  apply wp_bind. eapply wp_mono.
  { apply (clear_block_spec (roots m) m p k x base n); try done; [apply HI|eauto with ossim]. }
  intros s m1 Hmap.
  assert (Hfn : kernel_fpn_from_vaddr base = f /\ 0 <= f /\ f + n <= 2 ^ 22).
  { unfold kernel_fpn_from_vaddr, kmem_run, KMEM_VADDR_BASE, PAGING64_PAGESZ in *.
    rewrite u64_small by (unfold is_u64; lia). Z.div_mod_to_equations. lia. }
  destruct Hfn as (-> & Hf0 & Hfn). rewrite block_frames by lia.
  destruct (pt_map_inv E F m m1 p k x _ _ _ HI Hp Hmap) as (HI1 & HK1 & Hkp).
  { intros g Hg. unfold KPAGE, KMEM_VADDR_BASE, PAGING64_PAGESZ, kernel_page in *.
    change (0xffff800000000000 / 4096) with 0xffff800000000 in *. lia. }
  { intros g f' _. by rewrite decode_zero. }
  assert (Er : ram m1 = ram m) by (by destruct Hmap as ((_ & ? & _) & _)).
  unfold wp, on_ram, modify. rewrite Er, Hun.
  assert (set_ram m1 (set_free (set_used (ram m) used) free) = with_lists m1 free used) as ->
    by (unfold with_lists; rewrite Er; by destruct (ram m)).
  set (m2 := with_lists m1 _ _).
  assert (HK2 : kstep m m2) by (eapply kstep_trans; [exact HK1|apply kstep_lists]).
  assert (Hkp2 : forall q g, valid m q -> kernel_page g -> kpage m2 q g =
    if bool_decide (KPAGE + f <= g < KPAGE + f + n) then Unmapped else kpage m q g).
  { intros q g Hq Hg. unfold m2. rewrite kpage_lists, Hkp, decode_zero by done. done. }
  assert (HD2 : kmap_direct m2).
  { intros q g f' Hq Hg. rewrite Hkp2; [|by apply (valid_kstep m m2)|done]. case_bool_decide; [done|].
    apply HD; [by apply (valid_kstep m m2)|done]. }
  split_and!; try done. split; [|done]. apply inv_lists; [done|unfold ram_lists in *; by rewrite Er|].
  intros q kq xq g f' Hq Hg. rewrite <- (kpage_mm m1 q kq xq) by done.
  assert (Hq0 : has_mm m q kq xq) by (by eapply kstep_mm_back).
  rewrite Hkp by (done || by exists kq, xq). rewrite decode_zero. case_bool_decide as Hb; [done|]. intros Hres.
  pose proof (HD q g f' ltac:(by exists kq, xq) Hg Hres) as Hgf. rewrite (kpage_mm m q kq xq) in Hres by done.
  apply Hkept; [by apply (vs_kern m (vi_shape _ _ _ HI) q kq xq g f' Hq0 Hg Hres)|lia].
Qed.
End release.

(** Giving a block of frames back. *)
Lemma release_spec E F m p k x f n used0 :
  kinv E F m -> has_mm m p k x -> 0 <= f -> 0 < n -> f + n <= 2 ^ 19 ->
  used_fp_list (ram m) ≡ₚ seqZ f n ++ used0 ->
  wp (kernel_release_contiguous_region p (kernel_vaddr_from_fpn f) n) (fun _ m' =>
    kinv E F m' /\ kstep m m' /\ free_fp_list (ram m') = reverse (seqZ f n) ++ free_fp_list (ram m) /\
    used_fp_list (ram m') ≡ₚ used0 /\
    forall q g, valid m q -> kernel_page g ->
      kpage m' q g = if bool_decide (KPAGE + f <= g < KPAGE + f + n) then Unmapped else kpage m q g) m.
Proof.
  intros HKI Hp Hf Hn Hlt Hu. rewrite vaddr_val by lia.
  assert (Ef : (KMEM_VADDR_BASE + f * 4096 - KMEM_VADDR_BASE) / 4096 = f)
    by (rewrite Z.add_simpl_l; by apply Z.div_mul).
  destruct (unclaim_frames_spec (seqZ f n) (ram m) used0 Hu) as (used' & Hun & Hused).
  eapply wp_mono.
  { apply (release_run E F m p k x (KMEM_VADDR_BASE + f * 4096) n HKI Hp ltac:(unfold kmem_run; lia) ltac:(lia)
      (reverse (seqZ f n) ++ free_fp_list (ram m)) used'); rewrite ?Ef.
    - exact Hun.
    - unfold ram_lists. rewrite Hu, Hused, reverse_Permutation, app_assoc.
      apply Permutation_app_tail, Permutation_app_comm.
    - intros f' Hin Hout. rewrite Hused. rewrite Hu in Hin. apply elem_of_app in Hin as [Hin|Hin]; [|done].
      apply elem_of_seqZ in Hin. lia. }
  rewrite Ef. intros [] m' (H1 & H2 & H3 & H4 & H5). by rewrite H4.
Qed.

Lemma unlink_none f l : unlink f l = None -> f ∉ l.
Proof.
  intros Hn Hf. destruct (unlink_perm f l Hf) as (l' & E & _). congruence.
Qed.

(** Frames that are not on the used list are left alone. *)
Lemma unclaim_any block : forall mp, NoDup (used_fp_list mp) ->
  exists free used, foldl unclaim_frame mp block = set_free (set_used mp used) free /\
    free ++ used ≡ₚ free_fp_list mp ++ used_fp_list mp /\
    forall f, f ∈ used <-> f ∈ used_fp_list mp /\ f ∉ block.
Proof.
  induction block as [|b block IH]; intros mp HN; cbn [foldl].
  { exists (free_fp_list mp), (used_fp_list mp). split; [by destruct mp|]. split; [done|].
    intros f. pose proof (not_elem_of_nil f). tauto. }
  unfold unclaim_frame at 2, kernel_get_used_frame_node. destruct (unlink b (used_fp_list mp)) as [l|] eqn:El; cbn [fmap option_fmap option_map].
  - assert (Hb : b ∈ used_fp_list mp).
    { destruct (decide (b ∈ used_fp_list mp)) as [Hb|Hb]; [done|]. exfalso. clear IH HN. revert l El.
      induction (used_fp_list mp) as [|a u IHu]; intros l El; [done|]. simpl in El. apply not_elem_of_cons in Hb as [Hab Hb].
      rewrite bool_decide_false in El by done. destruct (unlink b u) as [l'|]; [|done]. by eapply IHu. }
    destruct (unlink_perm b _ Hb) as (l' & El' & Hp). assert (l' = l) as -> by congruence. rewrite Hp in HN.
    apply NoDup_cons in HN as [Hbl HN]. cbn [set_used set_free used_fp_list free_fp_list].
    destruct (IH (set_free (set_used mp l) (b :: free_fp_list mp)) HN) as (free & used & E & Hperm & Hin).
    exists free, used. split; [rewrite E; by destruct mp|]. split.
    + rewrite Hperm. cbn [set_free set_used free_fp_list used_fp_list]. rewrite Hp. simpl. apply Permutation_middle.
    + intros f. rewrite Hin. cbn [set_free set_used free_fp_list used_fp_list]. rewrite Hp, !elem_of_cons.
      destruct (decide (f = b)) as [->|]; tauto.
  - destruct (IH mp HN) as (free & used & E & Hperm & Hin). exists free, used. split; [done|]. split; [done|].
    intros f. rewrite Hin, elem_of_cons. pose proof (unlink_none b _ El). destruct (decide (f = b)) as [->|]; tauto.
Qed.

(** Giving up a run of pages that may hold anything: its frames leave the used
    list, no entry for them is left, and nothing else changes. *)
Lemma release_any_spec E F m p k x base n :
  kinv E F m -> has_mm m p k x -> kmem_run base n -> 0 < n <= 2 ^ 19 ->
  let f := (base - KMEM_VADDR_BASE) / 4096 in
  wp (kernel_release_contiguous_region p base n) (fun _ m' =>
    kinv E F m' /\ kstep m m' /\
    forall f', f' ∈ used_fp_list (ram m') <-> f' ∈ used_fp_list (ram m) /\ ~ f <= f' < f + n) m.
Proof.
  intros HKI Hp Hrun Hn f. pose proof (ex_nodup _ _ _ (vi_ram _ _ _ (proj1 HKI))) as HN. unfold ram_lists in HN.
  apply NoDup_app in HN as (HN & _). apply NoDup_app in HN as (_ & _ & HN).
  destruct (unclaim_any (seqZ f n) (ram m) HN) as (free & used & Eu & Hperm & Hin).
  assert (Hin' : forall f', f' ∈ used <-> f' ∈ used_fp_list (ram m) /\ ~ f <= f' < f + n)
    by (intros f'; rewrite Hin, elem_of_seqZ; tauto).
  eapply wp_mono.
  { apply (release_run E F m p k x base n HKI Hp Hrun Hn free used Eu); [done|]. intros f' H1 H2. by apply Hin'. }
  intros [] m' (H1 & H2 & _ & H4 & _). rewrite H4. done.
Qed.

(** ** Allocating a region of kernel memory *)

Lemma align_kpages size :
  0 < size < 2 ^ 32 ->
  PAGING64_PAGE_ALIGNSZ size = pages_for size * 4096 /\ 0 < pages_for size /\
  size <= pages_for size * 4096 /\ i32 (PAGING64_PAGE_ALIGNSZ size / PAGING64_PAGESZ) = pages_for size.
Proof.
  intros Hs. unfold pages_for, PAGING64_PAGESZ.
  assert (PAGING64_PAGE_ALIGNSZ size = (size + 4095) / 4096 * 4096) as ->.
  { rewrite PAGE_ALIGNSZ_spec by lia. done. }
  rewrite Z.div_mul by done. split_and!; try done; try (Z.div_mod_to_equations; lia).
  apply i32_small. Z.div_mod_to_equations; lia.
Qed.

(** A region of [n] pages whose frames, from [f] on, are the lowest free block. *)
Definition region_at (m : machine) (f n : Z) (m' : machine) : Prop :=
  0 <= f /\ f + n <= 2 ^ 19 /\
  free_fp_list (ram m) ≡ₚ seqZ f n ++ free_fp_list (ram m') /\
  used_fp_list (ram m') = reverse (seqZ f n) ++ used_fp_list (ram m) /\
  (forall f', block_in f' n (free_fp_list (ram m)) -> f <= f') /\
  forall q g, valid m q -> kernel_page g ->
    kpage m' q g = if bool_decide (KPAGE + f <= g < KPAGE + f + n) then Resident (g - KPAGE)
                   else kpage m q g.

(** Nothing was allocated. *)
Definition kernel_unchanged (m m' : machine) : Prop :=
  free_fp_list (ram m') ≡ₚ free_fp_list (ram m) /\ used_fp_list (ram m') ≡ₚ used_fp_list (ram m) /\
  forall q g f, valid m q -> kernel_page g -> kpage m' q g = Resident f <-> kpage m q g = Resident f.

Definition region_post (E F : list Z) (m : machine) (size : Z) (o : option (Z * Z)) (m' : machine) : Prop :=
  kinv E F m' /\ kstep m m' /\
  match o with
  | Some (base, asz) => exists f, base = KMEM_VADDR_BASE + f * 4096 /\ 0 < size /\
      asz = pages_for size * 4096 /\ size <= asz /\ region_at m f (pages_for size) m'
  | None => kernel_unchanged m m' /\
      (size = 0 \/ may_oom m \/ forall f, ~ block_in f (pages_for size) (free_fp_list (ram m)))
  end.

Lemma kernel_unchanged_mallocs m c : kernel_unchanged m (set_mallocs m c).
Proof. done. Qed.

Lemma kinv_mallocs E F m c : kinv E F m -> kinv E F (set_mallocs m c).
Proof.
  intros [HI HD]. split.
  - apply (inv_pt_step E F m); [done|]. apply pt_step_tables; try done. apply HI.
  - intros q g f (k & x & Hq). apply HD. exists k, x. by eapply has_mm_same.
Qed.

(** A block that has just been claimed. *)
Lemma claimed_inv E F m f n free' c :
  kinv E F m -> free_fp_list (ram m) ≡ₚ seqZ f n ++ free' ->
  kinv E F (with_lists (set_mallocs m c) free' (reverse (seqZ f n) ++ used_fp_list (ram m))).
Proof.
  intros HI Hfree. destruct (kinv_mallocs E F m c HI) as [HI' HD']. split; [|exact HD'].
  apply inv_lists; [done| |].
  - unfold ram_lists. cbn [ram set_mallocs]. rewrite Hfree, reverse_Permutation, !app_assoc.
    apply Permutation_app_tail, Permutation_app_comm.
  - intros q k x g f' Hq Hg Hres. apply elem_of_app. right.
    apply (vs_kern m (vi_shape _ _ _ (proj1 HI)) q k x g f' Hq Hg Hres).
Qed.

(** Kernel pages whose frames are free are not mapped. *)
Lemma free_not_mapped E F m q g f :
  kinv E F m -> valid m q -> kernel_page g -> kpage m q g = Resident f -> f ∉ free_fp_list (ram m).
Proof.
  intros [HI _] (k & x & Hq) Hg Hres Hf. rewrite (kpage_mm m q k x) in Hres by done.
  pose proof (vs_kern m (vi_shape _ _ _ HI) q k x g f Hq Hg Hres) as Hu.
  pose proof (ex_nodup _ _ _ (vi_ram _ _ _ HI)) as HN. unfold ram_lists in HN.
  apply NoDup_app in HN as (HN & _). apply NoDup_app in HN as (_ & HN & _). by apply (HN f).
Qed.

Lemma decode_fpn f : 0 <= f < 2 ^ 19 -> decode_pte (fpn_pte f) = Resident f.
Proof. intros Hf. apply decode_fpn_pte. lia. Qed.

Section claimed.
Context (E F : list Z) (m : machine) (p : Z) (k : krnl_t) (x : mm_struct) (f n c : Z) (free' : list Z).
Context (HKI : kinv E F m) (Hp : has_mm m p k x) (Hn : 0 < n).
Context (Hfree : free_fp_list (ram m) ≡ₚ seqZ f n ++ free').
Definition claimed : machine :=
  with_lists (set_mallocs m c) free' (reverse (seqZ f n) ++ used_fp_list (ram m)).

Lemma claimed_block : block_in f n (free_fp_list (ram m)).
Proof using Hfree. intros i Hi. rewrite Hfree. apply elem_of_app. left. by apply elem_of_seqZ. Qed.

Lemma claimed_range : 0 <= f /\ f + n <= 2 ^ 19.
Proof using HKI Hn Hfree.
  destruct (free_frames_ok _ _ _ (proj1 HKI)) as [_ Hrange].
  pose proof (Hrange f ltac:(apply claimed_block; lia)).
  pose proof (Hrange (f + n - 1) ltac:(apply claimed_block; lia)). lia.
Qed.

Lemma claimed_kstep : kstep m claimed.
Proof. eapply kstep_trans; [apply kstep_mallocs|apply kstep_lists]. Qed.

(** The first [i] pages of the block mapped. *)
Lemma claimed_pages i m2 :
  0 <= i <= n ->
  pt_map (roots claimed) (krnl_pgd k) (KPAGE + f) i (fun g => fpn_pte (g - KPAGE)) claimed m2 ->
  kinv E F m2 /\ kstep m m2 /\ ram m2 = ram claimed /\
  forall q g, valid m q -> kernel_page g ->
    kpage m2 q g = if bool_decide (KPAGE + f <= g < KPAGE + f + i) then Resident (g - KPAGE)
                   else kpage m q g.
Proof using HKI Hp Hn Hfree.
  intros Hi Hmap. pose proof claimed_range as [Hf1 Hf2].
  pose proof (claimed_inv E F m f n free' c HKI Hfree) as [HI1 HD1]. fold claimed in HI1, HD1.
  assert (Hp1 : has_mm claimed p k x) by (eapply kstep_mm; [apply claimed_kstep|done]).
  destruct (pt_map_inv E F claimed m2 p k x _ _ _ HI1 Hp1 Hmap) as (HI2 & HK2 & Hkp).
  { intros g Hg. destruct (kaddr_page f (g - KPAGE - f)) as (_ & _ & _ & _ & Hk); [lia..|].
    by replace (KPAGE + f + (g - KPAGE - f)) with g in Hk by lia. }
  { intros g f' Hg. rewrite decode_fpn by lia. intros [= <-]. unfold claimed. simpl.
    apply elem_of_app. left. rewrite reverse_Permutation. apply elem_of_seqZ. lia. }
  assert (HK : kstep m m2) by (eapply kstep_trans; [apply claimed_kstep|done]).
  assert (Hkp2 : forall q g, valid m q -> kernel_page g ->
    kpage m2 q g = if bool_decide (KPAGE + f <= g < KPAGE + f + i) then Resident (g - KPAGE)
                   else kpage m q g).
  { intros q g Hq Hg. rewrite Hkp; [|by apply (valid_kstep m claimed q claimed_kstep)|done].
    case_bool_decide; [apply decode_fpn; lia|done]. }
  split_and!; [|done|by destruct Hmap as ((_ & ? & _) & _)|done]. split; [done|].
  intros q g f' Hq Hg. rewrite Hkp2; [|by apply (valid_kstep m m2 q HK)|done].
  case_bool_decide; [intros [= <-]; lia|]. apply HKI; [by apply (valid_kstep m m2 q HK)|done].
Qed.

(** The failure path: the block is given back. *)
Lemma claimed_undo i m2 :
  0 <= i <= n ->
  pt_map (roots claimed) (krnl_pgd k) (KPAGE + f) i (fun g => fpn_pte (g - KPAGE)) claimed m2 ->
  wp (kernel_release_contiguous_region p (kernel_vaddr_from_fpn f) n) (fun _ m' =>
    kinv E F m' /\ kstep m m' /\ kernel_unchanged m m') m2.
Proof using HKI Hp Hn Hfree.
  intros Hi Hmap. destruct claimed_range as [Hf1 Hf2].
  destruct (claimed_pages i m2 Hi Hmap) as (HKI2 & HK2 & Er & Hkp).
  eapply wp_mono.
  { apply (release_spec E F m2 p k x f n (used_fp_list (ram m)) HKI2); try done.
    - by eapply kstep_mm.
    - rewrite Er. unfold claimed. simpl. by rewrite reverse_Permutation. }
  intros _ m3 (HKI3 & HK3 & Hfr & Hus & Hkp3).
  split_and!; [done|by eapply kstep_trans|]. split_and!; [|done|].
  - rewrite Hfr, Er, Hfree, reverse_Permutation. done.
  - intros q g f' Hq Hg. rewrite Hkp3; [|by apply (valid_kstep m m2 q HK2)|done].
    rewrite Hkp by done. case_bool_decide as Hb.
    + split; [done|]. intros Hres. exfalso.
      pose proof (proj2 HKI q g f' Hq Hg Hres) as ->.
      apply (free_not_mapped E F m q (KPAGE + f') f' HKI Hq Hg Hres), claimed_block. lia.
    + by rewrite bool_decide_false by lia.
Qed.
End claimed.

Lemma kvaddr f : 0 <= f < 2 ^ 19 -> kernel_vaddr_from_fpn f = KMEM_VADDR_BASE + f * 4096.
Proof.
  intros Hf. unfold kernel_vaddr_from_fpn, KMEM_VADDR_BASE, PAGING64_PAGESZ.
  apply u64_small. unfold is_u64. lia.
Qed.

Lemma alloc_region_spec E F m p k x size :
  kinv E F m -> has_mm m p k x -> 0 <= size < 2 ^ 32 ->
  wp (kernel_alloc_contiguous_region p size) (region_post E F m size) m.
Proof.
  intros HKI Hp Hs. unfold kernel_alloc_contiguous_region. apply wp_bind.
  eapply wp_eq; [apply get_krnl_ok; apply Hp|]. cbv beta iota. case_bool_decide as H0.
  { apply wp_ret. split; [done|]. split; [rewrite <- (set_mallocs_same m) at 2; apply kstep_mallocs|].
    split; [done|by left]. }
  destruct (align_kpages size ltac:(lia)) as (Hal & Hn & Hle & ->). rewrite Hal.
  apply wp_bind. eapply wp_mono; [apply (alloc_frames_spec E F m p k x (pages_for size) (proj1 HKI) Hp)|].
  intros [f|] m1 [c H1].
  2:{ destruct H1 as [-> Hwhy]. apply wp_ret. split; [by apply kinv_mallocs|]. split; [apply kstep_mallocs|].
      split; [apply kernel_unchanged_mallocs|]. destruct Hwhy as [?|?]; [lia|by right]. }
  destruct H1 as (free' & _ & Hfree & -> & Hlow).
  fold (claimed m f (pages_for size) c free'). set (m1 := claimed _ _ _ _ _).
  destruct (claimed_range E F m f (pages_for size) free' HKI Hn Hfree) as [Hf1 Hf2].
  pose proof (claimed_inv E F m f _ free' c HKI Hfree) as [HI1 _].
  assert (Hp1 : has_mm m1 p k x) by (eapply kstep_mm; [apply claimed_kstep|done]).
  apply wp_bind. eapply wp_mono.
  { apply (map_block_spec (roots m1) m1 p k x f (pages_for size)); try done; [apply HI1|eauto with ossim]. }
  intros r m2 [[-> Hmap]|(Hr & Ho & i & Hi & Hmap)]; cbv beta.
  - rewrite bool_decide_false by (by intros []). apply wp_ret.
    destruct (claimed_pages E F m p k x f _ c free' HKI Hp Hn Hfree (pages_for size) m2 ltac:(lia) Hmap) as (HKI2 & HK2 & Er & Hkp).
    split; [done|]. split; [done|]. exists f. rewrite kvaddr by lia.
    split; [done|]. split; [lia|]. split; [done|]. split; [done|].
    unfold region_at. rewrite Er. by split_and!.
  - rewrite bool_decide_true by done. apply wp_bind.
    eapply wp_mono; [eapply (claimed_undo E F m p k x f _ c free' HKI Hp Hn Hfree i m2); [lia|done]|].
    intros [] m3 (HKI3 & HK3 & Hun). apply wp_ret. split; [done|]. split; [done|]. split; [done|].
    right. left. destruct Ho as [j Hj]. by exists j.
Qed.

(** ** Kernel bytes *)

(** The addresses of kernel regions. *)
Definition kregion_addr (a : Z) : Prop := KMEM_VADDR_BASE <= a < 2 ^ 64.

Lemma kregion_page a :
  kregion_addr a -> is_u64 a /\ canonical a /\ kernel_page (addr_pgn a) /\ page_ok (addr_pgn a) /\
  Z.land a PAGING64_ADDR_OFFST_MASK = a mod PAGING64_PAGESZ /\ 0 <= a mod PAGING64_PAGESZ < PAGING64_PAGESZ.
Proof.
  unfold kregion_addr, KMEM_VADDR_BASE. intros Ha.
  assert (Hu : is_u64 a) by (unfold is_u64; lia).
  assert (Hk : kernel_page (addr_pgn a)).
  { unfold kernel_page. rewrite addr_pgn_div. Z.div_mod_to_equations. lia. }
  split_and!; try done.
  - right. unfold kernel_addr. lia.
  - by right.
  - by rewrite land_offst_mask.
  - unfold PAGING64_PAGESZ. Z.div_mod_to_equations. lia.
  - unfold PAGING64_PAGESZ. Z.div_mod_to_equations. lia.
Qed.

(** Operations on user memory keep the kernel's pages and bytes. *)
Lemma kpage_keeps m m' q g :
  procs_sim m m' -> keeps_kernel m m' -> valid m q -> kernel_page g -> kpage m' q g = kpage m q g.
Proof.
  intros (_ & Hsim & _) (_ & _ & HK) (k & x & Hq) Hg.
  destruct (Hsim q k x Hq) as (k' & x' & Hq' & _ & Ek & _).
  by rewrite (kpage_mm m' q k' x'), (kpage_mm m q k x), Ek, (HK q k x g Hq Hg).
Qed.

Lemma valid_sim m m' q : vm_shape m -> procs_sim m m' -> valid m' q <-> valid m q.
Proof.
  intros HS Hs. split; intros (k & x & Hq).
  - destruct (procs_sim_back _ _ _ _ _ HS Hs Hq) as (k' & x' & ? & _). by exists k', x'.
  - destruct Hs as (_ & Hsim & _). destruct (Hsim q k x Hq) as (k' & x' & ? & _). by exists k', x'.
Qed.

Lemma kinv_keeps E F E' F' m m' :
  kinv E F m -> vm_inv E' F' m' -> procs_sim m m' -> keeps_kernel m m' -> kinv E' F' m'.
Proof.
  intros [HI HD] HI' Hs HK. split; [done|]. intros q g f Hq Hg.
  apply (valid_sim m m' q (vi_shape _ _ _ HI) Hs) in Hq. rewrite (kpage_keeps m m') by done. by apply HD.
Qed.

Lemma kbyte_keeps E F m m' q a :
  vm_inv E F m -> procs_sim m m' -> keeps_kernel m m' -> valid m q -> kregion_addr a ->
  kbyte m' q a = kbyte m q a.
Proof.
  intros HI Hs HK Hq Ha. destruct (kregion_page a Ha) as (_ & _ & Hg & _ & _ & Hi).
  unfold kbyte. rewrite (kpage_keeps m m') by done. destruct (kpage m q (addr_pgn a)) as [f| |] eqn:Hp; try done.
  destruct Hq as (k & x & Hq). rewrite (kpage_mm m q k x) in Hp by done. f_equal.
  apply HK; [|done]. by apply (vs_kern m (vi_shape _ _ _ HI) q k x (addr_pgn a)).
Qed.

(** A store to a kernel address: the process table, all user memory and all
    other kernel bytes are kept. *)
Definition kstored (m m' : machine) (a v : Z) : Prop :=
  keeps_procs m m' /\ keeps_bytes m m' /\ used_fp_list (ram m') = used_fp_list (ram m) /\
  (forall q g, valid m q -> kernel_page g -> kpage m' q g = kpage m q g) /\
  forall q a', valid m q -> kregion_addr a' ->
    kbyte m' q a' = if bool_decide (a' = a) then Some v else kbyte m q a'.

(** One byte of a kernel frame written. *)
Lemma kernel_byte_written E F m p a f v :
  kinv E F m -> valid m p -> kregion_addr a -> kpage m p (addr_pgn a) = Resident f ->
  let m' := set_dev m Ram (set_storage (ram m)
              (<[f * PAGING64_PAGESZ + a mod PAGING64_PAGESZ := v]> (storage (ram m)))) in
  kinv E F m' /\ kstored m m' a v.
Proof.
  intros [HI HD] Hp Ha Hf m'. destruct (kregion_page a Ha) as (_ & _ & Hg & _ & _ & Hi).
  pose proof (vi_shape _ _ _ HI) as HS. pose proof Hp as (k & x & Hpk).
  assert (Hfu : f ∈ used_fp_list (ram m)).
  { rewrite (kpage_mm m p k x) in Hf by done. by apply (vs_kern m HS p k x (addr_pgn a)). }
  assert (Hc : forall b, cell (ram m') b =
            if bool_decide (b = f * PAGING64_PAGESZ + a mod PAGING64_PAGESZ) then v else cell (ram m) b)
    by (intros b; unfold m', set_dev; cbn [ram set_ram]; rewrite cell_set_storage;
        repeat case_bool_decide; done || congruence).
  assert (HS' : vm_shape m').
  { apply (shape_step m); try done; try apply HS.
    intros q kq xq Hq. eapply (has_mm_fifo m); [done|]. by eapply has_mm_same; [|exact Hq]. }
  assert (Hps : forall q g, page_state m' q g = page_state m q g) by done.
  assert (Hkp : forall q g, kpage m' q g = kpage m q g) by done.
  assert (HB : keeps_bytes m m').
  { apply keeps_bytes_pages. intros q g i Hgu Hiu. rewrite Hps. unfold page_byte.
    destruct (page_state m q g) as [f'| |] eqn:Hst; try done. rewrite Hc, bool_decide_false; [done|].
    intros He. destruct (frame_disjoint _ _ _ _ Hiu Hi He) as [-> _].
    destruct (ex_held _ _ _ (vi_ram _ _ _ HI) (q, g) f) as [_ Hn].
    { unfold ram_held. simpl. by rewrite decide_True, Hst. }
    apply Hn. unfold ram_lists. rewrite !elem_of_app. auto. }
  split; [split|]; [by eapply inv_same_pages|by intros q g f' Hq; apply HD|].
  split_and!; try done. intros q a' Hq Ha'. destruct (kregion_page a' Ha') as (_ & _ & Hg' & _ & _ & Hi').
  unfold kbyte. rewrite Hkp. destruct (decide (a' = a)) as [->|Hne].
  - rewrite bool_decide_true by done.
    assert (Hkq : kpage m q (addr_pgn a) = Resident f).
    { destruct Hq as (kq & xq & Hqk). rewrite (kpage_mm m q kq xq), (kpage_mm m p k x) in * by done.
      destruct (vs_kpgd m HS _ _ _ _ _ _ Hqk Hpk) as [-> _]. done. }
    by rewrite Hkq, Hc, bool_decide_true.
  - rewrite (bool_decide_false (a' = a)) by done.
    destruct (kpage m q (addr_pgn a')) as [f'| |] eqn:Hq'; try done. f_equal.
    rewrite Hc, bool_decide_false; [done|]. intros He.
    destruct (frame_disjoint _ _ _ _ Hi' Hi He) as [-> Hoff].
    pose proof (HD q (addr_pgn a') f Hq Hg' Hq') as E1. pose proof (HD p (addr_pgn a) f Hp Hg Hf) as E2.
    apply Hne, same_addr; [congruence|done].
Qed.

(** ** Access to a kernel region *)

Section kaccess.
Context (E F : list Z) (m : machine) (p : Z) (k : krnl_t) (x : mm_struct).
Context (HKI : kinv E F m) (Hp : has_mm m p k x).
Context (r off : Z) (rg : vm_rg_struct).
Context (Hr : 0 <= r < 30) (Hrg : symrgtbl x !! Z.to_nat r = Some rg).
Context (Hk : KMEM_VADDR_BASE <= rg_start rg /\ rg_end rg < 2 ^ 64) (Hoff : is_u64 off).

Lemma kregion_valid :
  kernel_region_valid (Some x) (i32 r) 1 off =
  if bool_decide (off < rg_end rg - rg_start rg) then Some rg else None.
Proof using Hr Hrg Hk Hoff.
  unfold kernel_region_valid. rewrite (get_symrg_ok x r rg) by done. unfold KMEM_VADDR_BASE, is_u64 in *.
  case_bool_decide as H1; [by rewrite bool_decide_false by lia|].
  rewrite !u64_small by (unfold is_u64; rewrite ?u64_small; unfold is_u64; lia).
  repeat case_bool_decide; simpl; try done; lia.
Qed.

Definition kaddr : Z := rg_start rg + off.

Lemma kaddr_region : off < rg_end rg - rg_start rg -> kregion_addr kaddr /\ u64 (rg_start rg + off) = kaddr.
Proof using Hk Hoff.
  unfold kaddr, kregion_addr, KMEM_VADDR_BASE, is_u64 in *. intros H. split; [lia|].
  apply u64_small. unfold is_u64. lia.
Qed.

(** Translation of an address of the region. *)
Lemma ktranslate_spec a :
  kregion_addr a ->
  wp (kernel_translate_vaddr p a) (fun o m' => kinv E F m' /\ keeps m m' /\
    (forall q g, kpage m' q g = kpage m q g) /\ ram m' = ram m /\ procs m' = procs m /\
    o = match kpage m p (addr_pgn a) with
        | Resident f => Some (f * PAGING64_PAGESZ + a mod PAGING64_PAGESZ)
        | _ => None
        end) m.
Proof using HKI Hp.
  intros Ha. destruct (kregion_page a Ha) as (Hu & Hc & Hg & Hok & Ho & Hi).
  destruct HKI as [HI HD]. pose proof (vi_shape _ _ _ HI) as HS. eapply wp_mono.
  { apply (kernel_translate_spec (roots m) m p k x); try done; [apply HI|eauto with ossim]. }
  intros o m' [Hs ->]. destruct (inv_pt_step _ _ _ _ HI Hs) as (HI' & HK & _).
  assert (Hkp : forall q g, kpage m' q g = kpage m q g).
  { intros q g. destruct Hs as ((Ep & _) & _ & _ & Hpte). unfold kpage, krnl_of. rewrite Ep.
    destruct (procs m !! q) as [y|] eqn:Hy; [|done]. simpl. destruct (vs_procs m HS q y Hy) as (kq & xq & Hq & _).
    pose proof Hq as (_ & y' & Hy' & Hkq & _)%has_mm_procs. simplify_eq. rewrite Hkq.
    rewrite Hpte; [done|eauto with ossim]. }
  split_and!; try done; try apply Hs.
  - split; [done|]. intros q g f (kq & xq & Hq) Hgq. rewrite Hkp. apply HD; [|done].
    exists kq, xq. eapply has_mm_same; [symmetry; apply Hs|done].
  - rewrite (kpage_mm m p k x) by done. destruct (decode_pte _) as [f| |] eqn:Hd; try done. f_equal.
    rewrite Ho. apply (frame_byte_range (ram m)); [apply HS| |done].
    pose proof (vs_kern m HS p k x _ _ Hp Hg Hd) as Hf.
    apply (ex_range _ _ _ (vi_ram _ _ _ HI)). unfold ram_lists. rewrite !elem_of_app. auto.
Qed.

Lemma kernel_read_spec :
  wp (__read_kernel_mem p (i32 r) off) (fun o m' => kinv E F m' /\ keeps m m' /\
    o = if bool_decide (off < rg_end rg - rg_start rg) then kbyte m p kaddr else None) m.
Proof using HKI Hp Hr Hrg Hk Hoff.
  pose proof Hp as (Hp0 & Hkp & Hx). unfold __read_kernel_mem. apply wp_bind.
  eapply wp_eq; [by apply get_krnl_ok|]. cbv beta iota. rewrite Hx, kregion_valid.
  case_bool_decide as Hin; [|apply wp_ret; split_and!; [done|apply keeps_refl|done]].
  destruct (kaddr_region Hin) as [Ha ->]. apply wp_bind. eapply wp_mono; [by apply ktranslate_spec|].
  intros o m1 (HKI1 & HK1 & _ & Er & Ep & ->). unfold kbyte.
  destruct (kpage m p (addr_pgn kaddr)) as [f| |] eqn:Hf; try (apply wp_ret; by split_and!).
  destruct (has_mm_flags _ _ _ _ (vi_shape _ _ _ (proj1 HKI)) Hp) as [Hram _]. unfold k_mram. rewrite Hram.
  pose proof (vi_shape _ _ _ (proj1 HKI)) as HS. destruct (kregion_page kaddr Ha) as (_ & _ & Hg & _ & _ & Hi).
  rewrite (kpage_mm m p k x) in Hf by done. pose proof (vs_kern m HS p k x _ _ Hp Hg Hf) as Hfu.
  destruct (frame_byte_range (ram m) f (kaddr mod PAGING64_PAGESZ)) as [Hb _]; [apply HS| |done|].
  { apply (ex_range _ _ _ (vi_ram _ _ _ (proj1 HKI))). unfold ram_lists. rewrite !elem_of_app. auto. }
  eapply wp_eq; [apply (dev_read_ok m1 Ram); simpl; rewrite Er; [apply HS|done]|].
  split_and!; try done. simpl. by rewrite Er.
Qed.

Lemma kernel_write_spec v :
  wp (__write_kernel_mem p (i32 r) off v) (fun s m' => kinv E F m' /\
    ((s = 0 /\ off < rg_end rg - rg_start rg /\ kbyte m p kaddr <> None /\ kstored m m' kaddr v) \/
     (s = -1 /\ keeps m m' /\ (off < rg_end rg - rg_start rg -> kbyte m p kaddr = None)))) m.
Proof using HKI Hp Hr Hrg Hk Hoff.
  pose proof Hp as (Hp0 & Hkp & Hx). unfold __write_kernel_mem. apply wp_bind.
  eapply wp_eq; [by apply get_krnl_ok|]. cbv beta iota. rewrite Hx, kregion_valid.
  case_bool_decide as Hin; [|apply wp_ret; split; [done|]; right; split_and!; [done|apply keeps_refl|done]].
  destruct (kaddr_region Hin) as [Ha ->]. apply wp_bind. eapply wp_mono; [by apply ktranslate_spec|].
  intros o m1 (HKI1 & HK1 & Hkp1 & Er & Ep & ->). unfold kbyte at 1 2.
  destruct (kpage m p (addr_pgn kaddr)) as [f| |] eqn:Hf;
    try (apply wp_ret; split; [done|]; right; by split_and!).
  destruct (has_mm_flags _ _ _ _ (vi_shape _ _ _ (proj1 HKI)) Hp) as [Hram _]. unfold k_mram. rewrite Hram.
  pose proof (vi_shape _ _ _ (proj1 HKI)) as HS. destruct (kregion_page kaddr Ha) as (_ & _ & Hg & _ & _ & Hi).
  assert (Hv1 : valid m1 p) by (exists k, x; by eapply has_mm_same).
  rewrite <- Hkp1 in Hf. pose proof (kernel_byte_written E F m1 p kaddr f v HKI1 Hv1 Ha Hf) as [HKI2 HST].
  rewrite Hkp1, (kpage_mm m p k x) in Hf by done. pose proof (vs_kern m HS p k x _ _ Hp Hg Hf) as Hfu.
  destruct (frame_byte_range (ram m) f (kaddr mod PAGING64_PAGESZ)) as [Hb _]; [apply HS| |done|].
  { apply (ex_range _ _ _ (vi_ram _ _ _ (proj1 HKI))). unfold ram_lists. rewrite !elem_of_app. auto. }
  eapply wp_eq; [apply (dev_write_ok m1 Ram); simpl; rewrite Er; [apply HS|done]|].
  split; [done|]. left. split_and!; try done.
  destruct HST as (P2 & B2 & U2 & K2 & Y2). destruct HK1 as (P1 & (U1 & C1 & _) & B1).
  assert (Hval : forall q, valid m q -> valid m1 q)
    by (intros q (kq & xq & Hq); exists kq, xq; by eapply has_mm_same).
  split_and!.
  - by eapply keeps_procs_trans.
  - intros q a Hau. by rewrite B2, B1.
  - simpl. by rewrite Er.
  - intros q g Hq Hgq. rewrite K2 by auto. apply Hkp1.
  - intros q a' Hq Ha'. rewrite Y2 by auto. case_bool_decide; [done|]. unfold kbyte. by rewrite Hkp1, Er.
Qed.
End kaccess.

(** ** Access to a user region from the kernel *)

Section uaccess.
Context (E F : list Z) (m : machine) (p : Z) (k : krnl_t) (x : mm_struct).
Context (HKI : kinv E F m) (Hp : has_mm m p k x).
Context (r off : Z) (rg : vm_rg_struct).
Context (Hr : 0 <= r < 30) (Hrg : symrgtbl x !! Z.to_nat r = Some rg) (Hok : rg_ok rg) (Hoff : is_u64 off).

Lemma user_read_spec :
  wp (__read_user_mem p (i32 r) off) (fun o m' => kinv E F m' /\ keeps m m' /\
    match o with
    | Some b => in_region off rg /\ vbyte m p (rg_start rg + off) = Some b
    | None => in_region off rg -> not_resident m p (rg_start rg + off)
    end) m.
Proof using All.
  destruct HKI as [HI HD]. unfold __read_user_mem. apply wp_bind.
  eapply wp_eq; [by eapply get_mm_ok|]. cbv beta iota. rewrite (get_symrg_ok x r rg) by done.
  assert (Hout : forall m', kinv E F m' -> keeps m m' -> (~ in_region off rg) ->
    kinv E F m' /\ keeps m m' /\ (in_region off rg -> not_resident m p (rg_start rg + off))) by done.
  case_bool_decide as He.
  { apply wp_ret. apply Hout; [done|apply keeps_refl|]. intros [[? _] _]. lia. }
  rewrite access_addr_exact by done. fold (in_region off rg). case_bool_decide as Hin.
  - eapply wp_mono; [apply (pg_getval_spec E F m p); [done|by exists k, x|by apply (in_region_user off rg)]|].
    intros o m' (HI' & HK & Ho & _).
    split; [eapply kinv_keeps; [exact HKI|done|apply keeps_procs_sim, HK|apply HK]|]. split; [done|].
    by destruct o.
  - apply wp_ret. apply Hout; [done|apply keeps_refl|done].
Qed.

Lemma user_write_spec v :
  wp (__write_user_mem p (i32 r) off v) (fun s m' => kinv E F m' /\
    ((s = 0 /\ in_region off rg /\ stored m m' p (rg_start rg + off) v) \/
     (s = -1 /\ keeps m m' /\ (in_region off rg -> not_resident m p (rg_start rg + off))))) m.
Proof using All.
  destruct HKI as [HI HD]. unfold __write_user_mem. apply wp_bind.
  eapply wp_eq; [by eapply get_mm_ok|]. cbv beta iota. rewrite (get_symrg_ok x r rg) by done.
  case_bool_decide as He.
  { apply wp_ret. split; [done|]. right. split_and!; [done|apply keeps_refl|]. intros [[? _] _]. lia. }
  rewrite access_addr_exact by done. fold (in_region off rg). case_bool_decide as Hin.
  - eapply wp_mono; [apply (pg_setval_spec E F m p); [done|by exists k, x|by apply (in_region_user off rg)]|].
    intros s m' (HI' & [(-> & Hst & _)|(-> & HK & Hn)]).
    + split; [|by left]. destruct Hst as (HP & HK & _).
      eapply kinv_keeps; [exact HKI|done|by apply keeps_procs_sim|done].
    + split; [|by right]. eapply kinv_keeps; [exact HKI|done|apply keeps_procs_sim, HK|apply HK].
  - apply wp_ret. split; [done|]. right. split_and!; [done|apply keeps_refl|done].
Qed.
End uaccess.

(** ** Copies *)

Section copy.
Context (E F : list Z) (m : machine) (p : Z) (k : krnl_t) (x : mm_struct).
Context (HKI : kinv E F m) (Hp : has_mm m p k x).
Context (ru rk off size : Z) (urg krg : vm_rg_struct).
Context (Hru : 0 <= ru < 30) (Hurg : symrgtbl x !! Z.to_nat ru = Some urg) (Hok : rg_ok urg).
Context (Hrk : 0 <= rk < 30) (Hkrg : symrgtbl x !! Z.to_nat rk = Some krg).
Context (Hk : KMEM_VADDR_BASE <= rg_start krg /\ rg_end krg < 2 ^ 64).
Context (Hoff : 0 <= off) (Hsize : 0 <= size) (Hfit : off + size <= 2 ^ 32).

(** Byte [i] of the copy at its two places. *)
Definition uaddr (i : Z) : Z := rg_start urg + (off + i).
Definition kaddr_at (i : Z) : Z := rg_start krg + (off + i).

(** Why byte [i] cannot be copied in machine [m']. *)
Definition copy_blocked (m' : machine) (i : Z) : Prop :=
  ~ in_region (off + i) urg \/ rg_end krg - rg_start krg <= off + i \/
  not_resident m' p (uaddr i) \/ kbyte m' p (kaddr_at i) = None.

(** The state after [n] bytes from user to kernel memory. *)
Definition copied_in (n : Z) (m' : machine) : Prop :=
  kinv E F m' /\ keeps_procs m m' /\ keeps_bytes m m' /\
  (forall i, 0 <= i < n -> in_region (off + i) urg /\ off + i < rg_end krg - rg_start krg /\
     vbyte m p (uaddr i) <> None /\ kbyte m' p (kaddr_at i) = vbyte m p (uaddr i)) /\
  forall q a, valid m q -> kregion_addr a -> ~ (kaddr_at 0 <= a < kaddr_at n) ->
    kbyte m' q a = kbyte m q a.

Definition copied_out (n : Z) (m' : machine) : Prop :=
  kinv E F m' /\ keeps_procs m m' /\ keeps_kernel m m' /\
  (forall i, 0 <= i < n -> in_region (off + i) urg /\ off + i < rg_end krg - rg_start krg /\
     kbyte m p (kaddr_at i) <> None /\ vbyte m' p (uaddr i) = kbyte m p (kaddr_at i)) /\
  forall q a, user_addr a -> ~ (q = p /\ uaddr 0 <= a < uaddr n) -> vbyte m' q a = vbyte m q a.

Lemma copy_off i : 0 <= i < size -> u32 (off + i) = off + i /\ is_u64 (off + i).
Proof using Hoff Hfit. intros Hi. unfold u32, is_u64. rewrite Z.mod_small by lia. split; lia. Qed.

Lemma copy_mm m' : keeps_procs m m' -> exists k' x', has_mm m' p k' x' /\ symrgtbl x' = symrgtbl x.
Proof using Hp.
  intros HP. destruct (keeps_has_mm _ _ _ _ _ HP Hp) as (k' & x' & Hp' & Ek & Ex).
  destruct (erased_fields _ _ _ _ Ek Ex) as (_ & _ & _ & _ & _ & _ & Es & _). by exists k', x'.
Qed.

Lemma kaddr_at_region i :
  0 <= i -> off + i < rg_end krg - rg_start krg -> kregion_addr (kaddr_at i).
Proof using Hk Hoff. unfold kregion_addr, kaddr_at, KMEM_VADDR_BASE in *. lia. Qed.

Lemma in_region_dec i : in_region (off + i) urg \/ ~ in_region (off + i) urg.
Proof. unfold in_region, user_rg. lia. Qed.

Lemma copy_valid m' q : keeps_procs m m' -> valid m q -> valid m' q.
Proof using HKI.
  intros HP. by apply (valid_sim m m' q (vi_shape _ _ _ (proj1 HKI))), keeps_procs_sim.
Qed.

(** Byte [n] is stored. *)
Lemma copied_in_snoc n m1 m2 b :
  0 <= n -> copied_in n m1 -> kinv E F m2 -> in_region (off + n) urg ->
  off + n < rg_end krg - rg_start krg ->
  vbyte m p (uaddr n) = Some b -> keeps_procs m m2 -> keeps_bytes m m2 ->
  (forall q a, valid m q -> kregion_addr a ->
     kbyte m2 q a = if bool_decide (a = kaddr_at n) then Some b else kbyte m1 q a) ->
  copied_in (n + 1) m2.
Proof using HKI Hp Hk Hoff.
  intros Hn (HKI1 & HP1 & HB1 & Hdone & Hrest) HKI2 Hin Hlen Hb HP2 HB2 Hkb.
  assert (Hv : valid m p) by (by exists k, x). split_and!; try done.
  - intros i Hi. destruct (decide (i = n)) as [->|Hne].
    + split_and!; try done; [by rewrite Hb|].
      rewrite Hkb, bool_decide_true by (done || by apply kaddr_at_region). done.
    + destruct (Hdone i ltac:(lia)) as (H1 & H2 & H3 & H4). split_and!; try done.
      rewrite Hkb by (done || apply kaddr_at_region; lia). rewrite bool_decide_false; [done|].
      unfold kaddr_at. lia.
  - intros q a Hq Ha Hout. rewrite Hkb by done. unfold kaddr_at in *. rewrite bool_decide_false by lia.
    apply Hrest; [done|done|]. lia.
Qed.

Lemma copied_in_keeps n m1 m2 :
  copied_in n m1 -> kinv E F m2 -> keeps m1 m2 -> copied_in n m2.
Proof using HKI Hp Hk Hoff.
  intros (HKI1 & HP1 & HB1 & Hdone & Hrest) HKI2 HK.
  assert (Hkb : forall q a, valid m q -> kregion_addr a -> kbyte m2 q a = kbyte m1 q a).
  { intros q a Hq Ha.
    eapply kbyte_keeps; [apply HKI1|apply keeps_procs_sim, HK|apply HK|by apply copy_valid|done]. }
  split_and!; try done.
  - eapply keeps_procs_trans; [exact HP1|apply HK].
  - intros q a Ha. rewrite (proj2 (proj2 HK)) by done. by apply HB1.
  - intros i Hi. destruct (Hdone i Hi) as (H1 & H2 & H3 & H4). split_and!; try done.
    rewrite Hkb; [done|by exists k, x|]. apply kaddr_at_region; [lia|done].
  - intros q a Hq Ha Hout. rewrite Hkb by done. by apply Hrest.
Qed.

Lemma copy_in_step n m1 :
  0 <= n < size -> copied_in n m1 ->
  wp (let* data := __read_user_mem p (i32 ru) (off + n) in
      match data with
      | None => ret (-1)
      | Some data => let* r := __write_kernel_mem p (i32 rk) (off + n) data in
                     ret (if bool_decide (r <> 0) then -1 else 0)
      end)
    (fun s m' => if bool_decide (s = 0) then copied_in (n + 1) m'
                 else s = -1 /\ copied_in n m' /\ copy_blocked m1 n) m1.
Proof using All.
  intros Hn HC. pose proof HC as (HKI1 & HP1 & HB1 & _ & _). destruct (copy_off n Hn) as [_ Hu].
  destruct (copy_mm m1 HP1) as (k1 & x1 & Hp1 & Es1). apply wp_bind. eapply wp_mono.
  { apply (user_read_spec E F m1 p k1 x1 HKI1 Hp1 ru (off + n) urg); try done. by rewrite Es1. }
  intros o m2 (HKI2 & HK2 & Ho). pose proof (copied_in_keeps n m1 m2 HC HKI2 HK2) as HC2.
  destruct o as [b|].
  2:{ apply wp_ret. simpl. split_and!; [done|done|]. destruct (in_region_dec n) as [Hin|Hin]; [|by left].
      right. right. left. by apply Ho. }
  destruct Ho as [Hin Hb]. pose proof HC2 as (_ & HP2 & HB2 & _ & _).
  destruct (copy_mm m2 HP2) as (k2 & x2 & Hp2 & Es2). apply wp_bind. eapply wp_mono.
  { apply (kernel_write_spec E F m2 p k2 x2 HKI2 Hp2 rk (off + n) krg); try done. by rewrite Es2. }
  assert (Hv : valid m p) by (by exists k, x).
  intros s m3 (HKI3 & [(-> & Hlen & _ & HP3 & HB3 & _ & _ & Hkb3)|(-> & HK3 & Hnone)]); apply wp_ret; simpl.
  - eapply (copied_in_snoc n m2 m3 b); try done; [lia| | | |].
    + rewrite <- HB1; [done|]. by apply (in_region_user (off + n) urg).
    + by eapply keeps_procs_trans.
    + intros q a Ha. rewrite HB3 by done. by apply HB2.
    + intros q a Hq Ha. apply Hkb3; [by apply copy_valid|done].
  - split_and!; [done|by eapply copied_in_keeps|]. right.
    destruct (decide (off + n < rg_end krg - rg_start krg)) as [Hlen|]; [|left; lia]. right. right.
    rewrite <- (Hnone Hlen). symmetry. eapply kbyte_keeps; [apply HKI1|apply keeps_procs_sim, HK2|apply HK2| |].
    + by apply copy_valid.
    + apply (kaddr_at_region n); [lia|done].
Qed.

Lemma copy_in_loop :
  wp (copy_loop off size (__read_user_mem p (i32 ru)) (__write_kernel_mem p (i32 rk)))
    (fun s m' => (s = 0 /\ copied_in size m') \/
       (s = -1 /\ exists n m1, 0 <= n < size /\ copied_in n m' /\ copied_in n m1 /\ copy_blocked m1 n)) m.
Proof using All.
  apply (wp_for_each _ (fun xs m' => copied_in (Z.of_nat (length xs)) m')).
  - split_and!; try done. simpl. lia.
  - intros xs i ys m1 Hl HC. destruct (seqZ_split _ _ _ _ Hl) as [-> Hin].
    cbv zeta. rewrite (proj1 (copy_off _ Hin)).
    eapply wp_mono; [by apply copy_in_step|]. intros s m' Hs. cbv beta in Hs. case_bool_decide.
    + rewrite length_app. simpl. by rewrite Nat2Z.inj_add.
    + right. destruct Hs as (-> & ? & ?). split; [done|]. by exists (Z.of_nat (length xs)), m1.
  - intros m' HC. left. rewrite length_seqZ, Z2Nat.id in HC by done. done.
Qed.

(** And from kernel to user memory. *)
Lemma uaddr_user i : 0 <= i -> in_region (off + i) urg -> user_addr (uaddr i).
Proof using Hok Hoff. intros Hi [[_ H2] H3]. unfold user_addr, uaddr, rg_ok in *. lia. Qed.

Lemma copied_out_keeps n m1 m2 :
  copied_out n m1 -> kinv E F m2 -> keeps m1 m2 -> copied_out n m2.
Proof using Hok Hoff.
  intros (HKI1 & HP1 & HK1 & Hdone & Hrest) HKI2 (HP & HKk & HB). split_and!; try done.
  - by eapply keeps_procs_trans.
  - by eapply keeps_kernel_trans.
  - intros i Hi. destruct (Hdone i Hi) as (H1 & H2 & H3 & H4). split_and!; try done.
    rewrite HB by (apply uaddr_user; [lia|done]). done.
  - intros q a Ha Hout. rewrite HB by done. by apply Hrest.
Qed.

Lemma copied_out_snoc n m1 m2 b :
  0 <= n -> copied_out n m1 -> kinv E F m2 -> in_region (off + n) urg ->
  off + n < rg_end krg - rg_start krg -> kbyte m p (kaddr_at n) = Some b ->
  stored m1 m2 p (uaddr n) b -> copied_out (n + 1) m2.
Proof using Hok Hoff.
  intros Hn (HKI1 & HP1 & HK1 & Hdone & Hrest) HKI2 Hin Hlen Hb (HP & HKk & HB). split_and!; try done.
  - by eapply keeps_procs_trans.
  - by eapply keeps_kernel_trans.
  - intros i Hi. destruct (decide (i = n)) as [->|Hne].
    + split_and!; try done; [by rewrite Hb|].
      rewrite HB, bool_decide_true by (done || by apply uaddr_user). done.
    + destruct (Hdone i ltac:(lia)) as (H1 & H2 & H3 & H4). split_and!; try done.
      rewrite HB by (apply uaddr_user; [lia|done]). rewrite bool_decide_false; [done|]. unfold uaddr. lia.
  - intros q a Ha Hout. rewrite HB by done. unfold uaddr in *.
    rewrite bool_decide_false by (intros [-> ->]; lia). apply Hrest; [done|]. lia.
Qed.

Lemma copy_out_step n m1 :
  0 <= n < size -> copied_out n m1 ->
  wp (let* data := __read_kernel_mem p (i32 rk) (off + n) in
      match data with
      | None => ret (-1)
      | Some data => let* r := __write_user_mem p (i32 ru) (off + n) data in
                     ret (if bool_decide (r <> 0) then -1 else 0)
      end)
    (fun s m' => if bool_decide (s = 0) then copied_out (n + 1) m'
                 else s = -1 /\ copied_out n m' /\ exists m2, copied_out n m2 /\ copy_blocked m2 n) m1.
Proof using All.
  intros Hn HC. pose proof HC as (HKI1 & HP1 & HK1 & _ & _). destruct (copy_off n Hn) as [_ Hu].
  destruct (copy_mm m1 HP1) as (k1 & x1 & Hp1 & Es1). apply wp_bind. eapply wp_mono.
  { apply (kernel_read_spec E F m1 p k1 x1 HKI1 Hp1 rk (off + n) krg); try done. by rewrite Es1. }
  intros o m2 (HKI2 & HK2 & Ho). pose proof (copied_out_keeps n m1 m2 HC HKI2 HK2) as HC2.
  assert (Hblk : o = None -> copy_blocked m1 n).
  { intros ->. right. case_bool_decide as Hlen; [right; right|left; lia]. by rewrite Ho. }
  destruct o as [b|]; [|apply wp_ret; simpl; split_and!; [done|done|exists m1; split; [done|by apply Hblk]]].
  case_bool_decide as Hlen; [|done].
  assert (Hb : kbyte m p (kaddr_at n) = Some b).
  { rewrite Ho. unfold kaddr. symmetry. eapply kbyte_keeps; [apply HKI|by apply keeps_procs_sim|done| |].
    - by exists k, x.
    - apply (kaddr_at_region n); [lia|done]. }
  pose proof HC2 as (_ & HP2 & _). destruct (copy_mm m2 HP2) as (k2 & x2 & Hp2 & Es2).
  apply wp_bind. eapply wp_mono.
  { apply (user_write_spec E F m2 p k2 x2 HKI2 Hp2 ru (off + n) urg); try done. by rewrite Es2. }
  intros s m3 (HKI3 & [(-> & Hin & Hst)|(-> & HK3 & Hnone)]); apply wp_ret; simpl.
  - eapply (copied_out_snoc n m2 m3 b); try done. lia.
  - split_and!; [done|by eapply copied_out_keeps|]. exists m2. split; [done|].
    destruct (in_region_dec n) as [Hin|Hin]; [|by left]. right. right. left. by apply Hnone.
Qed.

Lemma copy_out_loop :
  wp (copy_loop off size (__read_kernel_mem p (i32 rk)) (__write_user_mem p (i32 ru)))
    (fun s m' => (s = 0 /\ copied_out size m') \/
       (s = -1 /\ exists n m1, 0 <= n < size /\ copied_out n m' /\ copied_out n m1 /\ copy_blocked m1 n)) m.
Proof using All.
  apply (wp_for_each _ (fun xs m' => copied_out (Z.of_nat (length xs)) m')).
  - split_and!; try done. simpl. lia.
  - intros xs i ys m1 Hl HC. destruct (seqZ_split _ _ _ _ Hl) as [-> Hin].
    cbv zeta. rewrite (proj1 (copy_off _ Hin)).
    eapply wp_mono; [by apply copy_out_step|]. intros s m' Hs. cbv beta in Hs. case_bool_decide.
    + rewrite length_app. simpl. by rewrite Nat2Z.inj_add.
    + right. destruct Hs as (-> & ? & m2 & ? & ?). split; [done|]. by exists (Z.of_nat (length xs)), m2.
  - intros m' HC. left. rewrite length_seqZ, Z2Nat.id in HC by done. done.
Qed.
End copy.

(** ** kmalloc *)

Lemma set_reg_sim m p i v :
  is_Some (procs m !! p) -> 0 <= i < 10 -> wp (set_reg p i v) (fun _ m' => procs_sim m m') m.
Proof.
  intros [y Hy] Hi. unfold set_reg. apply wp_bind. eapply wp_eq; [unfold get_pcb; by rewrite Hy|].
  unfold NREGS. rewrite bool_decide_true by done. eapply wp_eq; [reflexivity|].
  split_and!; [| |done].
  - intros q. cbn [procs set_procs]. destruct (decide (q = p)) as [->|Hq].
    + rewrite lookup_insert_eq, Hy. split; by eexists.
    + by rewrite lookup_insert_ne by done.
  - intros q k x Hq. exists k, x. split; [|done]. apply has_mm_procs in Hq as (H0 & z & Hz & H1 & H2).
    apply has_mm_procs. split; [done|]. cbn [procs set_procs]. destruct (decide (q = p)) as [->|Hne].
    + simplify_eq. rewrite lookup_insert_eq. eexists. by split_and!.
    + rewrite lookup_insert_ne by done. by exists z.
Qed.

(** Changes of a process's own record leave the kernel's memory alone. *)
Definition ksame (m m' : machine) : Prop :=
  (forall q, valid m q -> valid m' q) /\ keeps_bytes m m' /\
  (forall q a, valid m q -> kregion_addr a -> kbyte m' q a = kbyte m q a).

Lemma ksame_trans m1 m2 m3 : ksame m1 m2 -> ksame m2 m3 -> ksame m1 m3.
Proof.
  intros (V1 & B1 & K1) (V2 & B2 & K2). split_and!; auto.
  - intros q a Ha. by rewrite B2, B1.
  - intros q a Hq Ha. by rewrite K2, K1 by auto.
Qed.

Lemma ksame_sim E F m m' :
  vm_inv E F m -> procs_sim m m' -> keeps_kernel m m' -> keeps_bytes m m' -> ksame m m'.
Proof.
  intros HI Hs HK HB. split_and!; [|done|].
  - intros q. by apply (valid_sim m m' q (vi_shape _ _ _ HI)).
  - intros q a Hq Ha. by eapply kbyte_keeps.
Qed.

(** The new region: mapped now, not mapped before, all else kept. *)
Definition kfresh (m m' : machine) (base asz : Z) : Prop :=
  (forall q a, valid m q -> base <= a < base + asz -> kbyte m q a = None /\ kbyte m' q a <> None) /\
  (forall q a, valid m q -> kregion_addr a -> ~ (base <= a < base + asz) -> kbyte m' q a = kbyte m q a).

Lemma region_at_fresh E F m m' f n :
  kinv E F m -> kstep m m' -> 0 < n -> region_at m f n m' -> kfresh m m' (KMEM_VADDR_BASE + f * 4096) (n * 4096).
Proof.
  intros HKI HK Hn (Hf & Hlt & Hfree & _ & _ & Hkp).
  destruct HK as (_ & _ & _ & _ & (fr & us & Er) & _).
  assert (Hcell : forall b, cell (ram m') b = cell (ram m) b) by (intros b; by rewrite Er).
  split.
  - intros q a Hq Ha.
    assert (Hka : kregion_addr a) by (unfold kregion_addr, KMEM_VADDR_BASE in *; lia).
    destruct (kregion_page a Hka) as (_ & _ & Hg & _).
    assert (Hin : KPAGE + f <= addr_pgn a < KPAGE + f + n).
    { rewrite addr_pgn_div. unfold KPAGE, KMEM_VADDR_BASE, PAGING64_PAGESZ in *.
      change (0xffff800000000000 / 4096) with 0xffff800000000. Z.div_mod_to_equations. lia. }
    unfold kbyte. rewrite Hkp by done. rewrite bool_decide_true by done. split; [|done].
    destruct (kpage m q (addr_pgn a)) as [f'| |] eqn:Hres; try done. exfalso.
    pose proof (proj2 HKI q _ f' Hq Hg Hres) as Hgf.
    apply (free_not_mapped E F m q _ f' HKI Hq Hg Hres). rewrite Hfree. apply elem_of_app. left.
    apply elem_of_seqZ. lia.
  - intros q a Hq Ha Hout. destruct (kregion_page a Ha) as (_ & _ & Hg & _). unfold kbyte in *.
    rewrite Hkp by done. rewrite bool_decide_false.
    + destruct (kpage m q (addr_pgn a)); try done. by rewrite Hcell.
    + rewrite addr_pgn_div. unfold kregion_addr, KPAGE, KMEM_VADDR_BASE, PAGING64_PAGESZ in *.
      change (0xffff800000000000 / 4096) with 0xffff800000000. Z.div_mod_to_equations. lia.
Qed.

(** The state after a successful [kmalloc]. *)
Definition kmalloc_post (E F : list Z) (m : machine) (p : Z) (x : mm_struct) (r size : Z) (s : Z) (m' : machine) : Prop :=
  kinv E F m' /\ keeps_bytes m m' /\
  ((s = 0 /\ exists f k' x', let base := KMEM_VADDR_BASE + f * 4096 in
      has_mm m' p k' x' /\ mmap x' = mmap x /\
      symrgtbl x' = <[Z.to_nat r := mkRg 0 base (base + size)]> (symrgtbl x) /\
      reg m' p r = Some base /\ block_in f (pages_for size) (free_fp_list (ram m)) /\
      (forall f', block_in f' (pages_for size) (free_fp_list (ram m)) -> f <= f') /\
      size <= pages_for size * 4096 /\ kfresh m m' base (pages_for size * 4096)) \/
   (s = -1 /\ kstep m m' /\ kernel_unchanged m m' /\
      (may_oom m \/ forall f, ~ block_in f (pages_for size) (free_fp_list (ram m))))).

Lemma kmalloc_record E F m m1 p k x r size f :
  kinv E F m -> has_mm m p k x -> 0 <= r < 10 -> is_Some (reg m p r) ->
  kinv E F m1 -> kstep m m1 -> 0 < size <= pages_for size * 4096 -> 0 < pages_for size ->
  region_at m f (pages_for size) m1 ->
  let base := KMEM_VADDR_BASE + f * 4096 in
  wp (set_symrg p r (mkRg 0 base (base + size)) ;; set_reg p r base ;; ret 0)
    (kmalloc_post E F m p x r size) m1.
Proof.
  intros HKI Hp Hr Hreg HKI1 HK1 Hsz Hn HR base. pose proof (kstep_mm _ _ _ _ _ HK1 Hp) as Hp1.
  pose proof (region_at_fresh E F m m1 f _ HKI HK1 Hn HR) as HFr. destruct HR as (Hf & Hlt & Hfree & Hused & Hlow & _).
  apply wp_bind. unfold set_symrg. eapply wp_mono.
  { apply (upd_mm_lib E F m1 p k x (fun x => set_symrgtbl x (<[Z.to_nat r := mkRg 0 base (base + size)]> (symrgtbl x)))
      (proj1 HKI1) Hp1); done. }
  intros [] m2 (HI2 & (k2 & Hp2) & (Hs2 & HKk2 & Hbare & _) & HB2 & Er2).
  pose proof (kinv_keeps _ _ _ _ _ _ HKI1 HI2 Hs2 HKk2) as HKI2.
  assert (Hreg2 : is_Some (reg m2 p r)).
  { assert (reg m2 p r = reg m p r) as ->; [|done]. unfold reg. destruct HK1 as (Ep & _).
    rewrite Ep in Hbare. apply (f_equal (lookup p)) in Hbare. rewrite !lookup_fmap in Hbare.
    destruct (procs m !! p) as [y|], (procs m2 !! p) as [y2|]; simpl in *; try done.
    apply (inj Some) in Hbare. assert (regs y2 = regs y) as -> by (by apply (f_equal regs) in Hbare). done. }
  apply wp_bind. eapply wp_mono.
  { apply wp_and; [apply (set_reg_spec E F m2 p r base HI2); [by eexists _, _|lia|done]|].
    apply set_reg_sim; [|lia]. pose proof Hp2 as (_ & y & Hy & _)%has_mm_procs. by exists y. }
  intros [] m3 ((HI3 & HKk3 & HB3 & Hr3 & _ & Hmm3) & Hs3). apply wp_ret.
  pose proof (ksame_trans _ _ _ (ksame_sim _ _ _ _ (proj1 HKI1) Hs2 HKk2 HB2)
                (ksame_sim _ _ _ _ HI2 Hs3 HKk3 HB3)) as (HV & HB & HKB).
  split; [by eapply kinv_keeps|]. split.
  { intros q a Ha. rewrite HB by done. by apply (kstep_bytes m m1 HK1). }
  left. split; [done|]. pose proof Hs3 as (_ & Hsim & _). destruct (Hsim p _ _ Hp2) as (k3 & x3 & Hp3 & _).
  exists f, k3, x3. pose proof (mm_of_has_mm _ _ _ _ Hp3) as Hx3. rewrite Hmm3, (mm_of_has_mm _ _ _ _ Hp2) in Hx3.
  injection Hx3 as <-. split_and!; try done; [|lia|].
  { intros i Hi. rewrite Hfree. apply elem_of_app. left. by apply elem_of_seqZ. }
  destruct HFr as [Hnew Hold]. assert (HV1 : forall q, valid m q -> valid m1 q) by (intros q; by apply valid_kstep).
  split.
  - intros q a Hq Ha. destruct (Hnew q a Hq Ha) as [H1 H2]. split; [done|]. rewrite HKB; [done|by apply HV1|].
    unfold kregion_addr, base, KMEM_VADDR_BASE in *. lia.
  - intros q a Hq Ha Hb. rewrite HKB by auto. by apply Hold.
Qed.

Lemma kmalloc_spec E F m p k x r rg size :
  kinv E F m -> has_mm m p k x -> 0 <= r < 10 -> is_Some (reg m p r) ->
  symrgtbl x !! Z.to_nat r = Some rg -> rg_start rg = 0 -> rg_end rg = 0 -> 0 < size < 2 ^ 32 ->
  wp (libkmem_malloc p size r) (kmalloc_post E F m p x r size) m.
Proof.
  intros HKI Hp Hr Hreg Hrg H1 H2 Hsz. destruct (align_kpages size Hsz) as (_ & Hn & Hle & _).
  unfold libkmem_malloc. apply wp_bind. eapply wp_eq; [apply get_krnl_ok; apply Hp|]. cbv beta iota.
  unfold PAGING_MAX_SYMTBL_SZ. rewrite !bool_decide_false by lia. unfold __kmalloc.
  rewrite i32_small by lia. apply wp_bind, wp_bind. eapply wp_eq; [by eapply get_mm_ok|]. cbv beta iota.
  unfold PAGING_MAX_SYMTBL_SZ. rewrite !bool_decide_false by lia. cbn [orb]. rewrite Hrg, H1, H2.
  rewrite bool_decide_false by (by intros []). cbn [orb].
  apply wp_bind. eapply wp_mono; [by apply (alloc_region_spec E F m p k x size); [..|lia]|].
  intros [[base asz]|] m1 (HKI1 & HK1 & Ho).
  - destruct Ho as (f & -> & _ & -> & _ & HR).
    assert (Hb : u64 (KMEM_VADDR_BASE + f * 4096 + size) = KMEM_VADDR_BASE + f * 4096 + size).
    { destruct HR as (Hf & Hlt & _). apply u64_small. unfold is_u64, KMEM_VADDR_BASE. lia. }
    rewrite Hb. pose proof (kmalloc_record E F m m1 p k x r size f HKI Hp Hr Hreg HKI1 HK1 ltac:(lia) Hn HR) as Hrec.
    unfold wp, bind in Hrec |- *. destruct (set_symrg p r _ m1); try done.
  - destruct Ho as [Hun Hwhy]. apply wp_ret, wp_ret. split; [done|]. split; [by apply kstep_bytes|]. right.
    split_and!; try done; try apply HK1; try apply Hun. destruct Hwhy as [?|?]; [lia|done].
Qed.

(** ** The small machine *)

Lemma demo_kinv : kinv [] [] demo.
Proof.
  split; [apply demo_inv|]. intros p g f (k & x & Hp) _ Hres.
  destruct (demo_procs_inv p k x Hp) as (-> & -> & ->).
  rewrite (kpage_mm demo 100 demo_krnl demo_mm), pte_at_empty, decode_zero in Hres; [done| |done].
  done.
Qed.

Lemma kinv_lib E F m m' p : kinv E F m -> vm_inv E F m' -> lib_step p m m' -> kinv E F m'.
Proof. intros HK HI (Hs & Hkk & _). by eapply kinv_keeps. Qed.

Lemma reg_lib p m m' q i : lib_step p m m' -> reg m' q i = reg m q i.
Proof.
  intros (_ & _ & Hb & _). apply (f_equal (lookup q)) in Hb. rewrite !lookup_fmap in Hb. unfold reg.
  destruct (procs m !! q) as [y|], (procs m' !! q) as [y'|]; simpl in *; try done.
  apply (inj Some) in Hb. assert (regs y' = regs y) as ->; [|done]. by apply (f_equal regs) in Hb.
Qed.

(** ** Properties *)

(** C24. KMALLOC returns, and on success the register and its region name
    [size] bytes of kernel memory whose frames are the lowest contiguous run of
    free frames that is long enough, at their place in the direct map; none of
    these bytes was kernel memory before, every earlier kernel byte and every
    user byte keeps its value.  It fails only if there is no such run or an
    allocation of the simulator fails, and then gives back everything. *)
Theorem kmalloc_contiguous E F m p k x r rg size :
  kinv E F m -> has_mm m p k x -> 0 <= r < 10 -> is_Some (reg m p r) ->
  symrgtbl x !! Z.to_nat r = Some rg -> rg_start rg = 0 -> rg_end rg = 0 -> 0 < size < 2 ^ 32 ->
  wp (libkmem_malloc p size r) (fun s m' =>
    kinv E F m' /\ keeps_bytes m m' /\
    ((s = 0 /\ exists f k' x', let base := KMEM_VADDR_BASE + f * 4096 in
        has_mm m' p k' x' /\ mmap x' = mmap x /\
      symrgtbl x' = <[Z.to_nat r := mkRg 0 base (base + size)]> (symrgtbl x) /\
        reg m' p r = Some base /\ block_in f (pages_for size) (free_fp_list (ram m)) /\
        (forall f', block_in f' (pages_for size) (free_fp_list (ram m)) -> f <= f') /\
        size <= pages_for size * 4096 /\ kfresh m m' base (pages_for size * 4096)) \/
     (s = -1 /\ kstep m m' /\ kernel_unchanged m m' /\
        (may_oom m \/ forall f, ~ block_in f (pages_for size) (free_fp_list (ram m)))))) m.
Proof. apply kmalloc_spec. Qed.

Lemma kmalloc_contiguous_witness :
  (match libkmem_malloc 100 5000 1 demo with
   | Ret s m' => s = 0 /\ reg m' 100 1 = Some KMEM_VADDR_BASE
   | _ => False
   end) /\
  wp (libkmem_malloc 100 5000 1) (fun s m' => s = 0 \/ s = -1) demo.
Proof.
  split; [vm_compute; split; reflexivity|]. eapply wp_mono.
  { apply (kmalloc_contiguous [] [] demo 100 demo_krnl demo_mm 1 (mkRg 0 0 0) 5000 demo_kinv demo_has_mm
      ltac:(lia) ltac:(by eexists) eq_refl eq_refl eq_refl ltac:(lia)). }
  intros s m' (_ & _ & [(-> & _)|(-> & _)]); auto.
Defined.

(** C25. COPY_FROM_USER copies exactly: with status 0 each of the [size] bytes
    of the kernel region, from [offset] on, holds the byte of the user region
    at the same offset, and no other kernel byte and no user byte has changed.
    With status -1 a prefix has been copied, and the next byte is outside one
    of the two regions, cannot be brought into RAM, or is not mapped. *)
Theorem copy_from_user_exact E F m p k x src dst off size urg krg :
  kinv E F m -> has_mm m p k x ->
  0 <= src < 30 -> symrgtbl x !! Z.to_nat src = Some urg -> rg_ok urg ->
  0 <= dst < 30 -> symrgtbl x !! Z.to_nat dst = Some krg ->
  KMEM_VADDR_BASE <= rg_start krg /\ rg_end krg < 2 ^ 64 ->
  0 <= off -> 0 < size -> off + size <= 2 ^ 32 ->
  wp (libkmem_copy_from_user p src dst off size) (fun s m' =>
    (s = 0 /\ copied_in E F m p off urg krg size m') \/
    (s = -1 /\ exists n m1, 0 <= n < size /\ copied_in E F m p off urg krg n m' /\
       copied_in E F m p off urg krg n m1 /\ copy_blocked p off urg krg m1 n)) m.
Proof.
  intros HKI Hp Hs Hu Hok Hd Hk Hkr Hoff Hsz Hfit. unfold libkmem_copy_from_user, copy_guard.
  apply wp_bind. eapply wp_eq; [by eapply get_mm_ok|]. cbv beta iota. unfold PAGING_MAX_SYMTBL_SZ.
  rewrite !bool_decide_false by lia. cbn [orb]. eapply copy_in_loop; try done. lia.
Qed.

(** ALLOC of 300 bytes for register 0, then KMALLOC of 200 bytes for register
    1: the regions a copy needs. *)
Lemma demo_two_regions (Q : Z -> machine -> Prop) (c : M machine Z) :
  (forall m k x a f, kinv [] [] m -> has_mm m 100 k x -> 0 <= a -> a + 300 <= 2 ^ 56 -> 0 <= f ->
     f * 4096 + 200 < 2 ^ 40 ->
     symrgtbl x !! 0%nat = Some (mkRg 0 a (a + 300)) ->
     symrgtbl x !! 1%nat = Some (mkRg 0 (KMEM_VADDR_BASE + f * 4096) (KMEM_VADDR_BASE + f * 4096 + 200)) ->
     wp c Q m) ->
  wp (let* _ := liballoc 100 300 0 in
      let* s := libkmem_malloc 100 200 1 in if bool_decide (s = 0) then c else ret s)
    (fun s m => s = -1 \/ Q s m) demo.
Proof.
  intros Hc. unfold liballoc. apply wp_bind, wp_bind. eapply wp_mono.
  { apply (alloc_spec [] [] demo 100 demo_krnl demo_mm (mkVma 0 0 0 0 []) 0 300 demo_inv demo_has_mm demo_area).
    split; [lia|lia|by vm_compute|by vm_compute|apply demo_no_oom|by vm_compute]. }
  intros o m1 (HI1 & HL1 & _ & a & k1 & x1 & v1 & -> & Hp1 & HA1 & Ha & He & Es1 & _). apply wp_ret.
  pose proof (kinv_lib _ _ _ _ _ demo_kinv HI1 HL1) as HKI1. pose proof (ao_brk _ _ _ _ HA1) as [Hbrk _].
  apply wp_bind. eapply wp_mono.
  { apply (kmalloc_spec [] [] m1 100 k1 x1 1 (mkRg 0 0 0) 200 HKI1 Hp1); try lia; try done.
    - rewrite (reg_lib 100 demo m1) by done. by eexists.
    - by rewrite Es1. }
  intros s m2 (HKI2 & _ & [(-> & f & k2 & x2 & Hp2 & _ & Es2 & _ & Hblk & _ & _ & _)|(-> & _)]); simpl.
  2:{ apply wp_ret. by left. }
  assert (Hf : 0 <= f < 2 ^ 19).
  { destruct (free_frames_ok _ _ _ (proj1 HKI1)) as [_ Hr]. apply Hr, Hblk. change (pages_for 200) with 1. lia. }
  eapply wp_mono; [eapply (Hc m2 k2 x2 a f HKI2 Hp2); try lia|by right].
  - by rewrite Es2, Es1.
  - by rewrite Es2, Es1.
Qed.

Lemma copy_from_user_exact_witness :
  (match (liballoc 100 300 0 ;; libwrite 100 77 0 20 ;; libkmem_malloc 100 200 1 ;;
          libkmem_copy_from_user 100 0 1 20 100) demo with
   | Ret s m' => s = 0 /\ kbyte m' 100 (KMEM_VADDR_BASE + 4096 + 20) = Some 77
   | _ => False
   end) /\
  wp (let* _ := liballoc 100 300 0 in
      let* s := libkmem_malloc 100 200 1 in
      if bool_decide (s = 0) then libkmem_copy_from_user 100 0 1 20 100 else ret s)
    (fun s m => s = -1 \/ s = 0) demo.
Proof.
  split; [vm_compute; split; reflexivity|].
  eapply wp_mono; [apply (demo_two_regions (fun s _ => s = -1 \/ s = 0))|naive_solver].
  intros m k x a f HKI Hp Ha He Hf Hlt Hu Hk. eapply wp_mono.
  { apply (copy_from_user_exact [] [] m 100 k x 0 1 20 100 _ _ HKI Hp ltac:(lia) Hu
      ltac:(unfold rg_ok; simpl; lia) ltac:(lia) Hk); cbn [rg_start rg_end]; unfold KMEM_VADDR_BASE; lia. }
  intros s m' [[-> _]|[-> _]]; auto.
Defined.

(** COPY_TO_USER copies exactly: with status 0 each of the [size] bytes of
    the user region, from [offset] on, holds the byte of the kernel region at
    the same offset; no other user byte of any process and nothing of the
    kernel has changed.  With status -1 a prefix has been copied, and the next
    byte is outside one of the regions, cannot be brought into RAM, or is not
    mapped. *)
Theorem copy_to_user_exact E F m p k x src dst off size urg krg :
  kinv E F m -> has_mm m p k x ->
  0 <= dst < 30 -> symrgtbl x !! Z.to_nat dst = Some urg -> rg_ok urg ->
  0 <= src < 30 -> symrgtbl x !! Z.to_nat src = Some krg ->
  KMEM_VADDR_BASE <= rg_start krg /\ rg_end krg < 2 ^ 64 ->
  0 <= off -> 0 < size -> off + size <= 2 ^ 32 ->
  wp (libkmem_copy_to_user p src dst off size) (fun s m' =>
    (s = 0 /\ copied_out E F m p off urg krg size m') \/
    (s = -1 /\ exists n m1, 0 <= n < size /\ copied_out E F m p off urg krg n m' /\
       copied_out E F m p off urg krg n m1 /\ copy_blocked p off urg krg m1 n)) m.
Proof.
  intros HKI Hp Hs Hu Hok Hd Hk Hkr Hoff Hsz Hfit. unfold libkmem_copy_to_user, copy_guard.
  apply wp_bind. eapply wp_eq; [by eapply get_mm_ok|]. cbv beta iota. unfold PAGING_MAX_SYMTBL_SZ.
  rewrite !bool_decide_false by lia. cbn [orb]. eapply copy_out_loop; try done. lia.
Qed.

Lemma copy_to_user_exact_witness :
  wp (let* _ := liballoc 100 300 0 in
      let* s := libkmem_malloc 100 200 1 in
      if bool_decide (s = 0) then libkmem_copy_to_user 100 1 0 20 100 else ret s)
    (fun s m => s = -1 \/ s = 0) demo.
Proof.
  eapply wp_mono; [apply (demo_two_regions (fun s _ => s = -1 \/ s = 0))|naive_solver].
  intros m k x a f HKI Hp Ha He Hf Hlt Hu Hk. eapply wp_mono.
  { apply (copy_to_user_exact [] [] m 100 k x 1 0 20 100 _ _ HKI Hp ltac:(lia) Hu
      ltac:(unfold rg_ok; simpl; lia) ltac:(lia) Hk); cbn [rg_start rg_end]; unfold KMEM_VADDR_BASE; lia. }
  intros s m' [[-> _]|[-> _]]; auto.
Defined.
