(* ===== verification/Cache.v ===== *)
(** * Caches of fixed-size kernel objects: proofs

    A pool is one slab of equal slots in a region of kernel memory.  Objects
    are handed out in address order, each slot once, until the pool is
    exhausted. *)

From S2P Require Import Prelude.
From S2P Require Import Word.
From S2P Require Import Exclusive.
From S2P Require Import Paging.
From S2P Require Import MemPhy.
From S2P Require Import Region.
From S2P Require Import Machine.
From S2P Require Import PageTable.
From S2P Require Import Swap.
From S2P Require Import Vm.
From S2P Require Import Evict.
From S2P Require Import Area.
From S2P Require Import Libmem.
From S2P Require Import Heap.
From S2P Require Import Kmem.
From S2P Require Import Kernel.

(** ** A pool after [t] of its [n] slots have been taken *)

Definition slots (base al t n : Z) : list Z := (fun i => base + i * al) <$> seqZ t (n - t).

Definition slab_at (base al n t : Z) : kmem_cache_slab_struct :=
  mkSlab base al n (n - t) (slots base al t n).

Definition pool_at (base al n asz t : Z) : kcache_pool_struct :=
  let s := slab_at base al n t in
  mkPool (n * al) al n base asz
    (if bool_decide (t = 0) then [s] else [])
    (if bool_decide (0 < t < n) then [s] else [])
    (if bool_decide (0 < t) && bool_decide (t = n) then [s] else []).

(** Taking a slot advances the pool; an exhausted pool has none. *)
Lemma take_slot_spec base al n asz t :
  0 <= t <= n -> 0 < n < 2 ^ 31 ->
  take_slot (pool_at base al n asz t) =
  if bool_decide (t < n) then Some (base + t * al, pool_at base al n asz (t + 1)) else None.
Proof.
  intros Ht Hn. unfold take_slot, pool_at. cbn [partial_slabs empty_slabs full_slabs].
  destruct (decide (t < n)) as [Hlt|Hlt]; [rewrite (bool_decide_true (t < n)) by done|].
  2:{ rewrite (bool_decide_false (t < n)) by done. rewrite (bool_decide_false (t = 0)), (bool_decide_false (0 < t < n)) by lia. done. }
  assert (Hs : slots base al t n = (base + t * al) :: slots base al (t + 1) n).
  { unfold slots. rewrite seqZ_cons by lia. cbn [fmap list_fmap]. do 2 f_equal. f_equal; lia. }
  assert (Hc : i32 (n - t - 1) = n - (t + 1)) by (rewrite i32_small; lia).
  destruct (decide (t = 0)) as [->|H0].
  - rewrite (bool_decide_false (0 < 0 < n)), (bool_decide_true (0 = 0)) by lia.
    cbn [slab_at free_list slab_start slot_size slab_slot_count free_count]. rewrite Hs, Hc.
    cbn [free_count pool_size align slot_count pool_storage alloc_size].
    rewrite (bool_decide_false (0 < 0)) by lia. cbn [andb].
    rewrite (bool_decide_false (0 + 1 = 0)), (bool_decide_true (0 < 0 + 1)) by lia. cbn [andb].
    destruct (decide (n = 1)) as [->|]; [done|].
    by rewrite (bool_decide_false (n - (0 + 1) = 0)), (bool_decide_true (0 < 0 + 1 < n)),
      (bool_decide_false (0 + 1 = n)) by lia.
  - rewrite (bool_decide_true (0 < t < n)), (bool_decide_false (t = 0)) by lia.
    cbn [slab_at free_list slab_start slot_size slab_slot_count free_count]. rewrite Hs, Hc.
    cbn [free_count pool_size align slot_count pool_storage alloc_size].
    rewrite (bool_decide_false (t = n)), andb_false_r by lia.
    rewrite (bool_decide_false (t + 1 = 0)), (bool_decide_true (0 < t + 1)) by lia. cbn [andb].
    destruct (decide (t + 1 = n)) as [<-|].
    + by rewrite (bool_decide_true (t + 1 - (t + 1) = 0)), (bool_decide_false (0 < t + 1 < t + 1)),
        (bool_decide_true (t + 1 = t + 1)) by lia.
    + by rewrite (bool_decide_false (n - (t + 1) = 0)), (bool_decide_true (0 < t + 1 < n)),
        (bool_decide_false (t + 1 = n)) by lia.
Qed.

(** ** Updates of the process's own record *)

Lemma upd_mm_own E F m p k x f :
  kinv E F m -> has_mm m p k x -> pgd (f x) = pgd x -> fifo_pgn (f x) = fifo_pgn x ->
  wp (upd_mm p f) (fun _ m' =>
    kinv E F m' /\ ksame m m' /\ (exists k', has_mm m' p k' (f x)) /\ ram m' = ram m /\
    oom m' = oom m /\ (forall q g, valid m q -> kernel_page g -> kpage m' q g = kpage m q g) /\
    forall q i, reg m' q i = reg m q i) m.
Proof.
  intros HKI Hp E1 E2. eapply wp_mono; [by eapply (upd_mm_lib E F m p k x f (proj1 HKI) Hp)|].
  intros [] m' (HI' & Hk' & HL & HB & Er). pose proof HL as (Hs & HK & Hb & Ho & _).
  split_and!; try done.
  - by eapply kinv_keeps.
  - by eapply ksame_sim; [apply HKI|..].
  - intros q g. by apply kpage_keeps.
  - intros q i. by apply (reg_lib p m m').
Qed.

Lemma set_reg_own E F m p i v :
  kinv E F m -> valid m p -> 0 <= i < 10 -> is_Some (reg m p i) ->
  wp (set_reg p i v) (fun _ m' =>
    kinv E F m' /\ ksame m m' /\ reg m' p i = Some v /\
    (forall j, is_Some (reg m p j) -> is_Some (reg m' p j)) /\
    forall k x, has_mm m p k x -> exists k', has_mm m' p k' x) m.
Proof.
  intros HKI Hv Hi Hreg. eapply wp_mono.
  { apply wp_and; [apply (set_reg_spec E F m p i v (proj1 HKI) Hv Hi Hreg)|].
    apply set_reg_sim; [|done]. destruct Hv as (k & x & (_ & y & Hy & _)%has_mm_procs). by exists y. }
  intros [] m' ((HI & HK & HB & Hr & Ho & Hmm) & Hs). split_and!; try done.
  - by eapply kinv_keeps.
  - by eapply ksame_sim; [apply HKI|..].
  - intros j Hj. destruct (decide (Z.to_nat j = Z.to_nat i)) as [He|He].
    + assert (reg m' p j = reg m' p i) as ->; [unfold reg; by rewrite He|by rewrite Hr].
    + rewrite Ho by (by right). done.
  - intros k x Hp. pose proof Hs as (_ & Hsim & _). destruct (Hsim p k x Hp) as (k' & x' & Hp' & _).
    pose proof (mm_of_has_mm _ _ _ _ Hp') as Hx. rewrite Hmm, (mm_of_has_mm _ _ _ _ Hp) in Hx.
    injection Hx as ->. by exists k'.
Qed.

(** ** Taking an object *)

Section cache_alloc.
Context (E F : list Z) (m : machine) (p : Z) (k : krnl_t) (x : mm_struct).
Context (HKI : kinv E F m) (Hp : has_mm m p k x).
Context (r id base al n asz t : Z) (tbl : list kcache_pool_struct) (rg : vm_rg_struct).
Context (Hid : 0 <= id < 30) (Hr : 0 <= r < 10) (Hreg : is_Some (reg m p r)).
Context (Htbl : kcpooltbl x = Some tbl) (Hpool : tbl !! Z.to_nat id = Some (pool_at base al n asz t)).
Context (Hrg : symrgtbl x !! Z.to_nat r = Some rg) (H0 : rg_start rg = 0 /\ rg_end rg = 0).
Context (Ht : 0 <= t <= n) (Hn : 0 < n) (Hal : 0 < al) (Hna : n * al < 2 ^ 31).
Context (Hbase : 0 <= base /\ base + 2 ^ 32 < 2 ^ 64).

Definition cache_alloc_post (s : Z) (m' : machine) : Prop :=
  kinv E F m' /\ ksame m m' /\
  if bool_decide (t < n)
  then s = 0 /\ exists k' x', has_mm m' p k' x' /\ mmap x' = mmap x /\
    kcpooltbl x' = Some (<[Z.to_nat id := pool_at base al n asz (t + 1)]> tbl) /\
    symrgtbl x' = <[Z.to_nat r := mkRg 0 (base + t * al) (base + t * al + n * al)]> (symrgtbl x) /\
    reg m' p r = Some (base + t * al) /\ (forall j, is_Some (reg m p j) -> is_Some (reg m' p j))
  else s = -1 /\ m' = m.

Lemma cache_alloc_spec : wp (libkmem_cache_alloc p r id) cache_alloc_post m.
Proof using All.
  assert (Hsame : ksame m m) by by split_and!.
  unfold libkmem_cache_alloc. apply wp_bind. eapply wp_eq; [by eapply get_mm_ok|]. cbv beta iota.
  unfold PAGING_MAX_SYMTBL_SZ. rewrite !bool_decide_false by lia. cbn [orb].
  unfold __kmem_cache_alloc. rewrite !i32_small by lia. apply wp_bind, wp_bind.
  eapply wp_eq; [by eapply get_mm_ok|]. cbv beta iota. unfold PAGING_MAX_SYMTBL_SZ.
  rewrite !bool_decide_false by lia. cbn [orb]. rewrite Htbl. cbn [mbind option_bind]. rewrite Hpool.
  cbn [pool_at pool_size]. rewrite bool_decide_false by nia. rewrite Hrg. destruct H0 as [-> ->].
  rewrite bool_decide_false by (by intros []). cbn [orb].
  fold (pool_at base al n asz t). rewrite take_slot_spec by nia. unfold cache_alloc_post.
  destruct (decide (t < n)) as [Hlt|Hlt]; [|rewrite bool_decide_false by done; by apply wp_ret, wp_ret].
  rewrite !(bool_decide_true (t < n)) by done.
  assert (Hta : 0 <= t * al <= n * al) by nia.
  rewrite u64_small by (unfold is_u64; lia).
  apply wp_bind. unfold set_pool. eapply wp_mono; [by eapply (upd_mm_own E F m p k x)|].
  intros [] m1 (HKI1 & HS1 & (k1 & Hp1) & _ & _ & _ & Hreg1). rewrite Htbl in Hp1. cbn [fmap option_fmap option_map] in Hp1.
  apply wp_bind. unfold set_symrg. eapply wp_mono; [by eapply (upd_mm_own E F m1 p k1 _ _ HKI1 Hp1)|].
  intros [] m2 (HKI2 & HS2 & (k2 & Hp2) & _ & _ & _ & Hreg2). apply wp_ret.
  apply wp_bind. eapply wp_mono.
  { apply (set_reg_own E F m2 p r (base + t * al) HKI2); [by eexists _, _|done|]. by rewrite Hreg2, Hreg1. }
  intros [] m3 (HKI3 & HS3 & Hr3 & Hrs3 & Hmm3). apply wp_ret. split; [done|]. split.
  - eapply ksame_trans; [exact HS1|]. by eapply ksame_trans.
  - split; [done|]. destruct (Hmm3 _ _ Hp2) as [k3 Hp3]. eexists k3, _. split; [exact Hp3|].
    split_and!; try done. intros j Hj. apply Hrs3. by rewrite Hreg2, Hreg1.
Qed.
End cache_alloc.

(** ** Creating a pool *)

(** Only the allocation counter has moved. *)
Definition only_mallocs (m m' : machine) : Prop := exists c, m' = set_mallocs m c.

Lemma only_mallocs_trans m1 m2 m3 : only_mallocs m1 m2 -> only_mallocs m2 m3 -> only_mallocs m1 m3.
Proof. intros [c ->] [c' ->]. by exists c'. Qed.

Lemma only_mallocs_refl m : only_mallocs m m.
Proof. exists (mallocs m). by destruct m. Qed.

Lemma malloc_only m :
  wp malloc (fun ok m' => only_mallocs m m' /\ (ok = false -> may_oom m)) m.
Proof.
  unfold wp, malloc. split; [by eexists|]. intros H. exists (mallocs m). by apply negb_false_iff in H.
Qed.

Lemma slab_slots_spec base al n : forall idx m,
  0 <= idx -> 0 < al -> (idx + Z.of_nat n) * al < 2 ^ 31 -> 0 <= base -> base + 2 ^ 32 < 2 ^ 64 ->
  wp (slab_slots base al idx n) (fun o m' => only_mallocs m m' /\
    (o = Some (slots base al idx (idx + Z.of_nat n)) \/ (o = None /\ may_oom m))) m.
Proof.
  induction n as [|n IH]; intros idx m Hi Hal Hlt Hb Hb'.
  { apply wp_ret. split; [apply only_mallocs_refl|]. left. unfold slots. rewrite seqZ_nil by lia. done. }
  cbn [slab_slots]. apply wp_bind. eapply wp_mono; [apply malloc_only|]. intros [] m1 [HM1 Ho].
  2:{ apply wp_ret. split; [done|]. right. by split; [|apply Ho]. }
  simpl. apply wp_bind. eapply wp_eq; [unfold int_mul; rewrite bool_decide_true by nia; reflexivity|].
  apply wp_bind. eapply wp_mono; [apply (IH (idx + 1) m1); (done || lia || nia)|].
  intros o m2 [HM2 Ho2]. apply wp_ret. split; [by eapply only_mallocs_trans|].
  destruct Ho2 as [->|[-> Hoom]].
  - left. cbn [fmap option_fmap option_map]. f_equal. unfold slots at 2. rewrite seqZ_cons by lia.
    cbn [fmap list_fmap]. rewrite u64_small by (unfold is_u64; nia). f_equal. unfold slots. do 2 f_equal; lia.
  - right. split; [done|]. destruct HM1 as [c ->]. destruct Hoom as [j Hj]. by exists j.
Qed.

Lemma create_slab_spec base al n m :
  0 < al -> 0 <= n -> n * al < 2 ^ 31 -> 0 <= base -> base + 2 ^ 32 < 2 ^ 64 ->
  wp (create_cache_slab base al n) (fun o m' => only_mallocs m m' /\
    (o = Some (slab_at base al n 0) \/ (o = None /\ may_oom m))) m.
Proof.
  intros Hal Hn Hlt Hb Hb'. unfold create_cache_slab. apply wp_bind.
  eapply wp_mono; [apply malloc_only|]. intros [] m1 [HM1 Ho].
  2:{ apply wp_ret. split; [done|]. right. by split; [|apply Ho]. }
  simpl. apply wp_bind. eapply wp_mono; [apply (slab_slots_spec base al (Z.to_nat n) 0 m1); lia|].
  intros o m2 [HM2 Ho2]. apply wp_ret. split; [by eapply only_mallocs_trans|].
  destruct Ho2 as [->|[-> Hoom]]; [left|right].
  - rewrite Z2Nat.id by done. cbn [fmap option_fmap option_map]. unfold slab_at. by rewrite Z.add_0_l, Z.sub_0_r.
  - split; [done|]. destruct HM1 as [c ->]. destruct Hoom as [j Hj]. by exists j.
Qed.

(** Every pool of [l] is one of [tbl] or zeroed. *)
Definition pools_from (tbl : option (list kcache_pool_struct)) (l : list kcache_pool_struct) : Prop :=
  Forall (fun pl => pl = zero_pool \/ pl ∈ default [] tbl) l.

Lemma pools_from_refl l : pools_from (Some l) l.
Proof. apply Forall_forall. auto. Qed.

Lemma pools_from_zero tbl n : pools_from tbl (replicate n zero_pool).
Proof. apply Forall_replicate. by left. Qed.

(** The table with a zeroed entry at [id]. *)
Lemma grow_table_spec tbl id m :
  0 <= id ->
  (forall l, tbl = Some l -> forall pl, l !! Z.to_nat id = Some pl -> pl = zero_pool) ->
  wp (grow_pool_table tbl (id + 1)) (fun o m' => only_mallocs m m' /\
    match o with
    | None => may_oom m
    | Some l => l !! Z.to_nat id = Some zero_pool /\
        (forall j pl, default [] tbl !! j = Some pl -> l !! j = Some pl) /\ pools_from tbl l
    end) m.
Proof.
  intros Hid Hz. unfold grow_pool_table. destruct tbl as [l|].
  - case_bool_decide as Hlen.
    + apply wp_bind. eapply wp_mono; [apply malloc_only|]. intros [] m1 [HM Ho]; apply wp_ret; split; try done.
      2:{ by apply Ho. }
      split; [|split].
      * rewrite lookup_app_r by lia. rewrite lookup_replicate_2; [done|lia].
      * intros j pl Hj. rewrite lookup_app_l; [done|]. by eapply lookup_lt_Some.
      * apply Forall_app. split; [apply pools_from_refl|apply pools_from_zero].
    + apply wp_ret. split; [apply only_mallocs_refl|]. split; [|split; [done|apply pools_from_refl]].
      destruct (lookup_lt_is_Some_2 l (Z.to_nat id) ltac:(lia)) as [pl Hpl]. by rewrite (Hz l eq_refl pl Hpl) in Hpl.
  - apply wp_bind. eapply wp_mono; [apply malloc_only|]. intros [] m1 [HM Ho]; apply wp_ret; split; try done.
    2:{ by apply Ho. }
    split; [|split; [done|apply pools_from_zero]]. rewrite lookup_replicate_2; [done|lia].
Qed.

Lemma ksame_mallocs m m' : only_mallocs m m' -> ksame m m'.
Proof.
  intros [c ->]. split_and!; [|done|done]. intros q (k & x & Hq). exists k, x. by eapply has_mm_same.
Qed.

Lemma kstep_cell m m' b : kstep m m' -> cell (ram m') b = cell (ram m) b.
Proof. intros (_ & _ & _ & _ & (fr & us & ->) & _). done. Qed.

Lemma ksame_unchanged m m' : kstep m m' -> kernel_unchanged m m' -> ksame m m'.
Proof.
  intros HK (_ & _ & Hkp). split_and!.
  - intros q. by apply valid_kstep.
  - by apply kstep_bytes.
  - intros q a Hq Ha. destruct (kregion_page a Ha) as (_ & _ & Hg & _). unfold kbyte.
    destruct (kpage m q (addr_pgn a)) as [f| |] eqn:Hp.
    + rewrite (proj2 (Hkp q _ f Hq Hg) Hp). by rewrite (kstep_cell m m').
    + destruct (kpage m' q (addr_pgn a)) as [f'| |] eqn:Hp'; try done.
      apply (Hkp q _ f' Hq Hg) in Hp'. congruence.
    + destruct (kpage m' q (addr_pgn a)) as [f'| |] eqn:Hp'; try done.
      apply (Hkp q _ f' Hq Hg) in Hp'. congruence.
Qed.

Lemma kfresh_same m m1 m2 m3 base asz :
  ksame m m1 -> kfresh m1 m2 base asz -> ksame m2 m3 -> (forall q, valid m1 q -> valid m2 q) ->
  KMEM_VADDR_BASE <= base -> base + asz <= 2 ^ 64 -> kfresh m m3 base asz.
Proof.
  intros (V1 & _ & K1) [N O] (V3 & _ & K3) V2 Hb He.
  assert (Hka : forall a, base <= a < base + asz -> kregion_addr a) by (unfold kregion_addr; lia).
  split.
  - intros q a Hq Ha. destruct (N q a (V1 q Hq) Ha) as [H1 H2]. rewrite <- K1, K3 by auto. done.
  - intros q a Hq Ha Hout. rewrite K3, O, K1 by auto. done.
Qed.

(** Undoing an allocation after changes that left kernel memory alone. *)
Lemma region_undo E F m2 m3 m5 p k x f n :
  kinv E F m2 -> kstep m2 m3 -> 0 < n -> region_at m2 f n m3 -> kinv E F m5 -> has_mm m5 p k x ->
  ksame m3 m5 -> ram m5 = ram m3 ->
  (forall q g, valid m3 q -> kernel_page g -> kpage m5 q g = kpage m3 q g) ->
  wp (kernel_release_contiguous_region p (KMEM_VADDR_BASE + f * 4096) n) (fun _ m6 =>
    kinv E F m6 /\ kstep m5 m6 /\ ksame m2 m6 /\
    free_fp_list (ram m6) ≡ₚ free_fp_list (ram m2) /\ used_fp_list (ram m6) ≡ₚ used_fp_list (ram m2)) m5.
Proof.
  intros HKI2 HK3 Hn HR HKI5 Hp5 (HV5 & HB5 & HKB5) Er Hkp5.
  pose proof (region_at_fresh E F m2 m3 f n HKI2 HK3 Hn HR) as [HN HO].
  destruct HR as (Hf & Hlt & Hfree & Hused & _ & Hkp3). rewrite <- kvaddr by lia. eapply wp_mono.
  { apply (release_spec E F m5 p k x f n (used_fp_list (ram m2)) HKI5 Hp5); try done.
    by rewrite Er, Hused, reverse_Permutation. }
  intros [] m6 (HKI6 & HK6 & Hfr & Hus & Hkp6). split; [done|]. split; [done|]. split.
  - assert (HV3 : forall q, valid m2 q -> valid m3 q) by (intros q; by apply valid_kstep).
    split_and!.
    + intros q Hq. apply (valid_kstep m5 m6 q HK6). auto.
    + intros q a Ha. rewrite (kstep_bytes m5 m6 HK6), HB5 by done. by apply (kstep_bytes m2 m3).
    + intros q a Hq Ha. destruct (kregion_page a Ha) as (_ & _ & Hg & _). unfold kbyte.
      rewrite Hkp6 by auto. case_bool_decide as Hin.
      * specialize (Hkp3 q (addr_pgn a) Hq Hg).
        destruct (HN q a Hq) as [Hnone _]; [|by unfold kbyte in Hnone].
        rewrite addr_pgn_div in Hin. unfold KPAGE, KMEM_VADDR_BASE, PAGING64_PAGESZ in *.
        change (0xffff800000000000 / 4096) with 0xffff800000000 in Hin. Z.div_mod_to_equations. lia.
      * rewrite Hkp5 by auto. rewrite Hkp3, bool_decide_false by done.
        destruct (kpage m2 q (addr_pgn a)); try done. by rewrite (kstep_cell m5 m6), Er, (kstep_cell m2 m3).
  - rewrite Hfr, Hus, Er, Hfree, reverse_Permutation. done.
Qed.

(** The outcome of creating pool [id]. *)
Definition create_post (E F : list Z) (m : machine) (p : Z) (x : mm_struct) (size al id : Z)
    (s : Z) (m' : machine) : Prop :=
  kinv E F m' /\ keeps_bytes m m' /\ (forall q i, reg m' q i = reg m q i) /\
  ((s = 0 /\ exists f k' x' tbl, let base := KMEM_VADDR_BASE + f * 4096 in
      let asz := pages_for size * 4096 in
      has_mm m' p k' x' /\ mmap x' = mmap x /\ symrgtbl x' = symrgtbl x /\ kcpooltbl x' = Some tbl /\
      tbl !! Z.to_nat id = Some (pool_at base al (size / al) asz 0) /\
      (forall j pl, default [] (kcpooltbl x) !! j = Some pl -> j <> Z.to_nat id -> tbl !! j = Some pl) /\
      0 <= f /\ f + pages_for size <= 2 ^ 19 /\ size <= asz /\ kfresh m m' base asz /\
      exists l, tbl = <[Z.to_nat id := pool_at base al (size / al) asz 0]> l /\ pools_from (kcpooltbl x) l) \/
   (s = -1 /\ ksame m m' /\ free_fp_list (ram m') ≡ₚ free_fp_list (ram m) /\
      used_fp_list (ram m') ≡ₚ used_fp_list (ram m) /\
      (may_oom m \/ forall f, ~ block_in f (pages_for size) (free_fp_list (ram m))) /\
      exists k' x', has_mm m' p k' x' /\ mmap x' = mmap x /\ symrgtbl x' = symrgtbl x /\
        pools_from (kcpooltbl x) (default [] (kcpooltbl x')))).

Section create.
Context (E F : list Z) (m m2 m3 : machine) (p : Z) (k2 : krnl_t) (x x2 : mm_struct).
Context (size al id f : Z) (tbl : list kcache_pool_struct).
Context (HKI2 : kinv E F m2) (HS2 : ksame m m2) (Er2 : ram m2 = ram m) (Eo2 : oom m2 = oom m).
Context (Hreg2 : forall q i, reg m2 q i = reg m q i).
Context (Hp2 : has_mm m2 p k2 x2) (Es2 : symrgtbl x2 = symrgtbl x /\ mmap x2 = mmap x) (Et2 : kcpooltbl x2 = Some tbl).
Context (Hid : 0 <= id) (Hz : tbl !! Z.to_nat id = Some zero_pool).
Context (Hold : forall j pl, default [] (kcpooltbl x) !! j = Some pl -> tbl !! j = Some pl).
Context (Hnew : pools_from (kcpooltbl x) tbl).
Context (Hal : 0 < al <= size) (Hsz : size < 2 ^ 31).
Context (HKI3 : kinv E F m3) (HK3 : kstep m2 m3) (HR : region_at m2 f (pages_for size) m3).
Notation base := (KMEM_VADDR_BASE + f * 4096).
Notation n := (size / al).
Notation asz := (pages_for size * 4096).

(** From the allocated region to the end: the slab is built, or all is undone. *)
Lemma create_finish :
  wp (set_pool p id (mkPool (n * al) al n base asz [] [] []) ;;
      let* slab := create_cache_slab base al n in
      match slab with
      | None => kernel_release_contiguous_region p base (pages_for size) ;;
                set_pool p id zero_pool ;; ret (-1)
      | Some slab => set_pool p id (mkPool (n * al) al n base asz [slab] [] []) ;; ret 0
      end) (create_post E F m p x size al id) m3.
Proof using All.
  destruct (align_kpages size ltac:(lia)) as (_ & Hpn & Hle & _).
  assert (Hn : 0 < n /\ n * al <= size).
  { split; [apply Z.div_str_pos; lia|]. rewrite Z.mul_comm. apply Z.mul_div_le. lia. }
  pose proof HR as (Hf & Hlt & _). pose proof (kstep_mm _ _ _ _ _ HK3 Hp2) as Hp3.
  pose proof (region_at_fresh E F m2 m3 f _ HKI2 HK3 Hpn HR) as HFr.
  assert (HB3 : keeps_bytes m m3).
  { intros q a Ha. rewrite (kstep_bytes m2 m3 HK3) by done. by apply HS2. }
  assert (Hbase : 0 <= base /\ base + 2 ^ 32 < 2 ^ 64) by (unfold KMEM_VADDR_BASE; lia).
  apply wp_bind. unfold set_pool at 1. eapply wp_mono; [by eapply (upd_mm_own E F m3 p k2 x2 _ HKI3 Hp3)|].
  intros [] m4 (HKI4 & HS4 & (k4 & Hp4) & Er4 & Eo4 & Hkp4 & Hreg4).
  assert (Hreg3 : forall q i, reg m3 q i = reg m q i).
  { intros q i. rewrite <- Hreg2. unfold reg. destruct HK3 as (-> & _). done. }
  apply wp_bind. eapply wp_mono; [apply (create_slab_spec base al n m4); lia|].
  intros o m5 [HM5 Ho5]. pose proof (ksame_trans _ _ _ HS4 (ksame_mallocs _ _ HM5)) as HS5.
  destruct HM5 as [c ->]. pose proof (kinv_mallocs E F m4 c HKI4) as HKI5.
  assert (Hp5 : has_mm (set_mallocs m4 c) p k4 _) by (by eapply has_mm_same; [|exact Hp4]).
  destruct Ho5 as [->|[-> Hoom]].
  - apply wp_bind. unfold set_pool. eapply wp_mono; [by eapply (upd_mm_own E F _ p k4 _ _ HKI5 Hp5)|].
    intros [] m6 (HKI6 & HS6 & (k6 & Hp6) & _ & _ & _ & Hreg6). apply wp_ret.
    pose proof (ksame_trans _ _ _ HS5 HS6) as HS36. split; [done|]. split.
    { intros q a Ha. rewrite (proj1 (proj2 HS36)) by done. by apply HB3. }
    split; [intros q i; rewrite Hreg6; unfold reg at 1; cbn [procs set_mallocs]; fold (reg m4 q i);
            by rewrite Hreg4|].
    left. split; [done|]. eexists f, k6, _, (<[Z.to_nat id := pool_at base al n asz 0]> tbl). cbv zeta.
    split; [exact Hp6|]. split; [apply Es2|]. split; [apply Es2|]. split.
    { simpl. rewrite Et2. simpl. rewrite list_insert_insert_eq. done. }
    split; [apply list_lookup_insert_eq; by eapply lookup_lt_Some|]. split.
    { intros j pl Hj Hne. rewrite list_lookup_insert_ne by done. by apply Hold. }
    split; [done|]. split; [done|]. split; [done|]. split; [|by exists tbl].
    eapply (kfresh_same m m2 m3 m6); [done|done|done| |lia|unfold KMEM_VADDR_BASE; lia].
    intros q. by apply valid_kstep.
  - apply wp_bind. eapply wp_mono.
    { eapply (region_undo E F m2 m3 (set_mallocs m4 c) p k4 _ f (pages_for size)); try done. }
    intros [] m6 (HKI6 & HK6 & HS6 & Hfr & Hus). apply wp_bind. unfold set_pool.
    eapply wp_mono; [eapply (upd_mm_own E F m6 p k4 _ _ HKI6); [by eapply kstep_mm|done|done]|].
    intros [] m7 (HKI7 & HS7 & (k7 & Hp7) & Er7 & _ & _ & Hreg7). apply wp_ret.
    pose proof (ksame_trans _ _ _ HS2 (ksame_trans _ _ _ HS6 HS7)) as HS27.
    split; [done|]. split; [apply HS27|]. split.
    { intros q i. rewrite Hreg7. unfold reg at 1. destruct HK6 as (-> & _). cbn [procs set_mallocs].
      fold (reg m4 q i). by rewrite Hreg4. }
    right. split; [done|]. split; [done|].
    rewrite Er7, Hfr, Hus, Er2. split; [done|]. split; [done|]. split.
    { left. destruct Hoom as [j Hj]. exists j. destruct HK3 as (_ & _ & Eo3 & _). congruence. }
    eexists k7, _. split; [exact Hp7|]. split; [apply Es2|]. split; [apply Es2|].
    simpl. rewrite Et2. simpl. rewrite list_insert_insert_eq. apply Forall_insert; [exact Hnew|by left].
Qed.
End create.

Lemma pool_create_spec E F m p k x size al id :
  kinv E F m -> has_mm m p k x -> 0 <= id < 30 -> 0 < al <= size -> size < 2 ^ 31 ->
  (forall l pl, kcpooltbl x = Some l -> l !! Z.to_nat id = Some pl -> pl = zero_pool) ->
  wp (libkmem_cache_pool_create p size al id) (create_post E F m p x size al id) m.
Proof.
  intros HKI Hp Hid Hal Hsz Hz.
  assert (Hn : 0 < size / al /\ size / al * al <= size).
  { split; [apply Z.div_str_pos; lia|]. rewrite Z.mul_comm. apply Z.mul_div_le. lia. }
  assert (Hn31 : size / al < 2 ^ 31) by nia.
  unfold libkmem_cache_pool_create. apply wp_bind. eapply wp_eq; [by eapply get_mm_ok|]. cbv beta iota.
  unfold PAGING_MAX_SYMTBL_SZ.
  rewrite (bool_decide_false (30 <= id)), (bool_decide_false (size = 0)), (bool_decide_false (al = 0)) by lia.
  cbn [orb]. rewrite bool_decide_false by nia.
  rewrite Z.div_mul by lia. rewrite !i32_small by lia. rewrite bool_decide_false by lia.
  apply wp_bind. eapply wp_mono; [apply (grow_table_spec (kcpooltbl x) id m); [lia|naive_solver]|].
  intros o m1 [HM1 Ho]. pose proof (ksame_mallocs _ _ HM1) as HS1. destruct HM1 as [c ->].
  pose proof (kinv_mallocs E F m c HKI) as HKI1. destruct o as [tbl|].
  2:{ apply wp_ret. split; [done|]. split; [done|]. split; [done|].
      right. split; [done|]. split; [done|]. split; [done|]. split; [done|]. split; [by left|].
      exists k, x. split; [by eapply has_mm_same|]. split; [done|]. split; [done|].
      destruct (kcpooltbl x); [apply pools_from_refl|constructor]. }
  destruct Ho as (Hzt & Hold & Hnew). apply wp_bind.
  eapply wp_mono; [eapply (upd_mm_own E F _ p k x _ HKI1); [by eapply has_mm_same|done|done]|].
  intros [] m2 (HKI2 & HS2 & (k2 & Hp2) & Er2 & Eo2 & _ & Hreg2). rewrite Hzt. cbn [pool_size zero_pool].
  pose proof (ksame_trans _ _ _ HS1 HS2) as HS12.
  rewrite (bool_decide_false (0 <> 0)) by (by intros []). apply wp_bind.
  eapply wp_mono; [by apply (alloc_region_spec E F m2 p k2 _ size HKI2 Hp2); lia|].
  intros [[base asz]|] m3 (HKI3 & HK3 & Hr).
  - destruct Hr as (f & -> & _ & -> & _ & HR).
    assert (u32 (size + PAGING64_PAGESZ - 1) / PAGING64_PAGESZ = pages_for size) as ->.
    { unfold u32, PAGING64_PAGESZ, pages_for. rewrite Z.mod_small by lia. f_equal. lia. }
    by eapply (create_finish E F m m2 m3 p k2 x _ size al id f tbl HKI2 HS12); try done; lia.
  - destruct Hr as [Hun Hwhy]. pose proof (ksame_unchanged _ _ HK3 Hun) as HS3.
    pose proof (ksame_trans _ _ _ HS12 HS3) as HS13. apply wp_ret. split; [done|]. split; [apply HS13|].
    split; [intros q i; transitivity (reg m2 q i); [unfold reg; by destruct HK3 as (-> & _)|by rewrite Hreg2]|].
    right. split; [done|]. split; [done|]. destruct Hun as (U1 & U2 & _). rewrite U1, U2, Er2.
    split; [done|]. split; [done|]. split.
    { rewrite Er2 in Hwhy. destruct Hwhy as [?|[[j Hj]|?]]; [lia| |by right].
      left. exists j. by rewrite Eo2 in Hj. }
    eexists k2, _. split; [by eapply kstep_mm|]. done.
Qed.

(** ** Properties *)

(** C26. KMEM_CACHE_CREATE returns, and on success the pool covers a fresh
    region of kernel memory cut into [size / align] free slots of [align]
    bytes, in address order and inside the region; other pools, all regions,
    all user bytes and all earlier kernel bytes are unchanged.  It fails only if
    no run of free frames is long enough or an allocation of the simulator
    fails, and then gives the frames back. *)
Theorem cache_create_exact E F m p k x size al id :
  kinv E F m -> has_mm m p k x -> 0 <= id < 30 -> 0 < al <= size -> size < 2 ^ 31 ->
  (forall l pl, kcpooltbl x = Some l -> l !! Z.to_nat id = Some pl -> pl = zero_pool) ->
  wp (libkmem_cache_pool_create p size al id) (fun s m' =>
    kinv E F m' /\ keeps_bytes m m' /\ (forall q i, reg m' q i = reg m q i) /\
    ((s = 0 /\ exists f k' x' tbl, let base := KMEM_VADDR_BASE + f * 4096 in
        let asz := pages_for size * 4096 in
        has_mm m' p k' x' /\ mmap x' = mmap x /\ symrgtbl x' = symrgtbl x /\ kcpooltbl x' = Some tbl /\
        tbl !! Z.to_nat id = Some (pool_at base al (size / al) asz 0) /\
        (forall j pl, default [] (kcpooltbl x) !! j = Some pl -> j <> Z.to_nat id -> tbl !! j = Some pl) /\
        (forall slot, slot ∈ slots base al 0 (size / al) -> base <= slot /\ slot + al <= base + asz) /\
        kfresh m m' base asz) \/
     (s = -1 /\ ksame m m' /\ free_fp_list (ram m') ≡ₚ free_fp_list (ram m) /\
        used_fp_list (ram m') ≡ₚ used_fp_list (ram m) /\
        (may_oom m \/ forall f, ~ block_in f (pages_for size) (free_fp_list (ram m)))))) m.
Proof.
  intros HKI Hp Hid Hal Hsz Hz. eapply wp_mono; [by eapply pool_create_spec|].
  intros s m' (HKI' & HB & Hreg & [(-> & f & k' & x' & tbl & Hp' & Em & Es & Et & Hpool & Hold & Hf & Hlt & Hle & HFr & _)|Hfail]);
    (split; [done|]; split; [done|]; split; [done|]); [left|right; naive_solver].
  split; [done|]. exists f, k', x', tbl. cbv zeta. split_and!; try done.
  intros slot Hslot. unfold slots in Hslot. apply list_elem_of_fmap in Hslot as (i & -> & Hi).
  apply elem_of_seqZ in Hi. pose proof (Z.mul_div_le size al ltac:(lia)). nia.
Qed.

Lemma cache_create_exact_witness :
  (match libkmem_cache_pool_create 100 1000 64 3 demo with Ret s _ => s = 0 | _ => False end) /\
  wp (libkmem_cache_pool_create 100 1000 64 3) (fun s m' => s = 0 \/ s = -1) demo.
Proof.
  split; [vm_compute; reflexivity|]. eapply wp_mono.
  { apply (cache_create_exact [] [] demo 100 demo_krnl demo_mm 1000 64 3 demo_kinv demo_has_mm); [lia..|done]. }
  intros s m' (_ & _ & _ & [(-> & _)|(-> & _)]); auto.
Defined.

(** C27. KMEM_CACHE_ALLOC hands out every slot of a pool once, in address order:
    the [t]-th allocation returns slot [t] in the register and the symbol table
    and leaves the pool with the slots from [t + 1] on; when all [n] slots are
    taken it returns -1 and changes nothing.  No byte of memory changes. *)
Theorem cache_alloc_slots E F m p k x r id base al n asz t tbl rg :
  kinv E F m -> has_mm m p k x -> 0 <= id < 30 -> 0 <= r < 10 -> is_Some (reg m p r) ->
  kcpooltbl x = Some tbl -> tbl !! Z.to_nat id = Some (pool_at base al n asz t) ->
  symrgtbl x !! Z.to_nat r = Some rg -> rg_start rg = 0 /\ rg_end rg = 0 ->
  0 <= t <= n -> 0 < n -> 0 < al -> n * al < 2 ^ 31 -> 0 <= base /\ base + 2 ^ 32 < 2 ^ 64 ->
  wp (libkmem_cache_alloc p r id) (fun s m' => kinv E F m' /\ ksame m m' /\
    if bool_decide (t < n)
    then s = 0 /\ exists k' x', has_mm m' p k' x' /\ mmap x' = mmap x /\
      kcpooltbl x' = Some (<[Z.to_nat id := pool_at base al n asz (t + 1)]> tbl) /\
      symrgtbl x' = <[Z.to_nat r := mkRg 0 (base + t * al) (base + t * al + n * al)]> (symrgtbl x) /\
      reg m' p r = Some (base + t * al)
    else s = -1 /\ m' = m) m.
Proof.
  intros. eapply wp_mono; [by eapply (cache_alloc_spec E F m p k x)|].
  intros s m' (HKI' & HS & Hs). split; [done|]. split; [done|]. case_bool_decide; [|done].
  destruct Hs as (-> & k' & x' & ? & ? & ? & ? & ? & _). split; [done|]. by exists k', x'.
Qed.

Lemma cache_alloc_slots_witness :
  wp (let* s := libkmem_cache_pool_create 100 1000 64 3 in
      if bool_decide (s = 0) then libkmem_cache_alloc 100 5 3 else ret s)
    (fun s m' => s = 0 \/ s = -1) demo.
Proof.
  apply wp_bind. eapply wp_mono.
  { apply (pool_create_spec [] [] demo 100 demo_krnl demo_mm 1000 64 3 demo_kinv demo_has_mm); [lia..|done]. }
  intros s m (HKI & _ & Hreg & [(-> & f & k & x & tbl & Hp & _ & Es & Et & Hpool & _ & Hf & Hlt & _)|(-> & _)]); simpl.
  2:{ apply wp_ret. auto. }
  eapply wp_mono.
  { apply (cache_alloc_slots [] [] m 100 k x 5 3 (KMEM_VADDR_BASE + f * 4096) 64 (1000 / 64)
      (pages_for 1000 * 4096) 0 tbl (mkRg 0 0 0) HKI Hp); try exact Hpool; try done.
    - rewrite Hreg. by eexists.
    - by rewrite Es.
    - change (pages_for 1000) with 1 in Hlt. split; unfold KMEM_VADDR_BASE; lia. }
  intros s m' (_ & _ & Hs). case_bool_decide; destruct Hs as [-> _]; auto.
Defined.

(** The regions of two objects of one pool overlap: the symbol table gives
    every object the size of the whole pool, so of two objects allocated one
    after the other the region of the first reaches into the second. *)
Theorem cache_objects_overlap E F m p k x r r2 id base al n asz t tbl rg rg2 :
  kinv E F m -> has_mm m p k x -> 0 <= id < 30 -> 0 <= r < 10 -> 0 <= r2 < 10 -> r <> r2 ->
  is_Some (reg m p r) -> is_Some (reg m p r2) ->
  kcpooltbl x = Some tbl -> tbl !! Z.to_nat id = Some (pool_at base al n asz t) ->
  symrgtbl x !! Z.to_nat r = Some rg -> rg_start rg = 0 /\ rg_end rg = 0 ->
  symrgtbl x !! Z.to_nat r2 = Some rg2 -> rg_start rg2 = 0 /\ rg_end rg2 = 0 ->
  0 <= t < n - 1 -> 0 < al -> n * al < 2 ^ 31 -> 0 <= base /\ base + 2 ^ 32 < 2 ^ 64 ->
  wp (libkmem_cache_alloc p r id ;; libkmem_cache_alloc p r2 id) (fun s m' =>
    s = 0 /\ exists k' x' o1 o2, has_mm m' p k' x' /\
      symrgtbl x' !! Z.to_nat r = Some o1 /\ symrgtbl x' !! Z.to_nat r2 = Some o2 /\
      rg_start o1 < rg_start o2 < rg_end o1) m.
Proof.
  intros HKI Hp Hid Hr Hr2 Hne Hreg Hreg2 Htbl Hpool Hrg H0 Hrg2 H2 Ht Hal Hna Hb. apply wp_bind.
  eapply wp_mono; [eapply (cache_alloc_spec E F m p k x HKI Hp r id base al n asz t tbl rg); try done; lia|].
  intros s m1 (HKI1 & _ & Hs). rewrite bool_decide_true in Hs by lia.
  destruct Hs as (_ & k1 & x1 & Hp1 & _ & Et1 & Es1 & _ & Hr1).
  pose proof (lookup_lt_Some _ _ _ Hrg). pose proof (lookup_lt_Some _ _ _ Hpool). eapply wp_mono.
  { eapply (cache_alloc_spec E F m1 p k1 x1 HKI1 Hp1 r2 id base al n asz (t + 1) _ rg2); try done; try lia.
    - by apply Hr1.
    - by apply list_lookup_insert_eq.
    - rewrite Es1, list_lookup_insert_ne by lia. done. }
  intros s2 m2 (_ & _ & Hs). rewrite bool_decide_true in Hs by lia.
  destruct Hs as (-> & k2 & x2 & Hp2 & _ & _ & Es2 & _). split; [done|].
  eexists k2, x2, _, _. split; [done|]. rewrite Es2, Es1. split; [|split].
  - rewrite list_lookup_insert_ne by lia. by apply list_lookup_insert_eq.
  - apply list_lookup_insert_eq. rewrite length_insert. by eapply lookup_lt_Some.
  - simpl. nia.
Qed.

Lemma cache_objects_overlap_witness :
  wp (let* s := libkmem_cache_pool_create 100 1000 64 3 in
      if bool_decide (s = 0) then libkmem_cache_alloc 100 5 3 ;; libkmem_cache_alloc 100 6 3 else ret s)
    (fun s m' => s = 0 \/ s = -1) demo.
Proof.
  apply wp_bind. eapply wp_mono.
  { apply (pool_create_spec [] [] demo 100 demo_krnl demo_mm 1000 64 3 demo_kinv demo_has_mm); [lia..|done]. }
  intros s m (HKI & _ & Hreg & [(-> & f & k & x & tbl & Hp & _ & Es & Et & Hpool & _ & Hf & Hlt & _)|(-> & _)]); simpl.
  2:{ apply wp_ret. auto. }
  eapply wp_mono.
  { apply (cache_objects_overlap [] [] m 100 k x 5 6 3 (KMEM_VADDR_BASE + f * 4096) 64 (1000 / 64)
      (pages_for 1000 * 4096) 0 tbl (mkRg 0 0 0) (mkRg 0 0 0) HKI Hp);
      try exact Hpool; try done.
    - rewrite Hreg. by eexists.
    - rewrite Hreg. by eexists.
    - by rewrite Es.
    - by rewrite Es.
    - change (pages_for 1000) with 1 in Hlt. split; unfold KMEM_VADDR_BASE; lia. }
  intros s m' (-> & _). auto.
Defined.
