(* ===== verification/Frame.v ===== *)
(** * What the library calls leave alone

    A view [f] of the process records is framed by a computation when every
    execution that returns leaves the view of every process, the scheduler and
    the fate of the allocations as they were.  The rules follow the monad, so
    that a whole call is framed by composing the frames of its parts, whatever
    state it starts in.  The interpreter uses three views: all of another
    process up to its page tables and page queue, the fixed part of the running
    process, and its areas or its pools where a call has nothing to do with
    them. *)

From S2P Require Import Prelude.
From S2P Require Import Word.
From S2P Require Import Paging.
From S2P Require Import Queue.
From S2P Require Import Sched.
From S2P Require Import MemPhy.
From S2P Require Import Region.
From S2P Require Import Machine.
From S2P Require Import PageTable.
From S2P Require Import Swap.
From S2P Require Import Area.
From S2P Require Import Syscall.
From S2P Require Import Libmem.
From S2P Require Import Kmem.

(** ** Views *)

(** A memory map without its page table and its page queue. *)
Definition skel_mm (x : mm_struct) : mm_struct := set_fifo_pgn (set_pgd x 0) [].
Definition skel_krnl (k : krnl_t) : krnl_t := set_krnl_pgd (set_k_mm k (skel_mm <$> mm k)) 0.
Definition skel (y : pcb_t) : pcb_t := set_krnl y (skel_krnl <$> krnl y).

(** A root of the kernel's table, once set, stays. *)
Definition root_kept (y y' : pcb_t) : Prop :=
  forall k, krnl y = Some k -> krnl_pgd k <> 0 -> exists k', krnl y' = Some k' /\ krnl_pgd k' = krnl_pgd k.
Definition roots_kept (m m' : machine) : Prop :=
  forall q y y', procs m !! q = Some y -> procs m' !! q = Some y' -> root_kept y y'.

Definition fixed {T} (f : Z -> pcb_t -> T) (m m' : machine) : Prop :=
  (forall q, f q <$> procs m' !! q = f q <$> procs m !! q) /\ sch m' = sch m /\ oom m' = oom m /\
  roots_kept m m'.

Class Frames {T A} (f : Z -> pcb_t -> T) (c : M machine A) : Prop :=
  frames : forall m a m', c m = Ret a m' -> fixed f m m'.

(** The view ignores page tables and page queues. *)
Class VmNeutral {T} (f : Z -> pcb_t -> T) : Prop :=
  vm_neutral : forall q y y', skel y = skel y' -> f q y = f q y'.

(** The view of process [p] ignores its areas and symbol table, its pools, its
    registers. *)
Class AreaNeutral {T} (f : Z -> pcb_t -> T) (p : Z) : Prop :=
  area_neutral : forall y (g : mm_struct -> mm_struct),
    (forall x, kcpooltbl (g x) = kcpooltbl x) ->
    f p (set_krnl y ((fun k => set_k_mm k (g <$> mm k)) <$> krnl y)) = f p y.
Class PoolNeutral {T} (f : Z -> pcb_t -> T) (p : Z) : Prop :=
  pool_neutral : forall y (g : mm_struct -> mm_struct),
    (forall x, mmap (g x) = mmap x /\ symrgtbl (g x) = symrgtbl x) ->
    f p (set_krnl y ((fun k => set_k_mm k (g <$> mm k)) <$> krnl y)) = f p y.
Class RegNeutral {T} (f : Z -> pcb_t -> T) (p : Z) : Prop :=
  reg_neutral : forall y i v, f p (set_regs y (<[i := v]> (regs y))) = f p y.

#[export] Hint Mode VmNeutral - ! : typeclass_instances.

(** ** The rules *)

Section rules.
Context {T : Type} (f : Z -> pcb_t -> T).

Lemma root_kept_refl y : root_kept y y.
Proof. intros k Hk _. by exists k. Qed.

Lemma fixed_refl m : fixed f m m.
Proof. split_and!; try done. intros q y y' H1 H2. rewrite H1 in H2. injection H2 as <-. apply root_kept_refl. Qed.

Lemma fixed_trans m1 m2 m3 : fixed f m1 m2 -> fixed f m2 m3 -> fixed f m1 m3.
Proof.
  intros (H1 & S1 & O1 & K1) (H2 & S2 & O2 & K2). split_and!; try congruence.
  intros q y y3 Hy Hy3 k Hk Hnz. specialize (H2 q). destruct (procs m2 !! q) as [y2|] eqn:Hy2; [|by rewrite Hy3 in H2].
  destruct (K1 q y y2 Hy Hy2 k Hk Hnz) as (k2 & Hk2 & E2).
  destruct (K2 q y2 y3 Hy2 Hy3 k2 Hk2 ltac:(congruence)) as (k3 & Hk3 & E3). exists k3. split; [done|congruence].
Qed.

Lemma fixed_procs m m' : procs m' = procs m -> sch m' = sch m -> oom m' = oom m -> fixed f m m'.
Proof.
  intros H1 H2 H3. split_and!; try done; [intros q; by rewrite H1|].
  intros q y y'. rewrite H1. intros E1 E2. rewrite E1 in E2. injection E2 as <-. apply root_kept_refl.
Qed.

Lemma frames_ret {A} (a : A) : Frames f (ret a).
Proof. intros m b m' [= _ <-]. apply fixed_refl. Qed.

Lemma frames_ub {A} : Frames f (@ub machine A).
Proof. by intros m b m' Hc. Qed.

Lemma frames_get : Frames f (@get machine).
Proof. intros m b m' [= _ <-]. apply fixed_refl. Qed.

Lemma frames_bind {A B} (c : M machine A) (k : A -> M machine B) :
  Frames f c -> (forall a, Frames f (k a)) -> Frames f (bind c k).
Proof. intros Hc Hk m b m' (a & m1 & H1 & H2)%bind_inv. eapply fixed_trans; [by eapply Hc|by eapply Hk]. Qed.

Lemma frames_for_each {A} (body : A -> M machine Z) l :
  (forall a, Frames f (body a)) -> Frames f (for_each body l).
Proof.
  intros Hb. induction l as [|a l IH]; [apply frames_ret|]. simpl. apply frames_bind; [done|].
  intros r. case_bool_decide; [done|apply frames_ret].
Qed.

(** Computations that change no process record. *)
Lemma frames_malloc : Frames f malloc.
Proof. intros m b m' [= _ <-]. by apply fixed_procs. Qed.
Lemma frames_get_pcb p : Frames f (get_pcb p).
Proof. intros m b m'. unfold get_pcb. case_match; intros [= _ <-]. apply fixed_refl. Qed.
Lemma frames_tbl_read p i : Frames f (tbl_read p i).
Proof. intros m b m'. unfold tbl_read. repeat case_match; intros [= _ <-]. apply fixed_refl. Qed.
Lemma frames_tbl_write p i v : Frames f (tbl_write p i v).
Proof. intros m b m'. unfold tbl_write. repeat case_match; intros [= _ <-]. by apply fixed_procs. Qed.
Lemma frames_note_walk b p g : Frames f (note_walk b p g).
Proof. intros m a m'. unfold note_walk. intros [= _ <-]. destruct b; by apply fixed_procs. Qed.
Lemma frames_on_ram {A} (op : M memphy_struct A) : Frames f (on_ram op).
Proof. intros m b m'. unfold on_ram. case_match; intros [= _ <-]. by apply fixed_procs. Qed.
Lemma frames_on_swp {A} (op : M memphy_struct A) : Frames f (on_swp op).
Proof. intros m b m'. unfold on_swp. case_match; intros [= _ <-]. by apply fixed_procs. Qed.
Lemma frames_m_find_proc n : Frames f (m_find_proc n).
Proof. intros m b m' [= _ <-]. apply fixed_refl. Qed.

Lemma frames_alloc_page_table : Frames f alloc_page_table.
Proof.
  apply frames_bind; [apply frames_malloc|]. intros []; [|apply frames_ret].
  intros m b m' [= _ <-]. by apply fixed_procs.
Qed.

(** A record update that the view does not see. *)
Lemma frames_put p (h : pcb_t -> pcb_t) :
  (forall y, f p (h y) = f p y /\ root_kept y (h y)) -> Frames f (let* y := get_pcb p in put_pcb p (h y)).
Proof.
  intros Hh m b m' (y & m1 & H1 & H2)%bind_inv. unfold get_pcb in H1.
  destruct (procs m !! p) as [y0|] eqn:Hy; [|done]. injection H1 as -> <-.
  unfold put_pcb in H2. injection H2 as _ <-. destruct (Hh y) as [Hf Hk]. split_and!; try done; simpl.
  - intros q. destruct (decide (q = p)) as [->|]; [by rewrite lookup_insert_eq, Hy; simpl; rewrite Hf|by rewrite lookup_insert_ne].
  - intros q y1 y2 E1. cbn [procs set_procs]. destruct (decide (q = p)) as [->|].
    + rewrite lookup_insert_eq. intros [= <-]. rewrite Hy in E1. by injection E1 as <-.
    + rewrite lookup_insert_ne, E1 by done. intros [= <-]. apply root_kept_refl.
Qed.

Lemma frames_upd_krnl p g :
  (forall y, f p (set_krnl y (g <$> krnl y)) = f p y) -> (forall k, krnl_pgd (g k) = krnl_pgd k) ->
  Frames f (upd_krnl p g).
Proof.
  intros Hg Hr. unfold upd_krnl. apply (frames_put p (fun y => set_krnl y (g <$> krnl y))).
  intros y. split; [done|]. intros k Hk _. simpl. rewrite Hk. by eexists.
Qed.

Lemma frames_upd_area p `{!AreaNeutral f p} g :
  (forall x, kcpooltbl (g x) = kcpooltbl x) -> Frames f (upd_mm p g).
Proof. intros Hg. apply frames_upd_krnl; [|done]. intros y. by apply area_neutral. Qed.

Lemma frames_upd_pool p `{!PoolNeutral f p} g :
  (forall x, mmap (g x) = mmap x /\ symrgtbl (g x) = symrgtbl x) -> Frames f (upd_mm p g).
Proof. intros Hg. apply frames_upd_krnl; [|done]. intros y. by apply pool_neutral. Qed.

Lemma frames_set_reg p i v `{!RegNeutral f p} : Frames f (set_reg p i v).
Proof.
  intros m b m' H. unfold set_reg in H. destruct (decide (0 <= i < NREGS)) as [Hi|Hi].
  - eapply (frames_put p (fun y => set_regs y (<[Z.to_nat i := v]> (regs y)))); [|].
    { intros y. split; [by apply reg_neutral|]. intros k Hk _. by exists k. }
    apply bind_inv in H as (y & m1 & H1 & H2). rewrite bool_decide_true in H2 by done.
    unfold bind. rewrite H1. exact H2.
  - apply bind_inv in H as (y & m1 & H1 & H2). by rewrite bool_decide_false in H2 by done.
Qed.
End rules.

Create HintDb frames.
#[export] Hint Resolve frames_ret frames_ub frames_get frames_malloc frames_get_pcb frames_tbl_read
  frames_tbl_write frames_note_walk frames_on_ram frames_on_swp frames_m_find_proc
  frames_alloc_page_table frames_set_reg : frames.

(** Follow the program: one rule per construct, the library for the calls. *)
Ltac frames_step :=
  first
    [ solve [eauto with frames typeclass_instances nocore]
    | lazymatch goal with
      | |- Frames _ (for_each _ _) => apply frames_for_each; intros
      | |- Frames _ (bind _ _) => apply frames_bind; [|intros]
      | |- Frames _ (match ?x with _ => _ end) => destruct x
      | |- Frames _ (let '(_, _) := ?x in _) => destruct x
      end ].
Ltac frames := repeat (intros; cbv beta; cbv zeta; frames_step).

(** ** Page tables and swapping: any process may be touched, but only in its
    page tables and its page queue *)

Lemma init_kernel_procs who k m r k' m' :
  init_kernel_page_table who k m = Ret (r, k') m' ->
  procs m' = procs m /\ sch m' = sch m /\ oom m' = oom m /\ set_krnl_pgd k' 0 = set_krnl_pgd k 0 /\
  (krnl_pgd k <> 0 -> krnl_pgd k' = krnl_pgd k).
Proof.
  unfold init_kernel_page_table, alloc_page_table, malloc, note_walk, bind, ret.
  destruct (decide (krnl_pgd k = 0)) as [Hz|Hz].
  - rewrite (bool_decide_true (krnl_pgd k = 0)) by done. destruct (negb _); case_bool_decide;
      intros [= <- <- <-]; by split_and!.
  - rewrite !(bool_decide_false (krnl_pgd k = 0)) by done. intros [= <- <- <-]. by split_and!.
Qed.

Section vm.
Context {T : Type} (f : Z -> pcb_t -> T) `{!VmNeutral f}.

Lemma frames_upd_vm p g : (forall x, skel_mm (g x) = skel_mm x) -> Frames f (upd_mm p g).
Proof using All.
  intros Hg. apply frames_upd_krnl; [|done]. intros y. apply vm_neutral. destruct y as [? ? ? ? ? ? [[[x|] ? ? ? ?]|] ?];
    unfold skel; simpl; try done. unfold skel_krnl; simpl. by rewrite Hg.
Qed.

(** The root of the kernel's table, created for one process. *)
Lemma frames_init_kernel p k m a m' :
  krnl_of m p = Some k ->
  (let* (r, k') := init_kernel_page_table p k in
   upd_krnl p (fun _ => k') ;; ret (if bool_decide (r <> 0) then 0 else krnl_pgd k')) m = Ret a m' ->
  fixed f m m'.
Proof using All.
  intros Hk ([r k'] & m1 & H1 & H2)%bind_inv. apply init_kernel_procs in H1 as (Ep & Es & Eo & Ek & Er).
  apply bind_inv in H2 as ([] & m2 & H2 & H3). unfold ret in H3. injection H3 as _ <-.
  unfold krnl_of in Hk. unfold upd_krnl, bind, get_pcb, put_pcb in H2. rewrite Ep in H2.
  destruct (procs m !! p) as [y|] eqn:Hy; [|done]. simpl in Hk. injection H2 as <-. split_and!; try done.
  - intros q. simpl. rewrite Ep. destruct (decide (q = p)) as [->|]; [|by rewrite lookup_insert_ne].
    rewrite lookup_insert_eq, Hy. simpl. f_equal. apply vm_neutral. rewrite Hk.
    destruct y, k, k'. simpl in *. injection Ek as -> -> -> ->. subst. done.
  - intros q y1 y2 E1. cbn [procs set_procs]. rewrite Ep. destruct (decide (q = p)) as [->|].
    + rewrite lookup_insert_eq. intros [= <-]. rewrite Hy in E1. injection E1 as <-. rewrite Hk.
      intros k1 Hk1 Hnz. rewrite Hk in Hk1. injection Hk1 as <-. exists k'. split; [done|]. by apply Er.
    + rewrite lookup_insert_ne, E1 by done. intros [= <-]. apply root_kept_refl.
Qed.

Lemma get_krnl_inv p m k m' : get_krnl p m = Ret (Some k) m' -> m' = m /\ krnl_of m p = Some k.
Proof using Type.
  unfold get_krnl. case_bool_decide; [done|]. unfold bind, get_pcb, krnl_of. destruct (procs m !! p); [|done].
  intros [= Hy <-]. by split.
Qed.

Lemma frames_get_krnl p : Frames f (get_krnl p).
Proof using Type. unfold get_krnl. frames. Qed.
Lemma frames_get_mm p : Frames f (get_mm p).
Proof using Type. unfold get_mm. apply frames_bind; [apply frames_get_krnl|frames]. Qed.

Lemma frames_walk_root p kernel create : Frames f (walk_root p kernel create).
Proof using All.
  intros m a m'. unfold walk_root. intros ([k|] & m1 & H1 & H2)%bind_inv; [|done].
  apply get_krnl_inv in H1 as [-> Hk]. destruct kernel.
  - destruct (_ && _) in H2; [by eapply frames_init_kernel|]. injection H2 as _ <-. apply fixed_refl.
  - destruct (mm k); [|done]. destruct (_ && _) in H2; [|injection H2 as _ <-; apply fixed_refl].
    revert H2. apply (frames_bind f); [apply frames_alloc_page_table|]. intros q.
    apply frames_bind; [by apply frames_upd_vm|frames].
Qed.

Lemma frames_next_level t i create : Frames f (next_level t i create).
Proof using Type. unfold next_level. frames. Qed.
End vm.
#[export] Hint Resolve frames_get_krnl frames_get_mm frames_walk_root frames_next_level : frames.

Section paging.
Context {T : Type} (f : Z -> pcb_t -> T) `{!VmNeutral f}.

Lemma frames_walk_pte p a create : Frames f (walk_pte p a create).
Proof using All. unfold walk_pte, if_ptr. frames. Qed.
#[local] Hint Resolve frames_walk_pte : frames.

Lemma frames_pte_set_entry p g v : Frames f (pte_set_entry p g v).
Proof using All. unfold pte_set_entry. frames. Qed.
Lemma frames_pte_set_swap p g t o : Frames f (pte_set_swap p g t o).
Proof using All. unfold pte_set_swap. frames. Qed.
Lemma frames_pte_set_fpn p g n : Frames f (pte_set_fpn p g n).
Proof using All. unfold pte_set_fpn. frames. Qed.
Lemma frames_pte_get_entry p g : Frames f (pte_get_entry p g).
Proof using All. unfold pte_get_entry. frames. Qed.
#[local] Hint Resolve frames_pte_set_entry frames_pte_set_swap frames_pte_set_fpn frames_pte_get_entry : frames.
Lemma frames_vmap_pgd_memset p a n : Frames f (vmap_pgd_memset p a n).
Proof using All. unfold vmap_pgd_memset. frames. Qed.

Lemma frames_dev_read d a : Frames f (dev_read d a).
Proof using Type. unfold dev_read, on_dev. frames. Qed.
Lemma frames_dev_write d a v : Frames f (dev_write d a v).
Proof using Type. unfold dev_write, on_dev. frames. Qed.
Lemma frames_dev_get d : Frames f (dev_get_freefp d).
Proof using Type. unfold dev_get_freefp, on_dev. frames. Qed.
Lemma frames_dev_put d n : Frames f (dev_put_freefp d n).
Proof using Type. unfold dev_put_freefp, on_dev. frames. Qed.
#[local] Hint Resolve frames_dev_read frames_dev_write frames_dev_get frames_dev_put : frames.

Lemma frames_enlist_pgn p g : Frames f (enlist_pgn_node p g).
Proof using All. unfold enlist_pgn_node. frames. by apply frames_upd_vm. Qed.
Lemma frames_find_victim_page p : Frames f (find_victim_page p).
Proof using All. unfold find_victim_page. frames. by apply frames_upd_vm. Qed.
#[local] Hint Resolve frames_enlist_pgn frames_find_victim_page : frames.

Lemma frames_release_list p l : Frames f (release_frame_list p l).
Proof using All. induction l; simpl; frames. Qed.
Lemma frames_victim_loop p n : Frames f (victim_loop p n).
Proof using All. induction n; simpl; frames. Qed.
#[local] Hint Resolve frames_release_list frames_victim_loop : frames.
Lemma frames_find_present p : Frames f (find_present_victim_in_proc p).
Proof using All. unfold find_present_victim_in_proc. frames. Qed.
#[local] Hint Resolve frames_find_present : frames.
Lemma frames_victim_scan p l : Frames f (victim_scan p l).
Proof using All. induction l; simpl; frames. Qed.
#[local] Hint Resolve frames_victim_scan : frames.
Lemma frames_find_global_victim p : Frames f (find_global_victim p).
Proof using All. unfold find_global_victim. frames. Qed.
Lemma frames_swap_cp a b c d : Frames f (__swap_cp_page a b c d).
Proof using Type. unfold __swap_cp_page. frames. Qed.
#[local] Hint Resolve frames_find_global_victim frames_swap_cp : frames.
Lemma frames_mm_swap_page p v s : Frames f (__mm_swap_page p v s).
Proof using Type. unfold __mm_swap_page. frames. Qed.
Lemma frames_swap_out p : Frames f (swap_out_victim_page p).
Proof using All. unfold swap_out_victim_page. frames. Qed.
#[local] Hint Resolve frames_swap_out : frames.
Lemma frames_alloc_loop p d n : forall got, Frames f (alloc_loop p d n got).
Proof using All. induction n; intros got; simpl; frames. Qed.
#[local] Hint Resolve frames_alloc_loop : frames.
Lemma frames_alloc_pages_range p n : Frames f (alloc_pages_range p n).
Proof using All. unfold alloc_pages_range. frames. Qed.
Lemma frames_page_bytes n : Frames f (page_bytes n).
Proof using Type. unfold page_bytes. frames. Qed.
#[local] Hint Resolve frames_alloc_pages_range frames_page_bytes : frames.
Lemma frames_map_loop p d a pgn n : forall pgit fs, Frames f (map_loop p d a pgn pgit n fs).
Proof using All. induction n; intros pgit fs; simpl; frames. Qed.
#[local] Hint Resolve frames_map_loop : frames.
Lemma frames_vmap_page_range p a n fs : Frames f (vmap_page_range p a n fs).
Proof using All. unfold vmap_page_range. frames. Qed.
#[local] Hint Resolve frames_vmap_page_range : frames.
Lemma frames_vm_map_ram p a n : Frames f (vm_map_ram p a n).
Proof using All. unfold vm_map_ram. frames. Qed.
Lemma frames_pg_getpage g p : Frames f (pg_getpage g p).
Proof using All. unfold pg_getpage. frames. Qed.
Lemma frames_caller_mram p : Frames f (caller_mram p).
Proof using Type. unfold caller_mram. frames. Qed.
#[local] Hint Resolve frames_pg_getpage frames_caller_mram : frames.
Lemma frames_pg_getval a p : Frames f (pg_getval a p).
Proof using All. unfold pg_getval. frames. Qed.
Lemma frames_pg_setval a v p : Frames f (pg_setval a v p).
Proof using All. unfold pg_setval. frames. Qed.
End paging.
#[export] Hint Resolve frames_walk_pte frames_pte_set_entry frames_vmap_pgd_memset frames_dev_read
  frames_dev_write frames_dev_get frames_dev_put frames_mm_swap_page frames_vm_map_ram
  frames_pg_getval frames_pg_setval : frames.

(** ** Areas and the user library *)

Section area.
Context {T : Type} (f : Z -> pcb_t -> T) `{!VmNeutral f}.

Lemma frames_the_mm p : Frames f (the_mm p).
Proof using Type. unfold the_mm. frames. Qed.
#[local] Hint Resolve frames_the_mm : frames.
Lemma frames_the_vma p i : Frames f (the_vma p i).
Proof using Type. unfold the_vma. frames. Qed.
Lemma frames_vma_loop l n : forall i, Frames f (vma_loop l i n).
Proof using Type. induction l; intros i; simpl; frames. Qed.
#[local] Hint Resolve frames_vma_loop frames_the_vma : frames.
Lemma frames_get_vma x n : Frames f (get_vma_by_num x n).
Proof using Type. unfold get_vma_by_num. frames. Qed.
#[local] Hint Resolve frames_get_vma : frames.
Lemma frames_validate_overlap p n s e : Frames f (validate_overlap_vm_area p n s e).
Proof using Type. unfold validate_overlap_vm_area. frames. Qed.
#[local] Hint Resolve frames_validate_overlap : frames.

Context (p : Z) `{!AreaNeutral f p}.

Lemma frames_upd_vma i g : Frames f (upd_vma p i g).
Proof using AreaNeutral0. by apply frames_upd_area. Qed.
Lemma frames_set_symrg i r : Frames f (set_symrg p i r).
Proof using AreaNeutral0. by apply frames_upd_area. Qed.
#[local] Hint Resolve frames_upd_vma frames_set_symrg : frames.
Lemma frames_inc_vma n sz : Frames f (inc_vma_limit p n sz).
Proof using All. unfold inc_vma_limit. frames. Qed.
Lemma frames_get_free n sz : Frames f (get_free_vmrg_area p n sz).
Proof using All. unfold get_free_vmrg_area. frames. Qed.
#[local] Hint Resolve frames_inc_vma frames_get_free : frames.

Lemma frames_free n r : Frames f (__free p n r).
Proof using All. unfold __free. frames. Qed.
Lemma frames_libfree r : Frames f (libfree p r).
Proof using All. unfold libfree. apply frames_bind; [apply frames_free|frames]. Qed.

Lemma frames_read r o : Frames f (__read p r o).
Proof using All. unfold __read. frames. Qed.
Lemma frames_write n r o v : Frames f (__write p n r o v).
Proof using All. unfold __write. frames. Qed.
Lemma frames_libwrite v r o : Frames f (libwrite p v r o).
Proof using All. unfold libwrite. apply frames_bind; [apply frames_write|frames]. Qed.
Lemma frames_libread r o d `{!RegNeutral f p} : Frames f (libread p r o d).
Proof using All. unfold libread. apply frames_bind; [apply frames_read|frames]. Qed.
End area.
#[export] Hint Resolve frames_set_symrg frames_libfree frames_libwrite frames_libread : frames.

(** ** Kernel memory *)

Section kernel.
Context {T : Type} (f : Z -> pcb_t -> T) `{!VmNeutral f}.

Lemma frames_int_mul a b : Frames f (int_mul a b).
Proof using Type. unfold int_mul. frames. Qed.

Lemma frames_kernel_walk p a create : Frames f (kernel_walk_pte p a create).
Proof using All.
  intros m b m'. unfold kernel_walk_pte. intros ([k|] & m1 & H1 & H2)%bind_inv.
  2:{ injection H2 as _ <-. by eapply frames_get_krnl. }
  apply get_krnl_inv in H1 as [-> Hk]. destruct (get_pd_from_address a) as [st ix].
  destruct (bool_decide (st <> 0)); [injection H2 as _ <-; apply fixed_refl|].
  apply bind_inv in H2 as (root & m2 & H2 & H3). eapply fixed_trans with m2.
  - destruct (bool_decide (krnl_pgd k = 0)); [|injection H2 as _ <-; apply fixed_refl].
    destruct create; [by eapply frames_init_kernel|]. injection H2 as _ <-. apply fixed_refl.
  - refine ((_ : Frames f _) m2 b m' H3). unfold if_ptr. frames.
Qed.
#[local] Hint Resolve frames_int_mul frames_kernel_walk : frames.
Lemma frames_kernel_map p a n : Frames f (kernel_map_page p a n).
Proof using All. unfold kernel_map_page. frames. Qed.
Lemma frames_kernel_frames p n : Frames f (kernel_allocate_contiguous_frames p n).
Proof using Type. unfold kernel_allocate_contiguous_frames. frames. Qed.
Lemma frames_kernel_release p a n : Frames f (kernel_release_contiguous_region p a n).
Proof using All. unfold kernel_release_contiguous_region. frames. Qed.
#[local] Hint Resolve frames_kernel_map frames_kernel_frames frames_kernel_release : frames.
Lemma frames_kernel_alloc p n : Frames f (kernel_alloc_contiguous_region p n).
Proof using All. unfold kernel_alloc_contiguous_region. frames. Qed.
Lemma frames_kernel_translate p a : Frames f (kernel_translate_vaddr p a).
Proof using All. unfold kernel_translate_vaddr. frames. Qed.
#[local] Hint Resolve frames_kernel_alloc frames_kernel_translate : frames.

Lemma frames_read_kernel p r o : Frames f (__read_kernel_mem p r o).
Proof using All. unfold __read_kernel_mem. frames. Qed.
Lemma frames_write_kernel p r o v : Frames f (__write_kernel_mem p r o v).
Proof using All. unfold __write_kernel_mem. frames. Qed.
Lemma frames_read_user p r o : Frames f (__read_user_mem p r o).
Proof using All. unfold __read_user_mem. frames. Qed.
Lemma frames_write_user p r o v : Frames f (__write_user_mem p r o v).
Proof using All. unfold __write_user_mem. frames. Qed.
#[local] Hint Resolve frames_read_kernel frames_write_kernel frames_read_user frames_write_user : frames.
Lemma frames_copy_from p s d o n : Frames f (libkmem_copy_from_user p s d o n).
Proof using All. unfold libkmem_copy_from_user, copy_guard, copy_loop. frames. Qed.
Lemma frames_copy_to p s d o n : Frames f (libkmem_copy_to_user p s d o n).
Proof using All. unfold libkmem_copy_to_user, copy_guard, copy_loop. frames. Qed.

Lemma frames_slab_slots b s n : forall i, Frames f (slab_slots b s i n).
Proof using Type. induction n; intros i; simpl; frames. Qed.
#[local] Hint Resolve frames_slab_slots : frames.
Lemma frames_create_slab b s n : Frames f (create_cache_slab b s n).
Proof using Type. unfold create_cache_slab. frames. Qed.
Lemma frames_grow_table t n : Frames f (grow_pool_table t n).
Proof using Type. unfold grow_pool_table. frames. Qed.
#[local] Hint Resolve frames_create_slab frames_grow_table : frames.

Context (p : Z).

Lemma frames_kmalloc `{!AreaNeutral f p, !RegNeutral f p} n r : Frames f (libkmem_malloc p n r).
Proof using VmNeutral0. unfold libkmem_malloc, __kmalloc. frames. Qed.

Lemma frames_set_pool `{!PoolNeutral f p} i pl : Frames f (set_pool p i pl).
Proof using Type. by apply frames_upd_pool. Qed.
#[local] Hint Resolve frames_set_pool : frames.
Lemma frames_pool_create `{!PoolNeutral f p} n al i : Frames f (libkmem_cache_pool_create p n al i).
Proof using VmNeutral0. unfold libkmem_cache_pool_create. frames. by apply frames_upd_pool. Qed.
Lemma frames_cache_alloc `{!PoolNeutral f p, !AreaNeutral f p, !RegNeutral f p} r i :
  Frames f (libkmem_cache_alloc p r i).
Proof using Type. unfold libkmem_cache_alloc, __kmem_cache_alloc. frames. Qed.
End kernel.
#[export] Hint Resolve frames_copy_from frames_copy_to frames_kmalloc frames_pool_create
  frames_cache_alloc frames_kernel_release frames_read_kernel frames_write_kernel frames_read_user
  frames_write_user : frames.
