(* ===== verification/Cpu.v ===== *)
(** * The instruction interpreter ([src/cpu.c])

    [run] executes the next instruction of a process.  The operands of an
    instruction are 64-bit words; they are narrowed to the parameter types of
    the library functions (32-bit registers and sizes, a [char] for the byte of
    WRITE) as the calls do.  The functions [alloc], [free_data], [read] and
    [write] of the file belong to the build without paging. *)

From S2P Require Import Prelude.
From S2P Require Import Word.
From S2P Require Import Machine.
From S2P Require Import Syscall.
From S2P Require Import Libmem.
From S2P Require Import Kmem.

(** [(unsigned long)proc & 0UL] *)
Definition calc (proc : Z) : Z := Z.land (u64 proc) 0.

Definition exec (p : Z) (ins : inst_t) : M machine Z :=
  match opcode ins with
  | CALC => ret (calc p)
  | ALLOC => liballoc p (arg_0 ins) (u32 (arg_1 ins))
  | KMALLOC => libkmem_malloc p (u32 (arg_0 ins)) (u32 (arg_1 ins))
  | KMEM_CACHE_CREATE => libkmem_cache_pool_create p (u32 (arg_0 ins)) (u32 (arg_1 ins)) (u32 (arg_2 ins))
  | KMEM_CACHE_ALLOC => libkmem_cache_alloc p (u32 (arg_1 ins)) (u32 (arg_0 ins))
  | COPY_FROM_USER =>
    libkmem_copy_from_user p (u32 (arg_0 ins)) (u32 (arg_1 ins)) (u32 (arg_2 ins)) (u32 (arg_3 ins))
  | COPY_TO_USER =>
    libkmem_copy_to_user p (u32 (arg_0 ins)) (u32 (arg_1 ins)) (u32 (arg_2 ins)) (u32 (arg_3 ins))
  | FREE => libfree p (u32 (arg_0 ins))
  | READ => libread p (u32 (arg_0 ins)) (arg_1 ins) (u32 (arg_2 ins))
  | WRITE => libwrite p (i8 (arg_0 ins)) (u32 (arg_1 ins)) (arg_2 ins)
  | SYSCALL => libsyscall p (u32 (arg_0 ins)) (arg_1 ins) (arg_2 ins) (arg_3 ins)
  end.

Definition run (p : Z) : M machine Z :=
  let* y := get_pcb p in
  if bool_decide (Z.of_nat (length (code y)) <= pc y) then ret 1
  else
    match code y !! Z.to_nat (pc y) with
    | None => ub
    | Some ins => put_pcb p (set_pc y (u32 (pc y + 1))) ;; exec p ins
    end.
