(* ===== verification/Isolation.v ===== *)
(** * Process isolation

    The system invariant: the memory invariant of [Vm] and [Kernel], and for
    every process a well-formed area, a symbol table whose entries are regions
    of the area or of kernel memory, well-formed pools and ten registers.  An
    instruction whose operands have the kinds it expects keeps this invariant
    for all processes, returns without undefined behaviour, and leaves every
    other process and every byte of it as it was. *)

From S2P Require Import Prelude.
From S2P Require Import Word.
From S2P Require Import Exclusive.
From S2P Require Import Paging.
From S2P Require Import Queue.
From S2P Require Import Sched.
From S2P Require Import MemPhy.
From S2P Require Import Region.
From S2P Require Import Machine.
From S2P Require Import PageTable.
From S2P Require Import Swap.
From S2P Require Import Vm.
From S2P Require Import Evict.
From S2P Require Import Access.
From S2P Require Import Area.
From S2P Require Import Syscall.
From S2P Require Import Libmem.
From S2P Require Import Heap.
From S2P Require Import Kmem.
From S2P Require Import Kernel.
From S2P Require Import Cache.
From S2P Require Import Frame.
From S2P Require Import Cpu.

(** ** Views of the running process *)

(** What no library call changes of the process that makes it. *)
Definition head (y : pcb_t) : pcb_t := set_regs (set_krnl y None) (replicate (length (regs y)) 0).

(** Of process [p] its head and a part [g] of its memory map, of the others all
    but page tables and page queue. *)
Definition view {T} (p : Z) (g : mm_struct -> T) (q : Z) (y : pcb_t) : pcb_t * option T :=
  if decide (q = p) then (head y, g <$> (krnl y ≫= mm)) else (skel y, None).

Definition pools_of (x : mm_struct) : option (list kcache_pool_struct) := kcpooltbl x.
Definition areas_of (x : mm_struct) : list vm_area_struct * list vm_rg_struct := (mmap x, symrgtbl x).

Section views.
Context {T : Type} (p : Z) (g : mm_struct -> T).

Lemma view_vm : (forall x, g (skel_mm x) = g x) -> VmNeutral (view p g).
Proof.
  intros Hg q y y' Hs. unfold view. destruct (decide (q = p)) as [->|]; [|by rewrite Hs].
  destruct y as [? ? ? ? ? ? k ?], y' as [? ? ? ? ? ? k' ?]. unfold skel in Hs. simpl in Hs.
  injection Hs as -> -> -> -> -> -> Hk ->. simpl. f_equal.
  destruct k as [k|], k' as [k'|]; try done. apply (inj Some) in Hk. apply (f_equal mm) in Hk.
  destruct k as [[x|] ? ? ? ?], k' as [[x'|] ? ? ? ?]; try done. apply (inj Some) in Hk.
  simpl. rewrite <- (Hg x), <- (Hg x'). by rewrite Hk.
Qed.

Lemma view_reg : RegNeutral (view p g) p.
Proof.
  intros y i v. unfold view. rewrite !decide_True by done. unfold head. cbn [regs set_regs set_krnl].
  rewrite length_insert. by destruct y.
Qed.
End views.

#[export] Instance own_vm p : VmNeutral (view p (fun _ => tt)).
Proof. by apply view_vm. Qed.
#[export] Instance pools_vm p : VmNeutral (view p pools_of).
Proof. by apply view_vm. Qed.
#[export] Instance areas_vm p : VmNeutral (view p areas_of).
Proof. by apply view_vm. Qed.
#[export] Existing Instance view_reg.

Lemma view_mm {T} p (g : mm_struct -> T) y h :
  (forall x, g (h x) = g x) ->
  view p g p (set_krnl y ((fun k => set_k_mm k (h <$> mm k)) <$> krnl y)) = view p g p y.
Proof.
  intros Hh. unfold view. rewrite !decide_True by done. destruct y as [? ? ? ? ? ? [[[x|] ? ? ? ?]|] ?]; simpl; try done.
  unfold head. simpl. by rewrite Hh.
Qed.

#[export] Instance own_area p : AreaNeutral (view p (fun _ => tt)) p.
Proof. intros y h _. by apply view_mm. Qed.
#[export] Instance own_pool p : PoolNeutral (view p (fun _ => tt)) p.
Proof. intros y h _. by apply view_mm. Qed.
#[export] Instance pools_area p : AreaNeutral (view p pools_of) p.
Proof. intros y h Hh. by apply view_mm. Qed.
#[export] Instance areas_pool p : PoolNeutral (view p areas_of) p.
Proof. intros y h Hh. apply view_mm. intros x. unfold areas_of. destruct (Hh x) as [-> ->]. done. Qed.

(** Reading a frame off. *)
Section reading.
Context {T : Type} (p : Z) (g : mm_struct -> T) (m m' : machine) (HF : fixed (view p g) m m').

Lemma fixed_other q : q <> p -> skel <$> procs m' !! q = skel <$> procs m !! q.
Proof using HF.
  intros Hq. destruct HF as (H & _). specialize (H q).
  destruct (procs m' !! q), (procs m !! q); simpl in *; try done. apply (inj Some) in H. unfold view in H.
  rewrite !decide_False in H by done. exact (f_equal (fun v => Some (fst v)) H).
Qed.

Lemma fixed_head : head <$> procs m' !! p = head <$> procs m !! p.
Proof using HF.
  destruct HF as (H & _). specialize (H p).
  destruct (procs m' !! p), (procs m !! p); simpl in *; try done. apply (inj Some) in H. unfold view in H.
  rewrite !decide_True in H by done. exact (f_equal (fun v => Some (fst v)) H).
Qed.

Lemma fixed_part k x k' x' : has_mm m p k x -> has_mm m' p k' x' -> g x' = g x.
Proof using HF.
  intros (_ & y & Hy & Hk & Hx)%has_mm_procs (_ & y' & Hy' & Hk' & Hx')%has_mm_procs.
  destruct HF as (H & _). specialize (H p).
  rewrite Hy, Hy' in H. apply (inj Some) in H. unfold view in H. rewrite !decide_True in H by done.
  rewrite Hk, Hk' in H. simpl in H. rewrite Hx, Hx' in H. simpl in H. congruence.
Qed.

Lemma fixed_procs_dom q : is_Some (procs m' !! q) <-> is_Some (procs m !! q).
Proof using HF.
  destruct HF as (H & _). specialize (H q).
  destruct (procs m' !! q), (procs m !! q); simpl in *; try done; split; intros []; done.
Qed.
End reading.

Lemma skel_has_mm m m' q k x k' x' :
  skel <$> procs m' !! q = skel <$> procs m !! q -> has_mm m q k x -> has_mm m' q k' x' ->
  mmap x' = mmap x /\ symrgtbl x' = symrgtbl x /\ kcpooltbl x' = kcpooltbl x.
Proof.
  intros Hs (_ & y & Hy & Hk & Hx)%has_mm_procs (_ & y' & Hy' & Hk' & Hx')%has_mm_procs.
  rewrite Hy, Hy' in Hs. apply (inj Some) in Hs. apply (f_equal krnl) in Hs. simpl in Hs.
  rewrite Hk, Hk' in Hs. apply (inj Some) in Hs. apply (f_equal mm) in Hs. simpl in Hs.
  rewrite Hx, Hx' in Hs. apply (inj Some) in Hs. by injection Hs.
Qed.

Lemma skel_regs (y y' : pcb_t) : skel y' = skel y -> regs y' = regs y.
Proof. intros H. by apply (f_equal regs) in H. Qed.

(** ** The system invariant *)

(** The kinds of a symbol: free, a region of the area, a region of kernel
    memory. *)
Definition free_rg (rg : vm_rg_struct) : Prop := rg_start rg = 0 /\ rg_end rg = 0.
Definition area_rg (v : vm_area_struct) (rg : vm_rg_struct) : Prop :=
  rg_start rg < rg_end rg /\ rg_end rg <= sbrk v.
Definition kernel_rg (rg : vm_rg_struct) : Prop :=
  KMEM_VADDR_BASE <= rg_start rg /\ rg_start rg < rg_end rg /\
  rg_end rg <= KMEM_VADDR_BASE + 2 ^ 33 /\ rg_end rg - rg_start rg <= 2 ^ 31.
Definition sym_ok (v : vm_area_struct) (rg : vm_rg_struct) : Prop :=
  free_rg rg \/ area_rg v rg \/ kernel_rg rg.

Definition pool_ok (pl : kcache_pool_struct) : Prop :=
  pl = zero_pool \/
  exists base al n asz t, pl = pool_at base al n asz t /\ 0 <= t <= n /\ 0 < n /\ 0 < al /\
    n * al < 2 ^ 31 /\ KMEM_VADDR_BASE <= base /\ 0 < asz /\ base + asz <= KMEM_VADDR_BASE + 2 ^ 31 /\
    base mod 4096 = 0 /\ asz mod 4096 = 0.

Record mm_wf (m : machine) (p : Z) (x : mm_struct) (v : vm_area_struct) : Prop := mkWf {
  wf_area : area_ok m p x v;
  wf_syms : Forall (sym_ok v) (symrgtbl x);
  wf_pools : Forall pool_ok (default [] (kcpooltbl x));
}.

Definition proc_wf (m : machine) (p : Z) : Prop :=
  exists y k x v, procs m !! p = Some y /\ length (regs y) = 10%nat /\ has_mm m p k x /\ mm_wf m p x v.

Definition sys_wf (E F : list Z) (m : machine) : Prop :=
  kinv E F m /\ forall p, is_Some (procs m !! p) -> proc_wf m p.

(** What one process may not do to the others. *)
Definition isolated (p : Z) (m m' : machine) : Prop :=
  (sch m' = sch m /\ oom m' = oom m) /\
  (forall q, q <> p -> skel <$> procs m' !! q = skel <$> procs m !! q) /\
  (forall q a, q <> p -> user_addr a -> vbyte m' q a = vbyte m q a) /\
  (forall q, is_Some (procs m' !! q) <-> is_Some (procs m !! q)) /\ roots_kept m m'.

Lemma isolated_trans p m1 m2 m3 : isolated p m1 m2 -> isolated p m2 m3 -> isolated p m1 m3.
Proof.
  intros ([S1 O1] & K1 & B1 & D1 & R1) ([S2 O2] & K2 & B2 & D2 & R2). split_and!; [congruence|congruence| | | |].
  - intros q Hq. by rewrite K2, K1.
  - intros q a Hq Ha. by rewrite B2, B1.
  - intros q. by rewrite D2, D1.
  - intros q y y3 Hy Hy3 k Hk Hnz. destruct (proj2 (D1 q) ltac:(by exists y)) as [y2 Hy2].
    destruct (R1 q y y2 Hy Hy2 k Hk Hnz) as (k2 & Hk2 & E2).
    destruct (R2 q y2 y3 Hy2 Hy3 k2 Hk2 ltac:(congruence)) as (k3 & Hk3 & E3). exists k3. split; [done|congruence].
Qed.

(** A step of [p] keeps the system invariant if [p] itself ends well formed. *)
Lemma sys_step {T} (g : mm_struct -> T) E F p m m' :
  sys_wf E F m -> is_Some (procs m !! p) -> fixed (view p g) m m' -> kinv E F m' ->
  (forall q a, q <> p -> user_addr a -> vbyte m' q a = vbyte m q a) ->
  (exists k' x' v', has_mm m' p k' x' /\ mm_wf m' p x' v') ->
  sys_wf E F m' /\ isolated p m m'.
Proof.
  intros [HKI HW] Hp HF HKI' HB (k' & x' & v' & Hp' & HW').
  assert (Hoth : forall q, q <> p -> skel <$> procs m' !! q = skel <$> procs m !! q)
    by (intros q; by eapply fixed_other).
  split; [split; [done|]|].
  2:{ pose proof HF as (_ & S & O & R). split_and!; try done. intros q. by apply (fixed_procs_dom p g). }
  intros q [y' Hy']. destruct (decide (q = p)) as [->|Hq].
  - destruct (HW p Hp) as (y & _ & _ & _ & Hy & Hl & _). exists y', k', x', v'. split_and!; try done.
    pose proof (fixed_head p g m m' HF) as Hh. rewrite Hy, Hy' in Hh. simpl in Hh. apply (inj Some) in Hh.
    apply (f_equal regs) in Hh. unfold head in Hh. simpl in Hh. apply (f_equal length) in Hh.
    rewrite !length_replicate in Hh. by rewrite Hh.
  - destruct (HW q) as (y & k & x & v & Hy & Hl & Hqm & [HA HS HP]).
    { apply (fixed_procs_dom p g m m' HF). by exists y'. }
    destruct (vs_procs _ (vi_shape _ _ _ (proj1 HKI')) q y' Hy') as (k1 & x1 & Hq1 & _).
    specialize (Hoth q Hq). destruct (skel_has_mm m m' q k x k1 x1 Hoth Hqm Hq1) as (Em & Es & Et).
    exists y', k1, x1, v. split_and!; try done.
    + rewrite Hy, Hy' in Hoth. simpl in Hoth. apply (inj Some) in Hoth. by rewrite (skel_regs _ _ Hoth).
    + split; rewrite ?Es, ?Et; try done. eapply area_ok_same; [exact HA|done|done|].
      intros a Ha. by apply HB.
Qed.

(** ** How the parts of the invariant survive a step *)

(** The area only needs the same addresses to be mapped. *)
Lemma area_ok_mapped m m' p x x' v :
  area_ok m p x v -> mmap x' = mmap x -> symrgtbl x' = symrgtbl x ->
  (forall a, user_addr a -> vbyte m' p a = None <-> vbyte m p a = None) -> area_ok m' p x' v.
Proof.
  intros [H1 H2 H3 H4 H5 H6 H7 H8] Em Es Hb. split; rewrite ?Em, ?Es; try done.
  - intros a Ha Hc. rewrite Hb by done. by apply H7.
  - intros a Ha Hs. apply Hb; [done|]. by apply H8.
Qed.

Lemma mm_wf_mapped m m' p x x' v :
  mm_wf m p x v -> mmap x' = mmap x -> symrgtbl x' = symrgtbl x -> kcpooltbl x' = kcpooltbl x ->
  (forall a, user_addr a -> vbyte m' p a = None <-> vbyte m p a = None) -> mm_wf m' p x' v.
Proof.
  intros [HA HS HP] Em Es Et Hb. split; [by eapply (area_ok_mapped m)|by rewrite Es|by rewrite Et].
Qed.

(** A kernel region has no user address. *)
Lemma kernel_rg_cov rg a : KMEM_VADDR_BASE <= rg_start rg -> user_addr a -> rg_cov rg a = 0.
Proof.
  unfold user_addr, KMEM_VADDR_BASE. intros Hr Ha. unfold rg_cov, within. rewrite bool_decide_false; [done|lia].
Qed.

(** A free symbol that receives a kernel region. *)
Lemma area_ok_ksym m m' p x x' v r rg kg :
  area_ok m p x v -> mmap x' = mmap x -> symrgtbl x !! r = Some rg -> free_rg rg ->
  symrgtbl x' = <[r := kg]> (symrgtbl x) -> KMEM_VADDR_BASE <= rg_start kg -> rg_ok kg ->
  (forall a, user_addr a -> vbyte m' p a = vbyte m p a) -> area_ok m' p x' v.
Proof.
  intros [H1 H2 H3 H4 [Hl Ho] H6 H7 H8] Em Hr [Z1 Z2] Es Hk Hok Hb.
  assert (Hc : forall a, user_addr a -> cov (symrgtbl x') a = cov (symrgtbl x) a).
  { intros a Ha. rewrite Es, (cov_insert _ _ rg) by done. rewrite (kernel_rg_cov kg) by done.
    unfold rg_cov. rewrite Z1, Z2, within_empty by lia. lia. }
  split; rewrite ?Em; try done.
  - rewrite Es. split; [by rewrite length_insert|]. by apply Forall_insert.
  - intros a Ha. rewrite Hc by done. by apply H6.
  - intros a Ha. rewrite Hc, Hb by done. by apply H7.
  - intros a Ha. rewrite Hb by done. by apply H8.
Qed.

Lemma wp_frames {T A} (f : Z -> pcb_t -> T) (c : M machine A) Q m :
  Frames f c -> wp c Q m -> wp c (fun a m' => Q a m' /\ fixed f m m') m.
Proof. intros Hf. unfold wp. destruct (c m) eqn:Hc; try done. intros HQ. split; [done|]. by eapply Hf. Qed.

(** ** Every instruction *)

(** What an instruction of [p] guarantees. *)
Definition step_post (E F : list Z) (p : Z) (m m' : machine) : Prop :=
  sys_wf E F m' /\ isolated p m m' /\ head <$> procs m' !! p = head <$> procs m !! p.

Section instructions.
Context (E F : list Z) (m : machine) (p : Z) (y : pcb_t) (k : krnl_t) (x : mm_struct) (v : vm_area_struct).
Context (HW : sys_wf E F m) (Hy : procs m !! p = Some y) (Hlen : length (regs y) = 10%nat).
Context (Hp : has_mm m p k x) (Hwf : mm_wf m p x v).

Lemma step_intro {A} (c : M machine A) :
  Frames (view p (fun _ => tt)) c ->
  wp c (fun _ m' => kinv E F m' /\ (forall q a, q <> p -> user_addr a -> vbyte m' q a = vbyte m q a) /\
    exists k' x' v', has_mm m' p k' x' /\ mm_wf m' p x' v') m ->
  wp c (fun _ m' => step_post E F p m m') m.
Proof using HW Hy.
  intros Hf Hc. eapply wp_mono; [by eapply wp_frames|].
  intros a m' [(HKI & HB & Hx) Hfx]. destruct (sys_step _ E F p m m' HW ltac:(by exists y) Hfx HKI HB Hx) as [H1 H2].
  split; [done|]. split; [done|]. by eapply fixed_head.
Qed.

Lemma step_refl : step_post E F p m m.
Proof using HW. split; [done|]. split; [|done]. split_and!; try done. apply (fixed_refl (fun _ _ => tt)). Qed.

Lemma step_ret {A} (c : M machine A) a : c m = Ret a m -> wp c (fun _ m' => step_post E F p m m') m.
Proof using HW. intros Hc. eapply wp_eq; [exact Hc|]. apply step_refl. Qed.

(** Nothing but page tables and queues has changed. *)
Lemma keeps_wf m' :
  vm_inv E F m' -> keeps m m' ->
  kinv E F m' /\ (forall q a, q <> p -> user_addr a -> vbyte m' q a = vbyte m q a) /\
  exists k' x', has_mm m' p k' x' /\ mm_wf m' p x' v /\ symrgtbl x' = symrgtbl x.
Proof using HW Hp Hwf.
  intros HI (HP & HK & HB). split; [|split].
  - eapply kinv_keeps; [apply HW|done|by apply keeps_procs_sim|done].
  - intros q a _. by apply HB.
  - destruct (keeps_has_mm _ _ _ _ _ HP Hp) as (k' & x' & Hp' & Ek & Ex).
    destruct (erased_fields _ _ _ _ Ek Ex) as (_ & _ & _ & _ & _ & Em & Es & Et).
    exists k', x'. split; [done|]. split; [|done]. eapply mm_wf_mapped; try done. intros a Ha. by rewrite HB.
Qed.

Lemma reg_some i : 0 <= i < 10 -> is_Some (reg m p i).
Proof using Hy Hlen. intros Hi. unfold reg. rewrite Hy. simpl. apply lookup_lt_is_Some. lia. Qed.

Lemma sym_some r : 0 <= r < 30 -> exists rg, symrgtbl x !! Z.to_nat r = Some rg /\ rg_ok rg /\ sym_ok v rg.
Proof using Hwf.
  clear HW Hlen. intros Hr. destruct Hwf as [[_ _ _ _ [Hl Ho] _ _ _] HS _].
  destruct (lookup_lt_is_Some_2 (symrgtbl x) (Z.to_nat r) ltac:(lia)) as [rg Hrg]. exists rg.
  split; [done|]. split; [by eapply Forall_lookup_1|by eapply Forall_lookup_1].
Qed.

Lemma symrg_out r : 30 <= r < 2 ^ 32 -> get_symrg_byid (Some x) (i32 r) = None /\ (i32 r < 0 \/ 30 <= i32 r).
Proof using Type.
  clear HW Hlen. intros Hr. assert (Hc : i32 r < 0 \/ 30 <= i32 r).
  { unfold i32. destruct (decide (r < 2 ^ 31)); [rewrite Z.mod_small by lia; lia|].
    replace (r + 2 ^ 31) with (r - 2 ^ 31 + 1 * 2 ^ 32) by lia. rewrite Z.mod_add, Z.mod_small by lia. lia. }
  split; [|done]. unfold get_symrg_byid, PAGING_MAX_SYMTBL_SZ.
  destruct Hc; [rewrite bool_decide_true by done|rewrite (bool_decide_true (30 <= i32 r)), orb_true_r by done]; done.
Qed.

(** The result put into a register at the end of a call. *)
Lemma set_reg_step m1 k1 x1 v1 i w (s : Z) :
  kinv E F m1 -> has_mm m1 p k1 x1 -> mm_wf m1 p x1 v1 -> 0 <= i < 10 -> is_Some (reg m1 p i) ->
  (forall q a, q <> p -> user_addr a -> vbyte m1 q a = vbyte m q a) ->
  wp (set_reg p i w ;; ret s) (fun _ m2 => kinv E F m2 /\
    (forall q a, q <> p -> user_addr a -> vbyte m2 q a = vbyte m q a) /\
    exists k2 x2 v2, has_mm m2 p k2 x2 /\ mm_wf m2 p x2 v2) m1.
Proof using Type.
  intros HKI Hp1 Hwf1 Hi Hreg HB. apply wp_bind.
  eapply wp_mono; [apply (set_reg_own E F m1 p i w HKI); [by eexists _, _|done|done]|].
  intros [] m2 (HKI2 & (_ & HB2 & _) & _ & _ & Hmm). apply wp_ret. split; [done|]. split.
  - intros q a Hq Ha. rewrite HB2 by done. by apply HB.
  - destruct (Hmm k1 x1 Hp1) as [k2 Hp2]. exists k2, x1, v1. split; [done|].
    eapply mm_wf_mapped; try done. intros a Ha. by rewrite HB2.
Qed.

(** The regions of an area end below its break. *)
Lemma area_syms m' x' v' rg :
  area_ok m' p x' v' -> rg ∈ symrgtbl x' -> rg_start rg < rg_end rg -> rg_end rg <= 2 ^ 56 -> area_rg v' rg.
Proof using Type.
  clear HW Hlen Hy Hp Hwf. intros HA Hin Hlt Hle. split; [done|].
  apply list_elem_of_lookup in Hin as [i Hi]. destruct (ao_syms _ _ _ _ HA) as [_ Hok].
  pose proof (Forall_lookup_1 _ _ _ _ Hok Hi) as (H0 & _ & _).
  assert (Hu : user_addr (rg_end rg - 1)) by (unfold user_addr; lia).
  pose proof (ao_disj _ _ _ _ HA _ Hu) as Hd. pose proof (cov_ge _ _ _ (rg_end rg - 1) Hi) as Hc.
  rewrite rg_cov_in in Hc by lia. pose proof (cov_nonneg (vm_freerg_list v') (rg_end rg - 1)).
  unfold within in Hd. case_bool_decide; lia.
Qed.

(** A call of the user library: the running process keeps its head, the others
    their record. *)
Lemma lib_fixed m' k' x' : lib_step p m m' -> has_mm m' p k' x' -> fixed (view p (fun _ => tt)) m m'.
Proof using HW Hy Hp.
  intros (Hs & _ & Hb & Ho & Hq) Hp'. split_and!; [|apply Hs|done|].
  2:{ intros q y1 y2 E1 E2 k1 Hk1 _. destruct (vs_procs _ (vi_shape _ _ _ (proj1 (proj1 HW))) q y1 E1) as (kq & xq & Hqm & _).
      destruct Hs as (_ & Hsim & _). destruct (Hsim q kq xq Hqm) as (k2 & x2 & Hq2 & _ & Er & _).
      pose proof Hqm as (_ & y3 & Hy3 & Hk3 & _)%has_mm_procs. rewrite E1 in Hy3. injection Hy3 as <-.
      pose proof Hq2 as (_ & y4 & Hy4 & Hk4 & _)%has_mm_procs. rewrite E2 in Hy4. injection Hy4 as <-.
      exists k2. split; [done|]. congruence. }
  intros q.
  destruct (decide (q = p)) as [->|Hne].
  - pose proof Hp as (_ & y0 & Hy0 & Hk0 & Hx0)%has_mm_procs.
    pose proof Hp' as (_ & y1 & Hy1 & Hk1 & Hx1)%has_mm_procs.
    apply (f_equal (lookup p)) in Hb. rewrite !lookup_fmap in Hb. rewrite Hy0, Hy1 in Hb |- *.
    apply (inj Some) in Hb. simpl. f_equal. unfold view. rewrite !decide_True by done. rewrite Hk0, Hk1. simpl.
    rewrite Hx0, Hx1. f_equal. unfold head. unfold bare in Hb. rewrite Hb.
    by assert (regs y1 = regs y0) as -> by (by apply (f_equal regs) in Hb).
  - specialize (Hq q Hne). destruct (procs m' !! q) as [y1|], (procs m !! q) as [y0|]; simpl in *; try done.
    apply (inj Some) in Hq. f_equal. unfold view. rewrite !decide_False by done. f_equal.
    apply (f_equal skel) in Hq. destruct y1 as [? ? ? ? ? ? [[[?|] ? ? ? ?]|] ?], y0 as [? ? ? ? ? ? [[[?|] ? ? ? ?]|] ?]; done.
Qed.

Lemma step_alloc r size :
  0 <= r < 2 ^ 32 -> 30 <= r \/ size = 0 \/ request_ok m p x v r size ->
  wp (liballoc p size r) (fun _ m' => step_post E F p m m') m.
Proof using HW Hy Hlen Hp Hwf.
  intros Hr Hreq. pose proof (wf_area _ _ _ _ Hwf) as HA.
  destruct (decide (30 <= r \/ size = 0)) as [Hbad|Hgood].
  - apply (step_ret _ (-1)). unfold liballoc, bind, __alloc, bind. rewrite (get_mm_ok m p k x) by done.
    unfold PAGING_MAX_SYMTBL_SZ.
    assert (bool_decide (i32 r < 0) || bool_decide (30 <= i32 r) || bool_decide (size = 0) = true) as ->; [|done].
    destruct Hbad as [Hge| ->]; [|by rewrite orb_comm, bool_decide_true].
    destruct (symrg_out r ltac:(lia)) as [_ [Hc|Hc]]; [by rewrite bool_decide_true|].
    by rewrite (bool_decide_true (30 <= i32 r)), orb_true_r.
  - assert (HR : request_ok m p x v r size) by tauto. unfold liballoc. apply wp_bind.
    eapply wp_mono; [by eapply (alloc_spec E F m p k x v r size); [apply HW|..]|].
    intros o m' (HI' & HL & HB & s & k' & x' & v' & -> & Hp' & HA' & Hs & He & Es & Et). apply wp_ret.
    pose proof (lib_fixed m' k' x' HL Hp') as Hfx.
    destruct (sys_step _ E F p m m' HW ltac:(by exists y) Hfx) as [H1 H2].
    + by eapply kinv_lib; [apply HW|..].
    + intros q a Hq Ha. apply HB; auto.
    + exists k', x', v'. split; [done|]. split; [done| |rewrite Et; apply Hwf].
      apply Forall_forall. intros rg Hin. pose proof Hin as Hin0. rewrite Es in Hin.
      apply list_elem_of_lookup in Hin as [i Hi]. apply list_lookup_insert_Some in Hi as [(_ & <- & _)|[_ Hi]].
      * right; left. destruct (rq_size _ _ _ _ _ _ HR). split; simpl; lia.
      * pose proof (Forall_lookup_1 _ _ _ _ (wf_syms _ _ _ _ Hwf) Hi) as [?|[[Ha Hb]|?]]; [by left| |by right; right].
        right; left. apply (area_syms m' x'); try done. pose proof (ao_brk _ _ _ _ HA). lia.
    + split; [done|]. split; [done|]. by eapply fixed_head.
Qed.

Lemma step_read r off d :
  0 <= r < 2 ^ 32 -> is_u64 off -> 0 <= d < 10 ->
  wp (libread p r off d) (fun _ m' => step_post E F p m m') m.
Proof using HW Hy Hlen Hp Hwf.
  intros Hr Hoff Hd. destruct (decide (r < 30)) as [Hlt|Hge].
  - destruct (sym_some r ltac:(lia)) as (rg & Hrg & Hok & _).
    apply step_intro; [frames|]. unfold libread. apply wp_bind.
    eapply wp_mono; [by apply (read_spec E F m p k x (proj1 (proj1 HW)) Hp r off rg); [lia|..]|].
    intros o m1 (HI1 & HK1 & _). destruct (keeps_wf m1 HI1 HK1) as (HKI1 & HB1 & k1 & x1 & Hp1 & Hwf1 & _).
    destruct o as [b|].
    + eapply (set_reg_step m1 k1 x1 v); try done. rewrite (reg_keeps m m1) by apply HK1. by apply reg_some.
    + apply wp_ret. split; [done|]. split; [done|]. by exists k1, x1, v.
  - apply (step_ret _ (-1)). unfold libread, __read, bind. rewrite (get_krnl_ok m p k) by apply Hp.
    pose proof Hp as (_ & _ & ->). destruct (symrg_out r ltac:(lia)) as [-> _]. done.
Qed.

Lemma step_write r off d :
  0 <= r < 2 ^ 32 -> is_u64 off -> wp (libwrite p d r off) (fun _ m' => step_post E F p m m') m.
Proof using HW Hy Hlen Hp Hwf.
  intros Hr Hoff. pose proof (wf_area _ _ _ _ Hwf) as HA. destruct (decide (r < 30)) as [Hlt|Hge].
  - destruct (sym_some r ltac:(lia)) as (rg & Hrg & Hok & _).
    apply step_intro; [frames|]. eapply wp_mono.
    { eapply (libwrite_spec E F m p k x r off rg v [] d (proj1 (proj1 HW)) Hp); try done; [lia|apply HA|].
      destruct (ao_ids _ _ _ _ HA) as (-> & _). done. }
    intros s m' (HI' & [(-> & Hin & (HP & HK & HB) & _)|(-> & HKs & _)]).
    2:{ destruct (keeps_wf m' HI' HKs) as (? & ? & k1 & x1 & ? & ? & _). split; [done|]. split; [done|]. by exists k1, x1, v. }
    split; [eapply kinv_keeps; [apply HW|done|by apply keeps_procs_sim|done]|]. split.
    { intros q a Hq Ha. rewrite HB by done. by rewrite bool_decide_false by (by intros []). }
    destruct (keeps_has_mm _ _ _ _ _ HP Hp) as (k' & x' & Hp' & Ek & Ex).
    destruct (erased_fields _ _ _ _ Ek Ex) as (_ & _ & _ & _ & _ & Em & Es & Et).
    exists k', x', v. split; [done|]. eapply mm_wf_mapped; try done. intros a Ha. rewrite HB by done.
    case_bool_decide as Hc; [|done]. destruct Hc as [_ ->]. split; [done|]. intros Hn. exfalso.
    destruct (region_byte m p x v _ rg (rg_start rg + off) HA Hrg) as [Hm _]; [|done|done].
    destruct Hin. unfold is_u64 in Hoff. lia.
  - apply (step_ret _ (-1)). unfold libwrite, __write, bind. rewrite (get_krnl_ok m p k) by apply Hp.
    pose proof Hp as (_ & _ & ->). rewrite (get_vma_area m p x v m HA).
    destruct (symrg_out r ltac:(lia)) as [-> _]. done.
Qed.

Lemma step_free r :
  0 <= r < 2 ^ 32 -> ~ may_oom m -> (forall rg, symrgtbl x !! Z.to_nat r = Some rg -> ~ kernel_rg rg) ->
  wp (libfree p r) (fun _ m' => step_post E F p m m') m.
Proof using HW Hy Hlen Hp Hwf.
  intros Hr Ho Hk. pose proof (wf_area _ _ _ _ Hwf) as HA. destruct (decide (r < 30)) as [Hlt|Hge].
  - destruct (sym_some r ltac:(lia)) as (rg & Hrg & Hok & [Hf|[Ha|Hkr]]); [| |by destruct (Hk rg Hrg)].
    { destruct Hf. apply (step_ret _ (-1)). eapply (libfree_refused m p k x r rg); [done|lia|by right]. }
    destruct Ha as [Ha1 Ha2]. apply step_intro; [frames|]. eapply wp_mono.
    { apply (wp_frames (view p pools_of)); [frames|].
      apply (libfree_spec E F m p k x v r rg (proj1 (proj1 HW)) Hp HA Ho); try done. lia. }
    intros s m' [(-> & HI' & HL & HB & k' & x' & l & Hp' & HA' & Es & _) Hfx].
    split; [by eapply kinv_lib; [apply HW|..]|]. split; [intros q a _; by apply HB|].
    exists k', x', (set_freerg l v). split; [done|]. split; [done| |].
    + rewrite Es. apply Forall_insert; [|left; by split]. exact (wf_syms _ _ _ _ Hwf).
    + pose proof (fixed_part p pools_of m m' Hfx k x k' x' Hp Hp') as Et. unfold pools_of in Et.
      rewrite Et. apply Hwf.
  - apply (step_ret _ (-1)). destruct (symrg_out r ltac:(lia)) as [_ Hc]. unfold libfree, bind, __free, bind.
    rewrite (get_mm_ok m p k x) by done. unfold PAGING_MAX_SYMTBL_SZ.
    assert (bool_decide (i32 r < 0) || bool_decide (30 <= i32 r) = true) as ->; [|done].
    destruct Hc; [by rewrite bool_decide_true|by rewrite orb_comm, bool_decide_true].
Qed.

Lemma step_kmalloc r size :
  0 <= r < 2 ^ 32 -> r < 10 \/ 30 <= r -> 0 <= size < 2 ^ 32 ->
  wp (libkmem_malloc p size r) (fun _ m' => step_post E F p m m') m.
Proof using HW Hy Hlen Hp Hwf.
  intros Hr Hreg Hsz. pose proof (wf_area _ _ _ _ Hwf) as HA.
  destruct (decide (size = 0)) as [->|Hnz].
  { apply (step_ret _ (-1)). unfold libkmem_malloc, bind. by rewrite (get_krnl_ok m p k) by apply Hp. }
  destruct (decide (30 <= r)) as [Hge|Hlt].
  { apply (step_ret _ (-1)). unfold libkmem_malloc, bind. rewrite (get_krnl_ok m p k) by apply Hp.
    unfold PAGING_MAX_SYMTBL_SZ. by rewrite bool_decide_false, bool_decide_true by done. }
  destruct (sym_some r ltac:(lia)) as (rg & Hrg & Hok & Hs).
  destruct (decide (rg_start rg = 0 /\ rg_end rg = 0)) as [[Z1 Z2]|Hocc].
  - apply step_intro; [frames|]. eapply wp_mono.
    { apply (wp_frames (view p pools_of)); [frames|].
      apply (kmalloc_spec E F m p k x r rg size (proj1 HW) Hp); try done; [lia|apply reg_some; lia|lia]. }
    intros s m' [(HKI & HB & [(-> & f & k' & x' & Hp' & Em & Es & _ & Hblk & _ & Hle & _)|(-> & HK & _)]) Hfx].
    + split; [done|]. split; [intros q a _; by apply HB|]. exists k', x', v. split; [done|].
      assert (Hf : 0 <= f /\ f + pages_for size <= 2 ^ 19 /\ 0 < pages_for size).
      { destruct (free_frames_ok _ _ _ (proj1 (proj1 HW))) as [_ Hrange].
        assert (Hn : 0 < pages_for size) by (unfold pages_for; Z.div_mod_to_equations; lia).
        pose proof (Hrange f (Hblk f ltac:(lia))). pose proof (Hrange (f + pages_for size - 1) (Hblk (f + pages_for size - 1) ltac:(lia))). lia. }
      split.
      * eapply (area_ok_ksym m m' p x x' v _ rg); try done; cbn [rg_start rg_end]; unfold rg_ok, KMEM_VADDR_BASE;
          cbn [rg_start rg_end]; try lia. intros a Ha. by apply HB.
      * rewrite Es. apply Forall_insert; [exact (wf_syms _ _ _ _ Hwf)|]. right; right. unfold kernel_rg. cbn [rg_start rg_end]. lia.
      * pose proof (fixed_part p pools_of m m' Hfx k x k' x' Hp Hp') as Et. unfold pools_of in Et.
        rewrite Et. apply Hwf.
    + split; [done|]. split; [intros q a _; by apply HB|]. exists k, x, v. split; [by eapply kstep_mm|].
      eapply mm_wf_mapped; try done. intros a Ha. by rewrite HB.
  - apply (step_ret _ (-1)). unfold libkmem_malloc, bind. rewrite (get_krnl_ok m p k) by apply Hp.
    unfold PAGING_MAX_SYMTBL_SZ. rewrite !bool_decide_false by lia. unfold __kmalloc, bind.
    rewrite (get_mm_ok m p k x) by done. rewrite i32_small by lia. unfold PAGING_MAX_SYMTBL_SZ.
    rewrite !bool_decide_false by lia. cbn [orb]. rewrite Hrg.
    assert (bool_decide (rg_start rg <> 0) || bool_decide (rg_end rg <> 0) = true) as ->; [|done].
    destruct (decide (rg_start rg = 0)) as [H1|H1]; [|by rewrite bool_decide_true].
    rewrite (bool_decide_true (rg_end rg <> 0)), orb_true_r by tauto. done.
Qed.

Lemma step_create size al id :
  0 <= size < 2 ^ 31 -> 0 <= al -> 0 <= id ->
  wp (libkmem_cache_pool_create p size al id) (fun _ m' => step_post E F p m m') m.
Proof using HW Hy Hlen Hp Hwf.
  intros Hsz Hal Hid. pose proof (wf_area _ _ _ _ Hwf) as HA.
  destruct (decide (30 <= id \/ size = 0 \/ al = 0 \/ size < al)) as [Hbad|Hgood].
  { apply (step_ret _ (-1)). unfold libkmem_cache_pool_create, bind. rewrite (get_mm_ok m p k x) by done.
    unfold PAGING_MAX_SYMTBL_SZ. destruct (bool_decide (30 <= id)) eqn:E1; [done|].
    destruct (bool_decide (size = 0)) eqn:E2; [done|]. destruct (bool_decide (al = 0)) eqn:E3; [done|].
    apply bool_decide_eq_false in E1, E2, E3. rewrite Z.div_small by lia. done. }
  assert (Hpool : (forall l pl, kcpooltbl x = Some l -> l !! Z.to_nat id = Some pl -> pl = zero_pool) \/
    exists l b a n asz t, kcpooltbl x = Some l /\ l !! Z.to_nat id = Some (pool_at b a n asz t) /\ 0 < n /\ 0 < a).
  { destruct (kcpooltbl x) as [l|] eqn:Et; [|by left]. destruct (l !! Z.to_nat id) as [pl|] eqn:Hpl.
    2:{ left. intros l' pl [= <-]. congruence. }
    pose proof (wf_pools _ _ _ _ Hwf) as HPs. rewrite Et in HPs. simpl in HPs.
    destruct (Forall_lookup_1 _ _ _ _ HPs Hpl) as [->|(b & a & n & asz & t & -> & _ & ? & ? & _)].
    - left. intros l' pl' [= <-]. congruence.
    - right. by exists l, b, a, n, asz, t. }
  destruct Hpool as [Hz|(l & b & a & n & asz & t & Et & Hpl & Hn & Ha)]; [|apply step_intro; [frames|]].
  2:{ unfold libkmem_cache_pool_create. apply wp_bind. eapply wp_eq; [by eapply get_mm_ok|]. cbv beta iota.
    assert (Hd : 0 < size / al /\ size / al * al <= size).
    { split; [apply Z.div_str_pos; lia|]. rewrite Z.mul_comm. apply Z.mul_div_le. lia. }
    unfold PAGING_MAX_SYMTBL_SZ.
    rewrite (bool_decide_false (30 <= id)), (bool_decide_false (size = 0)), (bool_decide_false (al = 0)) by lia.
    cbn [orb]. rewrite (bool_decide_false (size / al * al = 0)) by nia. rewrite Z.div_mul by lia.
    rewrite (i32_small (size / al)) by nia.
    rewrite (bool_decide_false (size / al = 0)) by lia. pose proof (lookup_lt_Some _ _ _ Hpl) as Hlt.
    apply wp_bind. eapply wp_eq.
    { unfold grow_pool_table. rewrite Et, bool_decide_false by lia. reflexivity. }
    cbv beta iota. apply wp_bind. eapply wp_mono; [by eapply (upd_mm_own E F m p k x _ (proj1 HW) Hp)|].
    intros [] m1 (HKI1 & (_ & HB & _) & (k1 & Hp1) & _). rewrite Hpl. cbn [pool_size pool_at].
    rewrite bool_decide_true by nia. apply wp_ret. split; [done|]. split; [intros q c _; by apply HB|].
    exists k1, (set_kcpooltbl x (Some l)), v. split; [done|].
    eapply mm_wf_mapped; try done. intros c Hc. by rewrite HB. }
  { apply step_intro; [frames|]. eapply wp_mono.
    { apply (pool_create_spec E F m p k x size al id (proj1 HW) Hp); [lia|lia|lia|done]. }
    assert (Hfrom : forall l, pools_from (kcpooltbl x) l -> Forall pool_ok l).
    { intros l Hl. eapply Forall_impl; [exact Hl|]. intros pl [->|Hin]; [by left|].
      exact (proj1 (Forall_forall _ _) (wf_pools _ _ _ _ Hwf) pl Hin). }
    intros s m' (HKI & HB & _ & Hcase). split; [done|]. split; [intros q c _; by apply HB|].
    assert (Harea : forall x', mmap x' = mmap x -> symrgtbl x' = symrgtbl x -> area_ok m' p x' v).
    { intros x' Em Es. eapply area_ok_same; [exact HA|done|done|]. intros c Hc. by apply HB. }
    destruct Hcase as [(-> & f & k' & x' & tbl & Hp' & Em & Es & Et & _ & _ & Hf & Hlt & Hle & _ & l & -> & Hl)
                      |(-> & _ & _ & _ & _ & k' & x' & Hp' & Em & Es & Hl)].
    + exists k', x', v. split; [done|]. split; [by apply Harea|rewrite Es; apply Hwf|].
      rewrite Et. simpl. apply Forall_insert; [by apply Hfrom|]. right. eexists _, _, _, _, _. split; [reflexivity|].
      assert (0 < size / al) by (apply Z.div_str_pos; lia). pose proof (Z.mul_div_le size al ltac:(lia)).
      assert (0 <= pages_for size) by (unfold pages_for; apply Z.div_pos; lia).
      split_and!; try lia; [|by apply Z.mod_mul]. unfold KMEM_VADDR_BASE. Z.div_mod_to_equations. lia.
    + exists k', x', v. split; [done|]. split; [by apply Harea|rewrite Es; apply Hwf|by apply Hfrom]. }
Qed.

Lemma step_cache_alloc r id :
  0 <= r < 2 ^ 32 -> r < 10 \/ 30 <= r -> 0 <= id < 2 ^ 32 ->
  wp (libkmem_cache_alloc p r id) (fun _ m' => step_post E F p m m') m.
Proof using HW Hy Hlen Hp Hwf.
  intros Hr Hreg Hid. pose proof (wf_area _ _ _ _ Hwf) as HA.
  destruct (decide (30 <= id \/ 30 <= r)) as [Hbad|Hgood].
  { apply (step_ret _ (-1)). unfold libkmem_cache_alloc, bind. rewrite (get_mm_ok m p k x) by done.
    unfold PAGING_MAX_SYMTBL_SZ.
    assert (bool_decide (30 <= id) || bool_decide (30 <= r) = true) as ->; [|done].
    destruct Hbad; [by rewrite bool_decide_true|by rewrite orb_comm, bool_decide_true]. }
  destruct (sym_some r ltac:(lia)) as (rg & Hrg & Hok & Hs).
  assert (Hrefuse : (forall tbl pl, kcpooltbl x = Some tbl -> tbl !! Z.to_nat id = Some pl ->
            pool_size pl = 0 \/ rg_start rg <> 0 \/ rg_end rg <> 0) ->
          wp (libkmem_cache_alloc p r id) (fun _ m' => step_post E F p m m') m).
  { intros Hno. apply (step_ret _ (-1)). unfold libkmem_cache_alloc, bind. rewrite (get_mm_ok m p k x) by done.
    unfold PAGING_MAX_SYMTBL_SZ. rewrite !bool_decide_false by lia. cbn [orb].
    unfold __kmem_cache_alloc, bind. rewrite (get_mm_ok m p k x) by done. rewrite !i32_small by lia.
    unfold PAGING_MAX_SYMTBL_SZ. rewrite !bool_decide_false by lia. cbn [orb].
    destruct (kcpooltbl x) as [tbl|]; [|done]. cbn [mbind option_bind].
    destruct (tbl !! Z.to_nat id) as [pl|] eqn:Hpl; [|done]. case_bool_decide as Hz; [done|]. rewrite Hrg.
    destruct (Hno tbl pl eq_refl Hpl) as [?|Ho]; [done|].
    assert (bool_decide (rg_start rg <> 0) || bool_decide (rg_end rg <> 0) = true) as ->; [|done].
    destruct Ho; [by rewrite bool_decide_true|by rewrite orb_comm, bool_decide_true]. }
  destruct (kcpooltbl x) as [tbl|] eqn:Et; [|by apply Hrefuse].
  destruct (tbl !! Z.to_nat id) as [pl|] eqn:Hpl.
  2:{ apply Hrefuse. intros tbl' pl [= <-]. congruence. }
  pose proof (wf_pools _ _ _ _ Hwf) as HPs. rewrite Et in HPs. simpl in HPs.
  destruct (Forall_lookup_1 _ _ _ _ HPs Hpl) as [->|(b & a & n & asz & t & -> & Ht & Hn & Ha & Hna & Hb & Has & Hb' & Hal)].
  { apply Hrefuse. intros tbl' pl [= <-] Hpl'. rewrite Hpl in Hpl'. injection Hpl' as <-. by left. }
  destruct (decide (rg_start rg = 0 /\ rg_end rg = 0)) as [Hz|Hocc].
  2:{ apply Hrefuse. intros tbl' pl _ _. right. destruct (decide (rg_start rg = 0)); tauto. }
  apply step_intro; [frames|]. eapply wp_mono.
  { apply (cache_alloc_spec E F m p k x (proj1 HW) Hp r id b a n asz t tbl rg); try done; try (unfold KMEM_VADDR_BASE in *; lia).
    apply reg_some. lia. }
  intros s m' (HKI & (_ & HB & _) & Hcase). split; [done|]. split; [intros q c _; by apply HB|].
  case_bool_decide as Hlt.
  - destruct Hcase as (-> & k' & x' & Hp' & Em & Et' & Es & _). exists k', x', v. split; [done|].
    assert (Hta : 0 <= t * a /\ t * a <= n * a /\ 0 < n * a) by nia. split.
    + eapply (area_ok_ksym m m' p x x' v _ rg); try done; [cbn [rg_start rg_end]; lia| |intros c Hc; by apply HB].
      unfold rg_ok, KMEM_VADDR_BASE in *. cbn [rg_start rg_end]. lia.
    + rewrite Es. apply Forall_insert; [exact (wf_syms _ _ _ _ Hwf)|]. right; right.
      unfold kernel_rg. cbn [rg_start rg_end]. lia.
    + rewrite Et'. simpl. apply Forall_insert; [done|]. right. exists b, a, n, asz, (t + 1). split_and!; try done; lia.
  - destruct Hcase as [-> ->]. by exists k, x, v.
Qed.

(** The two copies, between any symbol and a kernel region. *)
Lemma copy_guard_step src dst size c :
  src < 30 -> dst < 30 -> (0 < size -> wp c (fun _ m' => step_post E F p m m') m) -> 0 <= size ->
  wp (copy_guard p src dst size c) (fun _ m' => step_post E F p m m') m.
Proof using HW Hp.
  clear Hlen. intros Hs Hd Hc Hsz. unfold copy_guard. apply wp_bind. eapply wp_eq; [by eapply get_mm_ok|]. cbv beta iota.
  unfold PAGING_MAX_SYMTBL_SZ. rewrite !bool_decide_false by lia. cbn [orb].
  case_bool_decide; [apply wp_ret, step_refl|apply Hc; lia].
Qed.

Lemma step_copy_in src dst off size krg :
  0 <= src < 30 -> 0 <= dst < 30 -> symrgtbl x !! Z.to_nat dst = Some krg -> kernel_rg krg ->
  0 <= off -> 0 <= size -> off + size <= 2 ^ 32 ->
  wp (libkmem_copy_from_user p src dst off size) (fun _ m' => step_post E F p m m') m.
Proof using HW Hy Hp Hwf.
  clear Hlen. intros Hs Hd Hkrg [Hk _] Hoff Hsz Hfit. destruct (sym_some src Hs) as (urg & Hurg & Hok & _).
  destruct (sym_some dst Hd) as (krg' & Hk' & (_ & _ & Hke) & _). rewrite Hkrg in Hk'. injection Hk' as <-.
  apply copy_guard_step; [lia|lia| |done]. intros Hpos.
  apply step_intro; [unfold copy_loop; frames|]. eapply wp_mono.
  { eapply (copy_in_loop E F m p k x (proj1 HW) Hp src dst off size urg krg); done. }
  assert (Hin : forall n m', copied_in E F m p off urg krg n m' -> kinv E F m' /\
    (forall q a, q <> p -> user_addr a -> vbyte m' q a = vbyte m q a) /\
    exists k' x' v', has_mm m' p k' x' /\ mm_wf m' p x' v').
  { intros n m' (HKI & HP & HB & _). split; [done|]. split; [intros q a _; by apply HB|].
    destruct (keeps_has_mm _ _ _ _ _ HP Hp) as (k' & x' & Hp' & Ek & Ex).
    destruct (erased_fields _ _ _ _ Ek Ex) as (_ & _ & _ & _ & _ & Em & Es & Et).
    exists k', x', v. split; [done|]. eapply mm_wf_mapped; try done. intros a Ha. by rewrite HB. }
  intros s m' [[_ HC]|(_ & n & m1 & _ & HC & _)]; by eapply Hin.
Qed.

Lemma step_copy_out src dst off size krg :
  0 <= src < 30 -> 0 <= dst < 30 -> symrgtbl x !! Z.to_nat src = Some krg -> kernel_rg krg ->
  0 <= off -> 0 <= size -> off + size <= 2 ^ 32 ->
  wp (libkmem_copy_to_user p src dst off size) (fun _ m' => step_post E F p m m') m.
Proof using HW Hy Hp Hwf.
  clear Hlen. intros Hs Hd Hkrg [Hk _] Hoff Hsz Hfit. destruct (sym_some dst Hd) as (urg & Hurg & Hok & _).
  destruct (sym_some src Hs) as (krg' & Hk' & (_ & _ & Hke) & _). rewrite Hkrg in Hk'. injection Hk' as <-.
  apply copy_guard_step; [lia|lia| |done]. intros Hpos.
  apply step_intro; [unfold copy_loop; frames|]. eapply wp_mono.
  { eapply (copy_out_loop E F m p k x (proj1 HW) Hp dst src off size urg krg); done. }
  assert (Hout : forall n m', copied_out E F m p off urg krg n m' -> kinv E F m' /\
    (forall q a, q <> p -> user_addr a -> vbyte m' q a = vbyte m q a) /\
    exists k' x' v', has_mm m' p k' x' /\ mm_wf m' p x' v').
  { intros n m' (HKI & HP & _ & Hc & HB). split; [done|].
    split; [intros q a Hq Ha; apply HB; [done|by intros [-> _]]|].
    destruct (keeps_has_mm _ _ _ _ _ HP Hp) as (k' & x' & Hp' & Ek & Ex).
    destruct (erased_fields _ _ _ _ Ek Ex) as (_ & _ & _ & _ & _ & Em & Es & Et).
    exists k', x', v. split; [done|]. eapply mm_wf_mapped; try done. intros a Ha.
    destruct (decide (uaddr off urg 0 <= a < uaddr off urg n)) as [Hr|Hr]; [|rewrite HB; [done|done|by intros [_ ?]]].
    unfold uaddr in Hr. destruct (Hc (a - rg_start urg - off) ltac:(lia)) as (Hir & _ & Hnn & He).
    unfold uaddr in He. replace (rg_start urg + (off + (a - rg_start urg - off))) with a in He by lia.
    rewrite He. split; [by intros ?|]. intros Hn0. exfalso.
    destruct (region_byte m p x v _ urg a (wf_area _ _ _ _ Hwf) Hurg) as [Hm _]; [|done|done]. destruct Hir. lia. }
  intros s m' [[_ HC]|(_ & n & m1 & _ & HC & _)]; by eapply Hout.
Qed.

Lemma step_syscall nr a1 a2 a3 :
  nr <> 17 -> wp (libsyscall p nr a1 a2 a3) (fun _ m' => step_post E F p m m') m.
Proof using HW Hy Hp.
  intros Hnr. assert (exists s, libsyscall p nr a1 a2 a3 m = Ret s m) as [s Hs].
  { unfold libsyscall, bind. rewrite (get_krnl_ok m p k) by apply Hp. unfold get_pcb. rewrite Hy.
    unfold _syscall. rewrite !(bool_decide_false (nr = 17)) by done.
    repeat case_bool_decide; by eexists. }
  by eapply step_ret.
Qed.
End instructions.

(** ** The interpreter *)

(** The operands of an instruction are 64-bit words. *)
Definition inst_words (ins : inst_t) : Prop :=
  is_u64 (arg_0 ins) /\ is_u64 (arg_1 ins) /\ is_u64 (arg_2 ins) /\ is_u64 (arg_3 ins).

(** Symbol [r] is a kernel region. *)
Definition kernel_sym (x : mm_struct) (r : Z) : Prop :=
  exists rg, symrgtbl x !! Z.to_nat r = Some rg /\ kernel_rg rg.

(** The operands have the kinds the instruction expects: result registers are
    among the ten (or are refused as symbols), copies name a kernel region where
    they need one, FREE does not name one, an allocation that has to grow the
    area fits into the free frames, and the system call is not the memory map. *)
Definition inst_ok (m : machine) (p : Z) (x : mm_struct) (v : vm_area_struct) (ins : inst_t) : Prop :=
  let a0 := u32 (arg_0 ins) in
  let a1 := u32 (arg_1 ins) in
  let a2 := u32 (arg_2 ins) in
  let a3 := u32 (arg_3 ins) in
  match opcode ins with
  | CALC => True
  | ALLOC => 30 <= a1 \/ arg_0 ins = 0 \/ request_ok m p x v a1 (arg_0 ins)
  | KMALLOC | KMEM_CACHE_ALLOC => a1 < 10 \/ 30 <= a1
  | KMEM_CACHE_CREATE => a0 < 2 ^ 31
  | COPY_FROM_USER => a0 < 30 /\ a1 < 30 /\ kernel_sym x a1 /\ a2 + a3 <= 2 ^ 32
  | COPY_TO_USER => a0 < 30 /\ a1 < 30 /\ kernel_sym x a0 /\ a2 + a3 <= 2 ^ 32
  | FREE => ~ may_oom m /\ ~ kernel_sym x a0
  | READ => a2 < 10
  | WRITE => True
  | SYSCALL => a0 <> 17
  end.

Lemma exec_safe E F m p y k x v ins :
  sys_wf E F m -> procs m !! p = Some y -> length (regs y) = 10%nat -> has_mm m p k x -> mm_wf m p x v ->
  inst_words ins -> inst_ok m p x v ins ->
  wp (exec p ins) (fun _ m' => step_post E F p m m') m.
Proof.
  intros HW Hy Hl Hp Hwf (W0 & W1 & W2 & W3) Hok. pose proof (u32_range (arg_0 ins)). pose proof (u32_range (arg_1 ins)).
  pose proof (u32_range (arg_2 ins)). pose proof (u32_range (arg_3 ins)).
  unfold exec. unfold inst_ok in Hok. destruct (opcode ins).
  - by apply wp_ret, step_refl.
  - by eapply step_alloc.
  - destruct Hok as [Ho Hk]. eapply step_free; try done. intros rg Hrg Hkr. apply Hk. by exists rg.
  - eapply step_read; try done. lia.
  - by eapply step_write.
  - by eapply step_kmalloc.
  - eapply step_create; try done; lia.
  - by eapply step_cache_alloc.
  - destruct Hok as (? & ? & (rg & Hrg & Hkr) & ?). eapply step_copy_in; try done; lia.
  - destruct Hok as (? & ? & (rg & Hrg & Hkr) & ?). eapply step_copy_out; try done; lia.
  - by eapply step_syscall.
Qed.

(** A record with other contents but the same memory map, such as the one with
    the program counter moved. *)
Lemma set_pcb_step E F m p y y' k x v :
  sys_wf E F m -> procs m !! p = Some y -> has_mm m p k x -> mm_wf m p x v ->
  krnl y' = krnl y -> pid y' = pid y -> length (regs y') = length (regs y) ->
  let m1 := set_procs m (<[p := y']> (procs m)) in
  sys_wf E F m1 /\ isolated p m m1 /\ procs m1 !! p = Some y' /\ has_mm m1 p k x /\ mm_wf m1 p x v /\
  forall ins, inst_ok m p x v ins -> inst_ok m1 p x v ins.
Proof.
  intros HW Hy Hp Hwf Ek Ep El m1. pose proof Hp as (Hp0 & y0 & Hy0 & Hk & Hx)%has_mm_procs.
  rewrite Hy in Hy0. injection Hy0 as <-.
  destruct (put_pcb_inv E F m p y y' k x k x (proj1 (proj1 HW)) Hy Hk Hx ltac:(by rewrite Ek) Hx)
    as (HI1 & Hp1 & _ & _ & HKk & HB); try done; [by eapply has_mm_fifo; [apply HW|]|]. fold m1 in HI1, Hp1, HKk, HB.
  assert (Hlk : procs m1 !! p = Some y') by (unfold m1; simpl; by rewrite lookup_insert_eq).
  assert (Hot : forall q, q <> p -> procs m1 !! q = procs m !! q) by (intros; unfold m1; simpl; by rewrite lookup_insert_ne).
  assert (Hmm : forall q kq xq, has_mm m q kq xq <-> has_mm m1 q kq xq).
  { intros q kq xq. rewrite !has_mm_procs. destruct (decide (q = p)) as [->|Hq]; [|by rewrite Hot].
    rewrite Hlk, Hy. split; intros (? & z & [= <-] & ? & ?); split; eauto; eexists; split_and!; eauto; congruence. }
  assert (Hsame : forall q xq vq, mm_wf m q xq vq -> mm_wf m1 q xq vq).
  { intros q xq vq H. eapply mm_wf_mapped; try done. intros a Ha. by rewrite HB. }
  split; [|split; [|split; [done|split; [done|split; [by apply Hsame|]]]]].
  - split.
    + destruct HW as [[_ HD] _]. split; [done|]. intros q g f (kq & xq & Hq) Hg. apply Hmm in Hq.
      rewrite (kpage_mm m1 q kq xq) by (by apply Hmm). rewrite <- (kpage_mm m q kq xq) by done.
      apply HD; [by exists kq, xq|done].
    + intros q [y1 Hy1]. destruct (decide (q = p)) as [->|Hq].
      * destruct (proj2 HW p ltac:(by exists y)) as (y2 & k2 & x2 & v2 & Hy2 & Hl2 & Hp2 & Hw2).
        rewrite Hy in Hy2. injection Hy2 as <-. exists y', k2, x2, v2. split_and!; [done|congruence|by apply Hmm|by apply Hsame].
      * rewrite Hot in Hy1 by done. destruct (proj2 HW q ltac:(by exists y1)) as (y2 & k2 & x2 & v2 & Hy2 & Hl2 & Hp2 & Hw2).
        exists y2, k2, x2, v2. split_and!; [by rewrite Hot|done|by apply Hmm|by apply Hsame].
  - split_and!; [done|done| | | |].
    + intros q Hq. by rewrite Hot.
    + intros q a _ Ha. by apply HB.
    + intros q. destruct (decide (q = p)) as [->|Hq]; [rewrite Hlk, Hy; split; by eexists|by rewrite Hot].
    + intros q y1 y2 E1. destruct (decide (q = p)) as [->|Hq].
      * rewrite Hlk. intros [= <-]. rewrite Hy in E1. injection E1 as <-. intros k1 Hk1 _. exists k1.
        split; [congruence|done].
      * rewrite Hot, E1 by done. intros [= <-]. apply root_kept_refl.
  - intros ins. unfold inst_ok. destruct (opcode ins); try done. intros [?|[?|[? ? ? ? ? Hf]]]; [by left|by right; left|].
    right; right. split; try done. unfold findable in *. 
    assert (Hpid : forall q, pid_at m1 q = pid_at m q).
    { intros q. unfold pid_at. destruct (decide (q = p)) as [->|Hq]; [by rewrite Hlk, Hy, Ep|by rewrite Hot]. }
    rewrite Hpid. rewrite <- Hf at 2. apply find_proc_from_ext. exact Hpid.
Qed.

Lemma run_safe E F m p y k x v ins :
  sys_wf E F m -> procs m !! p = Some y -> has_mm m p k x -> mm_wf m p x v ->
  code y !! Z.to_nat (pc y) = Some ins -> 0 <= pc y < 2 ^ 32 - 1 -> inst_words ins -> inst_ok m p x v ins ->
  wp (run p) (fun _ m' => sys_wf E F m' /\ isolated p m m' /\
    exists y', procs m' !! p = Some y' /\ pc y' = pc y + 1 /\ code y' = code y /\ pid y' = pid y /\ prio y' = prio y) m.
Proof.
  intros HW Hy Hp Hwf Hins Hpc Hwd Hok. unfold run. apply wp_bind.
  eapply wp_eq; [unfold get_pcb; by rewrite Hy|]. cbv beta.
  pose proof (lookup_lt_Some _ _ _ Hins). rewrite bool_decide_false by lia. rewrite Hins.
  apply wp_bind. eapply wp_eq; [reflexivity|]. cbv beta.
  destruct (set_pcb_step E F m p y (set_pc y (u32 (pc y + 1))) k x v HW Hy Hp Hwf eq_refl eq_refl eq_refl) as (HW1 & HI1 & Hy1 & Hp1 & Hwf1 & Hok1).
  eapply wp_mono; [eapply (exec_safe E F _ p _ k x v ins HW1 Hy1); try done; [|by apply Hok1]|].
  { destruct (proj2 HW p ltac:(by exists y)) as (y2 & _ & _ & _ & Hy2 & Hl2 & _). rewrite Hy in Hy2.
    injection Hy2 as <-. done. }
  intros s m' (HW' & HI' & Hh). split; [done|]. split; [by eapply isolated_trans|].
  rewrite Hy1 in Hh. destruct (procs m' !! p) as [y'|]; [|done]. exists y'. split; [done|].
  apply (inj Some) in Hh. unfold head in Hh.
  assert (u32 (pc y + 1) = pc y + 1) as Epc by (unfold u32; rewrite Z.mod_small; lia).
  split_and!; [apply (f_equal pc) in Hh; simpl in Hh; by rewrite Hh|..].
  - by apply (f_equal code) in Hh.
  - by apply (f_equal pid) in Hh.
  - by apply (f_equal prio) in Hh.
Qed.

(** Process [p] is about to execute an instruction whose operands have the
    kinds it expects. *)
Definition can_run (m : machine) (p : Z) : Prop :=
  exists y k x v ins, procs m !! p = Some y /\ has_mm m p k x /\ mm_wf m p x v /\
    code y !! Z.to_nat (pc y) = Some ins /\ 0 <= pc y < 2 ^ 32 - 1 /\ inst_words ins /\ inst_ok m p x v ins.

Lemma demo_mm_wf : mm_wf demo 100 demo_mm (mkVma 0 0 0 0 []).
Proof.
  split; [apply demo_area| |constructor]. unfold demo_mm. cbn [symrgtbl]. apply Forall_replicate. by left.
Qed.

Lemma demo_sys_wf : sys_wf [] [] demo.
Proof.
  split; [apply demo_kinv|]. intros p [y Hy].
  assert (p = 100) as -> by (unfold demo in Hy; cbn [procs] in Hy; by apply lookup_singleton_Some in Hy as [<- _]).
  eexists _, demo_krnl, demo_mm, (mkVma 0 0 0 0 []). split; [reflexivity|]. split; [reflexivity|].
  split; [apply demo_has_mm|apply demo_mm_wf].
Qed.

(** The small machine with a program. *)
Definition demo_code (c : list inst_t) : machine :=
  set_procs demo (<[100 := mkPcb 1 0 c (replicate 10 0) 0 0 (Some demo_krnl) 1024]> (procs demo)).

Lemma demo_code_can_run c ins :
  c !! 0%nat = Some ins -> inst_words ins -> inst_ok demo 100 demo_mm (mkVma 0 0 0 0 []) ins ->
  sys_wf [] [] (demo_code c) /\ can_run (demo_code c) 100.
Proof.
  intros Hc Hw Hok.
  destruct (set_pcb_step [] [] demo 100 _ (mkPcb 1 0 c (replicate 10 0) 0 0 (Some demo_krnl) 1024) demo_krnl demo_mm
    (mkVma 0 0 0 0 []) demo_sys_wf eq_refl demo_has_mm demo_mm_wf eq_refl eq_refl eq_refl)
    as (HW & _ & Hy & Hp & Hwf & Hi).
  split; [exact HW|]. eexists _, demo_krnl, demo_mm, (mkVma 0 0 0 0 []), ins. split; [exact Hy|].
  split; [exact Hp|]. split; [exact Hwf|]. split; [exact Hc|]. split; [simpl; lia|]. split; [done|]. by apply Hi.
Qed.

(** Two processes, of which the first needs a frame of the second. *)
Definition pair_mm : mm_struct := mkMm 3 [mkVma 0 0 0 0 []] (replicate 30 (mkRg 0 0 0)) [] None.
Definition pair_demo : machine :=
  mkMachine {[1 := ∅; 2 := ∅; 3 := ∅]} 4
    {[100 := mkPcb 1 0 [] (replicate 10 0) 0 0 (Some demo_krnl) 1024;
      200 := mkPcb 2 0 [] (replicate 10 0) 0 0 (Some (mkKrnl (Some pair_mm) true true 0 1)) 1024]}
    (fresh_memphy 16384) (fresh_memphy 16384)
    (match add_proc (fun _ => 0) 200 demo_sched with Ret _ s => s | _ => demo_sched end)
    ∅ ∅ (fun _ => false) 0.
Definition after (c : M machine Z) (m : machine) : machine :=
  match c m with Ret _ m' => m' | _ => m end.
Definition pair_evicted : machine :=
  after (liballoc 200 16384 0 ;; libwrite 200 42 0 0 ;; liballoc 100 4096 0) pair_demo.

(** ** Properties *)



