(* ===== verification/Create.v ===== *)
(** * Starting the system and its processes ([src/os.c], [src/mm64.c])

    [boot] is the initialisation in [main] and at the start of [ld_routine]: the
    devices, the scheduler and the kernel's page table.  [load_process] is the
    body of the loader's loop once a program has been read: the process gets a
    copy of the kernel structure, an address space ([init_mm]) and a place in
    the scheduler.  The contents of memory that [malloc] returns are arguments
    ([x0] for the new [mm_struct], the record [y] with its registers for the new
    process).  The system invariant holds after [boot] and is kept by
    [load_process]. *)

From S2P Require Import Prelude.
From S2P Require Import Word.
From S2P Require Import Exclusive.
From S2P Require Import Paging.
From S2P Require Import Queue.
From S2P Require Import Sched.
From S2P Require Import MemPhy.
From S2P Require Import Region.
From S2P Require Import Machine.
From S2P Require Import PageTable.
From S2P Require Import Swap.
From S2P Require Import Vm.
From S2P Require Import Evict.
From S2P Require Import Area.
From S2P Require Import Heap.
From S2P Require Import Kmem.
From S2P Require Import Kernel.
From S2P Require Import Frame.
From S2P Require Import Isolation.

(** ** Definitions *)

(** The [mm_struct] is the caller's own, with whatever it contains. *)
Definition init_mm (caller : Z) : M machine Z :=
  let* vma0 := malloc in
  let* _ := the_mm caller in
  let* pgd := alloc_page_table in
  upd_mm caller (fun x => set_pgd x pgd) ;;
  if bool_decide (pgd = 0) || negb vma0 then ret (-1)
  else
    note_walk false caller (fun _ => mkWalk 0 0 0 0) ;;
    let* k := get_krnl caller in
    let* r :=
      (match k with
       | None => ret 0
       | Some k =>
         let* (r, k') := init_kernel_page_table caller k in
         upd_krnl caller (fun _ => k') ;; ret r
       end) in
    if bool_decide (r <> 0) then ret (-1)
    else
      upd_mm caller (fun x =>
        mkMm (Machine.pgd x) (mmap x) (replicate (Z.to_nat PAGING_MAX_SYMTBL_SZ) (mkRg 0 0 0)) [] None) ;;
      let* first_rg := malloc in
      if negb first_rg then ub
      else
        let freerg := snd (enlist_vm_rg_node [] (init_vm_rg 0 0)) in
        upd_mm caller (fun x => set_mmap x [mkVma 0 0 0 0 freerg]) ;; ret 0.

(** Anything but a priority of the queues ends the simulator. *)
Definition validate_mlq_priority (prio : Z) : M machine unit :=
  if bool_decide (prio < Z.of_nat MAX_PRIO) then ret tt else exit.

(** An operation of the scheduler, which sees the priorities of the processes. *)
Definition prio_at (m : machine) (p : Z) : Z :=
  match procs m !! p with Some y => prio y | None => 0 end.
Definition on_sch {A} (op : machine -> M sched A) : M machine A := fun m =>
  match op m (sch m) with
  | Ret a s => Ret a (set_sch m s)
  | Ub => Ub
  | Exit s => Exit (set_sch m s)
  end.

Definition set_prio (y : pcb_t) (v : Z) : pcb_t :=
  mkPcb (pid y) (priority y) (code y) (regs y) (pc y) v (krnl y) (bp y).

(** [p] is the new process [y], [os] the simulator's kernel structure. *)
Definition load_process (os : krnl_t) (p : Z) (y : pcb_t) (prio : Z) (x0 : mm_struct) : M machine unit :=
  let* ok := malloc in
  if negb ok then ub
  else
    put_pcb p (set_krnl y (Some os)) ;;
    validate_mlq_priority prio ;;
    let* z := get_pcb p in
    put_pcb p (set_prio z (u32 prio)) ;;
    let* ok := malloc in
    if negb ok then ub
    else
      upd_krnl p (fun k => set_k_mm k (Some x0)) ;;
      init_mm p ;;
      upd_krnl p (fun k => mkKrnl (mm k) true true (active_mswp_id k) (krnl_pgd k)) ;;
      on_sch (fun m => add_proc (prio_at m) p).

(** The zeroed kernel structure, and the simulator before it: no tables, no
    processes, the static queues. *)
Definition zero_krnl : krnl_t := mkKrnl None false false 0 0.
Definition blank (fate : Z -> bool) (mram mswp : memphy_struct) : machine :=
  mkMachine ∅ 1 ∅ mram mswp static_sched ∅ ∅ fate 0.

(** The devices, the scheduler, the kernel's table.  Of the swap devices only
    the active one, the first, is ever used. *)
Definition boot (memramsz memswpsz : Z) : M machine krnl_t :=
  on_ram (init_memphy memramsz 1) ;;
  on_swp (init_memphy memswpsz 1) ;;
  modify (fun m => set_sch m (init_scheduler (sch m))) ;;
  let* (_, os) := init_kernel_page_table 0 zero_krnl in
  ret os.

(** ** A new root in the forest of tables *)

Section new_root.
Context (R : Z -> Prop) (T : gmap Z (gmap Z Z)) (n : Z) (HF : forest R T n).
Notation T' := (<[n := ∅]> T).

Lemma reach_new_root r path : R r -> (length path <= 4)%nat -> reach T' r path = reach T r path.
Proof using HF.
  intros Hr. induction path as [|i path IH] using rev_ind; intros Hl; [done|].
  rewrite length_app in Hl. simpl in Hl. rewrite !reach_snoc, IH by lia.
  destruct (reach T r path) as [q|] eqn:Hq; [|done]. simpl. unfold child. rewrite entry_fresh.
  assert (0 < q < n) by (apply (forest_reach_lt R T n HF r path q Hr); [lia|done]).
  by rewrite (bool_decide_false (q = n)) by lia.
Qed.

Lemma reach_new_table path q : reach T' n path = Some q -> path = [] /\ q = n.
Proof using Type. clear HF.
  destruct path as [|i path]; [by intros [= ->]|]. change (i :: path) with ([i] ++ path).
  rewrite reach_none_app; [done|]. unfold reach, child. simpl. rewrite entry_fresh, (bool_decide_true (n = n)) by done. done.
Qed.

Lemma forest_new_root : forest (fun r => R r \/ r = n) T' (n + 1).
Proof using HF.
  pose proof (forest_nxt _ _ _ HF) as Hn.
  assert (Hlt : forall r path q, R r -> (length path <= 4)%nat -> reach T r path = Some q -> q < n)
    by (intros; by eapply (forest_reach_lt R T n HF)).
  split.
  - intros q Hq. rewrite lookup_insert_ne by lia. apply (forest_fresh _ _ _ HF). lia.
  - lia.
  - intros r path q [Hr| ->] Hl Hq.
    + rewrite reach_new_root in Hq by done. destruct (forest_alloc _ _ _ HF r path q Hr Hl Hq) as [? ?].
      rewrite lookup_insert_ne; [done|]. specialize (Hlt r path q Hr Hl Hq). lia.
    + apply reach_new_table in Hq as [-> ->]. rewrite lookup_insert_eq. split; [lia|by eexists].
  - intros r path r' path' q [Hr| ->] [Hr'| ->] Hl Hl' Hq Hq'.
    + rewrite reach_new_root in Hq, Hq' by done. by eapply (forest_inj _ _ _ HF).
    + apply reach_new_table in Hq' as [-> ->]. rewrite reach_new_root in Hq by done.
      specialize (Hlt _ _ _ Hr Hl Hq). lia.
    + apply reach_new_table in Hq as [-> ->]. rewrite reach_new_root in Hq' by done.
      specialize (Hlt _ _ _ Hr' Hl' Hq'). lia.
    + apply reach_new_table in Hq as [-> _]. by apply reach_new_table in Hq' as [-> _].
Qed.

Lemma pte_new_root r g : R r -> pte_at T' r g = pte_at T r g.
Proof using HF.
  intros Hr. unfold pte_at. rewrite reach_new_root by done. destruct (reach T r (page_path g)) as [q|] eqn:Hq; [|done].
  rewrite entry_fresh. assert (0 < q < n) by (by eapply (forest_reach_lt R T n HF)). by rewrite bool_decide_false by lia.
Qed.

Lemma pte_new_table g : pte_at T' n g = 0.
Proof using Type.
  unfold pte_at. destruct (reach T' n (page_path g)) as [q|] eqn:Hq; [|done].
  apply reach_new_table in Hq as [Hp _]. pose proof (page_path_length g) as Hl. by rewrite Hp in Hl.
Qed.
End new_root.

(** ** Loading, step by step *)

Definition new_mm (root : Z) : mm_struct := mkMm root [mkVma 0 0 0 0 []] (replicate 30 (mkRg 0 0 0)) [] None.
Definition new_krnl (os : krnl_t) (root : Z) : krnl_t :=
  mkKrnl (Some (new_mm root)) true true (active_mswp_id os) (krnl_pgd os).
Definition new_pcb (os : krnl_t) (y : pcb_t) (prio root : Z) : pcb_t :=
  set_prio (set_krnl y (Some (new_krnl os root))) prio.

Section load.
Context (m : machine) (p : Z) (Hp : p <> 0) (Hoom : ~ may_oom m).

(** The states in between: only process [p], the tables and the walks differ. *)
Definition st (c nt : Z) (T : gmap Z (gmap Z Z)) (y : pcb_t) (mw kw : gmap Z walk_ptrs) : machine :=
  mkMachine T nt (<[p := y]> (procs m)) (ram m) (swp m) (sch m) mw kw (oom m) c.

Lemma no_oom n : oom m n = false.
Proof using Hoom. destruct (oom m n) eqn:Ho; [|done]. destruct Hoom. by exists n. Qed.

Lemma st_malloc c nt T y mw kw : malloc (st c nt T y mw kw) = Ret true (st (c + 1) nt T y mw kw).
Proof using Hoom. unfold malloc. cbn [oom mallocs st]. by rewrite no_oom. Qed.
Lemma st_get c nt T y mw kw : get_pcb p (st c nt T y mw kw) = Ret y (st c nt T y mw kw).
Proof using Type. unfold get_pcb. cbn [procs st]. by rewrite lookup_insert_eq. Qed.
Lemma st_put c nt T y mw kw y' : put_pcb p y' (st c nt T y mw kw) = Ret tt (st c nt T y' mw kw).
Proof using Type. unfold put_pcb, st, set_procs. cbn. by rewrite insert_insert_eq. Qed.
Lemma st_upd c nt T y mw kw g :
  upd_krnl p g (st c nt T y mw kw) = Ret tt (st c nt T (set_krnl y (g <$> krnl y)) mw kw).
Proof using Type. unfold upd_krnl, bind. by rewrite st_get, st_put. Qed.
Lemma st_krnl c nt T y mw kw : get_krnl p (st c nt T y mw kw) = Ret (krnl y) (st c nt T y mw kw).
Proof using Hp. unfold get_krnl. rewrite bool_decide_false by done. unfold bind. by rewrite st_get. Qed.
Lemma st_table c nt T y mw kw :
  alloc_page_table (st c nt T y mw kw) = Ret nt (st (c + 1) (nt + 1) (<[nt := ∅]> T) y mw kw).
Proof using Hoom. unfold alloc_page_table, bind. by rewrite st_malloc. Qed.

Lemma init_mm_ok c nt T y mw kw k x0 :
  krnl y = Some k -> mm k = Some x0 -> krnl_pgd k <> 0 -> nt <> 0 ->
  init_mm p (st c nt T y mw kw) =
    Ret 0 (st (c + 3) (nt + 1) (<[nt := ∅]> T) (set_krnl y (Some (set_k_mm k (Some (new_mm nt)))))
             (<[p := mkWalk 0 0 0 0]> mw) (<[p := mkWalk 0 0 0 0]> kw)).
Proof using Hp Hoom.
  intros Hk Hx Hr Hnt. unfold init_mm, the_mm, get_mm, bind. rewrite st_malloc, st_krnl, Hk. cbn [mbind option_bind].
  rewrite Hx. unfold ret. rewrite st_table. unfold upd_mm. rewrite st_upd, Hk. cbn [fmap option_fmap option_map].
  rewrite Hx, bool_decide_false by done. cbn [orb negb]. unfold note_walk at 1.
  change (set_mm_walk (st ?c ?n ?t ?y ?a ?b) ?w) with (st c n t y w b).
  rewrite st_krnl. cbn [krnl set_krnl]. unfold init_kernel_page_table, bind, ret.
  cbn [krnl_pgd set_k_mm]. rewrite !(bool_decide_false (krnl_pgd k = 0)) by done. unfold note_walk.
  change (set_krnl_walk (st ?c ?n ?t ?y ?a ?b) ?w) with (st c n t y a w).
  rewrite st_upd. cbn [bool_decide decide_rel]. rewrite bool_decide_false by (by intros []).
  rewrite st_upd, st_malloc. cbn [negb]. rewrite st_upd. cbn [fmap option_fmap option_map krnl set_krnl mm set_k_mm].
  replace (c + 3) with (c + 1 + 1 + 1) by lia. reflexivity.
Qed.

(** The machine with the new process, before it enters the scheduler. *)
Definition loaded (os : krnl_t) (y : pcb_t) (prio : Z) : machine :=
  st (mallocs m + 5) (next_table m + 1) (<[next_table m := ∅]> (tables m))
    (new_pcb os y (u32 prio) (next_table m))
    (<[p := mkWalk 0 0 0 0]> (mm_walk m)) (<[p := mkWalk 0 0 0 0]> (krnl_walk m)).

Lemma load_process_eq os y prio x0 :
  krnl_pgd os <> 0 -> next_table m <> 0 -> prio < Z.of_nat MAX_PRIO ->
  load_process os p y prio x0 m = on_sch (fun m => add_proc (prio_at m) p) (loaded os y prio).
Proof using Hp Hoom.
  intros Hr Hnt Hprio. unfold load_process, bind. unfold malloc at 1. rewrite no_oom. cbn [negb].
  unfold put_pcb at 1.
  change (set_procs (set_mallocs m (mallocs m + 1)) (<[p := ?z]> (procs (set_mallocs m (mallocs m + 1)))))
    with (st (mallocs m + 1) (next_table m) (tables m) z (mm_walk m) (krnl_walk m)).
  unfold validate_mlq_priority. rewrite bool_decide_true by done. unfold ret.
  rewrite st_get, st_put, st_malloc. cbn [negb]. rewrite st_upd.
  erewrite init_mm_ok; [|reflexivity|reflexivity|done|done]. rewrite st_upd. unfold loaded.
  replace (mallocs m + 5) with (mallocs m + 1 + 1 + 3) by lia. reflexivity.
Qed.
End load.

(** ** The kernel's root outside any process *)

(** The root [o] in the simulator's own kernel structure: it belongs to the
    forest of tables, every process uses it, and it maps kernel frames in
    place. *)
Record os_root (m : machine) (o : Z) : Prop := mkOsRoot {
  or_forest : forest (fun r => roots m r \/ r = o) (tables m) (next_table m);
  or_procs : forall q k x, has_mm m q k x -> krnl_pgd k = o /\ pgd x <> o;
  or_kern : forall g f, kernel_page g -> decode_pte (pte_at (tables m) o g) = Resident f ->
    f ∈ used_fp_list (ram m) /\ g = KPAGE + f;
}.

(** While a process runs, the invariant says it all. *)
Lemma os_root_running E F m q k x : kinv E F m -> has_mm m q k x -> os_root m (krnl_pgd k).
Proof.
  intros [HI HD] Hq. pose proof (vi_shape _ _ _ HI) as HS. split.
  - eapply forest_mono; [|apply (vs_forest _ HS)]. intros r [Hr| ->]; [done|]. exists q, k, x. auto.
  - intros q' k' x' Hq'. destruct (vs_kpgd _ HS q' k' x' q k x Hq' Hq) as [E1 E2].
    split; [done|]. done.
  - intros g f Hg Hf. split; [by eapply (vs_kern _ HS q k x g)|].
    apply (HD q g f); [by exists k, x|done|]. by rewrite (kpage_mm m q k x).
Qed.

Lemma os_root_pos m o : os_root m o -> o <> 0.
Proof.
  intros [HF _ _]. destruct (forest_alloc _ _ _ HF o [] o (or_intror eq_refl) ltac:(simpl; lia) eq_refl). lia.
Qed.

(** ** The invariant after loading *)

(** The address space of a new process. *)
Lemma new_mm_wf m p root : (forall a, user_addr a -> vbyte m p a = None) -> mm_wf m p (new_mm root) (mkVma 0 0 0 0 []).
Proof.
  intros Hn. assert (Hc : forall a, cov (symrgtbl (new_mm root)) a = 0).
  { intros a. unfold new_mm. cbn [symrgtbl]. generalize 30%nat. intros n.
    induction n as [|n IH]; [done|]. cbn [replicate]. rewrite cov_cons, IH.
    unfold rg_cov. cbn [rg_start rg_end]. rewrite within_empty by lia. done. }
  split; [|unfold new_mm; cbn [symrgtbl]; apply Forall_replicate; by left|constructor].
  split; cbn [mmap vm_id vm_start vm_end sbrk vm_freerg_list new_mm]; try done.
  - split; constructor.
  - split; [reflexivity|]. apply Forall_replicate. unfold rg_ok. cbn [rg_start rg_end]. lia.
  - intros a _. rewrite Hc. pose proof (within_range 0 0 a). unfold cov. simpl. lia.
  - intros a _. rewrite Hc. unfold cov. simpl. lia.
  - intros a Ha _. by apply Hn.
Qed.

Section loaded.
Context (E F : list Z) (m : machine) (p : Z) (os : krnl_t) (y : pcb_t) (pr : Z).
Context (HW : sys_wf E F m) (HO : os_root m (krnl_pgd os)) (Hp : p <> 0) (Hnew : procs m !! p = None).
Notation m1 := (loaded m p os y pr).
Notation nt := (next_table m).

Lemma loaded_procs q : procs m1 !! q = if decide (q = p) then Some (new_pcb os y (u32 pr) nt) else procs m !! q.
Proof using Type.
  unfold loaded, st. cbn [procs]. case_decide as Hq; [subst; by rewrite lookup_insert_eq|by rewrite lookup_insert_ne].
Qed.

Lemma loaded_mm q k x :
  has_mm m1 q k x <-> (q = p /\ k = new_krnl os nt /\ x = new_mm nt) \/ has_mm m q k x.
Proof using Hp Hnew.
  rewrite !has_mm_procs, loaded_procs. case_decide as Hq; [subst q|].
  - rewrite Hnew. split.
    + intros (_ & z & [= <-] & [= <-] & [= <-]). by left.
    + intros [(_ & -> & ->)|(_ & z & Hz & _)]; [|done]. split; [done|]. eexists. split; [reflexivity|]. done.
  - naive_solver.
Qed.

Lemma old_not_p q k x : has_mm m q k x -> q <> p.
Proof using Hnew. intros (_ & z & Hz & _)%has_mm_procs ->. by rewrite Hnew in Hz. Qed.

Lemma loaded_root r : roots m1 r -> (roots m r \/ r = krnl_pgd os) \/ r = nt.
Proof using Hp Hnew.
  intros (q & k & x & [(-> & -> & ->)|Hq]%loaded_mm & [-> | ->]); simpl; auto; left; left; exists q, k, x; auto.
Qed.

Lemma loaded_page_state q g : page_state m1 q g = page_state m q g.
Proof using HW HO Hp Hnew.
  unfold page_state, mm_of. rewrite loaded_procs. case_decide as Hq.
  - subst. rewrite Hnew. simpl. rewrite (pte_new_table (tables m) nt). by rewrite decode_zero.
  - destruct (procs m !! q) as [z|] eqn:Hz; [|done]. simpl. destruct (krnl z) as [k|] eqn:Hk; [|done]. simpl.
    destruct (mm k) as [x|] eqn:Hx; [|done]. f_equal. apply (pte_new_root _ _ _ (or_forest _ _ HO)). left.
    destruct (decide (q = 0)) as [->|Hq0].
    + destruct (vs_procs _ (vi_shape _ _ _ (proj1 (proj1 HW))) 0 z Hz) as (? & ? & (? & _) & _). done.
    + exists q, k, x. split; [|by left]. apply has_mm_procs. eauto.
Qed.

Lemma loaded_byte q a : vbyte m1 q a = vbyte m q a.
Proof using HW HO Hp Hnew. unfold vbyte. by rewrite loaded_page_state. Qed.

Lemma loaded_kpte g : pte_at (tables m1) (krnl_pgd os) g = pte_at (tables m) (krnl_pgd os) g.
Proof using HO. apply (pte_new_root _ _ _ (or_forest _ _ HO)). by right. Qed.

Lemma loaded_root_ne : krnl_pgd os <> nt.
Proof using HO.
  pose proof (or_forest _ _ HO) as HF.
  pose proof (forest_reach_lt _ _ _ HF (krnl_pgd os) [] _ (or_intror eq_refl) ltac:(simpl; lia) eq_refl). lia.
Qed.

Lemma old_pgd_lt q k x : has_mm m q k x -> pgd x < nt.
Proof using HO.
  intros Hq. assert (roots m (pgd x)) as Hr by (exists q, k, x; auto).
  pose proof (forest_reach_lt _ _ _ (or_forest _ _ HO) (pgd x) [] _ (or_introl Hr) ltac:(simpl; lia) eq_refl). lia.
Qed.

Lemma loaded_shape : vm_shape m1.
Proof using HW HO Hp Hnew.
  pose proof (vi_shape _ _ _ (proj1 (proj1 HW))) as HS. pose proof loaded_root_ne as Hne. split.
  - apply (vs_ram _ HS).
  - apply (vs_swp _ HS).
  - intros q z Hz. rewrite loaded_procs in Hz. case_decide as Hq.
    + subst. exists (new_krnl os nt), (new_mm nt). split; [apply loaded_mm; by left|].
      split; [done|]. split; [done|]. constructor.
    + destruct (vs_procs _ HS q z Hz) as (k & x & Hqm & Hok). exists k, x. split; [apply loaded_mm; by right|done].
  - eapply forest_mono; [|apply (forest_new_root _ _ _ (or_forest _ _ HO))]. intros r. apply loaded_root.
  - intros q k x q' k' x' [(-> & -> & ->)|H1]%loaded_mm [(-> & -> & ->)|H2]%loaded_mm; simpl; try done.
    + intros Ee. pose proof (old_pgd_lt _ _ _ H2). lia.
    + intros Ee. pose proof (old_pgd_lt _ _ _ H1). lia.
    + by eapply (vs_pgd _ HS).
  - intros q k x q' k' x' [(-> & -> & ->)|H1]%loaded_mm [(-> & -> & ->)|H2]%loaded_mm; simpl.
    + done.
    + destruct (or_procs _ _ HO _ _ _ H2) as [E2 _]. split; [done|]. rewrite E2. done.
    + destruct (or_procs _ _ HO _ _ _ H1) as [E1 N1]. done.
    + by eapply (vs_kpgd _ HS).
  - intros q Hq. destruct (vs_run _ HS q Hq) as [?|[z Hz]]; [by left|right]. rewrite loaded_procs.
    case_decide; [by eexists|by exists z].
  - intros q k x g f Hq Hg. assert (krnl_pgd k = krnl_pgd os) as ->.
    { apply loaded_mm in Hq as [(_ & -> & _)|Hq]; [done|]. by destruct (or_procs _ _ HO _ _ _ Hq). }
    rewrite loaded_kpte. intros Hf. by destruct (or_kern _ _ HO g f Hg Hf).
  - intros q k x g [(-> & -> & ->)|Hq]%loaded_mm Hg; simpl.
    + rewrite (pte_new_table (tables m) nt). done.
    + rewrite (pte_new_root _ _ _ (or_forest _ _ HO)); [by apply (vs_user _ HS q k x)|]. left. exists q, k, x. auto.
Qed.

Context (Hregs : length (regs y) = 10%nat).

Lemma loaded_wf : sys_wf E F m1 /\ os_root m1 (krnl_pgd os).
Proof using HW HO Hp Hnew Hregs.
  destruct HW as [[[HS HR HX] HD] HP]. pose proof loaded_root_ne as Hne.
  assert (Hkp : forall q k x g, has_mm m1 q k x -> kpage m1 q g = decode_pte (pte_at (tables m) (krnl_pgd os) g)).
  { intros q k x g Hq. rewrite (kpage_mm m1 q k x) by done. rewrite <- loaded_kpte. do 2 f_equal.
    apply loaded_mm in Hq as [(_ & -> & _)|Hq]; [done|]. by destruct (or_procs _ _ HO _ _ _ Hq). }
  split; [split; [split; [split|]|]|].
  - apply loaded_shape.
  - eapply exclusive_proper; [reflexivity|reflexivity| |exact HR]. intros [q g]. unfold ram_held. simpl.
    by rewrite loaded_page_state.
  - eapply exclusive_proper; [reflexivity|reflexivity| |exact HX]. intros [q g]. unfold swp_held. simpl.
    by rewrite loaded_page_state.
  - intros q g f (k & x & Hq) Hg. rewrite (Hkp q k x g Hq). intros Hf. by destruct (or_kern _ _ HO g f Hg Hf).
  - intros q [z Hz]. rewrite loaded_procs in Hz. case_decide as Hq.
    + subst. injection Hz as <-. eexists _, (new_krnl os nt), (new_mm nt), (mkVma 0 0 0 0 []).
      split; [rewrite loaded_procs, decide_True by done; reflexivity|]. split; [done|].
      split; [apply loaded_mm; by left|]. apply new_mm_wf. intros a _. rewrite loaded_byte.
      unfold vbyte, page_state, mm_of. by rewrite Hnew.
    + destruct (HP q ltac:(by exists z)) as (z' & k & x & v & Hz' & Hl & Hqm & Hwf). exists z', k, x, v.
      split; [by rewrite loaded_procs, decide_False|]. split; [done|]. split; [apply loaded_mm; by right|].
      eapply mm_wf_mapped; try done. intros a _. by rewrite loaded_byte.
  - split.
    + eapply forest_mono; [|apply (forest_new_root _ _ _ (or_forest _ _ HO))].
      intros r [Hr| ->]; [by apply loaded_root|by left; right].
    + intros q k x [(-> & -> & ->)|Hq]%loaded_mm; simpl; [done|]. by apply (or_procs _ _ HO q k x).
    + intros g f Hg. rewrite loaded_kpte. by apply (or_kern _ _ HO).
Qed.
End loaded.

(** ** The scheduler's part *)

(** A step of the scheduler matters to memory only through the running list. *)
Lemma sch_step E F m o s :
  sys_wf E F m -> os_root m o ->
  (forall q, q ∈ running (set_sch m s) -> q = 0 \/ is_Some (procs m !! q)) ->
  sys_wf E F (set_sch m s) /\ os_root (set_sch m s) o.
Proof.
  intros [[[[H1 H2 H3 H4 H5 H6 _ H8 H9] HR HX] HD] HP] [O1 O2 O3] Hrun. split; [|split; assumption].
  split; [split; [|exact HD]|].
  - split; [|exact HR|exact HX]. split; assumption.
  - intros q Hq. destruct (HP q Hq) as (z & k & x & v & Hz & Hl & Hqm & Hwf). exists z, k, x, v.
    split_and!; try done. by eapply (mm_wf_mapped m).
Qed.

Lemma running_abs m : running m = abs (running_list (sch m)).
Proof. done. Qed.

(** The invariant of the whole simulator between two steps. *)
Definition os_wf (o : Z) (m : machine) : Prop :=
  sys_wf [] [] m /\ os_root m o /\ rep_ok (sch m).

(** The last step of loading: a place in the scheduler. *)
Section load_ok.
Context (m : machine) (os : krnl_t) (p pr : Z) (y : pcb_t) (x0 : mm_struct).
Context (HW : os_wf (krnl_pgd os) m) (Hnew : procs m !! p = None) (Hp : p <> 0).
Context (Hregs : length (regs y) = 10%nat) (Hoom : ~ may_oom m) (Hpr : 0 <= pr < Z.of_nat MAX_PRIO).
Context (Hlev : (length (level (abs (sch m)) (Z.to_nat pr)) < MAX_QUEUE_SIZE)%nat).
Context (Hrun : (length (running m) < MAX_QUEUE_SIZE)%nat).

Lemma load_spec :
  wp (load_process os p y pr x0) (fun _ m' =>
    (os_wf (krnl_pgd os) m' /\ oom m' = oom m) /\
    (forall q, procs m' !! q = if decide (q = p) then Some (new_pcb os y pr (next_table m)) else procs m !! q) /\
    (forall q a, vbyte m' q a = vbyte m q a) /\
    (forall j, level (abs (sch m')) j =
       if bool_decide (j = Z.to_nat pr) then level (abs (sch m)) j ++ [p] else level (abs (sch m)) j) /\
    running m' = running m ++ [p]) m.
Proof using All.
  destruct HW as (HS & HO & Hsch).
  destruct (loaded_wf [] [] m p os y pr HS HO Hp Hnew Hregs) as [HS1 HO1].
  assert (Hu : u32 pr = pr) by (unfold MAX_PRIO in Hpr; unfold u32; apply Z.mod_small; lia).
  unfold wp. rewrite load_process_eq; [|done|done|by eapply os_root_pos| |lia].
  2:{ pose proof (forest_nxt _ _ _ (or_forest _ _ HO)). lia. }
  assert (Hprio : prio_at (loaded m p os y pr) p = pr).
  { unfold prio_at. rewrite loaded_procs, decide_True by done. exact Hu. }
  pose proof (add_mlq_proc_spec (prio_at (loaded m p os y pr)) (sch m) p Hsch Hp) as Ha.
  rewrite Hprio in Ha. specialize (Ha ltac:(lia)). cbv zeta in Ha.
  rewrite bool_decide_true in Ha by (split; [lia|done]).
  destruct Ha as (s' & Es & Hs' & _ & Hr' & _ & Hl').
  assert (Hrun' : running (set_sch (loaded m p os y pr) s') = running m ++ [p]) by exact Hr'.
  unfold on_sch, add_proc. change (sch (loaded m p os y pr)) with (sch m). rewrite Es.
  destruct (sch_step [] [] _ _ s' HS1 HO1) as [HS2 HO2].
  { intros q. rewrite Hrun', elem_of_app, list_elem_of_singleton, loaded_procs. intros [Hq| ->].
    - destruct (vs_run _ (vi_shape _ _ _ (proj1 (proj1 HS))) q Hq) as [?|?]; [by left|right]. by case_decide.
    - right. by rewrite decide_True by done. }
  split; [split; [|done]|split; [|split; [|split]]].
  - by split.
  - intros q. cbn [procs set_sch]. by rewrite loaded_procs, Hu.
  - intros q a. by apply (loaded_byte [] [] m p os y pr).
  - intros j. cbn [sch set_sch]. rewrite Hl'. case_bool_decide; by subst.
  - exact Hrun'.
Qed.
End load_ok.

Lemma demo_rep_ok : rep_ok (sch demo).
Proof.
  assert (exists t, run_ops (fun _ => 0) [Add 100] sched0 = Some (t, sch demo)) as [t H] by (eexists; vm_compute; reflexivity).
  by apply (run_ops_conserves (fun _ => 0) _ _ _ _ ltac:(done) sched0_ok H).
Qed.

(** The count of allocations is no part of the invariant. *)
Lemma os_wf_mallocs o m c : os_wf o m -> os_wf o (set_mallocs m c).
Proof.
  intros ((HK & HP) & [HF Hp Hk] & HR). split; [split; [by apply kinv_mallocs|]|split; [|done]].
  - intros p Hl. destruct (HP p Hl) as (y & k & x & v & H1 & H2 & H3 & H4). exists y, k, x, v.
    split_and!; try done. by eapply (mm_wf_mapped m).
  - split; [by eapply forest_mono; [|exact HF]|exact Hp|exact Hk].
Qed.

(** From the machine before any table exists, after [c] allocations. *)
Lemma boot_spec fate d1 d2 c ramsz swpsz :
  0 <= ramsz < 2 ^ 31 -> 0 <= swpsz < 2 ^ 31 -> fate c = false ->
  wp (boot ramsz swpsz) (fun os m => os_wf (krnl_pgd os) m /\ procs m = ∅ /\ ready (sch m) = [] /\ oom m = fate /\
    free_fp_list (ram m) = seqZ 0 (ramsz / PAGING64_PAGESZ) /\
    free_fp_list (swp m) = seqZ 0 (swpsz / PAGING64_PAGESZ)) (set_mallocs (blank fate d1 d2) c).
Proof.
  intros Hr Hs Hfate. destruct (init_memphy_ok d1 ramsz 1 Hr ltac:(done)) as (r & Er & Mr & [Nr Fr] & _ & Ur & Lr & _).
  destruct (init_memphy_ok d2 swpsz 1 Hs ltac:(done)) as (w & Ew & Mw & [Nw Fw] & _ & Uw & Lw & _).
  unfold boot. apply wp_bind. eapply wp_eq; [unfold on_ram, blank; cbn [ram set_mallocs]; rewrite Er; reflexivity|].
  apply wp_bind. eapply wp_eq; [unfold on_swp; cbn [swp set_ram set_mallocs]; rewrite Ew; reflexivity|].
  apply wp_bind. eapply wp_eq; [reflexivity|]. apply wp_bind. eapply wp_eq.
  { unfold init_kernel_page_table, alloc_page_table, bind, malloc. cbn. rewrite (bool_decide_true (0 = 0)) by done. cbn. rewrite Hfate. reflexivity. }
  apply wp_ret. cbn [krnl_pgd set_krnl_pgd zero_krnl].
  match goal with |- context [os_wf _ ?m] => set (m1 := m) end.
  assert (Hno : forall q k x, ~ has_mm m1 q k x) by (by intros q k x (_ & z & Hz & _)%has_mm_procs).
  assert (Hheld : forall o, ram_held m1 o = None /\ swp_held m1 o = None).
  { intros [q g]. unfold ram_held, swp_held. simpl. by case_decide. }
  assert (HF : forest (fun r => roots m1 r \/ r = 1) (tables m1) (next_table m1)).
  { apply forest_roots; [| |done].
    - intros rt [(q & k & x & Hq & _)| ->]; [by destruct (Hno q k x)|]. done.
    - intros q Hq. unfold m1 in *. cbn in *. rewrite lookup_insert_ne by lia. done. }
  assert (HX : forall d held, mem_ok d -> NoDup (free_fp_list d ++ used_fp_list d) ->
    Forall (fun f => 0 <= f < nframes d) (free_fp_list d ++ used_fp_list d) ->
    (forall o : Z * Z, held o = None) -> exclusive (nframes d) ((free_fp_list d ++ used_fp_list d) ++ []) held).
  { intros d held _ HN HFa Hh. rewrite app_nil_r. split; [done|by apply Forall_forall| |].
    - intros o f. by rewrite Hh.
    - intros o o' f. by rewrite Hh. }
  split; [split; [split|split]|].
  - split; [split; [split|..]|]; try done.
    + eapply forest_mono; [|exact HF]. intros rt Hrt. by left.
    + by intros q k x q' k' x' ?%Hno.
    + by intros q k x q' k' x' ?%Hno.
    + intros q Hq. change (running m1) with (@nil Z) in Hq. by apply elem_of_nil in Hq.
    + intros q k x g f ?%Hno. done.
    + intros q k x g ?%Hno. done.
    + apply HX; try done. intros o. apply Hheld.
    + apply HX; try done. intros o. apply Hheld.
  - by intros q [z Hz].
  - split; [done|by intros q k x ?%Hno|]. intros g f _. change (tables m1) with ({[1 := ∅]} : gmap Z (gmap Z Z)).
    rewrite pte_at_empty; [by rewrite decode_zero|done].
  - exact sched0_ok.
  - split; [done|]. split; [reflexivity|]. split; [done|]. split; [exact Lr|exact Lw].
Qed.


(** ** Properties *)

(** The system starts well: with devices whose size fits an [int], [boot]
    sets up a kernel root and a machine that satisfies the invariant of the
    whole system, with no process, an empty scheduler and every whole frame of
    the two devices on its free list. *)
Theorem boot_establishes_invariant fate d1 d2 ramsz swpsz :
  0 <= ramsz < 2 ^ 31 -> 0 <= swpsz < 2 ^ 31 -> fate 0 = false ->
  wp (boot ramsz swpsz) (fun os m => os_wf (krnl_pgd os) m /\ procs m = ∅ /\ ready (sch m) = [] /\
    free_fp_list (ram m) = seqZ 0 (ramsz / PAGING64_PAGESZ) /\
    free_fp_list (swp m) = seqZ 0 (swpsz / PAGING64_PAGESZ)) (blank fate d1 d2).
Proof.
  intros Hr Hs Hf. eapply wp_mono; [exact (boot_spec fate d1 d2 0 ramsz swpsz Hr Hs Hf)|]. intros os m (H1 & H2 & H3 & _ & H4 & H5). by split_and!.
Qed.

Lemma boot_establishes_invariant_witness :
  wp (boot 16384 8192) (fun os m => procs m = ∅ /\ free_fp_list (ram m) = [0; 1; 2; 3] /\ free_fp_list (swp m) = [0; 1])
    (blank (fun _ => false) blank_memphy blank_memphy).
Proof.
  eapply wp_mono; [apply (boot_establishes_invariant (fun _ => false) blank_memphy blank_memphy 16384 8192); [lia|lia|reflexivity]|].
  intros os m (_ & Hp & _ & Hr & Hw). split; [exact Hp|]. split; [exact Hr|exact Hw].
Defined.


