(* ===== verification/Teardown.v ===== *)
(** * The end of a process ([src/os.c], [src/libmem.c], [src/mm64.c], [src/mm-vm.c])

    What [free_pcb_all] gives back when a process has finished: the kernel
    memory of its caches and of its symbols, the frames and swap slots of its
    pages, its page tables, its records.  The records a process owns (areas,
    regions, pools, code) are nested in its [pcb_t], so freeing them is part of
    removing it; page tables are heap blocks of their own, and freeing or
    reading one that is not allocated is undefined.

    A scan of the tables is shown to be a scan of the flat address space, the
    deletion of the tables to be exact and free of double frees, and the whole
    to return every frame and slot of the process and to leave the other
    processes as they were. *)

From S2P Require Import Prelude.
From S2P Require Import Word.
From S2P Require Import Exclusive.
From S2P Require Import Paging.
From S2P Require Import Queue.
From S2P Require Import Sched.
From S2P Require Import MemPhy.
From S2P Require Import Region.
From S2P Require Import Machine.
From S2P Require Import PageTable.
From S2P Require Import Swap.
From S2P Require Import Vm.
From S2P Require Import Evict.
From S2P Require Import Access.
From S2P Require Import Mapping.
From S2P Require Import Area.
From S2P Require Import Libmem.
From S2P Require Import Heap.
From S2P Require Import Kmem.
From S2P Require Import Kernel.
From S2P Require Import Cache.
From S2P Require Import Frame.
From S2P Require Import Cpu.
From S2P Require Import Isolation.
From S2P Require Import Create.

(** ** Kernel memory *)

(** [mm] is the caller's. *)
Definition free_kmem_cache_metadata (caller : Z) : M machine unit :=
  upd_mm caller (fun x => set_kcpooltbl x None).

Definition clear_symrg_range (caller start end_ : Z) : M machine unit :=
  if negb (is_kernel_vaddr_range start end_) then ret tt
  else
    upd_mm caller (fun x => set_symrgtbl x
      ((fun rg => if bool_decide (start <= rg_start rg) && bool_decide (rg_end rg <= end_)
                  then mkRg 0 0 0 else rg) <$> symrgtbl x)).

(** [KMEM_PAGE_ALIGN] of an [int]. *)
Definition int_page_align (size : Z) : M machine Z :=
  if bool_decide (size + 4095 < 2 ^ 31) then ret (u64 (Z.quot (size + 4095) 4096 * 4096)) else ub.

Definition release_pool (caller : Z) (pool : kcache_pool_struct) : M machine Z :=
  if bool_decide (pool_size pool = 0) || bool_decide (pool_storage pool = 0) then ret 0
  else
    let* release_size :=
      (if bool_decide (alloc_size pool = 0) then int_page_align (pool_size pool)
       else ret (alloc_size pool)) in
    if bool_decide (release_size = 0) then ret 0
    else
      let storage_end := u64 (pool_storage pool + release_size) in
      kernel_release_contiguous_region caller (pool_storage pool) (i32 (release_size / PAGING64_PAGESZ)) ;;
      clear_symrg_range caller (pool_storage pool) storage_end ;;
      ret 0.

Definition release_kernel_cache_pools (caller : Z) : M machine unit :=
  let* x := get_mm caller in
  match x with
  | None => ret tt
  | Some x =>
    match kcpooltbl x with
    | None => ret tt
    | Some pools => for_each (release_pool caller) pools ;; free_kmem_cache_metadata caller
    end
  end.

Definition release_symrg (caller idx : Z) : M machine Z :=
  let* x := the_mm caller in
  match symrgtbl x !! Z.to_nat idx with
  | None => ub
  | Some rg =>
    if negb (is_kernel_vaddr_range (rg_start rg) (rg_end rg)) then ret 0
    else
      let size := u64 (rg_end rg - rg_start rg) in
      let pgnum := i32 (PAGING64_PAGE_ALIGNSZ size / PAGING64_PAGESZ) in
      if bool_decide (pgnum <= 0) then ret 0
      else
        kernel_release_contiguous_region caller (rg_start rg) pgnum ;;
        set_symrg caller idx (mkRg 0 0 0) ;; ret 0
  end.

Definition release_kernel_symrg_allocations (caller : Z) : M machine unit :=
  let* x := get_mm caller in
  match x with
  | None => ret tt
  | Some _ => for_each (release_symrg caller) (seqZ 0 PAGING_MAX_SYMTBL_SZ) ;; ret tt
  end.

(** ** Frames and slots *)

(** The frame or slot of one leaf entry goes back to its device. *)
Definition release_pte (caller pte : Z) : M machine Z :=
  let* k := get_krnl caller in
  match k with
  | None => ub
  | Some k =>
    if PAGING64_PAGE_PRESENT pte && negb (PAGING64_PAGE_SWAPPED pte) then
      dev_put_freefp (k_mram k) (PAGING64_PTE_FPN pte) ;; ret 0
    else if PAGING64_PAGE_SWAPPED pte then
      dev_put_freefp (k_mswp k) (PAGING64_PTE_SWP pte) ;; ret 0
    else ret 0
  end.

(** [below] is the number of levels below [table]: [4 - level]. *)
Fixpoint pcb_memph_collect_recursive (caller : Z) (below : nat) (table : Z) : M machine Z :=
  if bool_decide (table = 0) then ret 0
  else
    for_each (fun i =>
      let* pte := tbl_read table i in
      if bool_decide (pte = 0) then ret 0
      else match below with
           | S below => pcb_memph_collect_recursive caller below pte
           | O => release_pte caller pte
           end) (seqZ 0 PAGING64_LEVEL_ENTRIES).

Definition free_pcb_memph (caller : Z) : M machine Z :=
  release_kernel_cache_pools caller ;;
  release_kernel_symrg_allocations caller ;;
  let* x := the_mm caller in
  pcb_memph_collect_recursive caller 4 (pgd x) ;;
  upd_mm caller (fun x => set_fifo_pgn x []) ;;
  ret 0.

(** ** Page tables and records *)

Definition free_table (table : Z) : M machine unit := fun m =>
  match tables m !! table with
  | Some _ => Ret tt (set_tables m (delete table (tables m)))
  | None => Ub
  end.

Fixpoint free_mm_tables_recursive (below : nat) (table : Z) : M machine Z :=
  if bool_decide (table = 0) then ret 0
  else
    match below with
    | O => ret 0
    | S below =>
      for_each (fun i =>
        let* e := tbl_read table i in
        if bool_decide (e <> 0) then free_mm_tables_recursive below e else ret 0)
        (seqZ 0 PAGING64_LEVEL_ENTRIES)
    end ;;
    free_table table ;; ret 0.

(** The areas, regions and pools of the [mm_struct] go with it. *)
Definition free_mm (x : mm_struct) : M machine Z := free_mm_tables_recursive 4 (pgd x).

Definition free_kernel_page_table (k : krnl_t) : M machine krnl_t :=
  free_mm_tables_recursive 4 (krnl_pgd k) ;; ret (set_krnl_pgd k 0).

(** The [pcb_t] itself, with its code and its [krnl_t]. *)
Definition free_pcb (p : Z) : M machine unit := fun m =>
  Ret tt (mkMachine (tables m) (next_table m) (delete p (procs m)) (ram m) (swp m) (sch m)
            (delete p (mm_walk m)) (delete p (krnl_walk m)) (oom m) (mallocs m)).

Definition free_pcb_all (p : Z) : M machine unit :=
  if bool_decide (p = 0) then ret tt
  else
    let* y := get_pcb p in
    match krnl y with
    | None => ret tt
    | Some _ =>
      free_pcb_memph p ;;
      let* y := get_pcb p in
      match krnl y ≫= mm with
      | None => ret tt
      | Some x => free_mm x ;; ret tt
      end
    end ;;
    free_pcb p.

(** ** The scan of the tables *)

(** The non-zero entries of the last level below table [t], in order. *)
Fixpoint leaves (T : gmap Z (gmap Z Z)) (below : nat) (t : Z) : list Z :=
  concat ((fun i =>
    let e := entry T t i in
    if bool_decide (e = 0) then []
    else match below with S b => leaves T b e | O => [e] end) <$> seqZ 0 PAGING64_LEVEL_ENTRIES).

(** The entry for the [j]-th page below table [t]. *)
Fixpoint pte_rel (T : gmap Z (gmap Z Z)) (below : nat) (t j : Z) : Z :=
  match below with
  | O => entry T t j
  | S b =>
    let e := entry T t (j / 512 ^ Z.of_nat below) in
    if bool_decide (e = 0) then 0 else pte_rel T b e (j mod 512 ^ Z.of_nat below)
  end.

Lemma seqZ_blocks (k : nat) N :
  0 <= N -> seqZ 0 (Z.of_nat k * N) = concat ((fun i => Z.add (i * N) <$> seqZ 0 N) <$> seqZ 0 (Z.of_nat k)).
Proof.
  intros HN. induction k as [|k IH]; [done|].
  rewrite Nat2Z.inj_succ, Z.mul_succ_l, seqZ_app by lia. rewrite IH.
  replace (Z.succ (Z.of_nat k)) with (Z.of_nat k + 1) by lia. rewrite (seqZ_app _ (Z.of_nat k) 1) by lia.
  rewrite fmap_app, concat_app. f_equal. rewrite (seqZ_cons (0 + Z.of_nat k) 1), (seqZ_nil _ (Z.pred 1)) by lia. simpl.
  rewrite app_nil_r, fmap_add_seqZ. f_equal; lia.
Qed.

Notation nonzero := (filter (fun v : Z => v <> 0)).

Lemma nonzero_concat (L : list (list Z)) : nonzero (concat L) = concat (nonzero <$> L).
Proof. induction L as [|l L IH]; [done|]. simpl. by rewrite filter_app, IH. Qed.

Lemma nonzero_none {A} (f : A -> Z) l : (forall x, x ∈ l -> f x = 0) -> nonzero (f <$> l) = [].
Proof.
  induction l as [|x l IH]; intros H; [done|]. simpl. rewrite filter_cons_False.
  - apply IH. intros y Hy. apply H. by right.
  - intros []. apply H. by left.
Qed.

(** One level of the scan. *)
Lemma leaves_flat T n : forall t,
  leaves T n t = nonzero (pte_rel T n t <$> seqZ 0 (512 ^ Z.of_nat (S n))).
Proof.
  induction n as [|n IH]; intros t.
  - change (512 ^ Z.of_nat 1) with 512. cbn [leaves]. unfold PAGING64_LEVEL_ENTRIES.
    induction (seqZ 0 512) as [|i l IH]; [done|]. rewrite !fmap_cons. cbn [concat]. rewrite IH. cbn [pte_rel].
    case_bool_decide; [by rewrite filter_cons_False by naive_solver|by rewrite filter_cons_True by naive_solver].
  - set (N := 512 ^ Z.of_nat (S n)) in *. assert (HN : 0 < N) by (unfold N; apply Z.pow_pos_nonneg; lia).
    replace (512 ^ Z.of_nat (S (S n))) with (Z.of_nat 512 * N).
    2:{ unfold N. rewrite (Nat2Z.inj_succ (S n)), Z.pow_succ_r by lia. done. }
    rewrite seqZ_blocks by lia. cbn [leaves]. rewrite (concat_map (pte_rel T (S n) t) : forall L, _ <$> concat L = concat (fmap (pte_rel T (S n) t) <$> L)), nonzero_concat, <- !list_fmap_compose.
    f_equal. change (Z.of_nat 512) with PAGING64_LEVEL_ENTRIES. apply list_fmap_ext. intros _ i _. unfold compose.
    rewrite <- (list_fmap_compose (Z.add (i * N)) (pte_rel T (S n) t)).
    assert (Hj : forall j, j ∈ seqZ 0 N -> pte_rel T (S n) t (i * N + j) =
              if bool_decide (entry T t i = 0) then 0 else pte_rel T n (entry T t i) j).
    { intros j Hj%elem_of_seqZ. change (pte_rel T (S n) t (i * N + j)) with
        (let e := entry T t ((i * N + j) / N) in if bool_decide (e = 0) then 0 else pte_rel T n e ((i * N + j) mod N)).
      cbv zeta. rewrite Z.div_add_l, Z.div_small, Z.add_0_r by lia.
      rewrite Z.add_comm, Z.mod_add, Z.mod_small by lia. done. }
    case_bool_decide as He.
    + symmetry. apply nonzero_none. intros j Hin. unfold compose. by rewrite Hj.
    + rewrite IH. f_equal. apply list_fmap_ext. intros k j Hk. unfold compose. rewrite Hj; [done|].
      by eapply list_elem_of_lookup_2.
Qed.

Lemma pte_rel_page T r g : page_ok g -> pte_rel T 4 r (g mod 2 ^ 45) = pte_at T r g.
Proof.
  intros Hg. destruct (page_ok_canonical g Hg) as [_ _]. pose proof (page_ok_u64 g Hg) as Hu.
  unfold pte_at, page_path, page_index. rewrite !pgn_addr_mul, get_pd_ix by done.
  cbn [pgd_ix p4d_ix pud_ix pmd_ix pt_ix].
  assert (E : forall k, 0 <= k -> g * 4096 / 2 ^ (12 + k) = g / 2 ^ k) by
    (intros k Hk; rewrite Z.pow_add_r by lia; change (2 ^ 12) with 4096; by rewrite Z.mul_comm, Z.div_mul_cancel_l by lia).
  rewrite (E 36 ltac:(lia) : g * 4096 / 2 ^ 48 = _), (E 27 ltac:(lia) : g * 4096 / 2 ^ 39 = _),
    (E 18 ltac:(lia) : g * 4096 / 2 ^ 30 = _), (E 9 ltac:(lia) : g * 4096 / 2 ^ 21 = _). change (2 ^ 12) with 4096. rewrite Z.div_mul by done.
  unfold reach, child. cbn [foldl pte_rel mbind option_bind].
  change (512 ^ Z.of_nat 4) with (2 ^ 36). change (512 ^ Z.of_nat 3) with (2 ^ 27).
  change (512 ^ Z.of_nat 2) with (2 ^ 18). change (512 ^ Z.of_nat 1) with (2 ^ 9).
  assert (D : forall a b, 0 <= b -> 0 <= a -> (g mod 2 ^ (a + b)) / 2 ^ a = (g / 2 ^ a) mod 2 ^ b).
  { intros a b Hb Ha. rewrite Z.pow_add_r, Z.rem_mul_r by lia. rewrite Z.add_comm, Z.mul_comm, Z.div_add_l by lia.
    rewrite (Z.div_small (g mod _)) by (apply Z.mod_pos_bound; lia). lia. }
  assert (M : forall a b, 0 <= b <= a -> (g mod 2 ^ a) mod 2 ^ b = g mod 2 ^ b).
  { intros a b Hab. apply Z.mod_mod_divide. exists (2 ^ (a - b)). rewrite <- Z.pow_add_r by lia. f_equal. lia. }
  rewrite !M by lia. rewrite (D 36 9 ltac:(lia) ltac:(lia) : g mod 2 ^ 45 / _ = _), (D 27 9 ltac:(lia) ltac:(lia) : g mod 2 ^ 36 / _ = _),
    (D 18 9 ltac:(lia) ltac:(lia) : g mod 2 ^ 27 / _ = _), (D 9 9 ltac:(lia) ltac:(lia) : g mod 2 ^ 18 / _ = _). change (2 ^ 9) with 512.
  repeat (case_bool_decide; simpl; try done).
Qed.

(** A scan of the tables is a scan of the flat address space. *)
Lemma leaves_pages T r :
  (forall g, kernel_page g -> pte_at T r g = 0) ->
  leaves T 4 r = nonzero (pte_at T r <$> seqZ 0 (2 ^ 44)).
Proof.
  intros Hk. rewrite leaves_flat. replace (512 ^ Z.of_nat 5) with (2 ^ 44 + 2 ^ 44) by done.
  rewrite seqZ_app, fmap_app, filter_app by lia.
  rewrite (nonzero_none (pte_rel T 4 r) (seqZ (0 + 2 ^ 44) _)), app_nil_r.
  - assert (Hin : forall j, j ∈ seqZ 0 (2 ^ 44) -> 0 <= j < 2 ^ 44) by (intros j Hj%elem_of_seqZ; lia).
    revert Hin. generalize (seqZ 0 (2 ^ 44)). intros l Hin.
    assert (pte_rel T 4 r <$> l = pte_at T r <$> l) as ->; [|done].
    apply list_fmap_ext. intros k j Hj%list_elem_of_lookup_2%Hin.
    rewrite <- pte_rel_page by (left; unfold user_page; lia). by rewrite Z.mod_small by lia.
  - intros j Hj%elem_of_seqZ. assert (Hp : kernel_page (j + (2 ^ 52 - 2 ^ 45))) by (unfold kernel_page; lia).
    rewrite <- (Hk _ Hp), <- pte_rel_page by (by right).
    replace (j + (2 ^ 52 - 2 ^ 45)) with (j + 127 * 2 ^ 45) by lia. by rewrite Z.mod_add, Z.mod_small by lia.
Qed.

(** ** Giving the frames back *)

Definition pte_frame (pte : Z) : option Z :=
  if PAGING64_PAGE_PRESENT pte && negb (PAGING64_PAGE_SWAPPED pte) then Some (PAGING64_PTE_FPN pte) else None.
Definition pte_slot (pte : Z) : option Z :=
  if PAGING64_PAGE_SWAPPED pte then Some (PAGING64_PTE_SWP pte) else None.

(** The machine with [fs] and [ss] put on the free lists. *)
Definition given (m : machine) (fs ss : list Z) (c : Z) : machine :=
  mkMachine (tables m) (next_table m) (procs m) (set_free (ram m) (fs ++ free_fp_list (ram m)))
    (set_free (swp m) (ss ++ free_fp_list (swp m))) (sch m) (mm_walk m) (krnl_walk m) (oom m) c.

Lemma given_nil m : m = given m [] [] (mallocs m).
Proof. destruct m as [? ? ? [] [] ? ? ? ? ?]. done. Qed.

Section collect.
Context (m : machine) (p : Z) (k : krnl_t) (x : mm_struct).
Context (Hp : has_mm m p k x) (Hram : mram k = true) (Hswp : active_mswp k = true) (Hoom : ~ may_oom m).

(** The frames and slots of [l], latest first, before those already given. *)
Definition given_of (l fs ss : list Z) (c : Z) : machine :=
  given m (reverse (omap pte_frame l) ++ fs) (reverse (omap pte_slot l) ++ ss)
    (c + Z.of_nat (length (omap pte_frame l)) + Z.of_nat (length (omap pte_slot l))).

Lemma release_pte_ok v fs ss c :
  PAGING64_PAGE_PRESENT v && PAGING64_PAGE_SWAPPED v = false ->
  release_pte p v (given m fs ss c) = Ret 0 (given_of [v] fs ss c).
Proof using Hp Hram Hswp Hoom.
  intros Hv. unfold release_pte, bind.
  rewrite (get_krnl_ok (given m fs ss c) p k) by (destruct Hp as (? & ? & _); done).
  unfold given_of, pte_frame, pte_slot, k_mram, k_mswp, dev_put_freefp, bind, malloc, on_dev. rewrite Hram, Hswp.
  destruct (PAGING64_PAGE_PRESENT v) eqn:Hpr, (PAGING64_PAGE_SWAPPED v) eqn:Hsw; try done;
    cbn [andb negb oom given]; rewrite ?(no_oom m Hoom); simpl; rewrite Hpr, Hsw; simpl; by rewrite ?Z.add_0_r.
Qed.

(** Every table down to the last level is allocated. *)
Definition allocated (T : gmap Z (gmap Z Z)) (n : nat) (t : Z) : Prop :=
  forall path q, (length path <= n)%nat -> reach T t path = Some q -> 0 < q /\ is_Some (T !! q).

Lemma reach_cons T t i path :
  entry T t i <> 0 -> reach T t (i :: path) = reach T (entry T t i) path.
Proof using Type. intros He. unfold reach. cbn [foldl mbind option_bind]. unfold child at 2. by rewrite bool_decide_false. Qed.

Lemma allocated_child T n t i : allocated T (S n) t -> entry T t i <> 0 -> allocated T n (entry T t i).
Proof using Type.
  intros HA He path q Hl Hq. apply (HA (i :: path)); [simpl; lia|]. by rewrite reach_cons.
Qed.

Lemma tbl_read_entry T m' t i :
  tables m' = T -> is_Some (T !! t) -> 0 <= i < PAGING64_LEVEL_ENTRIES -> tbl_read t i m' = Ret (entry T t i) m'.
Proof using Type.
  intros HT [b Hb] Hi. unfold tbl_read, entry. rewrite HT, Hb, bool_decide_true by done. done.
Qed.

Lemma given_of_app l l' fs ss c :
  given_of (l ++ l') fs ss c = given_of l' (reverse (omap pte_frame l) ++ fs) (reverse (omap pte_slot l) ++ ss)
    (c + Z.of_nat (length (omap pte_frame l)) + Z.of_nat (length (omap pte_slot l))).
Proof using Type.
  unfold given_of. rewrite !omap_app, !reverse_app, !app_assoc, !length_app. f_equal. lia.
Qed.

Notation clean := (Forall (fun v => PAGING64_PAGE_PRESENT v && PAGING64_PAGE_SWAPPED v = false)).

(** A loop whose bodies give back the frames of [f i]. *)
Lemma give_loop {A} (body : A -> M machine Z) (f : A -> list Z) (l : list A) :
  (forall i fs ss c, i ∈ l -> body i (given m fs ss c) = Ret 0 (given_of (f i) fs ss c)) ->
  forall fs ss c, for_each body l (given m fs ss c) = Ret 0 (given_of (concat (f <$> l)) fs ss c).
Proof using Type.
  induction l as [|i l IH]; intros Hb fs ss c.
  { unfold given_of. simpl. by rewrite !Z.add_0_r. }
  cbn [for_each fmap list_fmap concat]. unfold bind. rewrite Hb by (by left). rewrite bool_decide_true by done.
  unfold given_of at 1. rewrite IH by (intros; apply Hb; by right). by rewrite given_of_app.
Qed.

Lemma clean_concat {A} (f : A -> list Z) l i : clean (concat (f <$> l)) -> i ∈ l -> clean (f i).
Proof using Type.
  intros HC Hi. rewrite Forall_forall in *. intros v Hv. apply HC. apply list_elem_of_In, in_concat.
  exists (f i). split; [apply list_elem_of_In, list_elem_of_fmap; eauto|by apply list_elem_of_In].
Qed.

Lemma collect_ok n : forall t fs ss c,
  allocated (tables m) n t -> clean (leaves (tables m) n t) ->
  pcb_memph_collect_recursive p n t (given m fs ss c) = Ret 0 (given_of (leaves (tables m) n t) fs ss c).
Proof using Hp Hram Hswp Hoom.
  induction n as [|n IH]; intros t fs ss c HA HC.
  all: destruct (HA [] t ltac:(simpl; lia) eq_refl) as [Ht Hin]; cbn [pcb_memph_collect_recursive];
    rewrite (bool_decide_false (t = 0)) by lia.
  all: cbn [leaves] in *; apply give_loop; intros i fs' ss' c1 Hi; pose proof (clean_concat _ _ i HC Hi) as HCi;
    apply elem_of_seqZ in Hi; unfold bind; cbv beta zeta in HCi |- *;
    rewrite (tbl_read_entry (tables m) (given m fs' ss' c1) t i) by (done || lia).
  all: destruct (decide (entry (tables m) t i = 0)) as [He|He];
    [rewrite !(bool_decide_true (entry _ _ _ = 0)) by done; unfold given_of; simpl; by rewrite !Z.add_0_r|
     rewrite !(bool_decide_false (entry _ _ _ = 0)) in * by done].
  - apply release_pte_ok. by inversion HCi.
  - apply IH; [by apply allocated_child|done].
Qed.

(** The same entries, one after the other. *)
Lemma release_all l fs ss c :
  clean l -> for_each (release_pte p) l (given m fs ss c) = Ret 0 (given_of l fs ss c).
Proof using Hp Hram Hswp Hoom.
  intros HC. replace l with (concat ((fun v => [v]) <$> l)) at 2 by (induction l as [|v l IH]; [done|]; inversion HC; subst; simpl; f_equal; by apply IH).
  apply give_loop. intros v fs' ss' c' Hv. apply release_pte_ok. exact (proj1 (Forall_forall _ _) HC v Hv).
Qed.
End collect.

(** ** Freeing the tables *)

(** The tables below [t] and [t] itself, in the order they are freed. *)
Fixpoint subtree (T : gmap Z (gmap Z Z)) (below : nat) (t : Z) : list Z :=
  match below with
  | O => []
  | S b => concat ((fun i =>
      let e := entry T t i in
      if bool_decide (e = 0) then [] else subtree T b e) <$> seqZ 0 PAGING64_LEVEL_ENTRIES)
  end ++ [t].

(** The machine without the tables of [l]. *)
Definition cut (m : machine) (l : list Z) : machine :=
  set_tables m (foldl (fun T q => delete q T) (tables m) l).

Lemma cut_app m l l' : cut (cut m l) l' = cut m (l ++ l').
Proof. unfold cut. by rewrite foldl_app. Qed.

Lemma cut_nil m : cut m [] = m.
Proof. by destruct m. Qed.

Lemma cut_lookup m l q : tables (cut m l) !! q = if bool_decide (q ∈ l) then None else tables m !! q.
Proof.
  unfold cut. cbn [tables set_tables]. generalize (tables m). induction l as [|a l IH]; intros T.
  - by rewrite bool_decide_false by apply not_elem_of_nil.
  - cbn [foldl]. rewrite IH. destruct (decide (q ∈ l)) as [Hl|Hl].
    + rewrite !bool_decide_true; [done|by right|done].
    + rewrite (bool_decide_false (q ∈ l)) by done. destruct (decide (q = a)) as [->|Ha].
      * rewrite lookup_delete_eq, bool_decide_true by (by left). done.
      * rewrite lookup_delete_ne, bool_decide_false by (rewrite ?elem_of_cons; naive_solver). done.
Qed.

Section free_tables.
Context (T : gmap Z (gmap Z Z)).

Definition agrees (m : machine) (l : list Z) : Prop := forall q, q ∈ l -> tables m !! q = T !! q.

Lemma agrees_cut m l l' : agrees m (l ++ l') -> NoDup (l ++ l') -> agrees (cut m l) l'.
Proof using Type.
  intros HA (_ & HD & _)%NoDup_app q Hq. rewrite cut_lookup, bool_decide_false by (intros Hl; by apply (HD q)).
  apply HA, elem_of_app. by right.
Qed.

Lemma agrees_l m l l' : agrees m (l ++ l') -> agrees m l.
Proof using Type. intros HA q Hq. apply HA, elem_of_app. by left. Qed.
Lemma agrees_r m l l' : agrees m (l ++ l') -> agrees m l'.
Proof using Type. intros HA q Hq. apply HA, elem_of_app. by right. Qed.

Lemma cut_loop {A} (body : A -> M machine Z) (f : A -> list Z) (rest : list Z) (l : list A) :
  (forall i m, i ∈ l -> NoDup (f i) -> agrees m (f i ++ rest) -> body i m = Ret 0 (cut m (f i))) ->
  forall m, NoDup (concat (f <$> l) ++ rest) -> agrees m (concat (f <$> l) ++ rest) ->
    for_each body l m = Ret 0 (cut m (concat (f <$> l))).
Proof using Type.
  induction l as [|i l IH]; intros Hb m HN HA; [simpl; by rewrite cut_nil|].
  rewrite fmap_cons in *. cbn [concat] in *. rewrite <- app_assoc in HN, HA. cbn [for_each]. unfold bind.
  rewrite Hb; [|by left|by apply NoDup_app in HN as (HN & _)|].
  2:{ intros q [Hq|Hq]%elem_of_app; apply HA; rewrite !elem_of_app; auto. }
  rewrite bool_decide_true by done. rewrite IH, cut_app; [done|intros; apply Hb; [by right|done..]| |].
  - by apply NoDup_app in HN as (_ & _ & HN).
  - by apply agrees_cut.
Qed.

Lemma free_tables_ok n : forall t m,
  allocated T n t -> NoDup (subtree T n t) -> agrees m (subtree T n t) ->
  free_mm_tables_recursive n t m = Ret 0 (cut m (subtree T n t)).
Proof using Type.
  induction n as [|n IH]; intros t m HA HN Hag.
  all: destruct (HA [] t ltac:(simpl; lia) eq_refl) as [Ht Hin]; cbn [free_mm_tables_recursive subtree] in *;
    rewrite (bool_decide_false (t = 0)) by lia; unfold bind.
  - unfold ret, free_table. rewrite (Hag t) by (by left). destruct Hin as [b ->]. done.
  - rewrite (cut_loop _ (fun i => let e := entry T t i in if bool_decide (e = 0) then [] else subtree T n e) [t]); [|..|exact HN|exact Hag].
    + unfold free_table, ret. rewrite (agrees_cut _ _ _ Hag HN t) by (by left). destruct Hin as [b ->].
      rewrite <- cut_app. done.
    + intros i m1 Hi%elem_of_seqZ HNi Hai. cbv zeta in *. unfold tbl_read.
      rewrite (agrees_r _ _ _ Hai t) by (by left). destruct Hin as [b Hb]. rewrite Hb, bool_decide_true by lia.
      assert (default 0 (b !! i) = entry T t i) as -> by (unfold entry; by rewrite Hb).
      destruct (decide (entry T t i = 0)) as [He|He].
      * rewrite (bool_decide_false (entry T t i <> 0)), (bool_decide_true (entry T t i = 0)) by naive_solver.
        by rewrite cut_nil.
      * rewrite (bool_decide_true (entry T t i <> 0)) by done.
        rewrite (bool_decide_false (entry T t i = 0)) in * by done.
        apply IH; [by apply allocated_child|done|by eapply agrees_l].
Qed.

(** Where the tables of a subtree are. *)
Lemma subtree_reach n : forall t q, q ∈ subtree T n t -> exists path, (length path <= n)%nat /\ reach T t path = Some q.
Proof using Type.
  induction n as [|n IH]; intros t q; cbn [subtree]; rewrite elem_of_app, list_elem_of_singleton.
  - intros [[]%elem_of_nil| ->]. exists []. done.
  - intros [Hq| ->]; [|exists []; simpl; split; [lia|done]].
    apply list_elem_of_In, in_concat in Hq as (l & Hl & Hq). apply list_elem_of_In in Hl, Hq.
    apply list_elem_of_fmap in Hl as (i & -> & _). cbv zeta in Hq. case_bool_decide as He; [by apply elem_of_nil in Hq|].
    destruct (IH _ _ Hq) as (path & Hl & Hr). exists (i :: path). split; [simpl; lia|]. by rewrite reach_cons.
Qed.
End free_tables.

Lemma NoDup_concat_fmap {A} (f : A -> list Z) l :
  NoDup l -> (forall i, i ∈ l -> NoDup (f i)) ->
  (forall i j q, i ∈ l -> j ∈ l -> q ∈ f i -> q ∈ f j -> i = j) -> NoDup (concat (f <$> l)).
Proof.
  induction l as [|i l IH]; intros HN Hf Hd; [constructor|]. apply NoDup_cons in HN as [Hi HN].
  rewrite fmap_cons. cbn [concat]. apply NoDup_app. split; [apply Hf; by left|]. split.
  - intros q Hq Hc. apply list_elem_of_In, in_concat in Hc as (k & Hk & Hqk). apply list_elem_of_In in Hk, Hqk.
    apply list_elem_of_fmap in Hk as (j & -> & Hj). apply Hi.
    rewrite (Hd i j q); [done|by left|by right|done|done].
  - apply IH; [done|intros j Hj; apply Hf; by right|]. intros j j' q Hj Hj'. apply Hd; by right.
Qed.

Lemma reach_app T r path t path' : reach T r path = Some t -> reach T r (path ++ path') = reach T t path'.
Proof. unfold reach. rewrite foldl_app. by intros ->. Qed.

Section forest_cut.
Context (R : Z -> Prop) (T : gmap Z (gmap Z Z)) (nxt r : Z) (HF : forest R T nxt) (Hr : R r).

Lemma forest_allocated n path t : (length path + n <= 4)%nat -> reach T r path = Some t -> allocated T n t.
Proof using HF Hr.
  intros Hl Ht path' q Hl' Hq. apply (forest_alloc _ _ _ HF r (path ++ path')); [done|rewrite length_app; lia|].
  by rewrite (reach_app _ _ _ t).
Qed.

Lemma subtree_nodup n : forall path t, (length path + n <= 4)%nat -> reach T r path = Some t -> NoDup (subtree T n t).
Proof using HF Hr.
  induction n as [|n IH]; intros path t Hl Ht; cbn [subtree]; [by apply NoDup_singleton|].
  assert (Hsub : forall i q, q ∈ (let e := entry T t i in if bool_decide (e = 0) then [] else subtree T n e) ->
    exists path', (length path' <= n)%nat /\ reach T r (path ++ i :: path') = Some q).
  { intros i q. cbv zeta. case_bool_decide as He; [by intros []%elem_of_nil|].
    intros (path' & Hl' & Hq)%subtree_reach. exists path'. split; [done|].
    by rewrite (reach_app _ _ _ t), reach_cons. }
  assert (Hinj : forall i q q' path' path'', (length path' <= n)%nat -> (length path'' <= 4)%nat ->
    reach T r (path ++ i :: path') = Some q -> reach T r path'' = Some q' -> q = q' -> path ++ i :: path' = path'').
  { intros i q q' path' path'' H1 H2 Hq Hq' <-.
    apply (forest_inj _ _ _ HF r (path ++ i :: path') r path'' q Hr Hr); [rewrite length_app; simpl; lia|done..]. }
  apply NoDup_app. split; [|split; [|by apply NoDup_singleton]].
  - apply NoDup_concat_fmap; [apply NoDup_seqZ| |].
    + intros i _. cbv zeta. case_bool_decide as He; [constructor|]. apply (IH (path ++ [i])); [rewrite length_app; simpl; lia|].
      by rewrite (reach_app _ _ _ t), reach_cons.
    + intros i j q _ _ (p1 & L1 & Q1)%Hsub (p2 & L2 & Q2)%Hsub.
      assert (path ++ i :: p1 = path ++ j :: p2) as [= E]%(inj (app path)); [|done].
      eapply Hinj; [done| |exact Q1|exact Q2|done]. rewrite length_app. simpl. lia.
  - intros q Hq ->%list_elem_of_singleton. apply list_elem_of_In, in_concat in Hq as (k & Hk & Hqk).
    apply list_elem_of_In in Hk, Hqk. apply list_elem_of_fmap in Hk as (i & -> & _).
    apply Hsub in Hqk as (p1 & L1 & Q1).
    assert (path ++ i :: p1 = path) as E by (by eapply Hinj; [|lia| | |]).
    apply (f_equal length) in E. rewrite length_app in E. simpl in E. lia.
Qed.

Arguments subtree : simpl never.
Notation T' := (foldl (fun T q => delete q T) T (subtree T 4 r)).

Lemma entry_cut q i : q ∉ subtree T 4 r -> entry T' q i = entry T q i.
Proof using Type.
  intros Hq. unfold entry. pose proof (cut_lookup (mkMachine T 0 ∅ blank_memphy blank_memphy static_sched ∅ ∅ (fun _ => false) 0) (subtree T 4 r) q) as E.
  cbn [tables cut set_tables] in E. by rewrite E, bool_decide_false.
Qed.

Lemma reach_cut r' path : R r' -> r' <> r -> (length path <= 4)%nat -> reach T' r' path = reach T r' path.
Proof using HF Hr.
  intros Hr' Hne. induction path as [|i path IH] using rev_ind; intros Hl; [done|].
  rewrite length_app in Hl. simpl in Hl. rewrite !reach_snoc, IH by lia.
  destruct (reach T r' path) as [q|] eqn:Hq; [|done]. cbn [mbind option_bind]. unfold child. rewrite entry_cut; [done|].
  intros (path' & Hl' & Hq')%subtree_reach.
  by destruct (forest_inj _ _ _ HF r' path r path' q Hr' Hr ltac:(lia) Hl' Hq Hq').
Qed.

Lemma reach_not_cut r' path q : R r' -> r' <> r -> (length path <= 4)%nat -> reach T r' path = Some q -> q ∉ subtree T 4 r.
Proof using HF Hr.
  intros Hr' Hne Hl Hq (path' & Hl' & Hq')%subtree_reach.
  by destruct (forest_inj _ _ _ HF r' path r path' q Hr' Hr Hl Hl' Hq Hq').
Qed.

Lemma pte_cut r' g : R r' -> r' <> r -> pte_at T' r' g = pte_at T r' g.
Proof using HF Hr.
  intros Hr' Hne. unfold pte_at. rewrite reach_cut by done. destruct (reach T r' (page_path g)) as [q|] eqn:Hq; [|done].
  apply entry_cut. by eapply reach_not_cut.
Qed.

Lemma cut_table q : T' !! q = if bool_decide (q ∈ subtree T 4 r) then None else T !! q.
Proof using Type.
  apply (cut_lookup (mkMachine T 0 ∅ blank_memphy blank_memphy static_sched ∅ ∅ (fun _ => false) 0) (subtree T 4 r) q).
Qed.

Lemma forest_cut : forest (fun r' => R r' /\ r' <> r) T' nxt.
Proof using HF Hr.
  split.
  - intros q Hq. rewrite cut_table, (forest_fresh _ _ _ HF q Hq). by case_bool_decide.
  - apply HF.
  - intros r' path q [Hr' Hne] Hl Hq. rewrite reach_cut in Hq by done.
    destruct (forest_alloc _ _ _ HF r' path q Hr' Hl Hq) as [? ?]. split; [done|].
    rewrite cut_table, bool_decide_false; [done|]. by eapply reach_not_cut.
  - intros r1 p1 r2 p2 q [H1 N1] [H2 N2] L1 L2. rewrite !reach_cut by done. by apply (forest_inj _ _ _ HF).
Qed.
End forest_cut.

(** ** Giving up the kernel memory of a process *)

(** The number of the frame behind a kernel address. *)
Definition kframe (a : Z) : Z := (a - KMEM_VADDR_BASE) / 4096.

(** The frames from the first page of a region on, as many as its size needs,
    are not in use. *)
Definition gone (m : machine) (rg : vm_rg_struct) : Prop :=
  forall f, kframe (rg_start rg) <= f < kframe (rg_start rg) + pages_for (rg_end rg - rg_start rg) ->
    f ∉ used_fp_list (ram m).

Definition pool_rg (pl : kcache_pool_struct) : vm_rg_struct :=
  mkRg 0 (pool_storage pl) (pool_storage pl + alloc_size pl).

(** What giving up kernel memory leaves alone. *)
Record tear (p : Z) (m m' : machine) : Prop := mkTear {
  te_sch : sch m' = sch m /\ oom m' = oom m /\ swp m' = swp m;
  te_procs : forall q, q <> p -> procs m' !! q = procs m !! q;
  te_ram : exists free used, ram m' = set_used (set_free (ram m) free) used;
  te_pages : forall q g, user_page g -> page_state m' q g = page_state m q g;
  te_used : forall f, f ∈ used_fp_list (ram m') -> f ∈ used_fp_list (ram m);
  te_mm : forall k x, has_mm m p k x -> exists k' x', has_mm m' p k' x' /\ pgd x' = pgd x /\ krnl_pgd k' = krnl_pgd k;
}.

Lemma tear_refl p m : tear p m m.
Proof.
  split; try done.
  - exists (free_fp_list (ram m)), (used_fp_list (ram m)). by destruct (ram m).
  - intros k x Hp. by exists k, x.
Qed.

Lemma tear_trans p m1 m2 m3 : tear p m1 m2 -> tear p m2 m3 -> tear p m1 m3.
Proof.
  intros [(S1 & O1 & W1) P1 (f1 & u1 & R1) G1 U1 M1] [(S2 & O2 & W2) P2 (f2 & u2 & R2) G2 U2 M2]. split.
  - split_and!; congruence.
  - intros q Hq. by rewrite P2, P1.
  - exists f2, u2. rewrite R2, R1. done.
  - intros q g Hg. by rewrite G2, G1.
  - auto.
  - intros k x Hp. destruct (M1 k x Hp) as (k2 & x2 & Hp2 & E1 & E2).
    destruct (M2 k2 x2 Hp2) as (k3 & x3 & Hp3 & E3 & E4). exists k3, x3. split; [done|]. split; congruence.
Qed.

Lemma tear_gone p m m' rg : tear p m m' -> gone m rg -> gone m' rg.
Proof. intros HT HG f Hf Hin. apply (HG f Hf). by apply (te_used _ _ _ HT). Qed.

(** A symbol whose addresses the release loop can take. *)
Definition sym_tear (rg : vm_rg_struct) : Prop :=
  is_kernel_vaddr_range (rg_start rg) (rg_end rg) = true -> kernel_rg rg.

Lemma run_covers base asz s e :
  KMEM_VADDR_BASE <= base -> base mod 4096 = 0 -> asz mod 4096 = 0 -> base <= s -> s < e -> e <= base + asz ->
  kframe base <= kframe s /\ kframe s + pages_for (e - s) <= kframe base + asz / 4096.
Proof.
  unfold kframe, pages_for, KMEM_VADDR_BASE, PAGING64_PAGESZ. intros. Z.div_mod_to_equations. lia.
Qed.

Section kernel_memory.
Context (m0 : machine) (p : Z) (k0 : krnl_t) (x0 : mm_struct) (Hp0 : has_mm m0 p k0 x0).
Context (Hlen : length (symrgtbl x0) = 30%nat) (Hsyms : Forall sym_tear (symrgtbl x0)).

(** The process on the way: a symbol is as it was, or cleared and its frames
    given back. *)
Definition torn (m : machine) : Prop :=
  kinv [] [] m /\ tear p m0 m /\ exists k x, has_mm m p k x /\ length (symrgtbl x) = 30%nat /\
    forall i rg, symrgtbl x0 !! i = Some rg ->
      symrgtbl x !! i = Some rg \/ (symrgtbl x !! i = Some (mkRg 0 0 0) /\ (kernel_rg rg -> gone m rg)).

(** A change of the process's own records. *)
Lemma torn_upd m f k x :
  torn m -> has_mm m p k x -> pgd (f x) = pgd x -> fifo_pgn (f x) = fifo_pgn x ->
  wp (upd_mm p f) (fun _ m' => kinv [] [] m' /\ tear p m m' /\ ram m' = ram m /\ exists k', has_mm m' p k' (f x)) m.
Proof using Type.
  intros (HKI & _) Hp E1 E2. eapply wp_mono.
  { apply wp_and; [apply (upd_mm_spec [] [] m p k x f (proj1 HKI) Hp E1 E2)|apply (upd_mm_own [] [] m p k x f HKI Hp E1 E2)]. }
  intros _ m' [(_ & Hp' & (Ht & Hn & Er & Ew & Es & Eo) & Hq & _ & Hps & _) (HKI' & _)].
  split; [done|]. split; [|split; [done|by eexists]]. split.
  - done.
  - done.
  - rewrite Er. exists (free_fp_list (ram m)), (used_fp_list (ram m)). by destruct (ram m).
  - intros q g _. apply Hps.
  - by rewrite Er.
  - intros k1 x1 Hp1. destruct (has_mm_det _ _ _ _ _ _ Hp Hp1) as [<- <-]. eexists _, _. by split; [exact Hp'|].
Qed.

Lemma torn_release m base n :
  torn m -> kmem_run base n -> 0 < n <= 2 ^ 19 ->
  wp (kernel_release_contiguous_region p base n) (fun _ m' => torn m' /\ tear p m m' /\
    (forall k x, has_mm m p k x -> has_mm m' p k x) /\
    forall f, kframe base <= f < kframe base + n -> f ∉ used_fp_list (ram m')) m.
Proof using Type.
  intros (HKI & HT & k & x & Hp & Hl & Hs) Hrun Hn.
  eapply wp_mono; [apply (release_any_spec [] [] m p k x base n HKI Hp Hrun Hn)|].
  intros [] m' (HKI' & HK & Hu). pose proof HK as (Ep & Es & Eo & Ew & Er & Hps).
  assert (HT' : tear p m m').
  { split; try done.
    - intros q _. by rewrite Ep.
    - intros f Hf. by apply Hu in Hf as [Hf _].
    - intros k1 x1 Hp1. exists k1, x1. split; [by eapply kstep_mm|done]. }
  split; [|split; [done|split; [intros k1 x1; by apply kstep_mm|]]].
  - split; [done|]. split; [by eapply tear_trans|]. exists k, x. split; [by eapply kstep_mm|]. split; [done|].
    intros i rg Hi. destruct (Hs i rg Hi) as [?|[? Hg]]; [by left|right]. split; [done|].
    intros Hk. by eapply tear_gone; [|apply Hg].
  - intros f Hf Hin. apply Hu in Hin as [_ Hout]. done.
Qed.

Lemma torn_pool m pl :
  torn m -> pool_ok pl ->
  wp (release_pool p pl) (fun r m' => r = 0 /\ torn m' /\ tear p m m' /\
    (pool_size pl <> 0 -> gone m' (pool_rg pl))) m.
Proof using Type.
  clear Hlen. intros Ht [->|(base & al & n & asz & t & -> & _ & Hn & Hal & _ & Hb & Ha & Hend & Hmb & Hma)].
  { apply wp_ret. split; [done|]. split; [done|]. split; [apply tear_refl|done]. }
  assert (Hq : 0 < asz / 4096 <= 2 ^ 19 /\ asz / 4096 * 4096 = asz)
    by (unfold KMEM_VADDR_BASE in *; Z.div_mod_to_equations; lia).
  unfold release_pool. cbn [pool_at pool_size pool_storage alloc_size].
  rewrite (bool_decide_false (n * al = 0)) by nia. rewrite (bool_decide_false (base = 0)) by (unfold KMEM_VADDR_BASE in *; lia).
  cbn [orb]. rewrite !(bool_decide_false (asz = 0)) by lia. apply wp_bind, wp_ret.
  rewrite (bool_decide_false (asz = 0)) by lia. unfold PAGING64_PAGESZ. rewrite i32_small by lia.
  rewrite u64_small by (unfold is_u64, KMEM_VADDR_BASE in *; lia).
  apply wp_bind. eapply wp_mono; [apply (torn_release m base (asz / 4096) Ht); [unfold kmem_run; lia|lia]|].
  intros [] m1 (Ht1 & HT1 & _ & Hfr). pose proof Ht1 as (_ & HT01 & k & x & Hp & Hl & Hs).
  unfold clear_symrg_range, is_kernel_vaddr_range. rewrite !bool_decide_true by lia. cbn [andb negb].
  apply wp_bind. eapply wp_mono; [by apply (torn_upd m1 _ k x Ht1 Hp)|].
  intros [] m2 (HKI2 & HT2 & Er2 & k2 & Hp2). apply wp_ret. split; [done|].
  assert (Hg : forall s e, base <= s -> s < e -> e <= base + asz -> gone m2 (mkRg 0 s e)).
  { intros s e H1 H2 H3 f. cbn [rg_start rg_end]. destruct (run_covers base asz s e) as [C1 C2]; try done.
    intros Hf. rewrite Er2. apply Hfr. lia. }
  split; [|split; [by eapply tear_trans|]].
  - split; [done|]. split; [by eapply tear_trans|]. eexists k2, _. split; [exact Hp2|].
    cbn [symrgtbl set_symrgtbl]. split; [by rewrite length_fmap|]. intros i rg Hi. rewrite list_lookup_fmap.
    destruct (Hs i rg Hi) as [-> | [-> Hgo]]; cbn [fmap option_fmap option_map rg_start rg_end].
    + destruct (bool_decide (base <= rg_start rg) && bool_decide (rg_end rg <= base + asz)) eqn:Hc; [right|by left].
      apply andb_true_iff in Hc as [?%bool_decide_eq_true ?%bool_decide_eq_true]. split; [done|]. intros (_ & Hse & _).
      apply (Hg (rg_start rg) (rg_end rg)); done.
    + right. split; [by destruct (_ && _)|]. intros Hk. by eapply tear_gone; [|apply Hgo].
  - intros _. unfold pool_rg. cbn [pool_storage alloc_size pool_at]. apply Hg; lia.
Qed.

Lemma torn_symrg m i rg :
  torn m -> 0 <= i < 30 -> symrgtbl x0 !! Z.to_nat i = Some rg ->
  wp (release_symrg p i) (fun r m' => r = 0 /\ torn m' /\ tear p m m' /\ (kernel_rg rg -> gone m' rg)) m.
Proof using Hsyms.
  clear Hlen. intros Ht Hi Hrg. pose proof Ht as (HKI & HT & k & x & Hp & Hl & Hs). unfold release_symrg, the_mm. apply wp_bind, wp_bind.
  eapply wp_eq; [by eapply get_mm_ok|]. apply wp_ret.
  destruct (Hs _ _ Hrg) as [E|[E Hgo]]; rewrite E.
  2:{ apply wp_ret. split; [done|]. split; [done|]. split; [apply tear_refl|done]. }
  destruct (is_kernel_vaddr_range (rg_start rg) (rg_end rg)) eqn:Hr; cbn [negb].
  2:{ apply wp_ret. split; [done|]. split; [done|]. split; [apply tear_refl|]. intros (H1 & H2 & _).
      unfold is_kernel_vaddr_range in Hr. rewrite !bool_decide_true in Hr by done. done. }
  assert (Hk : kernel_rg rg) by (apply (proj1 (Forall_forall _ _) Hsyms rg); [by eapply list_elem_of_lookup_2|done]).
  destruct Hk as (H1 & H2 & H3 & H4). set (size := rg_end rg - rg_start rg) in *.
  rewrite u64_small by (unfold is_u64; lia). destruct (align_kpages size ltac:(lia)) as (_ & Hn & Hle & ->).
  assert (Hn2 : pages_for size <= 2 ^ 19) by (unfold pages_for, PAGING64_PAGESZ in *; Z.div_mod_to_equations; lia).
  rewrite bool_decide_false by lia. apply wp_bind.
  eapply wp_mono; [apply (torn_release m (rg_start rg) (pages_for size) Ht); [unfold kmem_run; lia|lia]|].
  intros [] m1 (Ht1 & HT1 & Hmm & Hfr). unfold set_symrg. apply wp_bind.
  eapply wp_mono; [by apply (torn_upd m1 _ k x Ht1 (Hmm k x Hp))|].
  intros [] m2 (HKI2 & HT2 & Er2 & k2 & Hp2). apply wp_ret. split; [done|].
  assert (Hg : gone m2 rg) by (intros f Hf; rewrite Er2; by apply Hfr).
  split; [|split; [by eapply tear_trans|done]].
  split; [done|]. split; [eapply tear_trans; [exact HT|]; by eapply tear_trans|]. eexists k2, _. split; [exact Hp2|].
  cbn [symrgtbl set_symrgtbl]. split; [by rewrite length_insert|]. intros j rg' Hj.
  destruct (decide (j = Z.to_nat i)) as [->|Hne].
  - rewrite list_lookup_insert_eq by lia. right. split; [done|]. by assert (rg' = rg) as -> by congruence.
  - rewrite list_lookup_insert_ne by done. destruct (Hs j rg' Hj) as [?|[? Hgo]]; [by left|right]. split; [done|].
    intros Hk. eapply tear_gone; [|apply Hgo, Hk]. by eapply tear_trans.
Qed.

(** Both loops. *)
Lemma torn_kernel (Hpools : Forall pool_ok (default [] (kcpooltbl x0))) (HKI0 : kinv [] [] m0) :
  wp (release_kernel_cache_pools p ;; release_kernel_symrg_allocations p) (fun _ m' => torn m' /\
    (forall pl, pl ∈ default [] (kcpooltbl x0) -> pool_size pl <> 0 -> gone m' (pool_rg pl)) /\
    forall rg, rg ∈ symrgtbl x0 -> kernel_rg rg -> gone m' rg) m0.
Proof using Hp0 Hlen Hsyms.
  assert (Ht0 : torn m0).
  { split; [done|]. split; [apply tear_refl|]. exists k0, x0. split; [done|]. split; [done|]. auto. }
  apply wp_bind. eapply (wp_mono _ (fun _ m1 => torn m1 /\
    forall pl, pl ∈ default [] (kcpooltbl x0) -> pool_size pl <> 0 -> gone m1 (pool_rg pl))).
  - unfold release_kernel_cache_pools. apply wp_bind. eapply wp_eq; [by eapply get_mm_ok|]. cbv beta iota.
    destruct (kcpooltbl x0) as [pools|]; [|apply wp_ret; split; [done|intros pl []%elem_of_nil]]. simpl in *.
    apply wp_bind. eapply wp_mono.
    + apply (wp_for_each _ (fun xs m1 => torn m1 /\ forall pl, pl ∈ xs -> pool_size pl <> 0 -> gone m1 (pool_rg pl))
        (fun _ m1 => torn m1 /\ forall pl, pl ∈ pools -> pool_size pl <> 0 -> gone m1 (pool_rg pl))).
      * split; [done|]. intros pl []%elem_of_nil.
      * intros xs pl ys m1 -> [Ht1 Hg1]. apply Forall_app in Hpools as [_ Hpools]. apply Forall_cons in Hpools as [Hpl _].
        eapply wp_mono; [by apply torn_pool|]. intros r m2 (-> & Ht2 & HT2 & Hg2). rewrite bool_decide_true by done.
        split; [done|]. intros pl' [Hin| ->%list_elem_of_singleton]%elem_of_app Hz; [|by apply Hg2].
        by eapply tear_gone; [|apply Hg1].
      * done.
    + intros _ m1 [Ht1 Hg1]. pose proof Ht1 as (_ & HT1 & k & x & Hp & Hl & Hs). unfold free_kmem_cache_metadata.
      eapply wp_mono; [by apply (torn_upd m1 _ k x Ht1 Hp)|]. intros [] m2 (HKI2 & HT2 & Er2 & k2 & Hp2). split.
      * split; [done|]. split; [by eapply tear_trans|]. eexists k2, _. split; [exact Hp2|]. split; [done|].
        intros i rg Hi. destruct (Hs i rg Hi) as [?|[? Hgo]]; [by left|right]. split; [done|]. intros Hk.
        by eapply tear_gone; [|apply Hgo].
      * intros pl Hin Hz. by eapply tear_gone; [|apply Hg1].
  - intros _ m1 [Ht1 Hg1]. unfold release_kernel_symrg_allocations. pose proof Ht1 as (_ & _ & k & x & Hp & _).
    apply wp_bind. eapply wp_eq; [by eapply get_mm_ok|]. cbv beta iota. apply wp_bind. eapply wp_mono.
    + apply (wp_for_each _ (fun xs m2 => torn m2 /\ tear p m1 m2 /\
          forall i rg, i ∈ xs -> symrgtbl x0 !! Z.to_nat i = Some rg -> kernel_rg rg -> gone m2 rg)
        (fun _ m2 => torn m2 /\ tear p m1 m2 /\
          forall i rg, i ∈ seqZ 0 PAGING_MAX_SYMTBL_SZ -> symrgtbl x0 !! Z.to_nat i = Some rg -> kernel_rg rg -> gone m2 rg)).
      * split; [done|]. split; [apply tear_refl|]. intros i rg []%elem_of_nil.
      * intros xs i ys m2 Hl (Ht2 & HT2 & Hg2). destruct (seqZ_split _ _ _ _ Hl) as [_ Hi].
        destruct (lookup_lt_is_Some_2 (symrgtbl x0) (Z.to_nat i)) as [rg Hrg]; [unfold PAGING_MAX_SYMTBL_SZ in Hi; lia|].
        eapply wp_mono; [by apply (torn_symrg m2 i rg Ht2)|]. intros r m3 (-> & Ht3 & HT3 & Hg3).
        rewrite bool_decide_true by done. split; [done|]. split; [by eapply tear_trans|].
        intros j rg' [Hj| ->%list_elem_of_singleton]%elem_of_app Hrg' Hk.
        -- eapply tear_gone; [exact HT3|]. by eapply (Hg2 j).
        -- assert (rg' = rg) as -> by congruence. by apply Hg3.
      * done.
    + intros _ m2 (Ht2 & HT2 & Hg2). apply wp_ret. split; [done|]. split.
      * intros pl Hin Hz. by eapply tear_gone; [|apply Hg1].
      * intros rg (i & Hi)%list_elem_of_lookup_1 Hk. apply (Hg2 (Z.of_nat i) rg); [|by rewrite Nat2Z.id|done].
        apply elem_of_seqZ. pose proof (lookup_lt_Some _ _ _ Hi). unfold PAGING_MAX_SYMTBL_SZ. lia.
Qed.
End kernel_memory.

(** ** The process removed *)

Definition removed (m : machine) (p r : Z) (fs ss : list Z) (c : Z) : machine :=
  mkMachine (foldl (fun T q => delete q T) (tables m) (subtree (tables m) 4 r)) (next_table m) (delete p (procs m))
    (set_free (ram m) (fs ++ free_fp_list (ram m))) (set_free (swp m) (ss ++ free_fp_list (swp m))) (sch m)
    (delete p (mm_walk m)) (delete p (krnl_walk m)) (oom m) c.

(** The user pages of a process, as a list. *)
Lemma user_entries m p k x :
  vm_shape m -> has_mm m p k x ->
  exists U, NoDup U /\ (forall g, g ∈ U <-> user_page g) /\
    leaves (tables m) 4 (pgd x) = nonzero (pte_at (tables m) (pgd x) <$> U) /\
    Forall (fun v => PAGING64_PAGE_PRESENT v && PAGING64_PAGE_SWAPPED v = false) (leaves (tables m) 4 (pgd x)).
Proof.
  intros HS Hp. assert (Hl := leaves_pages (tables m) (pgd x)
    (fun g Hg => proj1 (vs_user _ HS p k x g Hp (or_intror Hg)) Hg)).
  assert (HU : NoDup (seqZ 0 (2 ^ 44)) /\ forall g, g ∈ seqZ 0 (2 ^ 44) <-> user_page g).
  { split; [apply NoDup_seqZ|]. intros g. rewrite elem_of_seqZ. unfold user_page. lia. }
  revert Hl HU. generalize (seqZ 0 (2 ^ 44)). intros U Hl [HN HU]. exists U. split; [done|]. split; [done|]. split; [done|].
  rewrite Hl. apply Forall_forall. intros v [_ Hv]%list_elem_of_filter.
  apply list_elem_of_fmap in Hv as (g & -> & Hg). apply (vs_user _ HS p k x g Hp). left. by apply HU.
Qed.

Lemma omap_nonzero (f : Z -> Z) (h : Z -> option Z) (l : list Z) : h 0 = None -> omap h (nonzero (f <$> l)) = omap (fun g => h (f g)) l.
Proof.
  intros H0. induction l as [|g l IH]; [done|]. rewrite fmap_cons. destruct (decide (f g = 0)) as [E|E].
  - rewrite filter_cons_False by naive_solver. cbn [omap list_omap]. rewrite IH, E, H0. done.
  - rewrite filter_cons_True by done. cbn [omap list_omap]. by rewrite IH.
Qed.

(** The frames and slots of the tables are those the pages of [p] hold. *)
Lemma given_back m p k x :
  vm_shape m -> has_mm m p k x ->
  exists U, NoDup U /\ (forall g, g ∈ U <-> user_page g) /\
    omap pte_frame (leaves (tables m) 4 (pgd x)) = omap (ram_held m) (pair p <$> U) /\
    omap pte_slot (leaves (tables m) 4 (pgd x)) = omap (swp_held m) (pair p <$> U).
Proof.
  intros HS Hp. destruct (user_entries m p k x HS Hp) as (U & HN & HU & Hl & Hc).
  exists U. split; [done|]. split; [done|]. set (r := pgd x) in *. set (T := tables m) in *.
  assert (Hst : forall g, g ∈ U -> pte_frame (pte_at T r g) = ram_held m (p, g) /\ pte_slot (pte_at T r g) = swp_held m (p, g)).
  { intros g Hg%HU. destruct (vs_user _ HS p k x g Hp (or_introl Hg)) as [_ Hcl].
    unfold ram_held, swp_held, page_state. cbn [fst snd]. rewrite !decide_True, (mm_of_has_mm _ _ _ _ Hp) by done.
    unfold pte_frame, pte_slot, decode_pte. fold T r. by destruct (PAGING64_PAGE_PRESENT _), (PAGING64_PAGE_SWAPPED _). }
  rewrite Hl, !omap_nonzero by done. clear Hl Hc HN HU.
  induction U as [|g U IH]; [done|]. rewrite fmap_cons. cbn [omap list_omap].
  destruct (Hst g ltac:(by left)) as [-> ->]. destruct IH as [-> ->]; [intros; apply Hst; by right|done].
Qed.

Section removed.
Context (m : machine) (p o : Z) (k : krnl_t) (x : mm_struct) (c : Z).
Context (HKI : kinv [] [] m) (HO : os_root m o) (Hp : has_mm m p k x) (Hrun : p ∉ running m).
Notation r := (pgd x).
Notation T := (tables m).
Context (fs ss : list Z).
Notation m' := (removed m p r fs ss c).

Lemma removed_mm q kq xq : has_mm m' q kq xq <-> q <> p /\ has_mm m q kq xq.
Proof using Type.
  rewrite !has_mm_procs. unfold removed. cbn [procs]. destruct (decide (q = p)) as [->|Hq].
  - rewrite lookup_delete_eq. naive_solver.
  - rewrite lookup_delete_ne by done. naive_solver.
Qed.

Lemma removed_forest : forest (fun r' => (roots m r' \/ r' = o) /\ r' <> r) (tables m') (next_table m').
Proof using HO Hp. apply (forest_cut (fun r' => roots m r' \/ r' = o)); [apply HO|left; by exists p, k, x; auto]. Qed.

Lemma removed_pte r' g : roots m r' \/ r' = o -> r' <> r -> pte_at (tables m') r' g = pte_at T r' g.
Proof using HO Hp.
  intros Hr Hne. apply (pte_cut (fun r' => roots m r' \/ r' = o) T (next_table m) r); [apply HO|left; by exists p, k, x; auto|done|done].
Qed.

Lemma other_root q kq xq : has_mm m q kq xq -> q <> p -> pgd xq <> r /\ krnl_pgd kq <> r.
Proof using HKI Hp.
  intros Hq Hne. pose proof (vi_shape _ _ _ (proj1 HKI)) as HS. split.
  - intros He. apply Hne. by apply (vs_pgd _ HS q kq xq p k x).
  - destruct (vs_kpgd _ HS p k x q kq xq Hp Hq) as [_ ?]. done.
Qed.

Lemma removed_page q g : page_state m' q g = if decide (q = p) then Unmapped else page_state m q g.
Proof using HKI HO Hp.
  unfold page_state, mm_of. cbn [removed procs]. case_decide as Hq; [subst; by rewrite lookup_delete_eq|].
  rewrite lookup_delete_ne by done. fold (mm_of m q). destruct (mm_of m q) as [xq|] eqn:Hx; [|done].
  destruct (mm_of_inv m q xq (vi_shape _ _ _ (proj1 HKI)) Hx) as [kq Hqm].
  destruct (other_root q kq xq Hqm Hq). rewrite removed_pte; [done|left; by exists q, kq, xq; auto|done].
Qed.

Lemma removed_byte q a : q <> p -> vbyte m' q a = vbyte m q a.
Proof using HKI HO Hp. intros Hq. unfold vbyte. rewrite removed_page, decide_False by done. done. Qed.

Context (U : list Z) (HN : NoDup U) (HU : forall g, g ∈ U <-> user_page g).
Context (Hfs : fs ≡ₚ omap (ram_held m) (pair p <$> U)) (Hss : ss ≡ₚ omap (swp_held m) (pair p <$> U)).

Lemma removed_kinv : kinv [] [] m' /\ os_root m' o.
Proof using HKI HO Hp Hrun HN HU Hfs Hss.
  pose proof HKI as [HI HD]. pose proof (vi_shape _ _ _ HI) as HS.
  assert (Hroots : forall r', roots m' r' -> roots m r' /\ r' <> r).
  { intros r' (q & kq & xq & [Hne Hq]%removed_mm & Hr'). destruct (other_root q kq xq Hq Hne).
    split; [by exists q, kq, xq|]. destruct Hr' as [-> | ->]; done. }
  assert (Ho : o <> r /\ o = krnl_pgd k) by (destruct (or_procs _ _ HO p k x Hp); done).
  assert (Hkp : forall q kq xq g, has_mm m' q kq xq -> pte_at (tables m') (krnl_pgd kq) g = pte_at T (krnl_pgd kq) g).
  { intros q kq xq g [Hne Hq]%removed_mm. destruct (other_root q kq xq Hq Hne).
    apply removed_pte; [left; by exists q, kq, xq; auto|done]. }
  assert (Hnd : NoDup (pair p <$> U)) by (apply (NoDup_fmap_2 (pair p)); done).
  assert (Hheld : forall o', ram_held m' o' = (if decide (o' ∈ pair p <$> U) then None else ram_held m o') /\
                             swp_held m' o' = (if decide (o' ∈ pair p <$> U) then None else swp_held m o')).
  { intros [q g]. unfold ram_held, swp_held. cbn [fst snd]. rewrite removed_page.
    assert (Hin : (q, g) ∈ pair p <$> U <-> q = p /\ user_page g).
    { rewrite list_elem_of_fmap, <- HU. split; [intros (g0 & [= -> ->] & Hg); done|intros [-> Hg]; by exists g]. }
    destruct (decide (user_page g)), (decide (q = p)), (decide ((q, g) ∈ pair p <$> U)); try done; tauto. }
  split; [split; [split|]|].
  - split.
    + apply HS.
    + apply HS.
    + intros q z Hz. assert (Hq : q <> p) by (intros ->; cbn [removed procs] in Hz; by rewrite lookup_delete_eq in Hz).
      cbn [removed procs] in Hz. rewrite lookup_delete_ne in Hz by done.
      destruct (vs_procs _ HS q z Hz) as (kq & xq & Hqm & Hok). exists kq, xq. split; [by apply removed_mm|done].
    + eapply forest_mono; [|exact removed_forest]. intros r' [? ?]%Hroots. auto.
    + intros q kq xq q' k' x' [_ H1]%removed_mm [_ H2]%removed_mm. by apply (vs_pgd _ HS q kq xq q' k' x').
    + intros q kq xq q' k' x' [_ H1]%removed_mm [_ H2]%removed_mm. by apply (vs_kpgd _ HS q kq xq q' k' x').
    + intros q Hq. change (running m') with (running m) in Hq. destruct (vs_run _ HS q Hq) as [?|?]; [by left|right].
      cbn [removed procs]. rewrite lookup_delete_ne; [done|]. intros <-. done.
    + intros q kq xq g f Hq Hg. rewrite (Hkp q kq xq g Hq). apply removed_mm in Hq as [_ Hq]. by apply (vs_kern _ HS q kq xq).
    + intros q kq xq g [Hne Hq]%removed_mm Hg. destruct (other_root q kq xq Hq Hne).
      rewrite removed_pte; [by apply (vs_user _ HS q kq xq)|left; by exists q, kq, xq; auto|done].
  - eapply exclusive_perm; [eapply exclusive_ext; [apply (exclusive_drop _ _ _ (pair p <$> U) Hnd (vi_ram _ _ _ HI))|]|].
    + intros o'. apply Hheld.
    + rewrite <- Hfs. unfold ram_lists. cbn [removed ram set_free free_fp_list used_fp_list]. by rewrite <- !app_assoc.
  - eapply exclusive_perm; [eapply exclusive_ext; [apply (exclusive_drop _ _ _ (pair p <$> U) Hnd (vi_swp _ _ _ HI))|]|].
    + intros o'. apply Hheld.
    + rewrite <- Hss. unfold swp_lists. cbn [removed swp set_free free_fp_list used_fp_list]. by rewrite <- !app_assoc.
  - intros q g f (kq & xq & Hq) Hg Hf. rewrite (kpage_mm m' q kq xq), (Hkp q kq xq g Hq) in Hf by done.
    apply removed_mm in Hq as [_ Hq]. apply (HD q g f); [by exists kq, xq|done|]. by rewrite (kpage_mm m q kq xq).
  - split.
    + eapply forest_mono; [|exact removed_forest]. intros r' [[? ?]%Hroots| ->]; [auto|]. split; [by right|apply Ho].
    + intros q kq xq [_ Hq]%removed_mm. by apply (or_procs _ _ HO q kq xq).
    + intros g f Hg. rewrite removed_pte; [|by right|apply Ho]. by apply (or_kern _ _ HO).
Qed.
End removed.

(** ** The whole of it *)

Lemma wp_bind_inv {S A B} (c : M S A) (k : A -> M S B) Q s :
  wp (bind c k) Q s -> wp c (fun a => wp (k a) Q) s.
Proof. unfold wp, bind. by destruct (c s). Qed.

(** After the kernel memory: frames, tables and record in one go. *)
Lemma free_rest_eq m p o k x :
  kinv [] [] m -> os_root m o -> has_mm m p k x -> ~ may_oom m ->
  exists c,
    (let* x := the_mm p in
     pcb_memph_collect_recursive p 4 (pgd x) ;;
     upd_mm p (fun x => set_fifo_pgn x []) ;;
     let* y := get_pcb p in
     match krnl y ≫= mm with None => ret tt | Some x => free_mm x ;; ret tt end ;;
     free_pcb p) m =
    Ret tt (removed m p (pgd x) (reverse (omap pte_frame (leaves (tables m) 4 (pgd x))))
              (reverse (omap pte_slot (leaves (tables m) 4 (pgd x)))) c).
Proof.
  intros HKI HO Hp Hoom. pose proof (vi_shape _ _ _ (proj1 HKI)) as HS.
  destruct (has_mm_flags _ _ _ _ HS Hp) as [Hram Hswp]. destruct (user_entries m p k x HS Hp) as (_ & _ & _ & _ & Hc).
  set (R := fun r' => roots m r' \/ r' = o) in *.
  assert (HR : R (pgd x)) by (left; by exists p, k, x; auto).
  assert (HA : allocated (tables m) 4 (pgd x))
    by (apply (forest_allocated R _ _ _ (or_forest _ _ HO) HR 4 []); [simpl; lia|done]).
  assert (HN : NoDup (subtree (tables m) 4 (pgd x)))
    by (apply (subtree_nodup R _ _ _ (or_forest _ _ HO) HR 4 []); [simpl; lia|done]).
  unfold the_mm, bind at 1 2. rewrite (get_mm_ok m p k x Hp). unfold ret at 1.
  pose proof (collect_ok m p k x Hp Hram Hswp Hoom 4 (pgd x) [] [] (mallocs m) HA Hc) as Hcol.
  rewrite <- given_nil in Hcol. unfold bind at 1. rewrite Hcol. clear Hcol.
  set (fs := reverse (omap pte_frame (leaves _ _ _))) in *. set (ss := reverse (omap pte_slot (leaves _ _ _))) in *.
  unfold given_of. fold fs ss. rewrite !app_nil_r.
  match goal with |- context [given m fs ss ?c] => exists c; set (m2 := given m fs ss c) end.
  pose proof Hp as (Hp0 & y & Hy & Hk & Hx)%has_mm_procs.
  unfold bind at 1. rewrite (upd_mm_eq m2 p k x y) by done.
  set (m3 := set_procs m2 _). unfold bind at 1, get_pcb. unfold m3 at 1. cbn [procs set_procs]. rewrite lookup_insert_eq.
  cbn [krnl set_krnl mbind option_bind mm set_k_mm]. unfold bind at 1 2, free_mm. cbn [pgd set_fifo_pgn].
  rewrite (free_tables_ok (tables m) 4 (pgd x) m3 HA HN) by done. unfold ret, free_pcb, removed, cut, m3, m2.
  cbn [tables next_table procs ram swp sch mm_walk krnl_walk oom mallocs set_procs set_tables given].
  by rewrite delete_insert_eq.
Qed.

(** The symbols of a well-formed process. *)
Lemma wf_sym_tear m p x v : mm_wf m p x v -> Forall sym_tear (symrgtbl x).
Proof.
  intros [HA HS _]. eapply Forall_impl; [exact HS|]. intros rg Hrg. unfold sym_tear, is_kernel_vaddr_range.
  intros [H1%bool_decide_eq_true H2%bool_decide_eq_true]%andb_true_iff.
  destruct Hrg as [[Hz _]|[[_ Hs]|?]]; [unfold KMEM_VADDR_BASE in H1; lia| |done].
  pose proof (ao_brk _ _ _ _ HA). unfold KMEM_VADDR_BASE in H1. lia.
Qed.

Section free_all.
Context (m : machine) (p o : Z) (k : krnl_t) (x : mm_struct).
Context (HW : sys_wf [] [] m) (Hp : has_mm m p k x) (HO : os_root m o).
Context (Hrun : p ∉ running m) (Hoom : ~ may_oom m).

(** What is left after [p]. *)
Record reclaimed (m' : machine) : Prop := mkReclaimed {
  rc_procs : procs m' = delete p (procs m);
  rc_sch : sch m' = sch m /\ oom m' = oom m;
  rc_bytes : forall q a, q <> p -> user_addr a -> vbyte m' q a = vbyte m q a;
  rc_frames : forall g f, user_page g -> page_state m p g = Resident f -> f ∈ free_fp_list (ram m');
  rc_slots : forall g s, user_page g -> page_state m p g = Swapped s -> s ∈ free_fp_list (swp m');
  rc_pools : forall pl, pl ∈ default [] (kcpooltbl x) -> pool_size pl <> 0 -> gone m' (pool_rg pl);
  rc_syms : forall rg, rg ∈ symrgtbl x -> kernel_rg rg -> gone m' rg;
}.

(** From the machine without the kernel memory to the machine without [p]. *)
Lemma removed_reclaims m1 x1 fs ss c U :
  tear p m m1 -> pgd x1 = pgd x ->
  kinv [] [] (removed m1 p (pgd x1) fs ss c) -> (forall g, g ∈ U <-> user_page g) ->
  fs ≡ₚ omap (ram_held m1) (pair p <$> U) -> ss ≡ₚ omap (swp_held m1) (pair p <$> U) ->
  (forall q a, q <> p -> vbyte (removed m1 p (pgd x1) fs ss c) q a = vbyte m1 q a) ->
  (forall pl, pl ∈ default [] (kcpooltbl x) -> pool_size pl <> 0 -> gone m1 (pool_rg pl)) ->
  (forall rg, rg ∈ symrgtbl x -> kernel_rg rg -> gone m1 rg) ->
  sys_wf [] [] (removed m1 p (pgd x1) fs ss c) /\ reclaimed (removed m1 p (pgd x1) fs ss c).
Proof using HW.
  intros [(Es & Eo & Ew) Eq (free & used & Er) Eg _ _] Ex HK HU Hfs Hss HB HPl HSy. set (m2 := removed _ _ _ _ _ _) in *.
  assert (Hprocs : procs m2 = delete p (procs m)).
  { apply map_eq. intros q. unfold m2. cbn [procs removed]. destruct (decide (q = p)) as [->|Hq].
    - by rewrite !lookup_delete_eq.
    - rewrite !lookup_delete_ne by done. by apply Eq. }
  assert (Hbytes : forall q a, q <> p -> user_addr a -> vbyte m2 q a = vbyte m q a).
  { intros q a Hq Ha. rewrite HB by done. unfold vbyte. destruct (user_addr_split a Ha) as (Hg & _).
    rewrite Eg by done. unfold page_byte, cell. rewrite Ew, Er. done. }
  split.
  - split; [done|]. intros q [z Hz]. rewrite Hprocs in Hz.
    assert (Hq : q <> p) by (intros ->; by rewrite lookup_delete_eq in Hz). rewrite lookup_delete_ne in Hz by done.
    destruct (proj2 HW q ltac:(by exists z)) as (z' & kq & xq & v & Hz' & Hl & Hqm & Hwf).
    exists z', kq, xq, v. rewrite Hprocs, lookup_delete_ne by done. split; [done|]. split; [done|]. split.
    + apply has_mm_procs. apply has_mm_procs in Hqm. by rewrite Hprocs, lookup_delete_ne by done.
    + eapply mm_wf_mapped; try done. intros a Ha. by rewrite Hbytes.
  - assert (Hheld : forall g, user_page g -> (p, g) ∈ pair p <$> U) by (intros g Hg; apply list_elem_of_fmap; exists g; by rewrite HU).
    split; try done.
    + intros g f Hg Hf. unfold m2. cbn [ram removed set_free free_fp_list]. apply elem_of_app. left. rewrite Hfs.
      apply list_elem_of_omap. exists (p, g). split; [by apply Hheld|]. unfold ram_held. cbn [fst snd].
      by rewrite decide_True, Eg, Hf by done.
    + intros g f Hg Hf. unfold m2. cbn [swp removed set_free free_fp_list]. apply elem_of_app. left. rewrite Hss.
      apply list_elem_of_omap. exists (p, g). split; [by apply Hheld|]. unfold swp_held. cbn [fst snd].
      by rewrite decide_True, Eg, Hf by done.
Qed.

Lemma free_pcb_all_eq y :
  p <> 0 -> procs m !! p = Some y -> krnl y = Some k ->
  free_pcb_all p m =
  ((release_kernel_cache_pools p ;; release_kernel_symrg_allocations p) ;;
   let* x := the_mm p in
   pcb_memph_collect_recursive p 4 (pgd x) ;;
   upd_mm p (fun x => set_fifo_pgn x []) ;;
   let* y := get_pcb p in
   match krnl y ≫= mm with None => ret tt | Some x => free_mm x ;; ret tt end ;;
   free_pcb p) m.
Proof using Type.
  intros Hp0 Hy Hk. unfold free_pcb_all. rewrite bool_decide_false by done. unfold bind at 1, get_pcb at 1.
  rewrite Hy, Hk. unfold free_pcb_memph, bind.
  destruct (release_kernel_cache_pools p m) as [[] m1| |]; try done.
  destruct (release_kernel_symrg_allocations p m1) as [[] m2| |]; try done.
  destruct (the_mm p m2) as [x2 m3| |]; try done.
  destruct (pcb_memph_collect_recursive p 4 (pgd x2) m3) as [r m4| |]; try done.
  destruct (upd_mm p _ m4) as [[] m5| |]; try done. unfold ret at 1. by destruct (get_pcb p m5).
Qed.

Lemma free_pcb_all_spec :
  wp (free_pcb_all p) (fun _ m' => sys_wf [] [] m' /\ os_root m' o /\ reclaimed m') m.
Proof using All.
  destruct (or_procs _ _ HO p k x Hp) as [Hko _].
  pose proof Hp as (Hp0 & y & Hy & Hk & Hx)%has_mm_procs.
  destruct (proj2 HW p ltac:(by exists y)) as (y' & k' & x' & v & _ & _ & Hp' & Hwf).
  destruct (has_mm_det _ _ _ _ _ _ Hp' Hp) as [E1 E2]. subst k' x'.
  unfold wp. rewrite (free_pcb_all_eq y) by done. apply wp_bind. eapply wp_mono.
  { apply (torn_kernel m p k x Hp); [apply Hwf|by eapply wf_sym_tear|apply Hwf|apply HW]. }
  intros [] m1 ((HKI & HT & _) & HPl & HSy). destruct (te_mm _ _ _ HT k x Hp) as (k1 & x1 & Hp1 & Ex & Ek).
  assert (HO1 : os_root m1 o) by (rewrite <- Hko, <- Ek; by eapply os_root_running).
  assert (Hoom1 : ~ may_oom m1) by (unfold may_oom; destruct (te_sch _ _ _ HT) as (_ & -> & _); done).
  assert (Hrun1 : p ∉ running m1) by (unfold running; destruct (te_sch _ _ _ HT) as (-> & _); done).
  destruct (free_rest_eq m1 p o k1 x1 HKI HO1 Hp1 Hoom1) as [c Hrest].
  destruct (given_back m1 p k1 x1 (vi_shape _ _ _ (proj1 HKI)) Hp1) as (U & HN & HU & Hfs & Hss).
  apply (f_equal (@reverse Z)) in Hfs as Hfs', Hss as Hss'. rewrite Hfs', Hss' in Hrest. clear Hfs Hss Hfs' Hss'.
  eapply wp_eq; [exact Hrest|]. set (fs := reverse _). set (ss := reverse _).
  assert (Pf : fs ≡ₚ omap (ram_held m1) (pair p <$> U)) by apply reverse_Permutation.
  assert (Ps : ss ≡ₚ omap (swp_held m1) (pair p <$> U)) by apply reverse_Permutation.
  destruct (removed_kinv m1 p o k1 x1 c HKI HO1 Hp1 Hrun1 fs ss U HN HU Pf Ps) as [HK2 HO2].
  destruct (removed_reclaims m1 x1 fs ss c U HT Ex HK2 HU Pf Ps) as [HW2 HR2]; try done.
  intros q a Hq. by apply (removed_byte m1 p o k1 x1 c).
Qed.
End free_all.

(** Every table below [t] is in its subtree. *)
Lemma subtree_complete T n : forall t path q,
  Forall (fun i => 0 <= i < PAGING64_LEVEL_ENTRIES) path -> (length path <= n)%nat -> reach T t path = Some q -> q ∈ subtree T n t.
Proof.
  induction n as [|n IH]; intros t [|i path] q Hr Hl Hq; simpl in Hl; try lia.
  - injection Hq as <-. by left.
  - injection Hq as <-. unfold subtree. fold subtree. apply elem_of_app. right. by left.
  - apply Forall_cons in Hr as [Hi Hr]. destruct (decide (entry T t i = 0)) as [He|He].
    { exfalso. change (i :: path) with ([i] ++ path) in Hq. rewrite reach_none_app in Hq; [done|].
      unfold reach, child. cbn [foldl mbind option_bind]. by rewrite bool_decide_true. }
    rewrite reach_cons in Hq by done. unfold subtree. fold subtree. apply elem_of_app. left.
    apply list_elem_of_In, in_concat. exists (subtree T n (entry T t i)). split; apply list_elem_of_In.
    + apply list_elem_of_fmap. exists i. split; [by rewrite bool_decide_false|]. apply elem_of_seqZ. lia.
    + apply (IH _ path); [done|lia|done].
Qed.

(** ** Properties *)

(** C21. The recursive scan of the page tables is a scan of the flat address
    space: giving back the pages of a process visits every non-empty entry of
    its user pages, in the order of the page numbers, each exactly once, and
    nothing else. *)
Theorem collect_is_flat_scan E F m p k x :
  vm_inv E F m -> has_mm m p k x -> ~ may_oom m ->
  pcb_memph_collect_recursive p 4 (pgd x) m =
  for_each (release_pte p) (filter (fun pte => pte <> 0) (pte_at (tables m) (pgd x) <$> seqZ 0 (2 ^ 44))) m.
Proof.
  intros HI Hp Hoom. pose proof (vi_shape _ _ _ HI) as HS. destruct (has_mm_flags _ _ _ _ HS Hp) as [Hram Hswp].
  rewrite <- leaves_pages by (intros g Hg; exact (proj1 (vs_user _ HS p k x g Hp (or_intror Hg)) Hg)).
  destruct (user_entries m p k x HS Hp) as (_ & _ & _ & _ & Hc).
  pose proof (collect_ok m p k x Hp Hram Hswp Hoom 4 (pgd x) [] [] (mallocs m)) as H1.
  pose proof (release_all m p k x Hp Hram Hswp Hoom (leaves (tables m) 4 (pgd x)) [] [] (mallocs m) Hc) as H2.
  rewrite <- given_nil in H1, H2. rewrite H1, H2; try done.
  apply (forest_allocated (roots m) _ _ (pgd x) (vs_forest _ HS) ltac:(eauto with ossim) 4 []); [simpl; lia|done].
Qed.

Lemma collect_is_flat_scan_witness :
  pcb_memph_collect_recursive 100 4 (pgd demo_mm) demo =
  for_each (release_pte 100) (filter (fun pte => pte <> 0) (pte_at (tables demo) (pgd demo_mm) <$> seqZ 0 (2 ^ 44))) demo.
Proof. apply (collect_is_flat_scan [] [] demo 100 demo_krnl demo_mm demo_inv demo_has_mm). by intros []. Defined.

(** Freeing the page tables of a process is exact: no table is freed twice
    or read after it was freed, every table below the root of the process is
    gone, and the page tables of every other root are what they were. *)
Theorem free_mm_exact R m x :
  forest R (tables m) (next_table m) -> R (pgd x) ->
  wp (free_mm x) (fun _ m' =>
    (forall path t, Forall (fun i => 0 <= i < PAGING64_LEVEL_ENTRIES) path -> (length path <= 4)%nat ->
       reach (tables m) (pgd x) path = Some t -> tables m' !! t = None) /\
    (forall r g, R r -> r <> pgd x -> pte_at (tables m') r g = pte_at (tables m) r g) /\
    forest (fun r => R r /\ r <> pgd x) (tables m') (next_table m')) m.
Proof.
  intros HF HR. eapply wp_eq.
  { apply (free_tables_ok (tables m) 4 (pgd x) m); [|apply (subtree_nodup R _ _ _ HF HR 4 []); [simpl; lia|done]|done].
    apply (forest_allocated R _ _ _ HF HR 4 []); [simpl; lia|done]. }
  split; [|split].
  - intros path t Hr Hl Ht. rewrite cut_lookup, bool_decide_true; [done|]. by eapply subtree_complete.
  - intros r g Hr Hne. by apply (pte_cut R _ (next_table m)).
  - by apply forest_cut.
Qed.

Lemma free_mm_exact_witness : wp (free_mm demo_mm) (fun _ m' => tables m' !! 2 = None) demo.
Proof.
  eapply wp_mono; [apply (free_mm_exact (roots demo) demo demo_mm (vs_forest _ demo_shape)); eauto with ossim|].
  - eapply roots_user. apply demo_has_mm.
  - intros r m' (H & _). apply (H [] 2); [constructor|simpl; lia|reflexivity].
Defined.


(** The small machine after its process has finished. *)
Lemma demo_finished :
  let m := set_sch demo (finish_proc (sch demo) 100) in
  sys_wf [] [] m /\ os_root m 1 /\ has_mm m 100 demo_krnl demo_mm /\ 100 ∉ running m.
Proof.
  intros m. assert (Hr : running m = []) by (vm_compute; reflexivity).
  destruct (sch_step [] [] demo 1 (finish_proc (sch demo) 100) demo_sys_wf) as [HW HO].
  - exact (os_root_running [] [] demo 100 demo_krnl demo_mm demo_kinv demo_has_mm).
  - intros q Hq. fold m in Hq. rewrite Hr in Hq. by apply elem_of_nil in Hq.
  - split; [exact HW|]. split; [exact HO|]. split; [exact demo_has_mm|]. rewrite Hr. apply not_elem_of_nil.
Qed.


(** Process 100 has a cache of two objects of one page, and both objects;
    process 200 has one page of kernel memory behind it. *)
Definition pair_kernel : machine :=
  after (libkmem_cache_pool_create 100 8192 4096 0 ;; libkmem_malloc 200 4096 1 ;;
         libkmem_cache_alloc 100 1 0 ;; libkmem_cache_alloc 100 2 0) pair_demo.

