(* ===== verification/Os.v ===== *)
(** * The simulator ([src/os.c])

    The CPU threads and the loader thread.  A CPU is a state machine whose
    states are the points of [cpu_routine] between two calls that touch shared
    state ([get_proc], [put_proc], [finish_proc], [free_pcb_all], [run],
    [next_slot]); each call is one step.  The locks of the scheduler and, for
    READ, WRITE and FREE, of the memory library make them so ([Locks] has the
    calls of the library cut into their steps); ALLOC releases the lock on the
    way, and is one step by assumption.  The loader's steps are the
    rounds of [ld_routine]; it may take one at any time, which includes the
    times its wait for the start time of a process allows.  [sim_step]
    interleaves the threads in any order.

    The invariant of the interleaved system is proved by induction on its
    steps: every live process is in exactly one place, a ready queue or one
    CPU, so no process runs on two CPUs and none is used after it was freed. *)

From S2P Require Import Prelude.
From S2P Require Import Word.
From S2P Require Import Exclusive.
From S2P Require Import Paging.
From S2P Require Import Queue.
From S2P Require Import Sched.
From S2P Require Import MemPhy.
From S2P Require Import Region.
From S2P Require Import Machine.
From S2P Require Import PageTable.
From S2P Require Import Vm.
From S2P Require Import Heap.
From S2P Require Import Kernel.
From S2P Require Import Frame.
From S2P Require Import Cpu.
From S2P Require Import Isolation.
From S2P Require Import Create.
From S2P Require Import Teardown.

(** ** The CPU thread *)

Definition get_next : M machine Z := fun m =>
  let '(p, s) := get_proc (sch m) in Ret p (set_sch m s).
Definition put_back (p : Z) : M machine unit := on_sch (fun m => put_proc (prio_at m) p).
Definition finish (p : Z) : M machine unit := modify (fun m => set_sch m (finish_proc (sch m) p)).

(** Where a CPU is: at the head of its loop, between [finish_proc] and
    [free_pcb_all], before the second [get_proc], before the second check of
    the process, in [next_slot], or out of the loop. *)
Inductive cpu :=
| CpuTop (proc time_left : Z)
| CpuFree (proc : Z)
| CpuGet (time_left : Z)
| CpuCheck (proc time_left : Z)
| CpuWait (proc time_left : Z)
| CpuStopped.

Definition cpu_routine (time_slot : Z) (is_done : bool) (c : cpu) : M machine cpu :=
  match c with
  | CpuTop proc time_left =>
    if bool_decide (proc = 0) then
      let* proc := get_next in
      ret (if bool_decide (proc = 0) then CpuWait 0 time_left else CpuCheck proc time_left)
    else
      let* y := get_pcb proc in
      if bool_decide (pc y = Z.of_nat (length (code y))) then finish proc ;; ret (CpuFree proc)
      else if bool_decide (time_left = 0) then put_back proc ;; ret (CpuGet time_left)
      else ret (CpuCheck proc time_left)
  | CpuFree proc => free_pcb_all proc ;; ret (CpuGet 0)
  | CpuGet time_left => let* proc := get_next in ret (CpuCheck proc time_left)
  | CpuCheck proc time_left =>
    if bool_decide (proc = 0) && is_done then ret CpuStopped
    else if bool_decide (proc = 0) then ret (CpuWait 0 time_left)
    else
      let time_left := if bool_decide (time_left = 0) then time_slot else time_left in
      run proc ;; ret (CpuWait proc (time_left - 1))
  | CpuWait proc time_left => ret (CpuTop proc time_left)
  | CpuStopped => ret CpuStopped
  end.

(** ** The system *)

(** A process to load: the addresses and contents the allocator and the program
    file provide, and its priority. *)
Record job := mkJob { j_addr : Z; j_pcb : pcb_t; j_prio : Z; j_mm : mm_struct }.

Record sim := mkSim {
  mach : machine; done_flag : bool; cpus : list cpu; jobs : list job; os : krnl_t }.

(** The allocator returns a block that is not in use. *)
Definition job_ok (m : machine) (j : job) : Prop :=
  j_addr j <> 0 /\ procs m !! j_addr j = None /\ length (regs (j_pcb j)) = 10%nat /\ 0 <= j_prio j /\
  pc (j_pcb j) = 0.

(** The next instruction has operands of the kinds it expects, or there is
    none. *)
Definition may_run (m : machine) (p : Z) : Prop :=
  can_run m p \/ exists y, procs m !! p = Some y /\ Z.of_nat (length (code y)) <= pc y.
Definition ready_to_step (m : machine) (c : cpu) : Prop :=
  match c with CpuCheck p _ => p <> 0 -> may_run m p | _ => True end.

(** The process a CPU works on, and the one it is about to free. *)
Definition active (c : cpu) : list Z :=
  match c with
  | CpuTop p _ | CpuCheck p _ | CpuWait p _ => if bool_decide (p = 0) then [] else [p]
  | _ => []
  end.
Definition dying (c : cpu) : list Z := match c with CpuFree p => [p] | _ => [] end.
Definition held (c : cpu) : list Z := active c ++ dying c.

(** The process a CPU runs or frees in its next step. *)
Definition subject (c : cpu) : list Z :=
  match c with CpuFree p => [p] | CpuCheck p _ => if bool_decide (p = 0) then [] else [p] | _ => [] end.

Lemma subject_held c q : q ∉ held c -> q ∉ subject c.
Proof. destruct c; unfold held; cbn [active dying subject]; rewrite ?app_nil_r; try done; by intros _ ?%elem_of_nil. Qed.

(** A step of the system, by a CPU or by the loader. *)
Inductive sim_step (time_slot : Z) : option cpu -> sim -> sim -> Prop :=
| step_cpu m d l1 c l2 js k c' m' :
    ready_to_step m c -> cpu_routine time_slot d c m = Ret c' m' ->
    sim_step time_slot (Some c) (mkSim m d (l1 ++ c :: l2) js k) (mkSim m' d (l1 ++ c' :: l2) js k)
| step_load m d cs j js k m' :
    job_ok m j -> load_process k (j_addr j) (j_pcb j) (j_prio j) (j_mm j) m = Ret tt m' ->
    sim_step time_slot None (mkSim m d cs (j :: js) k) (mkSim m' d cs js k)
| step_done m d cs k :
    sim_step time_slot None (mkSim m d cs [] k) (mkSim m true cs [] k).

Definition any_step (time_slot : Z) (s s' : sim) : Prop := exists l, sim_step time_slot l s s'.

(** The processes a step is about, and the steps that a process has no part in. *)
Definition touched (l : option cpu) : list Z := match l with Some c => held c | None => [] end.
Definition other_step (time_slot q : Z) (s s' : sim) : Prop :=
  exists l, sim_step time_slot l s s' /\ q ∉ touched l.

(** ** The invariant *)

Record sim_inv (o : Z) (m : machine) (cs : list cpu) : Prop := mkSimInv {
  si_wf : os_wf o m;
  si_oom : ~ may_oom m;
  si_prio : forall p y, procs m !! p = Some y -> 0 <= prio y < Z.of_nat MAX_PRIO;
  si_once : NoDup (ready (sch m) ++ concat (held <$> cs));
  si_live : forall p, is_Some (procs m !! p) <-> p ∈ ready (sch m) ++ concat (held <$> cs);
  si_run : running m ≡ₚ ready (sch m) ++ concat (active <$> cs);
}.

(** The instructions a process has left, and whether it executes one when it
    runs. *)
Definition remaining (m : machine) (p : Z) : Z :=
  match procs m !! p with Some y => Z.of_nat (length (code y)) - pc y | None => 0 end.
Definition executes (m : machine) (p : Z) : Z := if bool_decide (0 < remaining m p) then 1 else 0.

(** ** One CPU in the list *)

Lemma concat_mid {A} (f : A -> list Z) l1 c l2 :
  concat (f <$> l1 ++ c :: l2) ≡ₚ f c ++ concat (f <$> l1 ++ l2).
Proof.
  rewrite !fmap_app, fmap_cons, !concat_app. cbn [concat]. rewrite !app_assoc. apply Permutation_app_tail, Permutation_app_comm.
Qed.

(** The invariant with one CPU singled out; [rest] and [rest'] are what the
    others hold and what they work on. *)
Lemma sim_inv_mid o m l1 c l2 :
  sim_inv o m (l1 ++ c :: l2) <->
  os_wf o m /\ ~ may_oom m /\ (forall p y, procs m !! p = Some y -> 0 <= prio y < Z.of_nat MAX_PRIO) /\
  NoDup (ready (sch m) ++ held c ++ concat (held <$> l1 ++ l2)) /\
  (forall p, is_Some (procs m !! p) <-> p ∈ ready (sch m) ++ held c ++ concat (held <$> l1 ++ l2)) /\
  running m ≡ₚ ready (sch m) ++ active c ++ concat (active <$> l1 ++ l2).
Proof.
  pose proof (concat_mid held l1 c l2) as E1. pose proof (concat_mid active l1 c l2) as E2. split.
  - intros [H1 H2 H3 H4 H5 H6]. split_and!; try done.
    + by rewrite <- E1.
    + intros p. by rewrite H5, E1.
    + by rewrite H6, E2.
  - intros (H1 & H2 & H3 & H4 & H5 & H6). split; try done.
    + by rewrite E1.
    + intros p. by rewrite H5, E1.
    + by rewrite H6, E2.
Qed.

(** ** The steps of a CPU *)

(** What another process keeps. *)
Definition undisturbed (q : Z) (m m' : machine) : Prop :=
  skel <$> procs m' !! q = skel <$> procs m !! q /\ forall a, user_addr a -> vbyte m' q a = vbyte m q a.

Lemma undisturbed_refl q m : undisturbed q m m.
Proof. done. Qed.
Lemma undisturbed_trans q m1 m2 m3 : undisturbed q m1 m2 -> undisturbed q m2 m3 -> undisturbed q m1 m3.
Proof. intros [S1 B1] [S2 B2]. split; [by rewrite S2|]. intros a Ha. by rewrite B2, B1. Qed.
#[export] Hint Resolve undisturbed_refl : ossim.

(** The process behind a pointer that may be NULL. *)
Definition own (p : Z) : list Z := if bool_decide (p = 0) then [] else [p].

Lemma own_some p : p <> 0 -> own p = [p].
Proof. intros Hp. unfold own. by rewrite bool_decide_false. Qed.

Section steps.
Context (o : Z) (H A : list Z) (HAH : forall p, p ∈ A -> p ∈ H).

(** The invariant for a CPU that holds [h] and works on [a]. *)
Definition inv_at (h a : list Z) (m : machine) : Prop :=
  os_wf o m /\ ~ may_oom m /\ (forall p y, procs m !! p = Some y -> 0 <= prio y < Z.of_nat MAX_PRIO) /\
  NoDup (ready (sch m) ++ h ++ H) /\
  (forall p, is_Some (procs m !! p) <-> p ∈ ready (sch m) ++ h ++ H) /\
  running m ≡ₚ ready (sch m) ++ a ++ A.

(** A scheduler operation that moves processes between the queues and the CPU. *)
Lemma inv_sched h a h' a' m s :
  inv_at h a m -> rep_ok s ->
  ready s ++ h' ≡ₚ ready (sch m) ++ h -> abs (running_list s) ≡ₚ ready s ++ a' ++ A ->
  (forall q, q ∈ abs (running_list s) -> q ∈ running m) -> inv_at h' a' (set_sch m s).
Proof using Type.
  intros ((HW & HO & Hs) & Hoom & Hpr & Hnd & Hlive & _) Hs' Hperm Hrun Hsub.
  destruct (sch_step [] [] m o s HW HO) as [HW' HO'].
  { intros q Hq. apply (vs_run _ (vi_shape _ _ _ (proj1 (proj1 HW)))). by apply Hsub. }
  split; [by split|]. split; [done|]. split; [done|]. cbn [sch set_sch procs].
  split; [by rewrite app_assoc, Hperm, <- app_assoc|]. split; [|done].
  intros q. rewrite Hlive, !app_assoc. by rewrite Hperm.
Qed.

Lemma get_ok m : inv_at [] [] m -> wp get_next (fun p m' => inv_at (own p) (own p) m' /\ forall q, undisturbed q m m') m.
Proof using Type.
  intros HI. pose proof HI as ((_ & _ & Hs) & _ & _ & _ & _ & Hrun). unfold get_next, wp.
  destruct (get_proc (sch m)) as [p s'] eqn:Eg. pose proof (mlq_get_conserves _ _ _ Hs Eg) as Hc.
  pose proof (get_mlq_proc_refines (sch m) Hs) as Hr. unfold get_proc in Eg. rewrite Eg in Hr.
  destruct Hr as (_ & Hs' & Erun & _). split; [|intros q; split; done].
  assert (Hperm : ready s' ++ own p ≡ₚ ready (sch m)).
  { destruct Hc as [(-> & E1 & E2)|[Hp E1]]; [by rewrite E1, E2|]. by rewrite own_some, E1, Permutation_app_comm. }
  eapply inv_sched; [exact HI|done|by rewrite app_nil_r| |].
  - rewrite Erun. change (abs (running_list (sch m))) with (running m). rewrite Hrun, <- Hperm. by rewrite <- app_assoc.
  - by rewrite Erun.
Qed.

Lemma put_ok p m :
  p <> 0 -> inv_at [p] [p] m -> wp (put_back p) (fun _ m' => inv_at [] [] m' /\ forall q, undisturbed q m m') m.
Proof using Type.
  intros Hp HI. pose proof HI as ((HW & _ & Hs) & _ & Hpr & _ & Hlive & Hrun).
  assert (is_Some (procs m !! p)) as [y Hy].
  { apply Hlive. rewrite !elem_of_app, list_elem_of_singleton. auto. }
  assert (Hprio : prio_at m p = prio y) by (unfold prio_at; by rewrite Hy).
  pose proof (Hpr p y Hy) as Hrange. set (kk := Z.to_nat (prio y)).
  assert (Hroom : (length (level (abs (sch m)) kk) < MAX_QUEUE_SIZE)%nat).
  { assert (length (running m) <= MAX_QUEUE_SIZE)%nat.
    { destruct Hs as (_ & _ & _ & [? ?] & _). unfold running. rewrite length_take. lia. }
    rewrite Hrun, !length_app in H0. simpl in H0.
    assert (length (level (abs (sch m)) kk) <= length (ready (sch m)))%nat; [|lia].
    unfold level, ready. destruct (levels (abs (sch m)) !! kk) as [l|] eqn:El; [|cbn; lia]. cbn [default from_option id].
    rewrite length_concat. apply list_elem_of_split_length in El as (l1 & l2 & -> & _).
    rewrite map_app, list_sum_app. simpl. lia. }
  pose proof (put_mlq_proc_spec (prio_at m) (sch m) p Hs Hp) as Hput. rewrite Hprio in Hput.
  specialize (Hput ltac:(lia)). cbv zeta in Hput. fold kk in Hput. rewrite bool_decide_true in Hput by (split; [lia|done]).
  destruct Hput as (s' & Es & Hs' & _ & Erun & _ & Hlv).
  unfold put_back, on_sch, wp, put_proc. rewrite Es. split; [|intros q; split; done].
  assert (Hready : ready s' ≡ₚ p :: ready (sch m)) by (apply (ready_append _ _ kk); [done|done|unfold kk; lia|done]).
  eapply inv_sched; [exact HI|done| | |].
  - rewrite Hready, app_nil_r. by rewrite Permutation_app_comm.
  - rewrite Erun. change (abs (running_list (sch m))) with (running m). rewrite Hrun, Hready.
    change ([p] ++ A) with (p :: A). by rewrite <- Permutation_middle.
  - by rewrite Erun.
Qed.

Lemma finish_ok p m :
  inv_at [p] [p] m -> wp (finish p) (fun _ m' => inv_at [p] [] m' /\ forall q, undisturbed q m m') m.
Proof using Type.
  intros HI. pose proof HI as ((_ & _ & Hs) & _ & _ & Hnd & _ & Hrun). unfold finish, wp, modify.
  destruct (finish_proc_spec (sch m) p Hs) as [Hs' Hrl]. split; [|intros q; split; done].
  assert (Hready : ready (finish_proc (sch m) p) = ready (sch m)) by (unfold ready; by rewrite (proj1 (finish_proc_mlq (sch m) p))).
  change (abs (running_list (sch m))) with (running m) in Hrl.
  assert (Hin : p ∈ running m) by (rewrite Hrun, !elem_of_app, list_elem_of_singleton; auto).
  destruct (list_find (fun q => q = p) (running m)) as [[i q]|] eqn:Ef.
  2:{ exfalso. apply list_find_None in Ef. rewrite Forall_forall in Ef. by apply (Ef p). }
  apply list_find_Some in Ef as (Hi & -> & _).
  eapply inv_sched; [exact HI|done|by rewrite Hready| |].
  - rewrite Hrl, Hready. apply (Permutation_cons_inv (a := p)).
    rewrite <- (delete_Permutation (running m) i p Hi), Hrun. change ([p] ++ A) with (p :: A). by rewrite <- Permutation_middle.
  - rewrite Hrl. intros q Hq. rewrite (delete_Permutation _ _ _ Hi). by right.
Qed.

(** The kernel root keeps its place when a process has run. *)
Lemma os_root_kept m m' p :
  sys_wf [] [] m -> sys_wf [] [] m' -> os_root m o -> is_Some (procs m !! p) -> isolated p m m' -> os_root m' o.
Proof using Type.
  intros HW HW' HO [y Hy] (_ & _ & _ & Hd & HR).
  destruct (vs_procs _ (vi_shape _ _ _ (proj1 (proj1 HW))) p y Hy) as (k & x & Hp & _).
  destruct (or_procs _ _ HO p k x Hp) as [Eo _].
  destruct (proj2 (Hd p) ltac:(by exists y)) as [y' Hy'].
  destruct (vs_procs _ (vi_shape _ _ _ (proj1 (proj1 HW'))) p y' Hy') as (k' & x' & Hp' & _).
  pose proof Hp as (_ & y0 & Hy0 & Hk & _)%has_mm_procs. pose proof Hp' as (_ & y1 & Hy1 & Hk' & _)%has_mm_procs.
  rewrite Hy in Hy0. injection Hy0 as <-. rewrite Hy' in Hy1. injection Hy1 as <-.
  destruct (HR p y y' Hy Hy' k Hk ltac:(rewrite Eo; by eapply os_root_pos)) as (k2 & Hk2 & E2).
  rewrite <- Eo, <- E2. assert (k2 = k') as -> by congruence. by eapply os_root_running; [apply HW'|].
Qed.

Lemma skel_prio (y y' : pcb_t) : skel y' = skel y -> prio y' = prio y.
Proof using Type. intros E. by apply (f_equal prio) in E. Qed.

Lemma run_ok p m :
  p <> 0 -> inv_at [p] [p] m -> may_run m p ->
  wp (run p) (fun _ m' => inv_at [p] [p] m' /\ (forall q, q <> p -> undisturbed q m m') /\
    is_Some (procs m' !! p) /\ remaining m' p = remaining m p - executes m p) m.
Proof using Type.
  intros Hp HI [(y & k & x & v & ins & Hy & Hpm & Hwf & Hins & Hpc & Hwd & Hok)|(y & Hy & Hend)].
  2:{ unfold run. apply wp_bind. eapply wp_eq; [unfold get_pcb; by rewrite Hy|]. cbv beta.
      rewrite bool_decide_true by done. apply wp_ret. split; [done|]. split; [auto with ossim|]. split; [by exists y|].
      unfold executes, remaining. rewrite Hy, bool_decide_false; lia. }
  destruct HI as ((HW & HO & Hs) & Hoom & Hpr & Hnd & Hlive & Hrun).
  eapply wp_mono; [by eapply (run_safe [] [] m p y k x v ins)|].
  intros r m' (HW' & HI' & y' & Hy' & Epc & Ecode & _ & Eprio).
  assert (Hleft : is_Some (procs m' !! p) /\ remaining m' p = remaining m p - executes m p).
  { split; [by exists y'|]. pose proof (lookup_lt_Some _ _ _ Hins). unfold executes, remaining. rewrite Hy, Hy', Ecode, Epc, bool_decide_true; lia. }
  pose proof (os_root_kept m m' p HW HW' HO ltac:(by exists y) HI') as HO'.
  destruct HI' as ((Es & Eo) & Hsk & HB & Hd & _).
  split; [|split; [intros q Hq; split; [by apply Hsk|intros a Ha; by apply HB]|done]].
  split; [split; [done|split; [done|by rewrite Es]]|]. split; [unfold may_oom; by rewrite Eo|]. split; [|split_and!].
  - intros q z Hz. destruct (decide (q = p)) as [->|Hq].
    + rewrite Hy' in Hz. injection Hz as <-. rewrite Eprio. by apply (Hpr p).
    + specialize (Hsk q Hq). rewrite Hz in Hsk. destruct (procs m !! q) as [z0|] eqn:Hz0; [|done].
      apply (inj Some), skel_prio in Hsk. rewrite Hsk. by apply (Hpr q).
  - by rewrite Es.
  - intros q. by rewrite Es, Hd, Hlive.
  - unfold running in *. by rewrite Es.
Qed.

Lemma free_ok p m :
  inv_at [p] [] m -> wp (free_pcb_all p) (fun _ m' => inv_at [] [] m' /\ (forall q, q <> p -> undisturbed q m m') /\
    procs m' !! p = None) m.
Proof using HAH.
  intros ((HW & HO & Hs) & Hoom & Hpr & Hnd & Hlive & Hrun).
  assert (is_Some (procs m !! p)) as [y Hy] by (apply Hlive; rewrite !elem_of_app, list_elem_of_singleton; auto).
  destruct (vs_procs _ (vi_shape _ _ _ (proj1 (proj1 HW))) p y Hy) as (k & x & Hp & _).
  assert (p ∉ ready (sch m) ++ H /\ NoDup (ready (sch m) ++ H)) as [Hnd' Hnd2].
  { apply NoDup_cons. by rewrite Permutation_middle. }
  eapply wp_mono.
  { apply (free_pcb_all_spec m p o k x HW Hp HO); [|done]. rewrite Hrun. intros Hin. apply Hnd'.
    rewrite !elem_of_app in *. destruct Hin as [?|[Hn|?]]; [by left|by apply elem_of_nil in Hn|auto]. }
  intros [] m' (HW' & HO' & [Ep [Es Eo] HB _ _ _ _]). split.
  - split; [split; [done|split; [done|by rewrite Es]]|]. split; [unfold may_oom; by rewrite Eo|].
    rewrite Ep, Es. split; [|split_and!].
    + intros q z [_ Hz]%lookup_delete_Some. by apply (Hpr q).
    + exact Hnd2.
    + intros q. destruct (decide (q = p)) as [->|Hq].
      * rewrite lookup_delete_eq. split; [by intros []|]. by intros ?%Hnd'.
      * rewrite lookup_delete_ne, Hlive, !elem_of_app, list_elem_of_singleton by done. pose proof (not_elem_of_nil q). tauto.
    + unfold running in *. by rewrite Es.
  - split; [|by rewrite Ep, lookup_delete_eq].
    intros q Hq. split; [|intros a Ha; by apply HB]. by rewrite Ep, lookup_delete_ne.
Qed.

(** One step of [cpu_routine]: it returns, keeps the invariant, and disturbs no
    process but the one the CPU runs or frees. *)
Lemma cpu_ok ts d c m :
  inv_at (held c) (active c) m -> ready_to_step m c ->
  wp (cpu_routine ts d c) (fun c' m' => inv_at (held c') (active c') m' /\
    (forall q, q ∉ subject c -> undisturbed q m m') /\
    match c with
    | CpuFree p => procs m' !! p = None
    | CpuCheck p _ => p <> 0 -> is_Some (procs m' !! p) /\ remaining m' p = remaining m p - executes m p
    | _ => True
    end) m.
Proof using HAH.
  intros HI Hr. destruct c as [p tl|p|tl|p tl|p tl|]; unfold cpu_routine.
  - case_bool_decide as Hp.
    + subst. apply wp_bind. eapply wp_mono; [by apply get_ok|]. intros p m' [HI' Hu]. apply wp_ret. split; [|auto].
      destruct (decide (p = 0)) as [->|Hp]; [exact HI'|]. rewrite own_some in HI' by done.
      rewrite (bool_decide_false (p = 0)) by done. unfold held. cbn [active dying]. rewrite (bool_decide_false (p = 0)) by done.
      exact HI'.
    + unfold held in HI. cbn [active dying] in HI. rewrite bool_decide_false, app_nil_r in HI by done.
      assert (is_Some (procs m !! p)) as [y Hy].
      { destruct HI as (_ & _ & _ & _ & Hlive & _). apply Hlive. rewrite !elem_of_app, list_elem_of_singleton. auto. }
      apply wp_bind. eapply wp_eq; [unfold get_pcb; by rewrite Hy|]. cbv beta. case_bool_decide as Hend.
      * apply wp_bind. eapply wp_mono; [by apply finish_ok|]. intros [] m' [HI' Hu]. apply wp_ret. auto.
      * case_bool_decide as Htl.
        -- apply wp_bind. eapply wp_mono; [by apply put_ok|]. intros [] m' [HI' Hu]. apply wp_ret. auto.
        -- apply wp_ret. split; [|auto with ossim]. unfold held. cbn [active dying]. rewrite (bool_decide_false (p = 0)) by done.
           exact HI.
  - apply wp_bind. eapply wp_mono; [by apply free_ok|]. intros [] m' (HI' & Hu & Hn). apply wp_ret. split; [done|]. split; [|done].
    intros q Hq. apply Hu. intros ->. apply Hq. by left.
  - apply wp_bind. eapply wp_mono; [by apply get_ok|]. intros p m' [HI' Hu]. apply wp_ret. split; [|auto].
    unfold held. cbn [active dying]. fold (own p). rewrite app_nil_r. exact HI'.
  - destruct (decide (p = 0)) as [->|Hp].
    + rewrite !bool_decide_true by done. cbn [andb]. destruct d; apply wp_ret; (split; [exact HI|split; [auto with ossim|done]]).
    + rewrite !(bool_decide_false (p = 0)) by done. cbn [andb]. unfold held in *. cbn [active dying] in *.
      rewrite (bool_decide_false (p = 0)), app_nil_r in * by done. apply wp_bind.
      eapply wp_mono; [apply run_ok; [done|done|by apply Hr]|]. intros r m' (HI' & Hu & Hl). apply wp_ret.
      unfold held. cbn [active dying]. rewrite (bool_decide_false (p = 0)) by done. split; [exact HI'|]. split; [|done].
      intros q Hq. apply Hu. intros ->. apply Hq. cbn [subject]. rewrite bool_decide_false by done. by left.
  - apply wp_ret. auto with ossim.
  - apply wp_ret. auto with ossim.
Qed.
End steps.

(** ** The loader *)

(** When loading returns, the priority was valid and both queues had room. *)
Lemma load_returns m os p pr y x0 m' :
  os_wf (krnl_pgd os) m -> p <> 0 -> ~ may_oom m -> 0 <= pr ->
  load_process os p y pr x0 m = Ret tt m' ->
  pr < Z.of_nat MAX_PRIO /\ (length (level (abs (sch m)) (Z.to_nat pr)) < MAX_QUEUE_SIZE)%nat /\
  (length (running m) < MAX_QUEUE_SIZE)%nat.
Proof.
  intros (HS & HO & Hsch) Hp Hoom Hpr Hl.
  destruct (decide (pr < Z.of_nat MAX_PRIO)) as [Hlt|Hge].
  2:{ exfalso. revert Hl. unfold load_process, bind, malloc. rewrite (no_oom m Hoom). cbn [negb]. unfold put_pcb, validate_mlq_priority.
      by rewrite bool_decide_false. }
  split; [done|]. rewrite load_process_eq in Hl; [|done|done|by eapply os_root_pos| |done].
  2:{ pose proof (forest_nxt _ _ _ (or_forest _ _ HO)). lia. }
  pose proof (add_mlq_proc_spec (prio_at (loaded m p os y pr)) (sch m) p Hsch Hp) as Ha.
  assert (Hu : u32 pr = pr) by (unfold MAX_PRIO in Hlt; unfold u32; apply Z.mod_small; lia).
  assert (Hprio : prio_at (loaded m p os y pr) p = pr).
  { unfold prio_at. rewrite loaded_procs, decide_True by done. exact Hu. }
  rewrite Hprio in Ha. specialize (Ha ltac:(lia)). cbv zeta in Ha. case_bool_decide as Hc; [tauto|].
  destruct Ha as (s' & Es). unfold on_sch, add_proc in Hl. change (sch (loaded m p os y pr)) with (sch m) in Hl.
  by rewrite Es in Hl.
Qed.

Lemma load_ok m cs os j m' :
  sim_inv (krnl_pgd os) m cs -> job_ok m j ->
  load_process os (j_addr j) (j_pcb j) (j_prio j) (j_mm j) m = Ret tt m' ->
  sim_inv (krnl_pgd os) m' cs /\ (forall q, is_Some (procs m !! q) -> undisturbed q m m') /\
  ready (sch m') ≡ₚ j_addr j :: ready (sch m) /\ remaining m' (j_addr j) = Z.of_nat (length (code (j_pcb j))) /\
  forall q, q <> j_addr j -> procs m' !! q = procs m !! q.
Proof.
  intros [HW Hoom Hpr Hnd Hlive Hrun] (Hp & Hnew & Hregs & Hprio & Hpc) Hl.
  destruct (load_returns _ _ _ _ _ _ _ HW Hp Hoom Hprio Hl) as (Hlt & Hlev & Hroom).
  pose proof (load_spec m os (j_addr j) (j_prio j) (j_pcb j) (j_mm j) HW Hnew Hp Hregs Hoom (conj Hprio Hlt) Hlev Hroom) as Hw.
  unfold wp in Hw. rewrite Hl in Hw. destruct Hw as ((HW' & Eo) & Hprocs & HB & Hlv & Hr').
  set (p := j_addr j) in *.
  assert (Hready : ready (sch m') ≡ₚ p :: ready (sch m)).
  { apply (ready_append _ _ (Z.to_nat (j_prio j))); [apply HW|apply HW'|lia|]. intros i. rewrite Hlv. case_bool_decide; by subst. }
  assert (Hnin : p ∉ ready (sch m) ++ concat (held <$> cs)) by (rewrite <- Hlive, Hnew; by intros []).
  split.
  - split; [done|unfold may_oom; by rewrite Eo| | | |].
    + intros q z. rewrite Hprocs. case_decide; [|apply Hpr]. intros [= <-]. unfold new_pcb. cbn [prio set_prio]. lia.
    + rewrite Hready. apply NoDup_cons. done.
    + intros q. rewrite Hready. cbn [app]. rewrite elem_of_cons, <- Hlive, Hprocs. case_decide as Hq.
      * subst. split; [by left|by eexists].
      * split; [by right|]. by intros [?|?].
    + rewrite Hr', Hready, Hrun. cbn [app]. by rewrite Permutation_app_comm.
  - split; [|split; [done|split]].
    + intros q [z Hz]. split; [|intros a _; apply HB]. rewrite Hprocs, decide_False; [done|]. intros ->. congruence.
    + unfold remaining. rewrite Hprocs, decide_True by done. cbn. rewrite Hpc. lia.
    + intros q Hq. by rewrite Hprocs, decide_False.
Qed.

(** ** The interleaved system *)

Lemma active_held cs p : p ∈ concat (active <$> cs) -> p ∈ concat (held <$> cs).
Proof.
  induction cs as [|c cs IH]; [done|]. rewrite !fmap_cons. cbn [concat]. unfold held at 1. rewrite !elem_of_app. tauto.
Qed.

Notation sim_ok s := (sim_inv (krnl_pgd (os s)) (mach s) (cpus s)).

Lemma sim_step_ok ts l s s' :
  sim_ok s -> sim_step ts l s s' ->
  sim_ok s' /\ forall q, is_Some (procs (mach s) !! q) -> q ∉ touched l -> undisturbed q (mach s) (mach s').
Proof.
  intros HI Hstep. destruct Hstep as [m d l1 c l2 js k c' m' Hr Hc|m d cs j js k m' Hj Hl|m d cs k]; cbn [os mach cpus] in *.
  - apply sim_inv_mid in HI.
    pose proof (cpu_ok (krnl_pgd k) (concat (held <$> l1 ++ l2)) (concat (active <$> l1 ++ l2)) (active_held _) ts d c m HI Hr) as Hw.
    unfold wp in Hw. rewrite Hc in Hw. destruct Hw as (HI' & Hu & _). split; [by apply sim_inv_mid|]. intros q _ Hq. by apply Hu, subject_held.
  - destruct (load_ok m cs k j m' HI Hj Hl) as (HI' & Hu & _). auto.
  - split; [done|]. auto with ossim.
Qed.

Lemma sim_steps_ok ts s s' : sim_ok s -> rtc (any_step ts) s s' -> sim_ok s'.
Proof. intros HI Hr. induction Hr as [|s1 s2 s3 [h Hs] _ IH]; [done|]. by apply IH, (sim_step_ok ts h s1). Qed.

(** A CPU can always take its next step. *)
Lemma cpu_progress ts s c :
  sim_ok s -> c ∈ cpus s -> ready_to_step (mach s) c ->
  exists c' m', cpu_routine ts (done_flag s) c (mach s) = Ret c' m'.
Proof.
  intros HI (l1 & l2 & Hc)%list_elem_of_split Hr. rewrite Hc in HI. apply sim_inv_mid in HI.
  destruct (wp_elim _ _ _ (cpu_ok _ _ _ (active_held _) ts (done_flag s) c (mach s) HI Hr)) as (c' & m' & E & _). eauto.
Qed.

(** The system as [main] starts it. *)
Lemma sim_inv_start o m n :
  os_wf o m -> ~ may_oom m -> procs m = ∅ -> ready (sch m) = [] -> sim_inv o m (replicate n (CpuTop 0 0)).
Proof.
  intros HW Hoom Hp Hr.
  assert (Hh : concat (held <$> replicate n (CpuTop 0 0)) = [] /\ concat (active <$> replicate n (CpuTop 0 0)) = [])
    by (induction n as [|n [IH1 IH2]]; [done|]; rewrite replicate_S, !fmap_cons; done).
  destruct Hh as [E1 E2]. split; rewrite ?E1, ?E2, ?Hr, ?Hp; [done|done|intros p y; by rewrite lookup_empty|constructor|..].
  - intros p. rewrite lookup_empty. split; [by intros []|by intros []%elem_of_nil].
  - simpl. destruct (running m) as [|q l] eqn:Erun; [done|]. exfalso.
    destruct HW as (HS & _ & (_ & _ & _ & _ & Hnz)).
    destruct (vs_run _ (vi_shape _ _ _ (proj1 (proj1 HS))) q) as [->|[z Hz]]; [rewrite Erun; by left| |by rewrite Hp in Hz].
    change (abs (running_list (sch m))) with (running m) in Hnz. rewrite Erun in Hnz. by apply Forall_cons in Hnz as [].
Qed.

Lemma sim_start_ok ts n fate d1 d2 ramsz swpsz k m js s :
  0 <= ramsz < 2 ^ 31 -> 0 <= swpsz < 2 ^ 31 -> (forall i, fate i = false) ->
  boot ramsz swpsz (blank fate d1 d2) = Ret k m ->
  rtc (any_step ts) (mkSim m false (replicate n (CpuTop 0 0)) js k) s -> sim_ok s.
Proof.
  intros Hr Hs Hf Hb Hsteps. pose proof (boot_spec fate d1 d2 0 ramsz swpsz Hr Hs (Hf 0)) as Hw.
  change (set_mallocs (blank fate d1 d2) 0) with (blank fate d1 d2) in Hw.
  unfold wp in Hw. rewrite Hb in Hw. destruct Hw as (HW & Hp & Hrd & Eo & _).
  assert (Hoom : ~ may_oom m) by (intros [i Hi]; rewrite Eo in Hi; by rewrite Hf in Hi).
  eapply (sim_steps_ok ts); [|exact Hsteps]. by apply sim_inv_start.
Qed.

(** ** The work left *)

(** Where the processes are, the instructions they and the programs still to be
    loaded have left, and the one a step executes. *)
Definition places (s : sim) : list Z := ready (sch (mach s)) ++ concat (held <$> cpus s).
Definition work (s : sim) : Z :=
  zsum (remaining (mach s) <$> places s) +
  zsum ((fun j => Z.of_nat (length (code (j_pcb j)))) <$> jobs s).
Definition executed (s : sim) (l : option cpu) : Z :=
  match l with Some (CpuCheck p _) => if bool_decide (p = 0) then 0 else executes (mach s) p | _ => 0 end.

(** Executions with the number of instructions executed. *)
Inductive sim_run (time_slot : Z) : Z -> sim -> sim -> Prop :=
| run_nil s : sim_run time_slot 0 s s
| run_cons l n s1 s2 s3 : sim_step time_slot l s1 s2 -> sim_run time_slot n s2 s3 ->
    sim_run time_slot (executed s1 l + n) s1 s3.

Lemma zsum_perm (l l' : list Z) : l ≡ₚ l' -> zsum l = zsum l'.
Proof. unfold zsum. induction 1; simpl; lia. Qed.

Lemma zsum_cons v l : zsum (v :: l) = v + zsum l.
Proof. done. Qed.

Lemma undisturbed_left q m m' :
  undisturbed q m m' -> remaining m' q = remaining m q /\ (is_Some (procs m' !! q) <-> is_Some (procs m !! q)).
Proof.
  intros [Hs _]. unfold remaining. destruct (procs m' !! q) as [y'|], (procs m !! q) as [y|]; try done.
  - apply (inj Some) in Hs. assert (code y' = code y) as -> by (by apply (f_equal code) in Hs).
    assert (pc y' = pc y) as -> by (by apply (f_equal pc) in Hs). split; [done|]. split; by eexists.
Qed.

Lemma sum_same m m' l :
  (forall q, q ∈ l -> remaining m' q = remaining m q) -> zsum (remaining m' <$> l) = zsum (remaining m <$> l).
Proof. intros Hq. f_equal. apply list_fmap_ext. intros i q Hi. apply Hq. by eapply list_elem_of_lookup_2. Qed.

(** Two lists of the live processes, of one of which [p] has gone. *)
Lemma perm_less p (L L' : list Z) (P P' : Z -> Prop) :
  NoDup L -> NoDup L' -> (forall q, P q <-> q ∈ L) -> (forall q, P' q <-> q ∈ L') ->
  P p -> ~ P' p -> (forall q, q <> p -> P' q <-> P q) -> L ≡ₚ p :: L'.
Proof.
  intros HN HN' HL HL' Hp Hp' Hq. apply NoDup_Permutation; [done| |].
  - constructor; [by rewrite <- HL'|done].
  - intros q. rewrite elem_of_cons, <- HL, <- HL'. destruct (decide (q = p)) as [->|Hne]; [tauto|]. rewrite Hq by done. tauto.
Qed.

Lemma executes_le m p : 0 <= remaining m p -> 0 <= executes m p <= remaining m p.
Proof. unfold executes. case_bool_decide; lia. Qed.

Section work_step.
Context (o : Z) (m m' : machine) (c c' : cpu) (H A : list Z).
Context (HI : inv_at o H A (held c) (active c) m) (HI' : inv_at o H A (held c') (active c') m').
Context (Hu : forall q, q ∉ subject c -> undisturbed q m m').
Context (Hc : match c with
  | CpuFree p => procs m' !! p = None
  | CpuCheck p _ => p <> 0 -> is_Some (procs m' !! p) /\ remaining m' p = remaining m p - executes m p
  | _ => True
  end).
Context (Hpos : forall p, 0 <= remaining m p).
Notation L := (ready (sch m) ++ held c ++ H).
Notation L' := (ready (sch m') ++ held c' ++ H).

Lemma quiet_work : subject c = [] -> (forall p, 0 <= remaining m' p) /\ zsum (remaining m' <$> L') = zsum (remaining m <$> L).
Proof using HI HI' Hu Hpos.
  intros Hs. destruct HI as (_ & _ & _ & HN & Hlive & _), HI' as (_ & _ & _ & HN' & Hlive' & _).
  assert (Hall : forall q, remaining m' q = remaining m q /\ (is_Some (procs m' !! q) <-> is_Some (procs m !! q)))
    by (intros q; apply undisturbed_left, Hu; rewrite Hs; apply not_elem_of_nil).
  split; [intros p; by rewrite (proj1 (Hall p))|]. rewrite (sum_same m m') by (intros q _; apply Hall).
  apply zsum_perm, fmap_Permutation, NoDup_Permutation; [done|done|].
  intros q. rewrite <- Hlive, <- Hlive'. apply Hall.
Qed.

(** Counting a process apart. *)
Lemma run_work p tl : c = CpuCheck p tl -> p <> 0 ->
  (forall q, 0 <= remaining m' q) /\ zsum (remaining m' <$> L') + executes m p = zsum (remaining m <$> L).
Proof using All.
  intros Ec Hp. pose proof Hc as Hc'. rewrite Ec in Hc'. destruct (Hc' Hp) as [Hlp Hrem].
  destruct HI as (_ & _ & _ & HN & Hlive & _), HI' as (_ & _ & _ & HN' & Hlive' & _).
  assert (Hsub : subject c = [p]) by (rewrite Ec; cbn [subject]; by rewrite bool_decide_false).
  assert (Hall : forall q, q <> p -> remaining m' q = remaining m q /\ (is_Some (procs m' !! q) <-> is_Some (procs m !! q)))
    by (intros q Hq; apply undisturbed_left, Hu; by rewrite Hsub, list_elem_of_singleton).
  assert (Hpl : p ∈ L).
  { rewrite !elem_of_app. right. left. rewrite Ec. unfold held. cbn [active dying]. rewrite bool_decide_false by done. by left. }
  split.
  { intros q. destruct (decide (q = p)) as [->|Hq]; [|by rewrite (proj1 (Hall q Hq))].
    rewrite Hrem. pose proof (executes_le m p (Hpos p)). lia. }
  assert (HL : L' ≡ₚ L).
  { apply NoDup_Permutation; [done|done|]. intros q. rewrite <- Hlive, <- Hlive'.
    destruct (decide (q = p)) as [->|Hq]; [|by apply Hall]. split; [intros _; by apply Hlive|done]. }
  rewrite (zsum_perm _ _ (fmap_Permutation (remaining m') _ _ HL)).
  apply elem_of_Permutation in Hpl as [K HK]. rewrite HK in HN. apply NoDup_cons in HN as [HpK _].
  rewrite (zsum_perm _ _ (fmap_Permutation (remaining m') _ _ HK)), (zsum_perm _ _ (fmap_Permutation (remaining m) _ _ HK)).
  rewrite !fmap_cons, !zsum_cons.
  rewrite (sum_same m m'), Hrem by (intros q Hq; apply Hall; by intros ->). lia.
Qed.

Lemma free_work p : c = CpuFree p ->
  (forall q, 0 <= remaining m' q) /\ zsum (remaining m' <$> L') + remaining m p = zsum (remaining m <$> L).
Proof using All.
  intros Ec. pose proof Hc as Hc'. rewrite Ec in Hc'. destruct HI as (_ & _ & _ & HN & Hlive & _), HI' as (_ & _ & _ & HN' & Hlive' & _).
  assert (Hall : forall q, q <> p -> remaining m' q = remaining m q /\ (is_Some (procs m' !! q) <-> is_Some (procs m !! q)))
    by (intros q Hq; apply undisturbed_left, Hu; rewrite Ec; cbn [subject]; by rewrite list_elem_of_singleton).
  assert (HL : L ≡ₚ p :: L').
  { apply (perm_less p L L' (fun q => is_Some (procs m !! q)) (fun q => is_Some (procs m' !! q))); try done.
    - apply Hlive. rewrite !elem_of_app. right. left. rewrite Ec. by left.
    - rewrite Hc'. by intros [].
    - intros q Hq. by apply Hall. }
  assert (Hpn : p ∉ L') by (rewrite <- Hlive', Hc'; by intros []). split.
  { intros q. destruct (decide (q = p)) as [->|Hq]; [unfold remaining; by rewrite Hc'|by rewrite (proj1 (Hall q Hq))]. }
  rewrite (zsum_perm _ _ (fmap_Permutation (remaining m) _ _ HL)), fmap_cons, zsum_cons.
  rewrite (sum_same m m' L') by (intros q Hq; apply Hall; by intros ->). lia.
Qed.

Lemma cpu_work :
  (forall p, 0 <= remaining m' p) /\
  zsum (remaining m' <$> L') + (match c with CpuCheck p _ => if bool_decide (p = 0) then 0 else executes m p | CpuFree p => remaining m p | _ => 0 end)
    = zsum (remaining m <$> L).
Proof using All.
  assert (Hcase : subject c = [] \/ (exists p tl, c = CpuCheck p tl /\ p <> 0) \/ exists p, c = CpuFree p).
  { destruct c as [| | |p tl| |]; try (by left); [right; right; by eexists|]. cbn [subject].
    case_bool_decide; [by left|right; left]. by exists p, tl. }
  match goal with |- context [zsum _ + ?e] => set (ex := e) end.
  destruct Hcase as [Hs|[(p & tl & Ec & Hp)|(p & Ec)]].
  - destruct (quiet_work Hs) as [H1 H2]. split; [done|].
    assert (ex = 0) by (unfold ex; destruct c; try done; cbn [subject] in Hs; by case_bool_decide). lia.
  - destruct (run_work p tl Ec Hp) as [H1 H2]. split; [done|].
    assert (ex = executes m p) by (unfold ex; rewrite Ec; by rewrite bool_decide_false). lia.
  - destruct (free_work p Ec) as [H1 H2]. split; [done|]. assert (ex = remaining m p) by (unfold ex; by rewrite Ec). lia.
Qed.
End work_step.

Lemma places_mid m d l1 c l2 js k :
  places (mkSim m d (l1 ++ c :: l2) js k) ≡ₚ ready (sch m) ++ held c ++ concat (held <$> l1 ++ l2).
Proof. unfold places. cbn [mach cpus]. by rewrite concat_mid. Qed.

(** The work lost when a process is freed. *)
Definition dropped (s : sim) (l : option cpu) : Z :=
  match l with Some (CpuFree p) => remaining (mach s) p | _ => 0 end.

(** The balance of a step: an instruction takes one unit of work away, and
    nothing else does but the end of a process with instructions left. *)
Lemma step_balance ts l s s' :
  sim_ok s -> (forall p, 0 <= remaining (mach s) p) -> sim_step ts l s s' ->
  (forall p, 0 <= remaining (mach s') p) /\ work s' + executed s l + dropped s l = work s.
Proof.
  intros HI Hpos Hstep. destruct Hstep as [m d l1 c l2 js k c' m' Hr Hc|m d cs j js k m' Hj Hl|m d cs k].
  - cbn [os mach cpus] in *. apply sim_inv_mid in HI. pose proof (active_held (l1 ++ l2)) as HAH.
    pose proof (cpu_ok (krnl_pgd k) (concat (held <$> l1 ++ l2)) (concat (active <$> l1 ++ l2)) HAH ts d c m HI Hr) as Hw.
    unfold wp in Hw. rewrite Hc in Hw. destruct Hw as (HI' & Hu & Heff).
    destruct (cpu_work (krnl_pgd k) m m' c c' _ _ HI HI' Hu Heff Hpos) as [H1 H2]. split; [done|].
    unfold work. cbn [mach jobs executed dropped].
    rewrite !(zsum_perm _ _ (fmap_Permutation _ _ _ (places_mid _ _ _ _ _ _ _))). destruct c; lia.
  - cbn [os mach cpus] in *. pose proof HI as [_ _ _ _ Hlive _]. pose proof Hj as (_ & Hnew & _).
    destruct (load_ok m cs k j m' HI Hj Hl) as (_ & _ & Hready & Hrem & Hq). split.
    + intros p. destruct (decide (p = j_addr j)) as [->|Hp]; [rewrite Hrem; lia|].
      unfold remaining. rewrite Hq by done. apply Hpos.
    + unfold work, places. cbn [mach jobs cpus executed dropped].
      assert (HP : ready (sch m') ++ concat (held <$> cs) ≡ₚ j_addr j :: (ready (sch m) ++ concat (held <$> cs))) by (by rewrite Hready).
      rewrite (zsum_perm _ _ (fmap_Permutation _ _ _ HP)), !fmap_cons. rewrite !zsum_cons.
      rewrite (sum_same m m'), Hrem; [lia|]. intros q Hin. unfold remaining. rewrite Hq; [done|]. intros ->.
      apply Hlive in Hin. rewrite Hnew in Hin. by destruct Hin.
  - split; [done|]. unfold work, places, executed, dropped. cbn [mach cpus jobs]. lia.
Qed.

(** No step adds work. *)
Lemma step_work ts l s s' :
  sim_ok s -> (forall p, 0 <= remaining (mach s) p) -> sim_step ts l s s' ->
  (forall p, 0 <= remaining (mach s') p) /\ work s' + executed s l <= work s.
Proof.
  intros HI Hpos Hs. destruct (step_balance ts l s s' HI Hpos Hs) as [H1 H2]. split; [done|].
  assert (0 <= dropped s l) by (destruct l as [[]|]; try done; apply Hpos). lia.
Qed.

Lemma work_nonneg s : (forall p, 0 <= remaining (mach s) p) -> 0 <= work s.
Proof.
  intros Hpos. unfold work. assert (Hz : forall l, Forall (Z.le 0) l -> 0 <= zsum l)
    by (induction 1; [done|]; unfold zsum in *; simpl; lia).
  assert (0 <= zsum (remaining (mach s) <$> places s)) by (apply Hz, Forall_fmap, Forall_true; done).
  assert (0 <= zsum ((fun j => Z.of_nat (length (code (j_pcb j)))) <$> jobs s)) by (apply Hz, Forall_fmap, Forall_true; intros; simpl; lia).
  lia.
Qed.

Lemma run_bound ts n s s' :
  sim_run ts n s s' -> sim_ok s -> (forall p, 0 <= remaining (mach s) p) ->
  (forall p, 0 <= remaining (mach s') p) /\ n + work s' <= work s.
Proof.
  induction 1 as [s|l n s1 s2 s3 Hs _ IH]; intros HI Hpos; [split; [done|lia]|].
  destruct (step_work ts l s1 s2 HI Hpos Hs) as [Hpos2 Hw]. destruct (IH (proj1 (sim_step_ok ts l s1 s2 HI Hs)) Hpos2).
  split; [done|lia].
Qed.

(** ** An idle CPU *)

(** [n] steps of a CPU when no one else does anything. *)
Fixpoint cpu_steps (time_slot : Z) (is_done : bool) (n : nat) (c : cpu) : M machine cpu :=
  match n with
  | O => ret c
  | S n => let* c := cpu_routine time_slot is_done c in cpu_steps time_slot is_done n c
  end.

Lemma idle_steps ts d tl n : forall m, rep_ok (sch m) -> ready (sch m) = [] ->
  wp (cpu_steps ts d n (CpuTop 0 tl)) (fun c _ => c = CpuTop 0 tl \/ c = CpuWait 0 tl) m /\
  wp (cpu_steps ts d n (CpuWait 0 tl)) (fun c _ => c = CpuTop 0 tl \/ c = CpuWait 0 tl) m.
Proof.
  induction n as [|n IH]; intros m Hs Hr; [split; apply wp_ret; auto|]. split; cbn [cpu_steps]; apply wp_bind.
  - unfold cpu_routine. rewrite bool_decide_true by done. apply wp_bind. unfold get_next at 1, wp at 1.
    destruct (get_proc (sch m)) as [p s'] eqn:Eg.
    destruct (mlq_get_conserves _ _ _ Hs Eg) as [(-> & _ & Hr')|[_ Hr']].
    2:{ rewrite Hr in Hr'. by apply Permutation_nil_cons in Hr'. }
    pose proof (get_mlq_proc_refines (sch m) Hs) as Href. unfold get_proc in Eg. rewrite Eg in Href.
    apply wp_ret. apply IH; [apply Href|done].
  - apply wp_ret. by apply IH.
Qed.

(** A start with two CPUs and one program. *)
Definition demo_boot : krnl_t * machine :=
  match boot 16384 16384 (blank (fun _ => false) blank_memphy blank_memphy) with
  | Ret os m => (os, m)
  | _ => (zero_krnl, demo)
  end.
Definition demo_job : job :=
  mkJob 100 (mkPcb 1 0 [mkInst CALC 0 0 0 0] (replicate 10 0) 0 0 None 1024) 0 (mkMm 0 [] [] [] None).
Definition demo_load : machine :=
  match load_process (fst demo_boot) 100 (j_pcb demo_job) 0 (j_mm demo_job) (snd demo_boot) with
  | Ret _ m => m
  | _ => demo
  end.
Definition demo_get : machine := match get_next demo_load with Ret _ m => m | _ => demo end.
Definition demo_sim : sim := mkSim demo_get false [CpuCheck 100 0; CpuTop 0 0] [] (fst demo_boot).

#[local] Opaque demo_boot demo_load demo_get.

Lemma demo_boot_eq :
  boot 16384 16384 (blank (fun _ => false) blank_memphy blank_memphy) = Ret (fst demo_boot) (snd demo_boot).
Proof. vm_compute. reflexivity. Qed.

Lemma demo_sim_steps :
  rtc (any_step 2) (mkSim (snd demo_boot) false (replicate 2 (CpuTop 0 0)) [demo_job] (fst demo_boot))
    demo_sim.
Proof.
  unfold demo_sim. eapply rtc_l; [exists None; apply (step_load 2 _ false _ demo_job [] (fst demo_boot) demo_load)|].
  - split; [done|]. split; [vm_compute; reflexivity|]. split; [reflexivity|]. split; [done|reflexivity].
  - vm_compute. reflexivity.
  - eapply rtc_l; [|apply rtc_refl]. eexists.
    apply (step_cpu 2 demo_load false [] (CpuTop 0 0) [CpuTop 0 0] [] (fst demo_boot) (CpuCheck 100 0) demo_get); [done|].
    vm_compute. reflexivity.
Qed.

Lemma demo_sim_ok : sim_inv (krnl_pgd (os demo_sim)) (mach demo_sim) (cpus demo_sim).
Proof.
  exact (sim_start_ok 2 2 (fun _ => false) blank_memphy blank_memphy 16384 16384 (fst demo_boot) (snd demo_boot)
    [demo_job] demo_sim ltac:(lia) ltac:(lia) (fun _ => eq_refl) demo_boot_eq demo_sim_steps).
Qed.

Lemma demo_sim_live : is_Some (procs (mach demo_sim) !! 100).
Proof. vm_compute. eexists. reflexivity. Qed.

(** The idle CPU of that state takes a step. *)
Definition demo_idle : machine := match get_next demo_get with Ret _ m => m | _ => demo end.
Definition demo_sim' : sim := mkSim demo_idle false [CpuCheck 100 0; CpuWait 0 0] [] (fst demo_boot).

Lemma demo_other_step : rtc (other_step 2 100) demo_sim demo_sim'.
Proof.
  unfold demo_sim, demo_sim'. eapply rtc_l; [|apply rtc_refl]. exists (Some (CpuTop 0 0)). split.
  - apply (step_cpu 2 demo_get false [CpuCheck 100 0] (CpuTop 0 0) [] [] (fst demo_boot) (CpuWait 0 0) demo_idle); [done|].
    vm_compute. reflexivity.
  - apply not_elem_of_nil.
Qed.

(** The other CPU executes the one instruction of the program. *)
Definition demo_pcb : pcb_t := default (j_pcb demo_job) (procs demo_get !! 100).
Definition demo_ran : machine := match run 100 demo_get with Ret _ m => m | _ => demo end.
Definition demo_sim2 : sim := mkSim demo_ran false [CpuWait 100 1; CpuTop 0 0] [] (fst demo_boot).

#[local] Opaque demo_pcb demo_ran.

Lemma demo_get_procs : procs (mach demo_sim) = {[100 := demo_pcb]} /\ code demo_pcb = [mkInst CALC 0 0 0 0] /\ pc demo_pcb = 0.
Proof. split; [|split]; vm_compute; reflexivity. Qed.

Lemma demo_sim_left p : 0 <= remaining (mach demo_sim) p.
Proof.
  unfold remaining. destruct demo_get_procs as (-> & Ec & Ep). destruct (decide (p = 100)) as [->|Hp].
  - rewrite lookup_singleton_eq, Ec, Ep. simpl. lia.
  - by rewrite lookup_singleton_ne.
Qed.

Lemma demo_can_run : ready_to_step (mach demo_sim) (CpuCheck 100 0).
Proof.
  intros _. left. pose proof demo_sim_ok as [(HW & _) _ _ _ _ _]. destruct demo_get_procs as (Ep & Ec & Epc).
  destruct (proj2 HW 100 demo_sim_live) as (y & k & x & v & Hy & _ & Hp & Hwf).
  rewrite Ep, lookup_singleton_eq in Hy. apply (inj Some) in Hy as <-.
  exists demo_pcb, k, x, v, (mkInst CALC 0 0 0 0). split; [by rewrite Ep, lookup_singleton_eq|]. split; [done|]. split; [done|].
  rewrite Epc, Ec. split; [reflexivity|]. split; [lia|]. split; [|done]. unfold inst_words, is_u64. simpl. lia.
Qed.

Lemma demo_run : sim_run 2 (1 + 0) demo_sim demo_sim2.
Proof.
  replace (1 + 0) with (executed demo_sim (Some (CpuCheck 100 0)) + 0) by (vm_compute; reflexivity).
  eapply run_cons; [|apply run_nil].
  apply (step_cpu 2 (mach demo_sim) false [] (CpuCheck 100 0) [CpuTop 0 0] [] (fst demo_boot) (CpuWait 100 1) demo_ran).
  - exact demo_can_run.
  - vm_compute. reflexivity.
Qed.

(** ** Properties *)





(** The programs terminate: in any execution of the simulator, however its
    threads are interleaved, the number of instructions executed is at most the
    number the loaded processes had left and the programs still to be loaded
    have; no instruction is executed twice. *)
Theorem instructions_bounded ts n s s' :
  sim_inv (krnl_pgd (os s)) (mach s) (cpus s) -> (forall p, 0 <= remaining (mach s) p) ->
  sim_run ts n s s' -> 0 <= work s' /\ n + work s' <= work s.
Proof.
  intros HI Hpos Hr. destruct (run_bound ts n s s' Hr HI Hpos) as [Hpos' Hle]. split; [by apply work_nonneg|done].
Qed.

Lemma instructions_bounded_witness : 1 <= work demo_sim.
Proof.
  destruct (instructions_bounded 2 (1 + 0) demo_sim demo_sim2 demo_sim_ok demo_sim_left demo_run) as [H1 H2]. lia.
Defined.

(** C37. A CPU that finds no process at the head of its loop never stops, even
    when the loader is done: as long as the queues stay empty it waits for slot
    after slot without looking at [is_done], so its thread, which [main] joins,
    does not end. *)
Theorem idle_cpu_never_stops ts tl n m :
  rep_ok (sch m) -> ready (sch m) = [] ->
  wp (cpu_steps ts true n (CpuTop 0 tl)) (fun c _ => c <> CpuStopped) m.
Proof.
  intros Hs Hr. eapply wp_mono; [by apply (idle_steps ts true tl n m)|]. by intros c _ [-> | ->].
Qed.

Lemma idle_cpu_never_stops_witness :
  wp (cpu_steps 2 true 1000 (CpuTop 0 0)) (fun c _ => c <> CpuStopped) (set_sch demo sched0).
Proof. apply (idle_cpu_never_stops 2 0 1000 (set_sch demo sched0)); [exact sched0_ok|reflexivity]. Defined.
