(* ===== verification/Timer.v ===== *)
(** * The clock of the simulator ([src/timer.c])

    The timer thread and the devices (the CPUs and the loader) that share it.
    A device ends its part of a time slot with [next_slot]: it raises [done]
    and waits until the timer lowers it again.  The timer waits for every device
    in turn, advances the time, and lets the devices go on.  The two loops on a
    condition variable are steps that are enabled when their condition holds;
    [slots] counts the slots a device has left behind and is not in the code.

    The invariant of all interleavings gives the barrier property and the
    absence of deadlock. *)

From S2P Require Import Prelude.
From S2P Require Import Word.

(** ** State *)

(** A device is at work, in the wait loop of [next_slot], or has detached. *)
Inductive dev_pc := Working | InSlot | Detached.

Record timer_id_t := mkDev { done : bool; fsh : bool; at_pc : dev_pc; slots : Z }.

(** The timer: at the head of its loop, waiting for device [i], about to advance
    the time, releasing device [i], or out of the loop; [f] and [e] are the
    counters [fsh] and [event]. *)
Inductive timer_pc :=
| TLoop | TWait (i : nat) (f e : Z) | TTick (f e : Z) | TClear (i : nat) (f e : Z) | TExit.

Record clock := mkClock {
  time : Z; timer_started : bool; timer_stop : bool; timer : timer_pc; dev_list : list timer_id_t }.

(** ** The devices *)

(** [None]: the timer has started. *)
Definition attach_event (c : clock) : option clock :=
  if timer_started c then None
  else Some (mkClock (time c) (timer_started c) (timer_stop c) (timer c) (mkDev false false Working 0 :: dev_list c)).

Definition start_timer (c : clock) : clock := mkClock (time c) true (timer_stop c) (timer c) (dev_list c).

(** [next_slot]: the call raises [done]; it returns when [done] is lowered. *)
Definition next_slot_call (d : timer_id_t) : timer_id_t := mkDev true (fsh d) InSlot (slots d).
Definition next_slot_return (d : timer_id_t) : option timer_id_t :=
  if done d then None else Some (mkDev (done d) (fsh d) Working (u64 (slots d + 1))).

Definition detach_event (d : timer_id_t) : timer_id_t := mkDev (done d) true Detached (slots d).

Definition current_time (c : clock) : Z := time c.

(** ** The timer thread *)

Definition set_timer (c : clock) (t : timer_pc) : clock :=
  mkClock (time c) (timer_started c) (timer_stop c) t (dev_list c).

(** One step of [timer_routine]; [None] when it waits. *)
Definition timer_routine (c : clock) : option clock :=
  match timer c with
  | TLoop => Some (set_timer c (if timer_stop c then TExit else TWait 0 0 0))
  | TWait i f e =>
    match dev_list c !! i with
    | None => Some (set_timer c (TTick f e))
    | Some d =>
      if negb (done d) && negb (fsh d) then None
      else Some (set_timer c (TWait (S i) (if fsh d then f + 1 else f) (e + 1)))
    end
  | TTick f e =>
    Some (mkClock (u64 (time c + 1)) (timer_started c) (timer_stop c) (TClear 0 f e) (dev_list c))
  | TClear i f e =>
    match dev_list c !! i with
    | None => Some (set_timer c (if bool_decide (f = e) then TExit else TLoop))
    | Some d =>
      Some (mkClock (time c) (timer_started c) (timer_stop c) (TClear (S i) f e)
              (<[i := mkDev false (fsh d) (at_pc d) (slots d)]> (dev_list c)))
    end
  | TExit => None
  end.

(** [stop_timer], called when the threads of all devices have ended, raises the
    flag; when the timer thread has ended it frees the devices. *)
Definition stop_timer (c : clock) : clock := mkClock (time c) (timer_started c) true (timer c) (dev_list c).
Definition stop_timer_join (c : clock) : option clock :=
  match timer c with
  | TExit => Some (mkClock (time c) (timer_started c) (timer_stop c) TExit [])
  | _ => None
  end.

Definition set_dev_at (c : clock) (i : nat) (d : timer_id_t) : clock :=
  mkClock (time c) (timer_started c) (timer_stop c) (timer c) (<[i := d]> (dev_list c)).

(** The threads in any order. *)
Inductive clock_step : clock -> clock -> Prop :=
| clock_timer c c' : timer_routine c = Some c' -> clock_step c c'
| clock_call c i d : dev_list c !! i = Some d -> at_pc d = Working -> clock_step c (set_dev_at c i (next_slot_call d))
| clock_return c i d d' : dev_list c !! i = Some d -> at_pc d = InSlot -> next_slot_return d = Some d' ->
    clock_step c (set_dev_at c i d')
| clock_detach c i d : dev_list c !! i = Some d -> at_pc d = Working -> clock_step c (set_dev_at c i (detach_event d))
| clock_stop c : Forall (fun d => at_pc d = Detached) (dev_list c) -> clock_step c (stop_timer c)
| clock_join c c' : timer_stop c = true -> stop_timer_join c = Some c' -> clock_step c c'.

(** [n] devices attached, the timer started. *)
Definition clock0 : clock := mkClock 0 false false TLoop [].
Fixpoint attach_all (n : nat) (c : clock) : clock :=
  match n with O => c | S n => attach_all n (default c (attach_event c)) end.
Definition clock_init (n : nat) : clock := start_timer (attach_all n clock0).

(** ** The invariant *)

(** A device in slot [t]: at work, done, or released and not yet awake; and one
    the timer need not wait for. *)
Definition in_slot (t : Z) (d : timer_id_t) : Prop :=
  match at_pc d with
  | Working => done d = false /\ fsh d = false /\ slots d = t
  | InSlot => fsh d = false /\ (if done d then slots d = t else u64 (slots d + 1) = t)
  | Detached => fsh d = true
  end.
Definition settled (t : Z) (d : timer_id_t) : Prop :=
  match at_pc d with
  | Working => False
  | InSlot => done d = true /\ fsh d = false /\ u64 (slots d + 1) = u64 (t + 1)
  | Detached => fsh d = true
  end.
Definition out (d : timer_id_t) : Prop := at_pc d = Detached.

(** The counters over the first [i] devices. *)
Definition counted (l : list timer_id_t) (i : nat) (f e : Z) : Prop :=
  e = Z.of_nat i /\ f <= e /\ (f = e -> forall j d, (j < i)%nat -> l !! j = Some d -> out d).

Definition clock_inv (c : clock) : Prop :=
  let l := dev_list c in
  match timer c with
  | TLoop => forall j d, l !! j = Some d -> in_slot (time c) d
  | TWait i f e => (i <= length l)%nat /\ counted l i f e /\
      forall j d, l !! j = Some d -> in_slot (time c) d /\ ((j < i)%nat -> settled (time c) d)
  | TTick f e => counted l (length l) f e /\ forall j d, l !! j = Some d -> settled (time c) d
  | TClear i f e => (i <= length l)%nat /\ counted l (length l) f e /\
      forall j d, l !! j = Some d ->
        if bool_decide (j < i)%nat then in_slot (time c) d else settled (time c - 1) d
  | TExit => forall j d, l !! j = Some d -> out d
  end.

Definition clock_ok (c : clock) : Prop :=
  is_u64 (time c) /\ (timer_stop c = true -> Forall out (dev_list c)) /\ clock_inv c.

(** ** The steps of a device *)

Lemma counted_upd l i0 d d' i f e :
  l !! i0 = Some d -> ~ out d -> counted l i f e -> counted (<[i0 := d']> l) i f e.
Proof.
  intros Hd Hn (He & Hf & Ho). split; [done|]. split; [done|]. intros E j x Hj Hx.
  destruct (decide (j = i0)) as [->|Hne].
  - destruct Hn. by apply (Ho E i0).
  - rewrite list_lookup_insert_ne in Hx by done. by apply (Ho E j).
Qed.

Lemma dev_upd_ok c i0 d d' :
  dev_list c !! i0 = Some d -> ~ out d -> (forall t, ~ settled t d) -> (forall t, in_slot t d -> in_slot t d') ->
  clock_ok c -> clock_ok (set_dev_at c i0 d').
Proof.
  intros Hd Hn Hs Hin (Hu & Hst & Hinv). split; [done|]. split.
  { intros Ht. destruct Hn. exact (Forall_lookup_1 _ _ _ _ (Hst Ht) Hd). }
  pose proof (lookup_lt_Some _ _ _ Hd) as Hlt.
  assert (Hl : forall (P : nat -> timer_id_t -> Prop), (forall j x, dev_list c !! j = Some x -> P j x) ->
    (P i0 d -> P i0 d') -> forall j x, <[i0 := d']> (dev_list c) !! j = Some x -> P j x).
  { intros P HP Hp j x Hx. destruct (decide (j = i0)) as [->|Hne].
    - rewrite list_lookup_insert_eq in Hx by done. injection Hx as <-. by apply Hp, HP.
    - rewrite list_lookup_insert_ne in Hx by done. by apply HP. }
  unfold clock_inv, set_dev_at in *. cbn [timer dev_list time] in *. destruct (timer c) as [|i f e|f e|i f e|].
  - apply Hl; [done|apply Hin].
  - destruct Hinv as (Hi & Hc & HP). rewrite length_insert. split; [done|]. split; [by eapply counted_upd|].
    apply Hl; [done|]. intros [H1 H2]. split; [by apply Hin|]. intros Hj. destruct (Hs (time c)). by apply H2.
  - destruct Hinv as (Hc & HP). rewrite length_insert. split; [by eapply counted_upd|].
    apply Hl; [done|]. intros H1. by destruct (Hs (time c)).
  - destruct Hinv as (Hi & Hc & HP). rewrite length_insert. split; [done|]. split; [by eapply counted_upd|].
    apply Hl; [done|]. case_bool_decide; [apply Hin|]. intros H1. by destruct (Hs (time c - 1)).
  - destruct Hn. by apply (Hinv i0).
Qed.

(** ** The steps of the timer *)

Lemma settled_slot t d : is_u64 t -> in_slot t d -> done d = true \/ fsh d = true -> settled t d.
Proof.
  intros Hu. unfold in_slot, settled. destruct (at_pc d); [| |done].
  - intros (-> & -> & _) [?|?]; done.
  - intros [-> Hs] [Hd|?]; [|done]. rewrite Hd in Hs. rewrite Hs. done.
Qed.

Lemma settled_in_slot t d : is_u64 t -> settled (t - 1) d -> in_slot t (mkDev false (fsh d) (at_pc d) (slots d)).
Proof.
  intros Hu. unfold settled, in_slot. cbn [at_pc done fsh slots]. destruct (at_pc d); [done| |done].
  intros (_ & -> & Hs). split; [done|]. replace (t - 1 + 1) with t in Hs by lia. by rewrite Hs, u64_small.
Qed.

Lemma settled_tick t d : settled t d -> settled (u64 (t + 1) - 1) d.
Proof.
  unfold settled. destruct (at_pc d); try done. intros (H1 & H2 & H3). split_and!; [done|done|].
  replace (u64 (t + 1) - 1 + 1) with (u64 (t + 1)) by lia. by rewrite (u64_small (u64 _)) by apply u64_range.
Qed.

Lemma out_fsh t d : settled t d -> fsh d = true -> out d.
Proof. unfold settled, out. destruct (at_pc d); [done| |done]. intros (_ & Hf & _). congruence. Qed.

Lemma timer_ok c c' : clock_ok c -> timer_routine c = Some c' -> clock_ok c'.
Proof.
  intros (Hu & Hst & Hinv) Hs. unfold timer_routine, clock_inv in *. destruct (timer c) as [|i f e|f e|i f e|] eqn:Et.
  - injection Hs as <-. split; [done|]. split; [done|]. unfold clock_inv. cbn [timer set_timer dev_list time].
    destruct (timer_stop c).
    + intros j d Hd. exact (Forall_lookup_1 _ _ _ _ (Hst eq_refl) Hd).
    + split; [lia|]. split; [|intros j d Hd; split; [by apply (Hinv j)|lia]]. split; [done|]. split; [lia|]. intros _ j d. lia.
  - destruct Hinv as (Hi & (He & Hf & Ho) & HP). destruct (dev_list c !! i) as [d|] eqn:Hd.
    + destruct (negb (done d) && negb (fsh d)) eqn:Hw; [done|]. injection Hs as <-. split; [done|]. split; [done|].
      unfold clock_inv. cbn [timer set_timer dev_list time].
      assert (Hset : settled (time c) d).
      { apply settled_slot; [done|by apply (HP i)|]. destruct (done d); [by left|]. destruct (fsh d); [by right|done]. }
      split; [by apply lookup_lt_Some in Hd|]. split; [|].
      * split; [lia|]. split; [destruct (fsh d); lia|]. intros Ee j x Hj Hx. destruct (fsh d) eqn:Hfs; [|lia].
        destruct (decide (j = i)) as [->|Hne]; [rewrite Hd in Hx; injection Hx as <-; by eapply out_fsh|].
        apply (Ho ltac:(lia) j); [lia|done].
      * intros j x Hx. destruct (HP j x Hx) as [H1 H2]. split; [done|]. intros Hj.
        destruct (decide (j = i)) as [->|Hne]; [rewrite Hd in Hx; by injection Hx as <-|]. apply H2. lia.
    + injection Hs as <-. split; [done|]. split; [done|]. unfold clock_inv. cbn [timer set_timer dev_list time].
      apply lookup_ge_None in Hd. assert (i = length (dev_list c)) as -> by lia. split; [done|].
      intros j d Hd'. apply (HP j d Hd'). by eapply lookup_lt_Some.
  - destruct Hinv as (Hc & HP). injection Hs as <-. split; [apply u64_range|]. split; [done|].
    unfold clock_inv. cbn [timer dev_list time]. split; [lia|]. split; [done|]. intros j d Hd.
    rewrite bool_decide_false by lia. by apply settled_tick, (HP j).
  - destruct Hinv as (Hi & Hc & HP). destruct (dev_list c !! i) as [d|] eqn:Hd.
    + injection Hs as <-. pose proof (lookup_lt_Some _ _ _ Hd) as Hlt.
      pose proof (HP i d Hd) as Hset. rewrite bool_decide_false in Hset by lia.
      assert (Hlk : forall j x, <[i := mkDev false (fsh d) (at_pc d) (slots d)]> (dev_list c) !! j = Some x ->
        (j = i /\ x = mkDev false (fsh d) (at_pc d) (slots d)) \/ (j <> i /\ dev_list c !! j = Some x)).
      { intros j x Hx. destruct (decide (j = i)) as [->|Hne]; [left; rewrite list_lookup_insert_eq in Hx by done; by injection Hx|].
        right. by rewrite list_lookup_insert_ne in Hx. }
      split; [done|]. split; [|].
      { intros Ht. apply Forall_insert; [by apply Hst|]. exact (Forall_lookup_1 _ _ _ _ (Hst Ht) Hd). }
      unfold clock_inv. cbn [timer dev_list time]. rewrite length_insert. split; [lia|]. split.
      * destruct Hc as (He & Hf & Ho). split; [done|]. split; [done|]. intros Ee j x Hj [[-> ->]|[_ Hx]]%Hlk.
        -- exact (Ho Ee i d Hlt Hd).
        -- by apply (Ho Ee j).
      * intros j x [[-> ->]|[Hne Hx]]%Hlk.
        -- rewrite bool_decide_true by lia. by apply settled_in_slot.
        -- pose proof (HP j x Hx) as Hj. repeat case_bool_decide; try done; lia.
    + injection Hs as <-. apply lookup_ge_None in Hd. split; [done|]. split; [done|].
      unfold clock_inv. cbn [timer set_timer dev_list time]. case_bool_decide as Ee.
      * intros j d Hd'. destruct Hc as (_ & _ & Ho). apply (Ho Ee j d); [by eapply lookup_lt_Some|done].
      * intros j d Hd'. pose proof (HP j d Hd') as Hj. rewrite bool_decide_true in Hj; [done|].
        apply lookup_lt_Some in Hd'. lia.
  - done.
Qed.

Lemma clock_step_ok c c' : clock_ok c -> clock_step c c' -> clock_ok c'.
Proof.
  intros HI Hs. destruct Hs as [c c' Ht|c i d Hd Hw|c i d d' Hd Hw Hr|c i d Hd Hw|c Hall|c c' Hst Hj].
  - by eapply timer_ok.
  - eapply (dev_upd_ok c i d); [done|..|done]; unfold out, settled, in_slot; cbn [at_pc done fsh slots next_slot_call]; rewrite Hw.
    + done.
    + by intros t [].
    + intros t (_ & -> & ->). done.
  - unfold next_slot_return in Hr. destruct (done d) eqn:Hdn; [done|]. injection Hr as <-.
    eapply (dev_upd_ok c i d); [done|..|done]; unfold out, settled, in_slot; cbn [at_pc done fsh slots]; rewrite Hw, ?Hdn.
    + done.
    + by intros t (? & _).
    + intros t (-> & ->). done.
  - eapply (dev_upd_ok c i d); [done|..|done]; unfold out, settled, in_slot; cbn [at_pc done fsh slots detach_event]; rewrite Hw.
    + done.
    + by intros t [].
    + done.
  - destruct HI as (Hu & _ & Hinv). split; [done|]. split; [by intros _|]. exact Hinv.
  - unfold stop_timer_join in Hj. destruct (timer c) eqn:Et; try done. injection Hj as <-.
    destruct HI as (Hu & _ & _). split; [done|]. split; [by constructor|]. intros j d Hd. cbn [dev_list] in Hd. by rewrite lookup_nil in Hd.
Qed.

(** ** The start *)

Lemma attach_all_devs n : forall c, timer_started c = false ->
  Forall (fun d => d = mkDev false false Working 0) (dev_list c) ->
  let c' := attach_all n c in
  time c' = time c /\ timer_stop c' = timer_stop c /\ timer c' = timer c /\
  length (dev_list c') = (n + length (dev_list c))%nat /\ Forall (fun d => d = mkDev false false Working 0) (dev_list c').
Proof.
  induction n as [|n IH]; intros c Hs HF; [done|]. cbn [attach_all]. unfold attach_event. rewrite Hs. cbn [default].
  destruct (IH (mkClock (time c) false (timer_stop c) (timer c) (mkDev false false Working 0 :: dev_list c)))
    as (H1 & H2 & H3 & H4 & H5); [done|by constructor|]. split_and!; try done. etrans; [exact H4|]. simpl. lia.
Qed.

Lemma clock_init_ok n : clock_ok (clock_init n) /\ length (dev_list (clock_init n)) = n.
Proof.
  destruct (attach_all_devs n clock0 eq_refl ltac:(constructor)) as (H1 & H2 & H3 & H4 & H5).
  unfold clock_init, start_timer. split; [|cbn [dev_list]; rewrite H4; simpl; lia].
  split; [cbn [time]; rewrite H1; done|]. split; [cbn [timer_stop]; by rewrite H2|].
  unfold clock_inv. cbn [timer time dev_list]. rewrite H3. intros j d Hd.
  pose proof (Forall_lookup_1 _ _ _ _ H5 Hd) as ->. unfold in_slot. cbn [at_pc done fsh slots]. by rewrite H1.
Qed.

Lemma clock_reachable n c : rtc clock_step (clock_init n) c -> clock_ok c.
Proof.
  intros Hr. assert (H : clock_ok (clock_init n)) by apply clock_init_ok. revert H.
  induction Hr as [|c1 c2 c3 Hs _ IH]; [done|]. intros H. by apply IH, (clock_step_ok c1).
Qed.

(** Is someone able to move? *)
Definition can_move (c : clock) (i : nat) : Prop :=
  exists d, dev_list c !! i = Some d /\ (at_pc d = Working \/ at_pc d = InSlot /\ is_Some (next_slot_return d)).

Lemma clock_progress c :
  clock_ok c -> timer c <> TExit ->
  (exists c', timer_routine c = Some c') \/ exists i f e, timer c = TWait i f e /\ can_move c i.
Proof.
  intros (Hu & _ & Hinv) Hne. unfold timer_routine, clock_inv in *.
  destruct (timer c) as [|i f e|f e|i f e|]; [by eauto| |by eauto|destruct (dev_list c !! i); by eauto|done].
  destruct Hinv as (_ & _ & HP). destruct (dev_list c !! i) as [d|] eqn:Hd; [|by eauto].
  destruct (negb (done d) && negb (fsh d)) eqn:Hw; [right|by eauto]. exists i, f, e. split; [done|]. exists d. split; [done|].
  destruct (HP i d Hd) as [H _]. unfold in_slot in H. apply andb_true_iff in Hw as [Hdn Hfs].
  destruct (at_pc d); [by left|right|by rewrite H in Hfs]. split; [done|].
  unfold next_slot_return. destruct (done d); [done|]. by eexists.
Qed.

(** ** Properties *)

(** C22. The clock is a barrier: whatever the order in which the threads run, a
    device at work is in the current time slot, never ahead and never behind;
    the time advances only when no device is at work; and the timer ends only
    when every device has detached. *)
Theorem timer_barrier n c :
  rtc clock_step (clock_init n) c ->
  (forall i d, dev_list c !! i = Some d -> at_pc d = Working -> slots d = current_time c) /\
  (forall f e i d, timer c = TTick f e -> dev_list c !! i = Some d -> at_pc d <> Working) /\
  (timer c = TExit -> Forall (fun d => at_pc d = Detached) (dev_list c)).
Proof.
  intros (Hu & _ & Hinv)%clock_reachable. unfold clock_inv in Hinv. split; [|split].
  - intros i d Hd Hw.
    assert (Hslot : in_slot (time c) d -> slots d = time c) by (unfold in_slot; rewrite Hw; by intros (_ & _ & ?)).
    assert (Hset : forall t, ~ settled t d) by (intros t; unfold settled; rewrite Hw; by intros []).
    destruct (timer c) as [|j f e|f e|j f e|].
    + by apply Hslot, (Hinv i).
    + apply Hslot. destruct Hinv as (_ & _ & HP). by apply (HP i).
    + destruct Hinv as (_ & HP). by destruct (Hset (time c) (HP i d Hd)).
    + destruct Hinv as (_ & _ & HP). pose proof (HP i d Hd) as H. case_bool_decide; [by apply Hslot|]. by destruct (Hset _ H).
    + pose proof (Hinv i d Hd) as H. unfold out in H. congruence.
  - intros f e i d Ht Hd Hw. rewrite Ht in Hinv. destruct Hinv as (_ & HP). pose proof (HP i d Hd) as H.
    unfold settled in H. by rewrite Hw in H.
  - intros Ht. rewrite Ht in Hinv. apply Forall_lookup. intros i d. apply Hinv.
Qed.

(** A clock with two devices, one of which has ended its part of the slot. *)
Definition demo_clock : clock :=
  mkClock 0 true false TLoop [mkDev true false InSlot 0; mkDev false false Working 0].

Lemma demo_clock_steps : rtc clock_step (clock_init 2) demo_clock.
Proof.
  eapply rtc_l; [apply (clock_call (clock_init 2) 0 (mkDev false false Working 0)); reflexivity|]. apply rtc_refl.
Qed.

Lemma timer_barrier_witness : slots (mkDev false false Working 0) = current_time demo_clock.
Proof. apply (proj1 (timer_barrier 2 demo_clock demo_clock_steps) 1%nat); reflexivity. Defined.

(** The clock never deadlocks: as long as the timer has not ended, it can
    take a step, or the device it waits for can. *)
Theorem timer_no_deadlock n c :
  rtc clock_step (clock_init n) c -> timer c <> TExit ->
  (exists c', timer_routine c = Some c') \/ exists i f e, timer c = TWait i f e /\ can_move c i.
Proof. intros Hr. by eapply clock_progress, clock_reachable. Qed.

Lemma timer_no_deadlock_witness :
  (exists c', timer_routine demo_clock = Some c') \/ exists i f e, timer demo_clock = TWait i f e /\ can_move demo_clock i.
Proof. apply (timer_no_deadlock 2 demo_clock demo_clock_steps). discriminate. Defined.
