(* ===== verification/Scanf.v ===== *)
(** * Reading formatted text (the C library functions the readers use)

    [fscanf], [sscanf] and [fgets] on a stream of characters, for the
    conversions that occur in [src/loader.c] and in [read_config] of
    [src/os.c].  A format is a list of directives; a call assigns the converted
    values in order and stops at the first directive that fails, leaving the
    rest of the stream.  A numeral whose value the object cannot hold is
    undefined behaviour.  [show] prints a number in decimal; reading it back is
    the lemma the readers' round trips rest on. *)

From S2P Require Import Prelude.
From S2P Require Import Word.
From Stdlib Require Export Ascii.
From Stdlib Require String.
From stdpp Require Export strings list.
Open Scope Z_scope.

(** ** Characters *)

Notation chars := (list ascii).
Notation text := String.list_ascii_of_string.

Definition code_of (c : ascii) : Z := Z.of_N (N_of_ascii c).
Definition isspace (c : ascii) : bool :=
  bool_decide (code_of c = 32) || bool_decide (9 <= code_of c <= 13).
Definition isdigit (c : ascii) : bool := bool_decide (48 <= code_of c <= 57).
Definition newline : ascii := ascii_of_N 10.
Definition is_nul (c : ascii) : bool := bool_decide (code_of c = 0).

(** The characters of a buffer up to its terminator. *)
Fixpoint c_string (l : chars) : chars :=
  match l with
  | [] => []
  | c :: l => if is_nul c then [] else c :: c_string l
  end.

Fixpoint skip_ws (l : chars) : chars :=
  match l with
  | [] => []
  | c :: l' => if isspace c then skip_ws l' else l
  end.

(** ** Conversions *)

Fixpoint read_digits (n : Z) (l : chars) : Z * chars :=
  match l with
  | [] => (n, [])
  | c :: l' => if isdigit c then read_digits (10 * n + (code_of c - 48)) l' else (n, l)
  end.

(** An optional sign and digits; [None] when there is no digit. *)
Definition read_int (l : chars) : option Z * chars :=
  let l := skip_ws l in
  let '(neg, l) :=
    match l with
    | c :: l' =>
      if bool_decide (code_of c = 45) then (true, l')
      else if bool_decide (code_of c = 43) then (false, l') else (false, l)
    | [] => (false, l)
    end in
  match l with
  | c :: _ =>
    if isdigit c then
      let '(n, rest) := read_digits 0 l in (Some (if neg : bool then - n else n), rest)
    else (None, l)
  | [] => (None, l)
  end.

(** At most [w] characters that are not white space. *)
Fixpoint read_word (w : nat) (l : chars) : chars * chars :=
  match w, l with
  | S w, c :: l' =>
    if isspace c then ([], l) else let '(a, r) := read_word w l' in (c :: a, r)
  | _, _ => ([], l)
  end.

(** [%d], [%u], [%lu] (and the 64-bit [SCAN_ARG]), [%<w>s], [%c], white space. *)
Inductive dir := Int | Uint | Ulong | Str (w : nat) | Char | Space.
Inductive val := Num (z : Z) | Txt (w : chars).

(** What an integer directive stores; [None]: the object cannot hold it. *)
Definition stored (d : dir) (z : Z) : option Z :=
  match d with
  | Int => if bool_decide (- 2 ^ 31 <= z < 2 ^ 31) then Some z else None
  | Uint => if bool_decide (0 <= z < 2 ^ 32) then Some z else None
  | _ => if bool_decide (- 2 ^ 64 < z < 2 ^ 64) then Some (u64 z) else None
  end.

(** The values assigned and the rest of the stream; [None]: undefined. *)
Fixpoint scanf (fmt : list dir) (l : chars) : option (list val * chars) :=
  match fmt with
  | [] => Some ([], l)
  | Space :: fmt => scanf fmt (skip_ws l)
  | Str w :: fmt =>
    match read_word w (skip_ws l) with
    | ([], r) => Some ([], r)
    | (a, r) => '(vs, r) ← scanf fmt r; Some (Txt a :: vs, r)
    end
  | Char :: fmt =>
    match l with
    | [] => Some ([], l)
    | c :: r => '(vs, r) ← scanf fmt r; Some (Txt [c] :: vs, r)
    end
  | d :: fmt =>
    match read_int l with
    | (None, r) => Some ([], r)
    | (Some z, r) => z ← stored d z; '(vs, r) ← scanf fmt r; Some (Num z :: vs, r)
    end
  end.

(** A line of at most [n] characters with its newline, and the rest. *)
Fixpoint read_line (n : nat) (l : chars) : chars * chars :=
  match n, l with
  | S n, c :: l' =>
    if bool_decide (code_of c = 10) then ([c], l') else let '(a, r) := read_line n l' in (c :: a, r)
  | _, _ => ([], l)
  end.

(** [fgets] into a buffer of [size] characters; [None]: NULL, at the end. *)
Definition fgets (size : nat) (l : chars) : option (chars * chars) :=
  match l with [] => None | _ => Some (read_line (size - 1) l) end.

(** The [i]-th value assigned, or what the object held before. *)
Definition num_at (vs : list val) (i : nat) (old : Z) : Z :=
  match vs !! i with Some (Num z) => z | _ => old end.

(** ** Printing *)

Definition digit (d : Z) : ascii := ascii_of_N (Z.to_N (48 + d)).

Fixpoint show_fuel (f : nat) (n : Z) : chars :=
  match f with
  | O => []
  | S f => (if bool_decide (n < 10) then [] else show_fuel f (n / 10)) ++ [digit (n mod 10)]
  end.

(** Twenty digits are enough for 64 bits. *)
Definition show (n : Z) : chars := show_fuel 20 n.

(** ** Reading what was printed *)

Lemma code_digit d : 0 <= d < 10 -> code_of (digit d) = 48 + d.
Proof.
  intros Hd. unfold code_of, digit. rewrite N_ascii_embedding; [rewrite Z2N.id; lia|]. lia.
Qed.

Lemma digit_isdigit d : 0 <= d < 10 -> isdigit (digit d) = true.
Proof. intros Hd. unfold isdigit. rewrite code_digit by done. apply bool_decide_true. lia. Qed.

Lemma isdigit_not_space c : isdigit c = true -> isspace c = false.
Proof.
  unfold isdigit, isspace. intros H%bool_decide_eq_true.
  rewrite bool_decide_false, bool_decide_false by lia. done.
Qed.

(** The next character does not belong to a numeral, resp. to a word. *)
Definition no_digit (l : chars) : Prop := match l with [] => True | c :: _ => isdigit c = false end.
Definition no_word (l : chars) : Prop := match l with [] => True | c :: _ => isspace c = true end.

Lemma no_word_digit l : no_word l -> no_digit l.
Proof.
  destruct l as [|c l]; [done|]. simpl. intros H. destruct (isdigit c) eqn:E; [|done].
  apply isdigit_not_space in E. congruence.
Qed.

Lemma show_fuel_read f : forall n acc l, 0 <= n < 10 ^ Z.of_nat f -> (f <> 0)%nat ->
  read_digits acc (show_fuel f n ++ l) = read_digits (acc * 10 ^ Z.of_nat (length (show_fuel f n)) + n) l.
Proof.
  induction f as [|f IH]; intros n acc l Hn Hf; [done|]. cbn [show_fuel].
  pose proof (Z.mod_pos_bound n 10 ltac:(lia)) as Hm. pose proof (Z.div_mod n 10 ltac:(lia)) as Hdm.
  assert (Hlast : forall a, read_digits a ([digit (n mod 10)] ++ l) = read_digits (10 * a + n mod 10) l).
  { intros a. cbn [app read_digits]. rewrite digit_isdigit, code_digit by done. f_equal. lia. }
  case_bool_decide as Hlt.
  - rewrite app_nil_l, Hlast. f_equal. rewrite Z.mod_small by lia. simpl length. lia.
  - rewrite <- app_assoc, IH, Hlast.
    + f_equal. rewrite length_app, Nat2Z.inj_add, Z.pow_add_r by lia. simpl (length [_]). change (10 ^ Z.of_nat 1) with 10. lia.
    + rewrite Nat2Z.inj_succ, Z.pow_succ_r in Hn by lia. split; [apply Z.div_pos; lia|]. apply Z.div_lt_upper_bound; lia.
    + intros ->. change (10 ^ Z.of_nat 1) with 10 in Hn. lia.
Qed.

Lemma show_head n : 0 <= n -> exists d l, show n = digit d :: l /\ 0 <= d < 10.
Proof.
  unfold show. generalize 19%nat. intros f. revert n.
  assert (Hm : forall n, 0 <= n mod 10 < 10) by (intros; apply Z.mod_pos_bound; lia).
  induction f as [|f IH]; intros n Hn.
  - exists (n mod 10), []. split; [|done]. cbn [show_fuel]. by case_bool_decide.
  - change (show_fuel (S (S f)) n) with ((if bool_decide (n < 10) then [] else show_fuel (S f) (n / 10)) ++ [digit (n mod 10)]).
    case_bool_decide; [by exists (n mod 10), []|].
    destruct (IH (n / 10)) as (d & l & -> & Hd); [apply Z.div_pos; lia|]. by eexists _, _.
Qed.

Lemma show_length n : (length (show n) <= 20)%nat.
Proof.
  unfold show. generalize 20%nat. intros f. revert n. induction f as [|f IH]; intros n; [done|]. cbn [show_fuel].
  rewrite length_app. simpl (length [_]). case_bool_decide; [simpl; lia|]. specialize (IH (n / 10)). lia.
Qed.

Lemma skip_digit d l : 0 <= d < 10 -> skip_ws (digit d :: l) = digit d :: l.
Proof. intros Hd. cbn [skip_ws]. by rewrite isdigit_not_space by by apply digit_isdigit. Qed.

Lemma read_digits_stop n l : no_digit l -> read_digits n l = (n, l).
Proof. destruct l as [|c l]; [done|]. simpl. by intros ->. Qed.

Lemma read_int_show n l : is_u64 n -> no_digit l -> read_int (show n ++ l) = (Some n, l).
Proof.
  intros Hn Hl. destruct (show_head n) as (d & t & Hs & Hd); [unfold is_u64 in Hn; lia|].
  unfold read_int. rewrite Hs. cbn [app]. rewrite skip_digit by done. rewrite code_digit by done.
  rewrite bool_decide_false, bool_decide_false by lia. rewrite digit_isdigit by done.
  change (digit d :: t ++ l) with ((digit d :: t) ++ l). rewrite <- Hs. unfold show. rewrite show_fuel_read; [|unfold is_u64 in Hn; lia|done].
  by rewrite read_digits_stop, Z.add_0_l by done.
Qed.

(** White space before a directive that skips it. *)
Lemma read_int_space c l : isspace c = true -> read_int (c :: l) = read_int l.
Proof. intros Hc. unfold read_int. cbn [skip_ws]. by rewrite Hc. Qed.

Definition numeric (d : dir) : Prop := match d with Int | Uint | Ulong => True | _ => False end.

Lemma scanf_num d fmt n l : is_u64 n -> no_digit l -> stored d n = Some n -> numeric d ->
  scanf (d :: fmt) (show n ++ l) = '(vs, r) ← scanf fmt l; Some (Num n :: vs, r).
Proof.
  intros Hn Hl Hst Hd. destruct d; try done; cbn [scanf]; rewrite read_int_show by done; rewrite Hst; reflexivity.
Qed.

Lemma scanf_blank d fmt c l : isspace c = true -> d <> Char -> scanf (d :: fmt) (c :: l) = scanf (d :: fmt) l.
Proof.
  intros Hc Hd. destruct d; try done; cbn [scanf]; rewrite ?read_int_space by done; try done; cbn [skip_ws]; by rewrite Hc.
Qed.

Lemma stored_ulong n : is_u64 n -> stored Ulong n = Some n.
Proof. intros Hn. unfold stored. rewrite bool_decide_true by (unfold is_u64 in Hn; lia). by rewrite u64_small. Qed.
Lemma stored_uint n : 0 <= n < 2 ^ 32 -> stored Uint n = Some n.
Proof. intros Hn. unfold stored. by rewrite bool_decide_true. Qed.
Lemma stored_int n : 0 <= n < 2 ^ 31 -> stored Int n = Some n.
Proof. intros Hn. unfold stored. by rewrite bool_decide_true by lia. Qed.

(** A word. *)
Definition wordlike (w : chars) : Prop := w <> [] /\ Forall (fun c => isspace c = false) w.

Lemma read_word_all w l n : Forall (fun c => isspace c = false) w -> (length w <= n)%nat -> no_word l ->
  read_word n (w ++ l) = (w, l).
Proof.
  intros HF. revert n. induction HF as [|c w Hc HF IH]; intros n Hn Hl.
  - destruct n as [|n]; [done|]. destruct l as [|c l]; [done|]. simpl in *. by rewrite Hl.
  - destruct n as [|n]; [simpl in Hn; lia|]. cbn [app read_word]. rewrite Hc. rewrite IH; [done|simpl in Hn; lia|done].
Qed.

Lemma skip_word w l : wordlike w -> skip_ws (w ++ l) = w ++ l.
Proof. intros [Hw HF]. destruct HF as [|c w Hc HF]; [done|]. cbn [app skip_ws]. by rewrite Hc. Qed.

Lemma scanf_word n fmt w l : wordlike w -> (length w <= n)%nat -> no_word l ->
  scanf (Str n :: fmt) (w ++ l) = '(vs, r) ← scanf fmt l; Some (Txt w :: vs, r).
Proof.
  intros Hw Hn Hl. cbn [scanf]. rewrite skip_word by done. destruct Hw as [Hw HF].
  rewrite read_word_all by done. by destruct w.
Qed.

(** A line. *)
Lemma read_line_all a l n : Forall (fun c => code_of c <> 10) a -> (length a < n)%nat ->
  read_line n (a ++ newline :: l) = (a ++ [newline], l).
Proof.
  intros HF. revert n. induction HF as [|c a Hc HF IH]; intros n Hn.
  - destruct n as [|n]; [lia|]. done.
  - destruct n as [|n]; [lia|]. cbn [app read_line]. rewrite bool_decide_false by done.
    rewrite IH; [done|simpl in Hn; lia].
Qed.

Lemma c_string_id l : Forall (fun c => is_nul c = false) l -> c_string l = l.
Proof. induction 1 as [|c l Hc HF IH]; [done|]. cbn [c_string]. by rewrite Hc, IH. Qed.

Lemma show_digits n : Forall (fun c => isdigit c = true) (show n).
Proof.
  unfold show. generalize 20%nat. intros f. revert n. induction f as [|f IH]; intros n; [constructor|]. cbn [show_fuel].
  apply Forall_app. split; [case_bool_decide; [constructor|apply IH]|]. constructor; [|constructor].
  apply digit_isdigit, Z.mod_pos_bound. lia.
Qed.

(** ** What a call can assign *)

Definition val_in (Q : Z -> Prop) (v : val) : Prop := match v with Num z => Q z | Txt _ => True end.

Lemma scanf_vals (Q : Z -> Prop) fmt :
  Forall (fun d => numeric d -> forall z z', stored d z = Some z' -> Q z') fmt ->
  forall l vs r, scanf fmt l = Some (vs, r) -> Forall (val_in Q) vs.
Proof.
  induction 1 as [|d fmt Hd HF IH]; intros l vs r; cbn [scanf]; [intros [= <- _]; constructor|].
  assert (Hrest : forall v l0, val_in Q v ->
    ('(vs, r) ← scanf fmt l0; Some (v :: vs, r)) = Some (vs, r) -> Forall (val_in Q) vs).
  { intros v l0 Hv H. destruct (scanf fmt l0) as [[vs0 r0]|] eqn:E; [|done]. injection H as <- _. constructor; [done|by eapply IH]. }
  destruct d;
    try (destruct (read_int l) as [[z|] r0]; [|intros [= <- _]; constructor];
         destruct (stored _ z) as [z'|] eqn:E; [|done]; cbn [mbind option_bind];
         apply Hrest; exact (Hd I _ _ E)).
  - destruct (read_word w (skip_ws l)) as [[|c a] r0]; [intros [= <- _]; constructor|]. by apply Hrest.
  - destruct l as [|c l]; [intros [= <- _]; constructor|]. by apply Hrest.
  - apply IH.
Qed.

Lemma num_at_in (Q : Z -> Prop) vs i old : Forall (val_in Q) vs -> Q old -> Q (num_at vs i old).
Proof.
  intros HF Ho. unfold num_at. destruct (vs !! i) as [v|] eqn:E; [|done].
  pose proof (Forall_lookup_1 _ _ _ _ HF E) as Hv. by destruct v.
Qed.

Lemma stored_range d z z' :
  stored d z = Some z' ->
  match d with Int => - 2 ^ 31 <= z' < 2 ^ 31 | Uint => 0 <= z' < 2 ^ 32 | _ => is_u64 z' end.
Proof. unfold stored. destruct d; case_bool_decide; try done; intros [= <-]; try done; apply u64_range. Qed.

(** [%lu] assigns 64-bit words, [%u] 32-bit words. *)
Lemma scanf_words fmt l vs r :
  Forall (fun d => d <> Int) fmt -> scanf fmt l = Some (vs, r) -> Forall (val_in is_u64) vs.
Proof.
  intros HF. apply scanf_vals. eapply Forall_impl; [exact HF|]. intros d Hd _ z z' H%stored_range. unfold is_u64 in *.
  destruct d; try done; lia.
Qed.
Lemma scanf_uints fmt l vs r :
  Forall (fun d => d <> Int /\ d <> Ulong) fmt -> scanf fmt l = Some (vs, r) -> Forall (val_in (fun z => 0 <= z < 2 ^ 32)) vs.
Proof.
  intros HF. apply scanf_vals. eapply Forall_impl; [exact HF|]. intros d [H1 H2] Hn z z' H%stored_range. by destruct d.
Qed.
