(* ===== verification/Loader.v ===== *)
(** * The program loader ([src/loader.c])

    [load] reads a program file: a priority and a number of instructions, then
    one instruction after the other.  The stream, the opcode buffer and the line
    buffer live across the iterations, so the model threads them as a state;
    [None] is a buffer that nothing was stored in yet.  What [malloc]'ed memory
    contains before it is written is an argument ([fresh]).

    Printing a program and loading it gives the program back, and whatever a
    file contains, a process that is loaded has the form the rest of the
    simulator relies on. *)

From S2P Require Import Prelude.
From S2P Require Import Word.
From S2P Require Import MemPhy.
From S2P Require Import Machine.
From S2P Require Import PageTable.
From S2P Require Import Cpu.
From S2P Require Import Isolation.
From S2P Require Import Create.
From S2P Require Import Os.
From S2P Require Import Scanf.

Open Scope c_scope.
Open Scope Z_scope.

(** ** Definitions *)

Record io := mkIo { stream : chars; opcode_buf : option chars; line_buf : option chars }.

Definition get_opcode (opt : chars) : M io ins_opcode_t :=
  let same w := bool_decide (c_string opt = text w) in
  if same "calc" then ret CALC
  else if same "alloc" then ret ALLOC
  else if same "free" then ret FREE
  else if same "read" then ret READ
  else if same "write" then ret WRITE
  else if same "kmalloc" then ret KMALLOC
  else if same "kmem_cache_create" then ret KMEM_CACHE_CREATE
  else if same "kmem_cache_alloc" then ret KMEM_CACHE_ALLOC
  else if same "copy_from_user" then ret COPY_FROM_USER
  else if same "copy_to_user" then ret COPY_TO_USER
  else if same "syscall" then ret SYSCALL
  else exit.

(** [fscanf] on the file. *)
Definition scan (fmt : list dir) : M io (list val) := fun s =>
  match scanf fmt (stream s) with
  | Some (vs, r) => Ret vs (mkIo r (opcode_buf s) (line_buf s))
  | None => Ub
  end.

(** The operands that were converted; the others keep their value. *)
Definition set_args (ins : inst_t) (vs : list val) : inst_t :=
  mkInst (opcode ins) (num_at vs 0 (arg_0 ins)) (num_at vs 1 (arg_1 ins))
    (num_at vs 2 (arg_2 ins)) (num_at vs 3 (arg_3 ins)).

Definition scan_opcode : M io chars :=
  let* vs := scan [Str 31] in
  modify (fun s => match vs with [Txt w] => mkIo (stream s) (Some w) (line_buf s) | _ => s end) ;;
  let* s := get in
  match opcode_buf s with Some w => ret w | None => ub end.

Definition scan_line : M io (list val) :=
  modify (fun s =>
    match fgets 200 (stream s) with
    | Some (b, r) => mkIo r (opcode_buf s) (Some b)
    | None => s
    end) ;;
  let* s := get in
  match line_buf s with
  | None => ub
  | Some b =>
    match scanf [Ulong; Ulong; Ulong; Ulong] (c_string b) with
    | Some (vs, _) => ret vs
    | None => ub
    end
  end.

(** One round of the loop; [old] is the slot of the array before it. *)
Definition load_inst (old : inst_t) : M io inst_t :=
  let* w := scan_opcode in
  let* o := get_opcode w in
  let ins := mkInst o (arg_0 old) (arg_1 old) (arg_2 old) (arg_3 old) in
  match o with
  | CALC => ret ins
  | KMEM_CACHE_ALLOC | KMALLOC | ALLOC =>
    let* vs := scan [Ulong; Space; Ulong; Space] in ret (set_args ins vs)
  | FREE => let* vs := scan [Ulong; Space] in ret (set_args ins vs)
  | KMEM_CACHE_CREATE | READ | WRITE =>
    let* vs := scan [Ulong; Space; Ulong; Space; Ulong; Space] in ret (set_args ins vs)
  | COPY_FROM_USER | COPY_TO_USER | SYSCALL =>
    let* vs := scan_line in ret (set_args ins vs)
  end.

Fixpoint load_text (olds : list inst_t) : M io (list inst_t) :=
  match olds with
  | [] => ret []
  | old :: olds =>
    let* ins := load_inst old in
    let* rest := load_text olds in
    ret (ins :: rest)
  end.

(** Memory that was allocated and not yet written. *)
Record fresh := mkFresh {
  f_priority : Z; f_size : Z; f_text : nat -> inst_t; f_regs : list Z; f_prio : Z; f_krnl : option krnl_t }.

Definition PAGE_SIZE : Z := Z.shiftl 1 10.

(** [file] is the content of the file, [None] if it cannot be opened.  The
    result is the process and the next identifier. *)
Definition load (avail_pid : Z) (file : option chars) (f : fresh) : M machine (pcb_t * Z) :=
  let* proc := malloc in
  if negb proc then ub
  else
    let* _ := malloc in
    match file with
    | None => exit
    | Some l =>
      let* cseg := malloc in
      if negb cseg then ub
      else
        match scanf [Uint; Space; Uint] l with
        | None => ub
        | Some (vs, l) =>
          let size := num_at vs 1 (f_size f) in
          let* txt := malloc in
          if negb txt && bool_decide (size <> 0) then ub
          else
            match load_text (f_text f <$> seq 0 (Z.to_nat size)) (mkIo l None None) with
            | Ub => ub
            | Exit _ => exit
            | Ret insts _ =>
              ret (mkPcb avail_pid (num_at vs 0 (f_priority f)) insts (f_regs f) 0 (f_prio f) (f_krnl f) PAGE_SIZE,
                   u32 (avail_pid + 1))
            end
        end
    end.

(** ** Printing a program *)

Definition mnemonic (o : ins_opcode_t) : chars :=
  match o with
  | CALC => text "calc" | ALLOC => text "alloc" | FREE => text "free" | READ => text "read" | WRITE => text "write"
  | KMALLOC => text "kmalloc" | KMEM_CACHE_CREATE => text "kmem_cache_create"
  | KMEM_CACHE_ALLOC => text "kmem_cache_alloc" | COPY_FROM_USER => text "copy_from_user"
  | COPY_TO_USER => text "copy_to_user" | SYSCALL => text "syscall"
  end.

Definition arity (o : ins_opcode_t) : nat :=
  match o with
  | CALC => 0 | FREE => 1 | ALLOC | KMALLOC | KMEM_CACHE_ALLOC => 2 | KMEM_CACHE_CREATE | READ | WRITE => 3
  | COPY_FROM_USER | COPY_TO_USER | SYSCALL => 4
  end.

Definition operands (ins : inst_t) : list Z :=
  take (arity (opcode ins)) [arg_0 ins; arg_1 ins; arg_2 ins; arg_3 ins].

Definition blank_char : ascii := ascii_of_N 32.
Definition print_args (l : list Z) : chars := concat ((fun a => blank_char :: show a) <$> l).
Definition print_inst (ins : inst_t) : chars :=
  mnemonic (opcode ins) ++ print_args (operands ins) ++ [newline].
Definition print_program (priority : Z) (insts : list inst_t) : chars :=
  show priority ++ blank_char :: show (Z.of_nat (length insts)) ++ newline :: concat (print_inst <$> insts).

(** An instruction in a slot: the operands its opcode has, the rest of the slot
    as it was. *)
Definition slot_with (old ins : inst_t) : inst_t :=
  set_args (mkInst (opcode ins) (arg_0 old) (arg_1 old) (arg_2 old) (arg_3 old)) (Num <$> operands ins).

(** ** Reading an instruction back *)

Lemma mnemonic_wordlike o : wordlike (mnemonic o) /\ (length (mnemonic o) <= 31)%nat.
Proof. destruct o; (split; [split; [done|repeat (constructor; [reflexivity|]); constructor]|simpl; lia]). Qed.

Lemma get_opcode_mnemonic o s : get_opcode (mnemonic o) s = Ret o s.
Proof. by destruct o. Qed.

Lemma print_args_stop l c r : isspace c = true -> no_digit (print_args l ++ c :: r).
Proof. intros Hc. apply no_word_digit. by destruct l. Qed.

(** What the next word depends on. *)
Lemma scan_word_skip n l : scanf [Str n] l = scanf [Str n] (skip_ws l).
Proof.
  assert (H : skip_ws (skip_ws l) = skip_ws l).
  { induction l as [|c l IH]; [done|]. cbn [skip_ws]. destruct (isspace c) eqn:E; [done|]. cbn [skip_ws]. by rewrite E. }
  cbn [scanf]. by rewrite H.
Qed.

Lemma skip_show n l : 0 <= n -> skip_ws (show n ++ l) = show n ++ l.
Proof. intros Hn. destruct (show_head n Hn) as (d & t & -> & Hd). by apply skip_digit. Qed.

(** The operands of a line, with the format of [fscanf] and with that of
    [sscanf]. *)
Lemma scan_args_spaced (args : list Z) r : Forall is_u64 args -> args <> [] ->
  scanf (concat ((fun _ => [Ulong; Space]) <$> args)) (print_args args ++ newline :: r) =
  Some (Num <$> args, skip_ws r).
Proof.
  induction 1 as [|a args Ha HF IH]; [done|]. intros _. unfold print_args in *. cbn [fmap list_fmap concat].
  change ((blank_char :: show a) ++ ?x) with (blank_char :: (show a ++ x)). rewrite <- !app_comm_cons, <- !app_assoc.
  change ([Ulong; Space] ++ ?x) with (Ulong :: Space :: x).
  rewrite scanf_blank by done. rewrite scanf_num; [|done|by apply print_args_stop|by apply stored_ulong|done].
  destruct args as [|b args].
  - done.
  - replace (scanf (Space :: _) _) with (Some (Num <$> b :: args, skip_ws r)); [done|]. rewrite <- IH by done.
    cbn [fmap list_fmap concat app scanf skip_ws]. change (isspace blank_char) with true. cbn match.
    rewrite <- app_assoc, skip_show by (inv HF; unfold is_u64 in *; lia). by rewrite read_int_space.
Qed.

Lemma scan_args_plain (args : list Z) r : Forall is_u64 args ->
  scanf (replicate (length args) Ulong) (print_args args ++ newline :: r) = Some (Num <$> args, newline :: r).
Proof.
  induction 1 as [|a args Ha HF IH]; [done|]. unfold print_args in *. cbn [fmap list_fmap concat length replicate].
  rewrite <- !app_comm_cons, <- !app_assoc. rewrite scanf_blank by done.
  rewrite scanf_num; [|done|by apply print_args_stop|by apply stored_ulong|done]. by rewrite IH.
Qed.

Lemma scan_opcode_print o l s :
  skip_ws (stream s) = mnemonic o ++ l -> no_word l ->
  scan_opcode s = Ret (mnemonic o) (mkIo l (Some (mnemonic o)) (line_buf s)).
Proof.
  intros Hs Hl. destruct (mnemonic_wordlike o) as [Hw Hn]. unfold scan_opcode, scan, bind, modify, get.
  rewrite scan_word_skip, Hs, scanf_word by done. done.
Qed.

Lemma print_args_chars args :
  Forall (fun c => code_of c <> 10 /\ is_nul c = false) (print_args args) /\
  (length (print_args args) <= 21 * length args)%nat.
Proof.
  unfold print_args. induction args as [|a args [IH1 IH2]]; [split; [constructor|done]|]. cbn [fmap list_fmap concat]. split.
  - apply Forall_app. split; [|done]. constructor; [done|]. eapply Forall_impl; [apply show_digits|].
    intros c Hc%bool_decide_eq_true. split; [lia|]. apply bool_decide_false. lia.
  - rewrite length_app. cbn [length]. pose proof (show_length a). lia.
Qed.

Lemma scan_line_print args r s :
  Forall is_u64 args -> length args = 4%nat -> stream s = print_args args ++ newline :: r ->
  exists s', scan_line s = Ret (Num <$> args) s' /\ stream s' = r.
Proof.
  intros Ha Hn Hs. destruct (print_args_chars args) as [Hc Hlen].
  assert (Hf : fgets 200 (stream s) = Some (print_args args ++ [newline], r)).
  { unfold fgets. rewrite Hs. rewrite read_line_all.
    - by destruct (print_args args).
    - eapply Forall_impl; [exact Hc|]. by intros c [].
    - lia. }
  unfold scan_line, bind, modify, get. rewrite Hf. cbn [line_buf]. rewrite c_string_id.
  - change [Ulong; Ulong; Ulong; Ulong] with (replicate 4 Ulong). rewrite <- Hn, scan_args_plain by done.
    by eexists.
  - apply Forall_app. split; [|by repeat constructor]. eapply Forall_impl; [exact Hc|]. by intros c [].
Qed.

Lemma load_inst_print old ins rest s :
  Forall is_u64 (operands ins) -> skip_ws (stream s) = print_inst ins ++ rest -> skip_ws rest = rest ->
  exists s', load_inst old s = Ret (slot_with old ins) s' /\ skip_ws (stream s') = rest.
Proof.
  intros Ha Hs Hr. unfold print_inst in Hs. rewrite <- !app_assoc in Hs. cbn [app] in Hs.
  assert (Hsp : forall fmt s1, stream s1 = print_args (operands ins) ++ newline :: rest -> operands ins <> [] ->
    fmt = concat ((fun _ => [Ulong; Space]) <$> operands ins) ->
    scan fmt s1 = Ret (Num <$> operands ins) (mkIo rest (opcode_buf s1) (line_buf s1))).
  { intros fmt s1 H1 Hne ->. unfold scan. by rewrite H1, scan_args_spaced, Hr by done. }
  unfold load_inst. unfold bind at 1. rewrite (scan_opcode_print (opcode ins) (print_args (operands ins) ++ newline :: rest) s Hs).
  2:{ by destruct (operands ins). }
  unfold bind at 1. rewrite get_opcode_mnemonic. unfold slot_with. unfold operands in *. destruct (opcode ins); cbn [arity take] in *;
    try (unfold bind; rewrite Hsp by done; eexists; split; [reflexivity|done]);
    try (unfold bind; match goal with |- context [scan_line ?s1] =>
           destruct (scan_line_print _ rest s1 Ha eq_refl eq_refl) as (s' & -> & Es) end;
         exists s'; split; [done|by rewrite Es]).
  eexists. split; [reflexivity|done].
Qed.

Lemma skip_program insts : skip_ws (concat (print_inst <$> insts)) = concat (print_inst <$> insts).
Proof.
  destruct insts as [|ins insts]; [done|]. cbn [fmap list_fmap concat]. generalize (concat (print_inst <$> insts)). intros l.
  unfold print_inst. rewrite <- !app_assoc. apply skip_word, mnemonic_wordlike.
Qed.

Lemma load_text_print insts : forall olds s, length olds = length insts ->
  Forall (fun ins => Forall is_u64 (operands ins)) insts ->
  skip_ws (stream s) = concat (print_inst <$> insts) ->
  exists s', load_text olds s = Ret (zip_with slot_with olds insts) s'.
Proof.
  induction insts as [|ins insts IH]; intros [|old olds] s Hlen HF Hs; try done; [by eexists|].
  inv HF. cbn [load_text fmap list_fmap concat] in *. unfold bind at 1.
  destruct (load_inst_print old ins (concat (print_inst <$> insts)) s) as (s1 & -> & Hs1); [done|done|apply skip_program|].
  destruct (IH olds s1) as (s2 & E2); [simpl in Hlen; lia|done|done|]. unfold bind. rewrite E2. by eexists.
Qed.

(** The operands an opcode does not have are not looked at. *)
Lemma exec_slot old ins p m : exec p (slot_with old ins) m = exec p ins m.
Proof. destruct ins as [o a0 a1 a2 a3]. unfold slot_with, operands, exec. by destruct o. Qed.

(** ** What a file can contain *)

Lemma set_args_words ins vs : inst_words ins -> Forall (val_in is_u64) vs -> inst_words (set_args ins vs).
Proof. intros (H0 & H1 & H2 & H3) HF. split_and!; cbn; by apply num_at_in. Qed.

Lemma scan_words fmt s vs s' : Forall (fun d => d <> Int) fmt -> scan fmt s = Ret vs s' -> Forall (val_in is_u64) vs.
Proof.
  intros HF. unfold scan. destruct (scanf fmt (stream s)) as [[vs0 r]|] eqn:E; [|done]. intros [= <- _]. by eapply scanf_words.
Qed.

Lemma scan_line_words s vs s' : scan_line s = Ret vs s' -> Forall (val_in is_u64) vs.
Proof.
  unfold scan_line, bind, modify, get. destruct (line_buf _) as [b|]; [|done].
  destruct (scanf _ _) as [[vs0 r]|] eqn:E; [|done]. intros [= <- _]. eapply scanf_words; [|exact E]. by repeat constructor.
Qed.

Lemma load_inst_words old s ins s' : inst_words old -> load_inst old s = Ret ins s' -> inst_words ins.
Proof.
  intros Ho. unfold load_inst, bind. destruct (scan_opcode s) as [w s1| |]; [|done..].
  destruct (get_opcode w s1) as [o s2| |]; [|done..].
  assert (Hscan : forall fmt, Forall (fun d => d <> Int) fmt ->
    match scan fmt s2 with Ret vs s3 => Ret (set_args (mkInst o (arg_0 old) (arg_1 old) (arg_2 old) (arg_3 old)) vs) s3
                      | Ub => Ub | Exit s3 => Exit s3 end = Ret ins s' -> inst_words ins).
  { intros fmt HF. destruct (scan fmt s2) as [vs s3| |] eqn:E; [|done..]. intros [= <- _].
    apply set_args_words; [done|by eapply scan_words]. }
  assert (Hline : match scan_line s2 with Ret vs s3 => Ret (set_args (mkInst o (arg_0 old) (arg_1 old) (arg_2 old) (arg_3 old)) vs) s3
                      | Ub => Ub | Exit s3 => Exit s3 end = Ret ins s' -> inst_words ins).
  { destruct (scan_line s2) as [vs s3| |] eqn:E; [|done..]. intros [= <- _].
    apply set_args_words; [done|by eapply scan_line_words]. }
  destruct o; try exact Hline; try (apply Hscan; by repeat constructor). by intros [= <- _].
Qed.

Lemma load_text_words olds : forall s insts s', Forall inst_words olds -> load_text olds s = Ret insts s' ->
  Forall inst_words insts /\ length insts = length olds.
Proof.
  induction olds as [|old olds IH]; intros s insts s' HF; cbn [load_text].
  - intros [= <- _]. by split; [constructor|].
  - inv HF. unfold bind. destruct (load_inst old s) as [ins s1| |] eqn:E; [|done..].
    destruct (load_text olds s1) as [rest s2| |] eqn:E2; [|done..]. intros [= <- _].
    destruct (IH _ _ _ ltac:(done) E2) as [Hw Hl]. split; [|simpl; lia]. constructor; [by eapply load_inst_words|done].
Qed.

(** What the allocator returned has the types of the fields. *)
Definition fresh_ok (f : fresh) : Prop :=
  0 <= f_size f < 2 ^ 32 /\ (forall i, inst_words (f_text f i)) /\ length (f_regs f) = 10%nat.

Lemma scan_header priority n l :
  0 <= priority < 2 ^ 32 -> 0 <= n < 2 ^ 32 ->
  scanf [Uint; Space; Uint] (show priority ++ blank_char :: show n ++ newline :: l) =
  Some ([Num priority; Num n], newline :: l).
Proof.
  intros Hp Hn. rewrite scanf_num; [|unfold is_u64; lia|done|by apply stored_uint|done].
  rewrite scanf_blank by done. cbn [scanf]. rewrite skip_show by lia.
  rewrite read_int_show by (unfold is_u64; by try lia). by rewrite stored_uint.
Qed.

Lemma wp_malloc (Q : bool -> machine -> Prop) m :
  ~ may_oom m -> (forall n, ~ may_oom (set_mallocs m n) -> Q true (set_mallocs m n)) -> wp malloc Q m.
Proof.
  intros Hm HQ. unfold wp, malloc. destruct (oom m (mallocs m)) eqn:E; [by destruct Hm; eexists|]. by apply HQ.
Qed.

(** Code that is the same instruction by instruction. *)
Definition same_code (l l' : list inst_t) : Prop :=
  Forall2 (fun i j => opcode i = opcode j /\ operands i = operands j /\ forall p s, exec p i s = exec p j s) l l'.

(** What is printed is loaded. *)
Lemma load_print m a priority insts f :
  ~ may_oom m -> 0 <= priority < 2 ^ 32 -> Z.of_nat (length insts) < 2 ^ 32 ->
  Forall (fun ins => Forall is_u64 (operands ins)) insts ->
  wp (load a (Some (print_program priority insts)) f) (fun '(y, a') _ =>
    pid y = a /\ a' = u32 (a + 1) /\ Machine.priority y = priority /\ pc y = 0 /\
    same_code (code y) insts) m.
Proof.
  intros Hm Hp Hn HF. unfold print_program.
  destruct (load_text_print insts (f_text f <$> seq 0 (length insts))
    (mkIo (newline :: concat (print_inst <$> insts)) None None)) as (s' & E).
  { by rewrite length_fmap, length_seq. }
  { done. }
  { apply skip_program. }
  unfold load. apply wp_bind, wp_malloc; [done|]. intros n1 Hm1. cbn [negb]. apply wp_bind, wp_malloc; [done|]. intros n2 Hm2.
  apply wp_bind, wp_malloc; [done|]. intros n3 Hm3. cbn [negb]. rewrite scan_header by lia.
  apply wp_bind, wp_malloc; [done|]. intros n4 _. cbn [negb andb num_at lookup list_lookup]. rewrite Nat2Z.id, E.
  apply wp_ret. split_and!; try done. unfold same_code. cbn [code].
  assert (Hlen : length (f_text f <$> seq 0 (length insts)) = length insts) by (by rewrite length_fmap, length_seq).
  revert Hlen. generalize (f_text f <$> seq 0 (length insts)). clear E HF Hn.
  induction insts as [|ins insts IH]; intros [|old olds] Hl; try done. cbn [zip_with]. constructor.
  - split; [done|]. split; [|intros; apply exec_slot]. destruct ins as [o a0 a1 a2 a3]. by destruct o.
  - apply IH. simpl in Hl. lia.
Qed.

(** ** Properties *)

(** C33. Loading round trip: a program that is printed to a file (its priority,
    the number of its instructions, an instruction per line) and loaded again is
    the same program: same opcodes, and each instruction executes as the one
    that was printed, in every state; the process starts at its first
    instruction with a fresh identifier. *)
Theorem load_roundtrip m a priority insts f :
  ~ may_oom m -> 0 <= priority < 2 ^ 32 -> Z.of_nat (length insts) < 2 ^ 32 ->
  Forall (fun ins => Forall is_u64 (operands ins)) insts ->
  wp (load a (Some (print_program priority insts)) f) (fun '(y, a') _ =>
    pid y = a /\ a' = u32 (a + 1) /\ Machine.priority y = priority /\ pc y = 0 /\
    same_code (code y) insts) m.
Proof. apply load_print. Qed.

Lemma load_roundtrip_witness :
  wp (load 1 (Some (print_program 5 [mkInst ALLOC 300 0 0 0; mkInst SYSCALL 101 1 2 3]))
        (mkFresh 0 0 (fun _ => mkInst CALC 7 7 7 7) (replicate 10 0) 0 None))
     (fun '(y, a') _ => pid y = 1 /\ a' = u32 (1 + 1) /\ Machine.priority y = 5 /\ pc y = 0 /\
        Forall2 (fun i j => opcode i = opcode j /\ operands i = operands j /\ forall p s, exec p i s = exec p j s) (code y)
          [mkInst ALLOC 300 0 0 0; mkInst SYSCALL 101 1 2 3])
     (blank (fun _ => false) blank_memphy blank_memphy).
Proof.
  apply load_roundtrip; [by intros [n Hn]|lia|done|].
  repeat (apply Forall_cons; split); try apply Forall_nil; cbn; repeat (apply Forall_cons; split); try apply Forall_nil;
    unfold is_u64; lia.
Defined.


(** The program of [input/proc/kmem] in short, as text. *)
Definition demo_file : chars :=
  text "1 4" ++ newline :: text "kmalloc 64 3" ++ newline :: text "write 45 3 5" ++ newline ::
  text "copy_to_user 3 0 0 8" ++ newline :: text "calc" ++ [newline].
Definition demo_fresh : fresh := mkFresh 0 0 (fun _ => mkInst CALC 7 7 7 7) (replicate 10 0) 0 None.
Definition demo_loaded : pcb_t * Z :=
  match load 9 (Some demo_file) demo_fresh (blank (fun _ => false) blank_memphy blank_memphy) with
  | Ret r _ => r
  | _ => (j_pcb demo_job, 0)
  end.

Lemma demo_loaded_code : code (fst demo_loaded) =
  [mkInst KMALLOC 64 3 7 7; mkInst WRITE 45 3 5 7; mkInst COPY_TO_USER 3 0 0 8; mkInst CALC 7 7 7 7].
Proof. vm_compute. reflexivity. Qed.


(** A file with fewer instructions than it announces is not refused: the
    opcode buffer keeps the last word, so the missing instructions become
    copies of the last opcode whose operands were never written.  Here a file
    that announces three instructions and has two yields a second WRITE with
    the operands 7 of the uninitialised array. *)
Theorem short_file_repeats_opcode :
  wp (load 1 (Some (text "1 3" ++ newline :: text "calc" ++ newline :: text "write 45 0 5" ++ [newline])) demo_fresh)
     (fun '(y, _) _ => code y = [mkInst CALC 7 7 7 7; mkInst WRITE 45 0 5 7; mkInst WRITE 7 7 7 7])
     (blank (fun _ => false) blank_memphy blank_memphy).
Proof. vm_compute. reflexivity. Qed.
