(* ===== verification/Config.v ===== *)
(** * The configuration file ([read_config] of [src/os.c])

    A first line with the time slot, the number of CPUs and the number of
    processes; an optional line with the sizes of RAM and the four swap devices,
    recognised by its five numbers; a line per process with its start time, its
    program and its priority.  The result is what the static variables of
    [os.c] hold afterwards. *)

From S2P Require Import Prelude.
From S2P Require Import Word.
From S2P Require Import Sched.
From S2P Require Import Machine.
From S2P Require Import PageTable.
From S2P Require Import MemPhy.
From S2P Require Import Create.
From S2P Require Import Os.
From S2P Require Import Scanf.
From S2P Require Import Loader.
Open Scope c_scope.
Open Scope Z_scope.

(** ** Definitions *)

Definition PAGING_MAX_MMSWP : nat := 4.

Record ld_entry := mkEntry { start_time : Z; ld_path : chars; ld_prio : Z }.
Record config := mkConfig {
  time_slot : Z; num_cpus : Z; num_processes : Z; memramsz : Z; memswpsz : list Z; ld_processes : list ld_entry }.

Definition proc_dir : chars := text "input/proc/".
Definition proc_fmt : list dir := [Ulong; Space; Str 99; Space; Ulong].

(** [strcat] of the name to the path, in a block of 100 characters. *)
Definition full_path (proc : chars) : M machine chars :=
  let p := proc_dir ++ c_string proc in
  if bool_decide (length p < 100)%nat then ret p else ub.

(** One process from the values of its line. *)
Definition read_entry (vs : list val) : M machine ld_entry :=
  match vs with
  | [Num start; Txt proc; Num prio] =>
    validate_mlq_priority prio ;;
    let* p := full_path proc in
    ret (mkEntry start p prio)
  | _ => exit
  end.

(** The loop over the processes; [first] is the line that was read in search of
    the memory sizes, [arrays]: the three tables were allocated. *)
Fixpoint read_procs (arrays : bool) (n : nat) (first : option chars) (l : chars) : M machine (list ld_entry) :=
  match n with
  | O => ret []
  | S n =>
    let* path := malloc in
    if negb arrays || negb path then ub
    else
      match
        match first with
        | Some line => '(vs, _) ← scanf proc_fmt (c_string line); Some (vs, l)
        | None => scanf (proc_fmt ++ [Space]) l
        end
      with
      | None => ub
      | Some (vs, l) =>
        let* e := read_entry vs in
        let* es := read_procs arrays n None l in
        ret (e :: es)
      end
  end.

Definition mem_fmt : list dir :=
  [Ulong; Space; Ulong; Space; Ulong; Space; Ulong; Space; Ulong; Space; Char].

Definition read_config (file : option chars) : M machine config :=
  match file with
  | None => exit
  | Some l =>
    match scanf [Int; Space; Int; Space; Int; Space] l with
    | None => ub
    | Some (vs, l) =>
      let nproc := num_at vs 2 0 in
      let* a1 := malloc in
      let* a2 := malloc in
      let default_mem := [0x100000000; 0x1000000; 0; 0; 0] in
      match
        match fgets 256 l with
        | None => Some (default_mem, None, l)
        | Some (line, l) =>
          '(ms, _) ← scanf mem_fmt (c_string line);
          Some (if bool_decide (PAGING_MAX_MMSWP + 1 <= length ms)%nat
                then ((fun i => num_at ms i 0) <$> seq 0 (PAGING_MAX_MMSWP + 1), None, l)
                else (default_mem, Some line, l))
        end
      with
      | None => ub
      | Some (mem, first, l) =>
        let* a3 := malloc in
        let* es := read_procs (a1 && a2 && a3) (Z.to_nat nproc) first l in
        ret (mkConfig (num_at vs 0 0) (num_at vs 1 0) nproc (default 0 (head mem)) (tail mem) es)
      end
    end
  end.

(** ** Printing a configuration *)

Definition print_entry (e : ld_entry) : chars :=
  show (start_time e) ++ blank_char :: drop 11 (ld_path e) ++ blank_char :: show (ld_prio e) ++ [newline].

(** With or without the line of the memory sizes. *)
Definition print_mem (c : config) : chars :=
  show (memramsz c) ++ print_args (memswpsz c) ++ [newline].
Definition print_config (with_mem : bool) (c : config) : chars :=
  show (time_slot c) ++ blank_char :: show (num_cpus c) ++ blank_char :: show (num_processes c) ++ newline ::
  (if with_mem then print_mem c else []) ++ concat (print_entry <$> ld_processes c).

(** ** Reading a configuration back *)

Record entry_wf (e : ld_entry) (name : chars) : Prop := mkEntryWf {
  ew_start : is_u64 (start_time e);
  ew_prio : 0 <= ld_prio e < Z.of_nat MAX_PRIO;
  ew_path : ld_path e = proc_dir ++ name;
  ew_word : wordlike name;
  ew_nul : Forall (fun c => is_nul c = false) name;
  ew_len : (length name <= 88)%nat;
}.

(** A name that cannot be taken for a number. *)
Definition not_number (l : chars) : Prop :=
  match l with [] => False | c :: _ => isdigit c = false /\ code_of c <> 45 /\ code_of c <> 43 end.

Lemma print_entry_name e name :
  entry_wf e name ->
  print_entry e = show (start_time e) ++ blank_char :: name ++ blank_char :: show (ld_prio e) ++ [newline].
Proof. intros []. unfold print_entry. rewrite ew_path0, (drop_app_length' proc_dir) by done. done. Qed.

Lemma scan_space_word fmt w l : wordlike w -> scanf (Space :: fmt) (blank_char :: w ++ l) = scanf fmt (w ++ l).
Proof. intros Hw. cbn [scanf skip_ws]. change (isspace blank_char) with true. cbn match. by rewrite skip_word. Qed.

Lemma scan_space_num fmt n l : 0 <= n -> scanf (Space :: fmt) (blank_char :: show n ++ l) = scanf fmt (show n ++ l).
Proof. intros Hn. cbn [scanf skip_ws]. change (isspace blank_char) with true. cbn match. by rewrite skip_show. Qed.

Lemma scan_ulong fmt n l : is_u64 n -> no_digit l ->
  scanf (Ulong :: fmt) (show n ++ l) = '(vs, r) ← scanf fmt l; Some (Num n :: vs, r).
Proof. intros Hn Hl. apply scanf_num; [done|done|by apply stored_ulong|done]. Qed.

Lemma prio_word e name : entry_wf e name -> is_u64 (ld_prio e).
Proof. intros []. unfold is_u64. destruct ew_prio0. split; [done|]. etrans; [done|]. reflexivity. Qed.

Lemma scan_entry e name tl r :
  entry_wf e name ->
  scanf (proc_fmt ++ tl) (print_entry e ++ r) =
  '(vs, r) ← scanf tl (newline :: r); Some (Num (start_time e) :: Txt name :: Num (ld_prio e) :: vs, r).
Proof.
  intros He. rewrite (print_entry_name e name He). pose proof (prio_word _ _ He) as Hp. destruct He.
  unfold proc_fmt. cbn [app]. rewrite <- !app_assoc. cbn [app]. rewrite <- !app_assoc. cbn [app]. rewrite <- !app_assoc. cbn [app].
  rewrite scan_ulong by done. rewrite scan_space_word by done. rewrite scanf_word by (done || lia).
  rewrite scan_space_num by (unfold is_u64 in Hp; lia). rewrite scan_ulong by done.
  by destruct (scanf tl (newline :: r)) as [[vs r']|].
Qed.

Lemma read_entry_ok e name m :
  entry_wf e name -> read_entry [Num (start_time e); Txt name; Num (ld_prio e)] m = Ret e m.
Proof.
  intros []. unfold read_entry, validate_mlq_priority, full_path, bind, ret. rewrite bool_decide_true by lia.
  rewrite c_string_id by done. rewrite bool_decide_true by (rewrite length_app; change (length proc_dir) with 11%nat; lia).
  rewrite <- ew_path0. by destruct e.
Qed.

Lemma skip_entries es : Forall (fun e => exists name, entry_wf e name) es ->
  skip_ws (concat (print_entry <$> es)) = concat (print_entry <$> es).
Proof.
  destruct 1 as [|e es (name & [Hs _ _ _ _ _]) _]; [done|]. cbn [fmap list_fmap concat].
  generalize (concat (print_entry <$> es)). intros l. unfold print_entry. rewrite <- app_assoc.
  apply skip_show. unfold is_u64 in Hs. lia.
Qed.

Lemma read_procs_rest es m : forall l, ~ may_oom m -> Forall (fun e => exists name, entry_wf e name) es ->
  l = concat (print_entry <$> es) ->
  wp (read_procs true (length es) None l) (fun es' m' => es' = es /\ ~ may_oom m') m.
Proof.
  intros l Hm HF ->. revert m Hm. induction HF as [|e es (name & He) HF IH]; intros m Hm; [by apply wp_ret|].
  cbn [length read_procs]. apply wp_bind, wp_malloc; [done|]. intros n Hn. cbn [negb orb fmap list_fmap concat].
  rewrite (scan_entry e name) by done. cbn [scanf mbind option_bind].
  change (skip_ws (newline :: ?r)) with (skip_ws r). rewrite skip_entries by done.
  apply wp_bind. eapply wp_eq; [by apply read_entry_ok|]. apply wp_bind. eapply wp_mono; [by apply IH|].
  intros es' m' [-> Hm']. by apply wp_ret.
Qed.

(** A printed line is a line. *)
Definition line_chars (a : chars) : Prop := Forall (fun c => code_of c <> 10 /\ is_nul c = false) a.

Lemma show_line n : line_chars (show n).
Proof.
  eapply Forall_impl; [apply show_digits|]. intros c Hc%bool_decide_eq_true. split; [lia|]. apply bool_decide_false. lia.
Qed.

Lemma fgets_line a r : line_chars a -> (length a < 255)%nat -> fgets 256 (a ++ newline :: r) = Some (a ++ [newline], r).
Proof.
  intros Ha Hl. unfold fgets. rewrite read_line_all; [by destruct a| |done].
  eapply Forall_impl; [exact Ha|]. by intros c [].
Qed.

Lemma c_string_line a : line_chars a -> c_string (a ++ [newline]) = a ++ [newline].
Proof.
  intros Ha. apply c_string_id, Forall_app. split; [|by repeat constructor].
  eapply Forall_impl; [exact Ha|]. by intros c [].
Qed.

Lemma entry_line e name : entry_wf e name ->
  exists a, print_entry e = a ++ [newline] /\ line_chars a /\ (length a < 255)%nat.
Proof.
  intros He. exists (show (start_time e) ++ blank_char :: name ++ blank_char :: show (ld_prio e)).
  rewrite (print_entry_name e name He). destruct He as [_ _ _ [_ Hw] Hn Hl]. split; [|split].
  - rewrite <- !app_assoc. cbn [app]. by rewrite <- !app_assoc.
  - apply Forall_app. split; [apply show_line|]. constructor; [done|]. apply Forall_app. split; [|constructor; [done|apply show_line]].
    apply Forall_forall. intros c Hc. rewrite Forall_forall in Hw, Hn. split; [|by apply Hn].
    specialize (Hw c Hc). intros Ec. unfold isspace in Hw. rewrite Ec in Hw. done.
  - rewrite length_app. cbn [length]. rewrite length_app. cbn [length].
    pose proof (show_length (start_time e)). pose proof (show_length (ld_prio e)). lia.
Qed.

Lemma read_int_word w l : wordlike w -> not_number w -> exists r, read_int (w ++ l) = (None, r).
Proof.
  intros Hw Hn. unfold read_int. rewrite skip_word by done. destruct w as [|c w]; [done|]. destruct Hn as (Hd & H1 & H2).
  cbn [app]. rewrite !bool_decide_false by done. rewrite Hd. by eexists.
Qed.

(** A process line has not the five numbers of a memory line. *)
Lemma mem_of_entry e name : entry_wf e name -> not_number name ->
  exists r, scanf mem_fmt (print_entry e) = Some ([Num (start_time e)], r).
Proof.
  intros He Hn. rewrite (print_entry_name e name He). destruct He. unfold mem_fmt. rewrite scan_ulong by done.
  rewrite scan_space_word by done. destruct (read_int_word name (blank_char :: show (ld_prio e) ++ [newline])) as [r Hr]; [done..|].
  exists r. cbn [scanf]. by rewrite Hr.
Qed.

Lemma mem_of_mem c : is_u64 (memramsz c) -> Forall is_u64 (memswpsz c) -> length (memswpsz c) = PAGING_MAX_MMSWP ->
  exists r, scanf mem_fmt (print_mem c) = Some (Num <$> memramsz c :: memswpsz c, r).
Proof.
  intros Hr Hs Hl. unfold print_mem. destruct (memswpsz c) as [|a [|b [|d [|e [|? ?]]]]]; try done.
  inv Hs; inv H2; inv H4; inv H5. unfold mem_fmt. rewrite scan_ulong by done.
  unfold print_args. cbn [fmap list_fmap concat app]. rewrite <- !app_assoc. cbn [app]. rewrite <- !app_assoc. cbn [app].
  rewrite <- !app_assoc. cbn [app]. rewrite <- !app_assoc. cbn [app]. unfold is_u64 in *.
  repeat (rewrite scan_space_num by lia; rewrite scan_ulong by done). by eexists.
Qed.

Lemma mem_line c : length (memswpsz c) = PAGING_MAX_MMSWP ->
  exists a, print_mem c = a ++ [newline] /\ line_chars a /\ (length a < 255)%nat.
Proof.
  intros Hl. exists (show (memramsz c) ++ print_args (memswpsz c)). destruct (print_args_chars (memswpsz c)) as [Hc Hn].
  split; [unfold print_mem; by rewrite app_assoc|]. split; [apply Forall_app; split; [apply show_line|done]|].
  rewrite length_app. pose proof (show_length (memramsz c)). unfold PAGING_MAX_MMSWP in Hl. lia.
Qed.

Lemma scan_config_head c l :
  0 <= time_slot c < 2 ^ 31 -> 0 <= num_cpus c < 2 ^ 31 -> 0 <= num_processes c < 2 ^ 31 ->
  scanf [Int; Space; Int; Space; Int; Space]
    (show (time_slot c) ++ blank_char :: show (num_cpus c) ++ blank_char :: show (num_processes c) ++ newline :: l) =
  Some ([Num (time_slot c); Num (num_cpus c); Num (num_processes c)], skip_ws l).
Proof.
  intros H1 H2 H3. assert (Hi : forall fmt n r, 0 <= n < 2 ^ 31 -> no_digit r ->
    scanf (Int :: fmt) (show n ++ r) = '(vs, r) ← scanf fmt r; Some (Num n :: vs, r)).
  { intros fmt n r Hn Hr. apply scanf_num; [unfold is_u64; lia|done|by apply stored_int|done]. }
  do 2 (rewrite Hi by done; rewrite scan_space_num by lia). by rewrite Hi.
Qed.

Record config_wf (with_mem : bool) (c : config) : Prop := mkConfigWf {
  cw_slot : 0 <= time_slot c < 2 ^ 31;
  cw_cpus : 0 <= num_cpus c < 2 ^ 31;
  cw_procs : num_processes c = Z.of_nat (length (ld_processes c)) /\ num_processes c < 2 ^ 31;
  cw_entries : Forall (fun e => exists name, entry_wf e name /\ (with_mem = false -> not_number name)) (ld_processes c);
  cw_mem : if with_mem then is_u64 (memramsz c) /\ Forall is_u64 (memswpsz c) /\ length (memswpsz c) = PAGING_MAX_MMSWP
           else memramsz c = 0x100000000 /\ memswpsz c = [0x1000000; 0; 0; 0];
}.

Lemma entries_wf w c : config_wf w c -> Forall (fun e => exists name, entry_wf e name) (ld_processes c).
Proof. intros []. eapply Forall_impl; [exact cw_entries0|]. intros e (name & He & _). by exists name. Qed.

Lemma skip_rest w c : config_wf w c ->
  skip_ws ((if w then print_mem c else []) ++ concat (print_entry <$> ld_processes c)) =
  (if w then print_mem c else []) ++ concat (print_entry <$> ld_processes c).
Proof.
  intros Hc. destruct w; [|by eapply skip_entries, entries_wf]. unfold print_mem. rewrite <- app_assoc.
  destruct (cw_mem _ _ Hc) as (Hr & _). apply skip_show. unfold is_u64 in Hr. lia.
Qed.

(** The first process from the line that was read already, the others from the
    file. *)
Lemma read_procs_first e name es m :
  ~ may_oom m -> entry_wf e name -> Forall (fun e => exists name, entry_wf e name) es ->
  wp (read_procs true (S (length es)) (Some (print_entry e)) (concat (print_entry <$> es))) (fun es' _ => es' = e :: es) m.
Proof.
  intros Hm He HF. cbn [read_procs]. apply wp_bind, wp_malloc; [done|]. intros n Hn. cbn [negb orb].
  destruct (entry_line e name He) as (a & Ea & Ha & _).
  assert (Hl : scanf proc_fmt (c_string (print_entry e)) = Some ([Num (start_time e); Txt name; Num (ld_prio e)], [newline])).
  { rewrite Ea, c_string_line by done. rewrite <- Ea.
    pose proof (scan_entry e name [] [] He) as H. rewrite !app_nil_r in H. exact H. }
  rewrite Hl. cbn [mbind option_bind].
  apply wp_bind. eapply wp_eq; [by apply read_entry_ok|]. apply wp_bind.
  eapply wp_mono; [by apply read_procs_rest|]. intros es' m' [-> _]. by apply wp_ret.
Qed.

(** ** What a configuration can contain *)

Definition entry_valid (e : ld_entry) : Prop :=
  is_u64 (start_time e) /\ 0 <= ld_prio e < Z.of_nat MAX_PRIO /\ (length (ld_path e) < 100)%nat.

Lemma read_entry_valid vs m e m' : Forall (val_in is_u64) vs -> read_entry vs m = Ret e m' -> entry_valid e.
Proof.
  intros HF. unfold read_entry, validate_mlq_priority, full_path, bind, ret, exit, ub.
  destruct vs as [|[st|?] [|[?|w] [|[pr|?] [|? ?]]]]; try done. case_bool_decide as Hp; [|done].
  case_bool_decide as Hl; [|done]. intros [= <- _]. inv HF. inv H2. inv H4. unfold entry_valid, is_u64 in *. cbn [val_in start_time ld_prio ld_path] in *.
  split_and!; try done; lia.
Qed.

Lemma read_procs_valid ar n : forall first l m es m', read_procs ar n first l m = Ret es m' ->
  length es = n /\ Forall entry_valid es.
Proof.
  induction n as [|n IH]; intros first l m es m'; cbn [read_procs]; [intros [= <- _]; done|].
  unfold bind, malloc. destruct (negb ar || _); [done|].
  destruct (match first with Some line => _ | None => _ end) as [[vs r]|] eqn:Es; [|done].
  assert (Hv : Forall (val_in is_u64) vs).
  { destruct first as [line|].
    - destruct (scanf proc_fmt _) as [[vs0 r0]|] eqn:E; [|done]. injection Es as <- _.
      eapply scanf_words; [|exact E]. by repeat constructor.
    - eapply scanf_words; [|exact Es]. by repeat constructor. }
  destruct (read_entry vs _) as [e s1| |] eqn:Ee; [|done..].
  destruct (read_procs ar n None r s1) as [es' s2| |] eqn:Ep; [|done..]. intros [= <- _].
  apply IH in Ep as [Hl HF]. split; [simpl; lia|]. constructor; [by eapply read_entry_valid|done].
Qed.

(** What is printed is read. *)
Lemma read_config_print with_mem c m :
  config_wf with_mem c -> ~ may_oom m ->
  wp (read_config (Some (print_config with_mem c))) (fun c' _ => c' = c) m.
Proof.
  intros Hc Hm. pose proof (entries_wf _ _ Hc) as HF. pose proof Hc as [Hts Hcp [Hnp Hlt] Hes Hmem].
  unfold read_config, print_config. rewrite scan_config_head by (done || lia). rewrite (skip_rest with_mem c Hc).
  apply wp_bind, wp_malloc; [done|]. intros n1 Hm1. apply wp_bind, wp_malloc; [done|]. intros n2 Hm2.
  cbn [num_at lookup list_lookup]. rewrite Hnp, Nat2Z.id.
  destruct with_mem.
  - destruct Hmem as (Hr & Hsw & Hlen). destruct (mem_line c Hlen) as (a & Ea & Ha & Hal).
    destruct (mem_of_mem c Hr Hsw Hlen) as [r Hs]. rewrite Ea, <- app_assoc. cbn [app]. rewrite fgets_line by done.
    rewrite c_string_line, <- Ea, Hs by done. cbn [mbind option_bind].
    rewrite bool_decide_true by (rewrite length_fmap; simpl; rewrite Hlen; done).
    apply wp_bind, wp_malloc; [done|]. intros n3 Hm3. apply wp_bind. eapply wp_mono; [by apply read_procs_rest|].
    intros es m' [-> _]. apply wp_ret. rewrite <- Hnp. destruct c as [ts nc np ram sw es']. cbn in Hlen |- *.
    by destruct sw as [|s0 [|s1 [|s2 [|s3 [|? ?]]]]].
  - destruct Hmem as [Hr Hsw]. cbn [app]. destruct (ld_processes c) as [|e es] eqn:El.
    + cbn [fmap list_fmap concat fgets length read_procs]. apply wp_bind, wp_malloc; [done|]. intros n3 _.
      apply wp_bind, wp_ret, wp_ret. destruct c. cbn in *. by subst.
    + inv Hes. destruct H1 as (name & He & Hnn). destruct (entry_line e name He) as (a & Ea & Ha & Hal).
      destruct (mem_of_entry e name He (Hnn eq_refl)) as [r Hs]. cbn [fmap list_fmap concat].
      rewrite Ea, <- app_assoc. cbn [app]. rewrite fgets_line by done. rewrite c_string_line, <- Ea, Hs by done.
      cbn [mbind option_bind]. rewrite bool_decide_false by (simpl; unfold PAGING_MAX_MMSWP; lia).
      apply wp_bind, wp_malloc; [done|]. intros n3 Hm3. apply wp_bind. inv HF.
      eapply wp_mono; [by eapply read_procs_first|]. intros es' m' ->. apply wp_ret.
      destruct c. cbn in *. by subst.
Qed.

(** ** Properties *)

(** C34. Configuration round trip: a well-formed configuration that is printed,
    with the line of the memory sizes or, for the default sizes, without it, is
    read back as it was: the sizes, the number of CPUs, and every process with
    its start time, path and priority, in order. *)
Theorem read_config_roundtrip with_mem c m :
  config_wf with_mem c -> ~ may_oom m ->
  wp (read_config (Some (print_config with_mem c))) (fun c' _ => c' = c) m.
Proof. apply read_config_print. Qed.

Definition demo_config : config :=
  mkConfig 2 4 2 1048576 [16777216; 0; 0; 0]
    [mkEntry 0 (proc_dir ++ text "p0s") 0; mkEntry 4 (proc_dir ++ text "m2s") 120].

Lemma demo_config_wf : config_wf true demo_config.
Proof.
  split; cbn -[Z.pow]; [lia..|done| |].
  - constructor; [|constructor; [|constructor]].
    + exists (text "p0s"). split; [|done]. split; cbn; try (by repeat constructor); unfold is_u64; lia.
    + exists (text "m2s"). split; [|done]. split; cbn; try (by repeat constructor); unfold is_u64; lia.
  - split; [unfold is_u64; lia|]. split; [|done]. repeat (apply Forall_cons; split); try apply Forall_nil; unfold is_u64; lia.
Qed.

Lemma read_config_roundtrip_witness :
  wp (read_config (Some (print_config true demo_config))) (fun c' _ => c' = demo_config)
    (blank (fun _ => false) blank_memphy blank_memphy).
Proof. apply (read_config_roundtrip true demo_config); [apply demo_config_wf|by intros [n Hn]]. Defined.



(** A program name of 89 characters is accepted by the format and overflows the
    block of its path. *)
Theorem long_name_overflows :
  read_config (Some (text "2 1 1" ++ newline :: text "0 " ++ replicate 89 (ascii_of_N 97) ++ text " 0" ++ [newline]))
    (blank (fun _ => false) blank_memphy blank_memphy) = Ub.
Proof. vm_compute. reflexivity. Qed.

(** A process whose name reads as four numbers is taken for the memory sizes,
    and the line of the process is lost. *)
Theorem process_line_taken_for_sizes :
  wp (read_config (Some (text "2 1 0" ++ newline :: text "0 1+2+3+4 0" ++ [newline])))
    (fun c _ => memramsz c = 0 /\ memswpsz c = [1; 2; 3; 4]) (blank (fun _ => false) blank_memphy blank_memphy).
Proof. vm_compute. split; reflexivity. Qed.
