(* ===== verification/System.v ===== *)
(** * The whole system: threads and clock together ([src/os.c], [src/timer.c])

    [main] attaches one device of the clock per CPU and one for the loader,
    starts the timer, and creates the threads.  Here the threads of [Os] run
    under the clock of [Timer]: a CPU enters its next round only when the timer
    lets it out of [next_slot], the loader starts a process only when its start
    time has come, a thread that ends detaches its device.  A step of the system
    is a step of one thread; each is a step of [Os], of [Timer], or of both, so
    the invariants of both hold.

    The barrier makes every execution fair: no thread can run ahead of the
    others by more than one slot.  From this the simulator is shown to make
    progress: every slot executes an instruction as long as there is a process,
    a slot has boundedly many steps, and so all programs that were loaded have
    finished after a bounded number of steps of any execution. *)

From S2P Require Import Prelude.
From S2P Require Import Word.
From S2P Require Import Exclusive.
From S2P Require Import Queue.
From S2P Require Import Sched.
From S2P Require Import MemPhy.
From S2P Require Import Machine.
From S2P Require Import PageTable.
From S2P Require Import Vm.
From S2P Require Import Frame.
From S2P Require Import Cpu.
From S2P Require Import Isolation.
From S2P Require Import Create.
From S2P Require Import Teardown.
From S2P Require Import Os.
From S2P Require Import Timer.

(** ** Definitions *)

(** The loader: at the test of the start time (or of the end of its loop), in
    [next_slot], or out of the loop. *)
Inductive ld_pc := LdTest | LdSlot | LdStopped.

(** [starts] are the start times of the processes still to be loaded. *)
Record system := mkSys { sim_of : sim; ck : clock; ld : ld_pc; starts : list Z }.

(** The device of CPU [i]: [main] attaches the CPUs in order and then the
    loader, and [attach_event] puts a new device in front. *)
Definition cpu_dev (s : system) (i : nat) : nat := (length (cpus (sim_of s)) - i)%nat.
Definition ld_dev : nat := 0%nat.

Definition set_cpu (s : sim) (i : nat) (m : machine) (c : cpu) : sim :=
  mkSim m (done_flag s) (<[i := c]> (cpus s)) (jobs s) (os s).

(** Who takes a step. *)
Inductive label := LTimer | LMain | LCpu (i : nat) (c : cpu) | LLoader.

Definition in_loop (c : cpu) : Prop := match c with CpuWait _ _ | CpuStopped => False | _ => True end.

Inductive sys_step (time_slot : Z) : label -> system -> system -> Prop :=
(* the timer thread, and its end in [main] *)
| sys_timer s c' : timer_routine (ck s) = Some c' ->
    sys_step time_slot LTimer s (mkSys (sim_of s) c' (ld s) (starts s))
| sys_stop s : Forall (fun d => at_pc d = Detached) (dev_list (ck s)) -> timer_stop (ck s) = false ->
    sys_step time_slot LMain s (mkSys (sim_of s) (stop_timer (ck s)) (ld s) (starts s))
(* CPU [i]: a call of its loop, [next_slot], [detach_event] *)
| sys_cpu s i c d c' m' :
    cpus (sim_of s) !! i = Some c -> dev_list (ck s) !! cpu_dev s i = Some d -> at_pc d = Working -> in_loop c ->
    ready_to_step (mach (sim_of s)) c ->
    cpu_routine time_slot (done_flag (sim_of s)) c (mach (sim_of s)) = Ret c' m' ->
    sys_step time_slot (LCpu i c) s (mkSys (set_cpu (sim_of s) i m' c') (ck s) (ld s) (starts s))
| sys_call s i p tl d :
    cpus (sim_of s) !! i = Some (CpuWait p tl) -> dev_list (ck s) !! cpu_dev s i = Some d -> at_pc d = Working ->
    sys_step time_slot (LCpu i (CpuWait p tl)) s
      (mkSys (sim_of s) (set_dev_at (ck s) (cpu_dev s i) (next_slot_call d)) (ld s) (starts s))
| sys_return s i p tl d d' :
    cpus (sim_of s) !! i = Some (CpuWait p tl) -> dev_list (ck s) !! cpu_dev s i = Some d -> at_pc d = InSlot ->
    next_slot_return d = Some d' ->
    sys_step time_slot (LCpu i (CpuWait p tl)) s
      (mkSys (set_cpu (sim_of s) i (mach (sim_of s)) (CpuTop p tl)) (set_dev_at (ck s) (cpu_dev s i) d') (ld s) (starts s))
| sys_detach s i d :
    cpus (sim_of s) !! i = Some CpuStopped -> dev_list (ck s) !! cpu_dev s i = Some d -> at_pc d = Working ->
    sys_step time_slot (LCpu i CpuStopped) s
      (mkSys (sim_of s) (set_dev_at (ck s) (cpu_dev s i) (detach_event d)) (ld s) (starts s))
(* the loader *)
| sys_ld_early s d t ts :
    ld s = LdTest -> dev_list (ck s) !! ld_dev = Some d -> at_pc d = Working ->
    starts s = t :: ts -> current_time (ck s) < t ->
    sys_step time_slot LLoader s (mkSys (sim_of s) (ck s) LdSlot (starts s))
| sys_ld_load s d t ts m dn cs j js k m' :
    ld s = LdTest -> dev_list (ck s) !! ld_dev = Some d -> at_pc d = Working ->
    starts s = t :: ts -> t <= current_time (ck s) -> sim_of s = mkSim m dn cs (j :: js) k ->
    job_ok m j -> load_process k (j_addr j) (j_pcb j) (j_prio j) (j_mm j) m = Ret tt m' ->
    sys_step time_slot LLoader s (mkSys (mkSim m' dn cs js k) (ck s) LdSlot ts)
| sys_ld_call s d :
    ld s = LdSlot -> dev_list (ck s) !! ld_dev = Some d -> at_pc d = Working ->
    sys_step time_slot LLoader s (mkSys (sim_of s) (set_dev_at (ck s) ld_dev (next_slot_call d)) (ld s) (starts s))
| sys_ld_return s d d' :
    ld s = LdSlot -> dev_list (ck s) !! ld_dev = Some d -> at_pc d = InSlot -> next_slot_return d = Some d' ->
    sys_step time_slot LLoader s (mkSys (sim_of s) (set_dev_at (ck s) ld_dev d') LdTest (starts s))
| sys_ld_done s d m dn cs k :
    ld s = LdTest -> dev_list (ck s) !! ld_dev = Some d -> at_pc d = Working -> sim_of s = mkSim m dn cs [] k ->
    sys_step time_slot LLoader s (mkSys (mkSim m true cs [] k) (ck s) LdStopped (starts s))
| sys_ld_detach s d :
    ld s = LdStopped -> dev_list (ck s) !! ld_dev = Some d -> at_pc d = Working ->
    sys_step time_slot LLoader s (mkSys (sim_of s) (set_dev_at (ck s) ld_dev (detach_event d)) (ld s) (starts s)).

Definition sys_any (time_slot : Z) (s s' : system) : Prop := exists l, sys_step time_slot l s s'.

(** The system [main] starts: [n] CPUs, the processes of the configuration, the
    machine after [boot]. *)
Definition sys_init (n : nat) (m : machine) (k : krnl_t) (jobs : list (job * Z)) : system :=
  mkSys (mkSim m false (replicate n (CpuTop 0 0)) (fst <$> jobs) k) (clock_init (S n)) LdTest (snd <$> jobs).

(** The end of [main], after it has joined the threads and stopped the timer:
    the kernel's page table and the devices are released. *)
Definition main_exit (k : krnl_t) : M machine krnl_t :=
  let* k := free_kernel_page_table k in
  on_ram MEMPHY_cleanup ;; on_swp MEMPHY_cleanup ;; ret k.

(** Executions with the number of their steps, of the slots that began, and of
    the instructions executed. *)
Definition ticks (s : system) (l : label) : Z :=
  match l, timer (ck s) with LTimer, TTick _ _ => 1 | _, _ => 0 end.
Definition runs (s : system) (l : label) : Z :=
  match l with LCpu _ c => executed (sim_of s) (Some c) | _ => 0 end.

Inductive sys_run (time_slot : Z) : Z -> Z -> Z -> system -> system -> Prop :=
| sys_nil s : sys_run time_slot 0 0 0 s s
| sys_cons l n k e s1 s2 s3 : sys_run time_slot n k e s1 s2 -> sys_step time_slot l s2 s3 ->
    sys_run time_slot (n + 1) (k + ticks s2 l) (e + runs s2 l) s1 s3.

(** ** Devices by number *)

Definition no_dev : timer_id_t := mkDev false true Detached 0.
Definition dev_at (c : clock) (j : nat) : timer_id_t := default no_dev (dev_list c !! j).

(** A device whose thread still has its part of a slot before it: it has been
    let out of [next_slot], or the timer is about to. *)
Definition pending (c : clock) (j : nat) : bool :=
  match at_pc (dev_at c j) with
  | InSlot =>
    if done (dev_at c j) then match timer c with TClear i _ _ => bool_decide (i <= j)%nat | _ => false end else true
  | _ => false
  end.

Lemma dev_at_some c j d : dev_list c !! j = Some d -> dev_at c j = d.
Proof. intros H. unfold dev_at. by rewrite H. Qed.

Lemma dev_set_eq c j d : (j < length (dev_list c))%nat -> dev_at (set_dev_at c j d) j = d.
Proof. intros H. unfold dev_at, set_dev_at. cbn [dev_list]. by rewrite list_lookup_insert_eq. Qed.
Lemma dev_set_ne c j j' d : j' <> j -> dev_at (set_dev_at c j d) j' = dev_at c j'.
Proof. intros H. unfold dev_at, set_dev_at. cbn [dev_list]. by rewrite list_lookup_insert_ne. Qed.
Lemma pending_set_ne c j j' d : j' <> j -> pending (set_dev_at c j d) j' = pending c j'.
Proof. intros H. unfold pending. by rewrite dev_set_ne. Qed.

(** A device at work when the timer releases the devices has been released. *)
Lemma clear_passed c j d i f e :
  clock_ok c -> dev_list c !! j = Some d -> at_pc d = Working -> timer c = TClear i f e -> (j < i)%nat.
Proof.
  intros (_ & _ & Hinv) Hd Hw Ht. unfold clock_inv in Hinv. rewrite Ht in Hinv. destruct Hinv as (_ & _ & HP).
  pose proof (HP j d Hd) as H. case_bool_decide as Hj; [done|]. unfold settled in H. by rewrite Hw in H.
Qed.

(** [next_slot] puts the thread out of action for this slot. *)
Lemma pending_call c j d :
  clock_ok c -> dev_list c !! j = Some d -> at_pc d = Working -> pending (set_dev_at c j (next_slot_call d)) j = false.
Proof.
  intros Hc Hd Hw. unfold pending. rewrite dev_set_eq by (by eapply lookup_lt_Some). cbn [at_pc done next_slot_call].
  cbn [timer set_dev_at]. destruct (timer c) as [| | |i f e|] eqn:Ht; try done.
  apply bool_decide_false. pose proof (clear_passed c j d i f e Hc Hd Hw Ht). lia.
Qed.

Lemma pending_working c j : at_pc (dev_at c j) = Working -> pending c j = false.
Proof. unfold pending. by intros ->. Qed.

Lemma return_working d d' : next_slot_return d = Some d' -> at_pc d' = Working /\ done d = false.
Proof. unfold next_slot_return. destruct (done d); [done|]. by intros [= <-]. Qed.

(** The timer moves no thread, and changes what is pending only when the time
    advances. *)
Lemma timer_frame c c' j :
  clock_ok c -> timer_routine c = Some c' ->
  length (dev_list c') = length (dev_list c) /\ at_pc (dev_at c' j) = at_pc (dev_at c j) /\
  ((forall f e, timer c <> TTick f e) -> pending c' j = pending c j).
Proof.
  intros (_ & _ & Hinv) Ht. unfold timer_routine in Ht. unfold clock_inv in Hinv. destruct (timer c) as [|i f e|f e|i f e|] eqn:Et.
  - injection Ht as <-. split; [done|]. split; [done|]. intros _. unfold pending, dev_at. cbn [set_timer dev_list timer].
    rewrite Et. by destruct (timer_stop c).
  - assert (c' = set_timer c (timer c') /\ match timer c' with TClear _ _ _ => False | _ => True end) as [-> Hc].
    { destruct (dev_list c !! i); [destruct (_ && _); [done|]|]; by injection Ht as <-. }
    split; [done|]. split; [done|]. intros _. unfold pending, dev_at. cbn [set_timer dev_list timer] in *.
    rewrite Et. by destruct (timer c').
  - injection Ht as <-. split; [done|]. split; [done|]. intros Hf. by destruct (Hf f e).
  - destruct (dev_list c !! i) as [d|] eqn:Hd.
    + injection Ht as <-. cbn [dev_list]. split; [apply length_insert|]. destruct Hinv as (_ & _ & HP).
      pose proof (HP i d Hd) as Hs. rewrite bool_decide_false in Hs by lia.
      destruct (decide (j = i)) as [->|Hj].
      * unfold pending, dev_at. cbn [dev_list timer]. rewrite list_lookup_insert_eq by (by eapply lookup_lt_Some). rewrite Hd.
        cbn [default from_option id at_pc done]. split; [done|]. intros _. rewrite Et. destruct (at_pc d) eqn:Ep; try done.
        unfold settled in Hs. rewrite Ep in Hs. destruct Hs as (-> & _). by rewrite bool_decide_true.
      * unfold pending, dev_at. cbn [dev_list timer]. rewrite list_lookup_insert_ne by done. split; [done|]. intros _. rewrite Et.
        destruct (at_pc _); try done. destruct (done _); try done. apply bool_decide_ext. lia.
    + injection Ht as <-. cbn [set_timer dev_list timer]. split; [done|]. split; [done|]. intros _.
      unfold pending, dev_at. cbn [set_timer dev_list timer]. rewrite Et. apply lookup_ge_None in Hd.
      destruct (dev_list c !! j) as [x|] eqn:Hj; [|by case_bool_decide]. cbn [default from_option id].
      apply lookup_lt_Some in Hj. destruct (at_pc x); try done. destruct (done x); try done.
      rewrite (bool_decide_false (i <= j)%nat) by lia. by case_bool_decide.
  - done.
Qed.

Lemma tick_pending c c' f e j :
  clock_ok c -> timer c = TTick f e -> timer_routine c = Some c' ->
  dev_at c' j = dev_at c j /\ at_pc (dev_at c j) <> Working /\
  (pending c' j = true <-> at_pc (dev_at c j) = InSlot) /\ (pending c j = false).
Proof.
  intros (_ & _ & Hinv) Et Ht. unfold timer_routine in Ht. unfold clock_inv in Hinv. rewrite Et in Ht, Hinv.
  injection Ht as <-. destruct Hinv as [_ HP]. split; [done|].
  assert (Hs : at_pc (dev_at c j) <> Working /\ (at_pc (dev_at c j) = InSlot -> done (dev_at c j) = true)).
  { unfold dev_at. destruct (dev_list c !! j) as [d|] eqn:Hd; [|done]. cbn [default from_option id].
    pose proof (HP j d Hd) as H. unfold settled in H. destruct (at_pc d); [done| |done]. split; [done|]. by destruct H. }
  destruct Hs as [Hw Hd]. split; [done|]. unfold pending. cbn [timer]. unfold dev_at at 1 2. cbn [dev_list].
  fold (dev_at c j). rewrite Et. destruct (at_pc (dev_at c j)); try done. rewrite Hd by done. done.
Qed.

(** ** The moves of a CPU *)

(** Where a CPU goes, and what it knows when it finds no process. *)
Definition cpu_move (dn : bool) (c : cpu) (m : machine) (c' : cpu) (m' : machine) : Prop :=
  match c with
  | CpuTop p tl =>
    if bool_decide (p = 0) then
      (c' = CpuWait 0 tl /\ ready (sch m) = [] /\ ready (sch m') = []) \/ exists q, q <> 0 /\ c' = CpuCheck q tl
    else c' = CpuFree p \/ remaining m p <> 0 /\ (c' = CpuGet tl \/ c' = CpuCheck p tl)
  | CpuFree _ => c' = CpuGet 0
  | CpuGet tl =>
    (c' = CpuCheck 0 tl /\ ready (sch m) = [] /\ ready (sch m') = []) \/ exists q, q <> 0 /\ c' = CpuCheck q tl
  | CpuCheck p tl =>
    if bool_decide (p = 0) then m' = m /\ (c' = CpuStopped /\ dn = true \/ c' = CpuWait 0 tl)
    else exists tl', c' = CpuWait p tl'
  | CpuWait p tl => c' = CpuTop p tl /\ m' = m
  | CpuStopped => c' = CpuStopped /\ m' = m
  end.

Lemma get_next_cases m p m' :
  rep_ok (sch m) -> get_next m = Ret p m' -> p = 0 /\ ready (sch m) = [] /\ ready (sch m') = [] \/ p <> 0.
Proof.
  intros Hs. unfold get_next. destruct (get_proc (sch m)) as [q s'] eqn:Eg. intros [= <- <-].
  destruct (mlq_get_conserves _ _ _ Hs Eg) as [(-> & H1 & H2)|[Hq _]]; [by left|by right].
Qed.

Lemma cpu_moves ts dn c m c' m' :
  rep_ok (sch m) -> cpu_routine ts dn c m = Ret c' m' -> cpu_move dn c m c' m'.
Proof.
  intros Hs. destruct c as [p tl|p|tl|p tl|p tl|]; unfold cpu_routine, cpu_move, bind, ret.
  - case_bool_decide as Hp.
    + destruct (get_next m) as [q m1| |] eqn:Eg; [|done..]. intros [= <- <-].
      destruct (get_next_cases m q m1 Hs Eg) as [(-> & H1 & H2)|Hq]; [by left|right].
      exists q. by rewrite (bool_decide_false (q = 0)).
    + unfold get_pcb. destruct (procs m !! p) as [y|] eqn:Hy; [|done]. unfold remaining. rewrite Hy.
      case_bool_decide; [destruct (finish p m) as [[] m1| |]; try done; intros [= <- _]; by left|].
      case_bool_decide; [destruct (put_back p m) as [[] m1| |]; try done|]; intros [= <- _]; right; (split; [lia|auto]).
  - destruct (free_pcb_all p m) as [[] m1| |]; try done. by intros [= <- _].
  - destruct (get_next m) as [q m1| |] eqn:Eg; [|done..]. intros [= <- <-].
    destruct (get_next_cases m q m1 Hs Eg) as [(-> & H1 & H2)|Hq]; [by left|right]. by exists q.
  - case_bool_decide as Hp; cbn [andb].
    + subst. destruct dn; intros [= <- <-]; auto.
    + destruct (run p m) as [r m1| |]; try done. intros [= <- _]. by eexists.
  - by intros [= <- <-].
  - by intros [= <- <-].
Qed.

(** ** The invariant *)

Definition awake (c : cpu) : Prop :=
  match c with CpuStopped => False | CpuCheck p _ => p <> 0 | _ => True end.

(** As long as there is a process, some CPU will look at the queues again. *)
Definition attended (s : system) : Prop :=
  (exists c, c ∈ cpus (sim_of s) /\ awake c) \/ places (sim_of s) = [].

Record sys_inv (s : system) : Prop := mkSysInv {
  iv_sim : sim_inv (krnl_pgd (os (sim_of s))) (mach (sim_of s)) (cpus (sim_of s));
  iv_pos : forall p, 0 <= remaining (mach (sim_of s)) p;
  iv_ck : clock_ok (ck s);
  iv_len : length (dev_list (ck s)) = S (length (cpus (sim_of s)));
  iv_cpus : (0 < length (cpus (sim_of s)))%nat;
  iv_link : forall i c, cpus (sim_of s) !! i = Some c ->
    match at_pc (dev_at (ck s) (cpu_dev s i)) with
    | Working => True | InSlot => exists p tl, c = CpuWait p tl | Detached => c = CpuStopped
    end;
  iv_ld : match at_pc (dev_at (ck s) ld_dev) with
    | Working => True | InSlot => ld s = LdSlot | Detached => ld s = LdStopped
    end;
  iv_done : ld s <> LdStopped -> done_flag (sim_of s) = false /\ CpuStopped ∉ cpus (sim_of s);
  iv_end : ld s = LdStopped -> jobs (sim_of s) = [];
  iv_busy : forall p, (p ∈ ready (sch (mach (sim_of s))) \/ exists tl, CpuCheck p tl ∈ cpus (sim_of s) /\ p <> 0) ->
    0 < remaining (mach (sim_of s)) p;
  iv_jobs : Forall (fun j => code (j_pcb j) <> []) (jobs (sim_of s));
  iv_att : ld s = LdSlot /\ pending (ck s) ld_dev = false \/ attended s;
}.

Lemma rep_of_inv s : sys_inv s -> rep_ok (sch (mach (sim_of s))).
Proof. intros HI. apply (iv_sim _ HI). Qed.

(** The parts that depend on the clock alone are kept by a step that leaves the
    threads where they are. *)
Lemma cpu_dev_inj s i i' : (i < length (cpus (sim_of s)))%nat -> (i' < length (cpus (sim_of s)))%nat -> i <> i' ->
  cpu_dev s i <> cpu_dev s i'.
Proof. unfold cpu_dev. lia. Qed.
Lemma cpu_dev_ld s i : (i < length (cpus (sim_of s)))%nat -> cpu_dev s i <> ld_dev.
Proof. unfold cpu_dev, ld_dev. lia. Qed.
Lemma cpu_dev_lt s i : sys_inv s -> (cpu_dev s i < length (dev_list (ck s)))%nat.
Proof. intros HI. rewrite (iv_len _ HI). unfold cpu_dev. lia. Qed.

(** The device of a thread, from the step that found it. *)
Lemma cpu_dev_at s i d : dev_list (ck s) !! cpu_dev s i = Some d -> dev_at (ck s) (cpu_dev s i) = d.
Proof. apply dev_at_some. Qed.

(** ** Steps of the simulator *)

Lemma sim_cpu_step ts s i c c' m' :
  cpus s !! i = Some c -> ready_to_step (mach s) c -> cpu_routine ts (done_flag s) c (mach s) = Ret c' m' ->
  sim_step ts (Some c) s (set_cpu s i m' c').
Proof.
  intros Hc Hr E. destruct s as [m d cs js k]. cbn [cpus mach done_flag] in *. unfold set_cpu. cbn [cpus mach done_flag jobs os].
  rewrite (insert_take_drop cs i c') by (by eapply lookup_lt_Some).
  rewrite <- (take_drop_middle cs i c Hc) at 1. by apply step_cpu.
Qed.

(** What the CPUs hold, with one of them apart. *)
Lemma held_mid cs i c : cpus cs !! i = Some c ->
  exists l1 l2, cpus cs = l1 ++ c :: l2 /\ length l1 = i /\ forall c', <[i := c']> (cpus cs) = l1 ++ c' :: l2.
Proof.
  intros Hc. pose proof (lookup_lt_Some _ _ _ Hc) as Hi. exists (take i (cpus cs)), (drop (S i) (cpus cs)).
  split; [by rewrite take_drop_middle|]. split; [rewrite length_take; lia|]. intros c'. by apply insert_take_drop.
Qed.

Lemma held_in cs c q : c ∈ cs -> q ∈ held c -> q ∈ concat (held <$> cs).
Proof.
  intros Hc Hq. apply list_elem_of_In, in_concat. exists (held c).
  split; apply list_elem_of_In; [|done]. by apply list_elem_of_fmap_2.
Qed.
Lemma held_check q tl : q <> 0 -> q ∈ held (CpuCheck q tl).
Proof. intros Hq. unfold held. cbn [active dying]. rewrite bool_decide_false by done. by left. Qed.
Lemma held_wait q tl : q <> 0 -> q ∈ held (CpuWait q tl).
Proof. intros Hq. unfold held. cbn [active dying]. rewrite bool_decide_false by done. by left. Qed.
Lemma held_top q tl : q <> 0 -> q ∈ held (CpuTop q tl).
Proof. intros Hq. unfold held. cbn [active dying]. rewrite bool_decide_false by done. by left. Qed.

(** A process in a queue after a step was in a queue, or the CPU held it. *)
Lemma ready_from o H A c c' m m' q :
  inv_at o H A (held c) (active c) m -> inv_at o H A (held c') (active c') m' ->
  (is_Some (procs m' !! q) -> is_Some (procs m !! q)) ->
  q ∈ ready (sch m') ++ held c' -> q ∈ ready (sch m) ++ held c.
Proof.
  intros (_ & _ & _ & _ & Hl & _) (_ & _ & _ & HN & Hl' & _) Hq Hin.
  assert (Hlive : is_Some (procs m !! q)).
  { apply Hq, Hl'. rewrite app_assoc, elem_of_app. by left. }
  apply Hl in Hlive. rewrite app_assoc in Hlive. apply elem_of_app in Hlive as [?|HH]; [done|].
  rewrite app_assoc in HN. apply NoDup_app in HN as (_ & HN & _). by destruct (HN q Hin).
Qed.

Lemma live_back c m m' :
  (forall q, q ∉ subject c -> undisturbed q m m') ->
  match c with
  | CpuFree p => procs m' !! p = None
  | CpuCheck p _ => p <> 0 -> is_Some (procs m !! p)
  | _ => True
  end -> forall q, is_Some (procs m' !! q) -> is_Some (procs m !! q).
Proof.
  intros Hu Hc q Hq. destruct (decide (q ∈ subject c)) as [Hin|Hin].
  - destruct c as [|p| |p tl| |]; cbn [subject] in Hin; try by apply elem_of_nil in Hin.
    + apply list_elem_of_singleton in Hin as ->. rewrite Hc in Hq. by destruct Hq.
    + case_bool_decide; [by apply elem_of_nil in Hin|]. apply list_elem_of_singleton in Hin as ->. by apply Hc.
  - by apply (undisturbed_left q m m' (Hu q Hin)).
Qed.

(** The processes that wait for a CPU, or that one is about to run, have an
    instruction left. *)
Definition busy (m : machine) (cs : list cpu) : Prop :=
  forall p, (p ∈ ready (sch m) \/ exists tl, CpuCheck p tl ∈ cs /\ p <> 0) -> 0 < remaining m p.

Lemma busy_step o H A dn c c' m m' l1 l2 :
  H = concat (held <$> l1 ++ l2) ->
  inv_at o H A (held c) (active c) m -> inv_at o H A (held c') (active c') m' ->
  (forall q, q ∉ subject c -> undisturbed q m m') ->
  match c with
  | CpuFree p => procs m' !! p = None
  | CpuCheck p _ => p <> 0 -> is_Some (procs m' !! p) /\ remaining m' p = remaining m p - executes m p
  | _ => True
  end ->
  cpu_move dn c m c' m' -> (forall p, 0 <= remaining m p) -> busy m (l1 ++ c :: l2) -> busy m' (l1 ++ c' :: l2).
Proof.
  intros HH HI HI' Hu Heff Hmv Hpos Hb.
  assert (Hback : forall q, is_Some (procs m' !! q) -> is_Some (procs m !! q)).
  { apply (live_back c m m' Hu). destruct c as [| | |p tl| |]; try done. intros Hp.
    destruct HI as (_ & _ & _ & _ & Hl & _). apply Hl. rewrite !elem_of_app. right; left. by apply held_check. }
  assert (HN : NoDup (ready (sch m) ++ held c ++ H)) by apply HI.
  assert (HN' : NoDup (ready (sch m') ++ held c' ++ H)) by apply HI'.
  assert (Hsame : forall q, q ∉ held c -> 0 < remaining m q -> 0 < remaining m' q).
  { intros q Hq Hr. by rewrite (proj1 (undisturbed_left q m m' (Hu q (subject_held c q Hq)))). }
  assert (Hcheck : forall q tl, CpuCheck q tl ∈ l1 ++ l2 -> q <> 0 -> q ∈ H).
  { intros q tl Hin Hq. rewrite HH. apply (held_in _ (CpuCheck q tl)); [done|]. by apply held_check. }
  apply NoDup_app in HN as (_ & HN1 & HN2). apply NoDup_app in HN2 as (_ & HN2 & _).
  apply NoDup_app in HN' as (_ & HN3 & HN4). apply NoDup_app in HN4 as (_ & HN4 & _).
  (* a process the CPU held and that is in a queue or before [run] now *)
  assert (Hown : forall q, q ∈ held c -> (q ∈ ready (sch m') \/ exists tl, c' = CpuCheck q tl) -> 0 < remaining m' q).
  { intros q Hq Hw. assert (Hleft : remaining m q <> 0 -> subject c = [] -> 0 < remaining m' q).
    { intros H0 Hs. rewrite (proj1 (undisturbed_left q m m' (Hu q ltac:(rewrite Hs; apply not_elem_of_nil)))).
      specialize (Hpos q). lia. }
    assert (Hheld' : q ∈ held c' -> q ∉ ready (sch m')) by (intros Hh Hr; apply (HN3 q Hr), elem_of_app; by left).
    destruct c as [p tl|p|tl|p tl|p tl|]; unfold held in Hq; cbn [active dying app] in Hq; rewrite ?app_nil_r in Hq;
      try (by apply elem_of_nil in Hq); cbn [cpu_move] in Hmv.
    - case_bool_decide as Hp; [by apply elem_of_nil in Hq|]. apply list_elem_of_singleton in Hq as ->.
      destruct Hmv as [->|[H0 _]]; [|by apply Hleft].
      destruct Hw as [Hw|[? ?]]; [|done]. by destruct (Hheld' ltac:(by left)).
    - apply list_elem_of_singleton in Hq as ->. subst. destruct Hw as [Hw|[? ?]]; [|done].
      destruct HI' as (_ & _ & _ & _ & Hl' & _). assert (is_Some (procs m' !! p)) as [y Hy] by (apply Hl', elem_of_app; by left).
      by rewrite Heff in Hy.
    - case_bool_decide as Hp; [by apply elem_of_nil in Hq|]. apply list_elem_of_singleton in Hq as ->.
      destruct Hmv as [tl' ->]. destruct Hw as [Hw|[? ?]]; [|done]. destruct (Hheld'); [by apply held_wait|done].
    - case_bool_decide as Hp; [by apply elem_of_nil in Hq|]. apply list_elem_of_singleton in Hq as ->.
      destruct Hmv as [-> ->]. destruct Hw as [Hw|[? ?]]; [|done]. destruct (Hheld'); [by apply held_top|done]. }
  (* where a process comes from *)
  assert (Hfrom : forall q, q ∈ ready (sch m') ++ held c' -> (q ∈ ready (sch m') \/ exists tl, c' = CpuCheck q tl) -> 0 < remaining m' q).
  { intros q Hq Hw. apply (ready_from o H A c c' m m' q HI HI' (Hback q)) in Hq. apply elem_of_app in Hq as [Hq|Hq]; [|by apply Hown].
    apply Hsame; [intros Hh; apply (HN1 q Hq), elem_of_app; by left|]. apply Hb. by left. }
  intros q [Hq|(tl & Hq & Hq0)].
  - apply Hfrom; [apply elem_of_app; by left|by left].
  - apply elem_of_app in Hq as [Hq|[Hq|Hq]%elem_of_cons].
    + apply Hsame; [|apply Hb; right; exists tl; split; [apply elem_of_app; by left|done]].
      intros Hh. apply (HN2 q Hh), (Hcheck q tl); [apply elem_of_app; by left|done].
    + subst. apply Hfrom; [|right; by eexists]. apply elem_of_app. right. by apply held_check.
    + apply Hsame; [|apply Hb; right; exists tl; split; [apply elem_of_app; right; by right|done]].
      intros Hh. apply (HN2 q Hh), (Hcheck q tl); [apply elem_of_app; by right|done].
Qed.

(** ** No process is forgotten *)

#[export] Instance cpu_eq_dec : EqDecision cpu.
Proof. solve_decision. Defined.
#[export] Instance awake_dec c : Decision (awake c).
Proof. destruct c; cbn [awake]; apply _. Defined.

Lemma asleep_held c : ~ awake c -> held c = [].
Proof. destruct c as [| | |p tl| |]; cbn [awake]; try tauto. intros Hp. unfold held. cbn [active dying]. by rewrite bool_decide_true by (by apply dec_stable). Qed.

Lemma held_none cs : (forall c, c ∈ cs -> held c = []) -> concat (held <$> cs) = [].
Proof.
  induction cs as [|c cs IH]; intros H; [done|]. rewrite fmap_cons. cbn [concat].
  rewrite (H c) by (by left). apply IH. intros x Hx. apply H. by right.
Qed.

Lemma no_elem_nil {A} (l : list A) : (forall x, x ∉ l) -> l = [].
Proof. destruct l as [|x l]; [done|]. intros H. destruct (H x). by left. Qed.

(** A step of a CPU, with the invariant on both sides. *)
Record cpu_step_at (o : Z) (dn : bool) (m : machine) (l1 : list cpu) (c : cpu) (l2 : list cpu) (c' : cpu) (m' : machine) : Prop := mkCpuStep {
  cs_inv : inv_at o (concat (held <$> l1 ++ l2)) (concat (active <$> l1 ++ l2)) (held c) (active c) m;
  cs_inv' : inv_at o (concat (held <$> l1 ++ l2)) (concat (active <$> l1 ++ l2)) (held c') (active c') m';
  cs_calm : forall q, q ∉ subject c -> undisturbed q m m';
  cs_eff : match c with
    | CpuFree p => procs m' !! p = None
    | CpuCheck p _ => p <> 0 -> is_Some (procs m' !! p) /\ remaining m' p = remaining m p - executes m p
    | _ => True
    end;
  cs_move : cpu_move dn c m c' m';
}.

Lemma cpu_step_from ts k dn m l1 c l2 c' m' :
  sim_inv k m (l1 ++ c :: l2) -> ready_to_step m c -> cpu_routine ts dn c m = Ret c' m' ->
  cpu_step_at k dn m l1 c l2 c' m'.
Proof.
  intros HI Hr E. apply sim_inv_mid in HI.
  pose proof (cpu_ok k _ _ (active_held (l1 ++ l2)) ts dn c m HI Hr) as Hw. unfold wp in Hw. rewrite E in Hw.
  destruct Hw as (HI' & Hu & Heff). split; try done. apply (cpu_moves ts); [|done]. apply HI.
Qed.

Lemma step_back k dn m l1 c l2 c' m' q :
  cpu_step_at k dn m l1 c l2 c' m' -> q ∈ ready (sch m') ++ held c' -> q ∈ ready (sch m) ++ held c.
Proof.
  intros [HI HI' Hu Heff _]. eapply ready_from; [exact HI|exact HI'|]. apply (live_back c m m' Hu).
  destruct c as [| | |p tl| |]; try done. intros Hp. destruct HI as (_ & _ & _ & _ & Hl & _). apply Hl.
  rewrite !elem_of_app. right; left. by apply held_check.
Qed.

(** Where there is no process, none appears. *)
Lemma step_empty k dn m l1 c l2 c' m' :
  cpu_step_at k dn m l1 c l2 c' m' -> ready (sch m) ++ concat (held <$> l1 ++ c :: l2) = [] ->
  ready (sch m') ++ concat (held <$> l1 ++ c' :: l2) = [].
Proof.
  intros Hs [Hr Hh]%app_eq_nil. pose proof (concat_mid held l1 c l2) as E. rewrite Hh in E.
  apply Permutation_nil in E. apply app_eq_nil in E as [Hc HH].
  assert (Hn : ready (sch m') ++ held c' = []).
  { apply no_elem_nil. intros q Hq. apply (step_back _ _ _ _ _ _ _ _ q Hs) in Hq. rewrite Hr, Hc in Hq. by apply elem_of_nil in Hq. }
  apply app_eq_nil in Hn as [Hr' Hc']. rewrite Hr'. apply Permutation_nil. symmetry. cbn [app]. by rewrite concat_mid, Hc', HH.
Qed.

Lemma awake_step k dn m l1 c l2 c' m' :
  cpu_step_at k dn m l1 c l2 c' m' ->
  (exists x, x ∈ l1 ++ c :: l2 /\ awake x) \/ ready (sch m) ++ concat (held <$> l1 ++ c :: l2) = [] ->
  (exists x, x ∈ l1 ++ c' :: l2 /\ awake x) \/ ready (sch m') ++ concat (held <$> l1 ++ c' :: l2) = [].
Proof.
  intros Hs [(x & Hx & Haw)|Hn]; [|right; by eapply step_empty].
  destruct (decide (awake c')) as [Hc'|Hc']; [left; exists c'; split; [|done]; apply elem_of_app; right; by left|].
  destruct (decide (Exists awake (l1 ++ l2))) as [He|He].
  { left. apply Exists_exists in He as (y & Hy & Hay). exists y. split; [|done].
    apply elem_of_app in Hy as [Hy|Hy]; apply elem_of_app; [by left|right; by right]. }
  assert (Hothers : concat (held <$> l1 ++ l2) = []).
  { apply held_none. intros y Hy. apply asleep_held. intros Hay. apply He, Exists_exists. eauto. }
  assert (Haw' : awake c).
  { apply elem_of_app in Hx as [Hx|[->|Hx]%elem_of_cons]; [|done|];
      (destruct He; apply Exists_exists; exists x; split; [apply elem_of_app; auto|done]). }
  right. assert (ready (sch m') = []) as Hr.
  { destruct Hs as [_ _ _ _ Hmv]. destruct c as [p tl|p|tl|p tl|p tl|]; cbn [cpu_move awake] in *.
    - case_bool_decide; [by destruct Hmv as [(-> & _)|(q & Hq & ->)]; [destruct Hc'|destruct Hc']|].
      by destruct Hmv as [->|[_ [-> | ->]]]; destruct Hc'.
    - subst. by destruct Hc'.
    - destruct Hmv as [(_ & _ & ?)|(q & Hq & ->)]; [done|]. by destruct Hc'.
    - rewrite bool_decide_false in Hmv by done. destruct Hmv as [tl' ->]. by destruct Hc'.
    - destruct Hmv as [-> _]. by destruct Hc'.
    - done. }
  rewrite Hr. apply Permutation_nil. symmetry. cbn [app]. by rewrite concat_mid, Hothers, (asleep_held c' Hc').
Qed.

(** ** Every step keeps the invariant *)

Lemma cpu_part ts s i c c' m' :
  sys_inv s -> cpus (sim_of s) !! i = Some c -> ready_to_step (mach (sim_of s)) c ->
  cpu_routine ts (done_flag (sim_of s)) c (mach (sim_of s)) = Ret c' m' ->
  let S' := set_cpu (sim_of s) i m' c' in
  (exists l1 l2, cpus (sim_of s) = l1 ++ c :: l2 /\ cpus S' = l1 ++ c' :: l2 /\ length l1 = i /\
     cpu_step_at (krnl_pgd (os (sim_of s))) (done_flag (sim_of s)) (mach (sim_of s)) l1 c l2 c' m') /\
  sim_inv (krnl_pgd (os S')) (mach S') (cpus S') /\ (forall p, 0 <= remaining (mach S') p) /\
  busy (mach S') (cpus S') /\ work S' + executed (sim_of s) (Some c) <= work (sim_of s).
Proof.
  intros HI Hc Hr E. cbv zeta. pose proof (sim_cpu_step ts (sim_of s) i c c' m' Hc Hr E) as Hstep.
  destruct (step_work ts _ _ _ (iv_sim _ HI) (iv_pos _ HI) Hstep) as [Hpos Hw].
  destruct (sim_step_ok ts _ _ _ (iv_sim _ HI) Hstep) as [Hsim _].
  destruct (held_mid (sim_of s) i c Hc) as (l1 & l2 & El & Hl1 & Eins).
  assert (Hst : cpu_step_at (krnl_pgd (os (sim_of s))) (done_flag (sim_of s)) (mach (sim_of s)) l1 c l2 c' m').
  { apply (cpu_step_from ts); [rewrite <- El; apply HI|done|done]. }
  split; [exists l1, l2; split_and!; try done; apply Eins|]. split_and!; try done.
  unfold set_cpu. cbn [mach cpus]. rewrite Eins. destruct Hst as [H1 H2 H3 H4 H5].
  apply (busy_step _ _ _ _ c c' _ m' l1 l2 eq_refl H1 H2 H3 H4 H5 (iv_pos _ HI)). rewrite <- El. exact (iv_busy _ HI).
Qed.

(** The timer. *)
Lemma timer_inv s c' :
  sys_inv s -> timer_routine (ck s) = Some c' -> sys_inv (mkSys (sim_of s) c' (ld s) (starts s)).
Proof.
  intros HI Ht. pose proof (iv_ck _ HI) as Hck. pose proof (fun j => timer_frame (ck s) c' j Hck Ht) as Hf.
  assert (Hpc : forall j, at_pc (dev_at c' j) = at_pc (dev_at (ck s) j)) by (intros j; apply Hf).
  destruct HI as [? ? ? Hlen Hn Hlink Hld Hdone ? ? ? Hatt]. split; cbn [sim_of ck ld starts]; try done.
  - by eapply timer_ok.
  - by rewrite (proj1 (Hf 0%nat)).
  - intros i c Hc. cbn [cpu_dev sim_of]. rewrite Hpc. by apply Hlink.
  - by rewrite Hpc.
  - destruct (timer (ck s)) as [| |f e| |] eqn:Et;
      try (destruct (Hf ld_dev) as (_ & _ & Hp); rewrite Hp by (by intros ? ?); exact Hatt).
    right. destruct (decide (Exists (fun c => c <> CpuStopped) (cpus (sim_of s)))) as [He|He].
    + left. apply Exists_exists in He as (c & Hc & Hne). exists c. split; [done|]. apply list_elem_of_lookup in Hc as [i Hi].
      specialize (Hlink i c Hi). destruct (tick_pending (ck s) c' f e (cpu_dev s i) Hck Et Ht) as (_ & Hw & _).
      destruct (at_pc _); [done|by destruct Hlink as (p & tl & ->)|done].
    + destruct Hatt as [[Hl _]|Hatt]; [|exact Hatt]. exfalso.
      destruct (Hdone ltac:(by rewrite Hl)) as [_ Hs]. destruct (cpus (sim_of s)) as [|c cs]; [simpl in Hn; lia|].
      apply He, Exists_cons. left. intros ->. apply Hs. by left.
Qed.

(** A device of a thread that stays where it is. *)
Lemma cpu_dev_inv s i c d' :
  sys_inv s -> cpus (sim_of s) !! i = Some c -> clock_ok (set_dev_at (ck s) (cpu_dev s i) d') ->
  (match at_pc d' with Working => True | InSlot => exists p tl, c = CpuWait p tl | Detached => c = CpuStopped end) ->
  sys_inv (mkSys (sim_of s) (set_dev_at (ck s) (cpu_dev s i) d') (ld s) (starts s)).
Proof.
  intros HI Hc Hck Hm. pose proof (cpu_dev_lt s i HI) as Hlt. pose proof (lookup_lt_Some _ _ _ Hc) as Hi.
  destruct HI as [? ? _ Hlen Hn Hlink Hld Hdone ? ? ? Hatt].
  split; cbn [sim_of ck ld starts]; try done.
  - cbn [set_dev_at dev_list]. by rewrite length_insert.
  - intros i' c0 Hc0. change (cpu_dev {| sim_of := sim_of s; ck := _; ld := _; starts := _ |} i') with (cpu_dev s i').
    destruct (decide (i' = i)) as [->|Hne]; [rewrite dev_set_eq by done; by simplify_eq|].
    rewrite dev_set_ne by (apply cpu_dev_inj; [by eapply lookup_lt_Some|done|done]). by apply Hlink.
  - rewrite dev_set_ne by (symmetry; by apply cpu_dev_ld). done.
  - rewrite pending_set_ne by (symmetry; by apply cpu_dev_ld). done.
Qed.

Lemma ld_dev_inv s d' :
  sys_inv s -> clock_ok (set_dev_at (ck s) ld_dev d') ->
  (match at_pc d' with Working => True | InSlot => ld s = LdSlot | Detached => ld s = LdStopped end) ->
  (pending (ck s) ld_dev = false -> pending (set_dev_at (ck s) ld_dev d') ld_dev = false) ->
  sys_inv (mkSys (sim_of s) (set_dev_at (ck s) ld_dev d') (ld s) (starts s)).
Proof.
  intros HI Hck Hm Hp. assert (Hlt : (ld_dev < length (dev_list (ck s)))%nat) by (rewrite (iv_len _ HI); unfold ld_dev; lia).
  destruct HI as [? ? _ Hlen Hn Hlink Hld Hdone ? ? ? Hatt].
  split; cbn [sim_of ck ld starts]; try done.
  - cbn [set_dev_at dev_list]. by rewrite length_insert.
  - intros i c Hc. change (cpu_dev {| sim_of := sim_of s; ck := _; ld := _; starts := _ |} i) with (cpu_dev s i).
    rewrite dev_set_ne by (apply cpu_dev_ld; by eapply lookup_lt_Some). by apply Hlink.
  - by rewrite dev_set_eq.
  - destruct Hatt as [[Hl Hpd]|Hatt]; [left; auto|by right].
Qed.

Lemma cpu_sim_inv ts s i c c' m' :
  sys_inv s -> cpus (sim_of s) !! i = Some c -> at_pc (dev_at (ck s) (cpu_dev s i)) = Working ->
  ready_to_step (mach (sim_of s)) c -> cpu_routine ts (done_flag (sim_of s)) c (mach (sim_of s)) = Ret c' m' ->
  sys_inv (mkSys (set_cpu (sim_of s) i m' c') (ck s) (ld s) (starts s)).
Proof.
  intros HI Hc Hw Hr E. destruct (cpu_part ts s i c c' m' HI Hc Hr E) as ((l1 & l2 & El & El' & _ & Hst) & Hsim & Hpos & Hb & _).
  pose proof (lookup_lt_Some _ _ _ Hc) as Hi. pose proof (length_insert (cpus (sim_of s)) i c') as Hlen'.
  assert (Hdev : forall i', cpu_dev (mkSys (set_cpu (sim_of s) i m' c') (ck s) (ld s) (starts s)) i' = cpu_dev s i')
    by (intros i'; unfold cpu_dev; cbn [sim_of set_cpu cpus]; by rewrite Hlen').
  destruct HI as [_ _ ? Hlen Hn Hlink Hld Hdone ? _ ? Hatt]. split; cbn [sim_of ck ld starts]; try done.
  - cbn [set_cpu cpus]. by rewrite Hlen'.
  - cbn [set_cpu cpus]. by rewrite Hlen'.
  - intros i' c0 Hc0. rewrite Hdev. cbn [set_cpu cpus] in Hc0. destruct (decide (i' = i)) as [->|Hne]; [by rewrite Hw|].
    rewrite list_lookup_insert_ne in Hc0 by done. by apply Hlink.
  - intros Hl. destruct (Hdone Hl) as [Hd Hs]. split; [done|]. rewrite El'. intros Hin. apply Hs. rewrite El.
    apply elem_of_app in Hin as [Hin|[Hin|Hin]%elem_of_cons]; apply elem_of_app; [by left| |right; by right].
    subst c'. destruct Hst as [_ _ _ _ Hmv]. destruct c as [p tl|p|tl|p tl|p tl|]; cbn [cpu_move] in Hmv.
    + case_bool_decide; [by destruct Hmv as [(? & _)|(q & _ & ?)]|by destruct Hmv as [?|[_ [?|?]]]].
    + done.
    + by destruct Hmv as [(? & _)|(q & _ & ?)].
    + case_bool_decide; [|by destruct Hmv]. destruct Hmv as [_ [[_ Hd']|?]]; [congruence|done].
    + by destruct Hmv.
    + right. by left.
  - destruct Hatt as [?|Hatt]; [by left|right]. unfold attended, places in *. cbn [sim_of mach]. rewrite El'. rewrite El in Hatt.
    by eapply awake_step.
Qed.

(** The loader gives the simulator a process. *)
Lemma load_inv s m dn cs j js k m' t ts' :
  sys_inv s -> ld s = LdTest -> at_pc (dev_at (ck s) ld_dev) = Working -> sim_of s = mkSim m dn cs (j :: js) k ->
  starts s = t :: ts' -> job_ok m j -> load_process k (j_addr j) (j_pcb j) (j_prio j) (j_mm j) m = Ret tt m' ->
  sys_inv (mkSys (mkSim m' dn cs js k) (ck s) LdSlot ts').
Proof.
  intros HI Hld Hw Es Est Hj Hl. pose proof (iv_sim _ HI) as Hsim. pose proof (iv_pos _ HI) as Hpos.
  pose proof (iv_jobs _ HI) as Hjs. pose proof (iv_busy _ HI) as Hb. rewrite Es in Hsim, Hpos, Hjs, Hb.
  cbn [mach cpus os jobs] in *.
  destruct (step_work 0 None (mkSim m dn cs (j :: js) k) (mkSim m' dn cs js k) Hsim Hpos (step_load 0 m dn cs j js k m' Hj Hl)) as [Hpos' _].
  destruct (load_ok m cs k j m' Hsim Hj Hl) as (Hsim' & _ & Hready & Hrem & Hq).
  assert (Hne : code (j_pcb j) <> []) by (by inv Hjs).
  assert (Hkeep : forall q, 0 < remaining m q -> 0 < remaining m' q).
  { intros q Hr. destruct (decide (q = j_addr j)) as [->|Hne']; [|unfold remaining in *; by rewrite Hq].
    rewrite Hrem. destruct (code (j_pcb j)); [done|simpl; lia]. }
  destruct HI as [_ _ ? Hlen Hn Hlink _ Hdone _ _ _ _]. split; cbn [sim_of ck ld starts mach cpus os jobs]; try done.
  - rewrite Hlen. by rewrite Es.
  - by rewrite Es in Hn.
  - intros i c Hc. rewrite Es in Hlink. cbn [cpus] in Hlink. specialize (Hlink i c Hc). unfold cpu_dev in *. by rewrite Es in Hlink.
  - by rewrite Hw.
  - intros _. rewrite Es in Hdone. apply Hdone. by rewrite Hld.
  - intros p [Hp|Hp]; [|apply Hkeep, Hb; by right]. rewrite Hready in Hp. apply elem_of_cons in Hp as [->|Hp]; [|apply Hkeep, Hb; by left].
    rewrite Hrem. destruct (code (j_pcb j)); [done|simpl; lia].
  - by inv Hjs.
  - left. split; [done|]. by apply pending_working.
Qed.

(** The loader moves on by itself: it waits, or it is done. *)
Lemma ld_early_inv s :
  sys_inv s -> at_pc (dev_at (ck s) ld_dev) = Working -> ld s = LdTest -> sys_inv (mkSys (sim_of s) (ck s) LdSlot (starts s)).
Proof.
  intros [? ? ? Hlen Hn Hlink Hld Hdone Hend ? ? Hatt] Hw Hl. split; cbn [sim_of ck ld starts]; try done.
  - by rewrite Hw.
  - intros _. apply Hdone. by rewrite Hl.
  - right. destruct Hatt as [[? _]|?]; [congruence|done].
Qed.

Lemma ld_done_inv s m dn cs k :
  sys_inv s -> at_pc (dev_at (ck s) ld_dev) = Working -> ld s = LdTest -> sim_of s = mkSim m dn cs [] k ->
  sys_inv (mkSys (mkSim m true cs [] k) (ck s) LdStopped (starts s)).
Proof.
  intros [Hsim Hpos ? Hlen Hn Hlink Hld Hdone Hend Hb ? Hatt] Hw Hl Es. unfold attended, places, cpu_dev in *. rewrite Es in *.
  split; cbn [sim_of ck ld starts mach cpus os jobs] in *; try done.
  - by rewrite Hw.
  - right. destruct Hatt as [[? _]|?]; [congruence|done].
Qed.

Lemma sys_step_inv ts l s s' : sys_inv s -> sys_step ts l s s' -> sys_inv s'.
Proof.
  intros HI Hs. pose proof (iv_ck _ HI) as Hck. destruct Hs as
    [s c' Ht|s Hall Hst|s i c d c' m' Hc Hd Hw Hin Hr E|s i p tl d Hc Hd Hw|s i p tl d d' Hc Hd Hw Hr|s i d Hc Hd Hw
    |s d t ts' Hl Hd Hw Est Ht|s d t ts' m dn cs j js k m' Hl Hd Hw Est Ht Es Hj E|s d Hl Hd Hw|s d d' Hl Hd Hw Hr
    |s d m dn cs k Hl Hd Hw Es|s d Hl Hd Hw]; try (rewrite <- (dev_at_some _ _ _ Hd) in Hw).
  - by apply timer_inv.
  - pose proof (clock_step_ok _ _ Hck (clock_stop _ Hall)) as Hck'. destruct HI. by split.
  - by apply (cpu_sim_inv ts s i c).
  - apply (cpu_dev_inv s i (CpuWait p tl)); [done|done| |cbn; eauto].
    apply (clock_step_ok (ck s)); [done|]. rewrite (dev_at_some _ _ _ Hd) in Hw. by apply clock_call.
  - rewrite (dev_at_some _ _ _ Hd) in Hw.
    assert (Hck' : clock_ok (set_dev_at (ck s) (cpu_dev s i) d')) by (apply (clock_step_ok (ck s)); [done|by eapply clock_return]).
    destruct (return_working _ _ Hr) as [Hd' _].
    assert (HI1 : sys_inv (mkSys (sim_of s) (set_dev_at (ck s) (cpu_dev s i) d') (ld s) (starts s)))
      by (apply (cpu_dev_inv s i (CpuWait p tl)); [done|done|done|by rewrite Hd']).
    apply (cpu_sim_inv ts _ i (CpuWait p tl) (CpuTop p tl) (mach (sim_of s)) HI1); [done| |done|done].
    cbn [ck]. change (cpu_dev _ i) with (cpu_dev s i). by rewrite dev_set_eq by (by eapply lookup_lt_Some).
  - apply (cpu_dev_inv s i CpuStopped); [done|done| |done].
    apply (clock_step_ok (ck s)); [done|]. rewrite (dev_at_some _ _ _ Hd) in Hw. by apply clock_detach.
  - by apply ld_early_inv.
  - by eapply load_inv.
  - rewrite (dev_at_some _ _ _ Hd) in Hw. apply ld_dev_inv; [done| |done|intros _; by apply pending_call].
    apply (clock_step_ok (ck s)); [done|]. by apply clock_call.
  - rewrite (dev_at_some _ _ _ Hd) in Hw.
    destruct (return_working _ _ Hr) as [Hd' Hdn].
    assert (Hck' : clock_ok (set_dev_at (ck s) ld_dev d')) by (apply (clock_step_ok (ck s)); [done|by eapply clock_return]).
    assert (Hatt : attended s).
    { destruct (iv_att _ HI) as [[_ Hp]|?]; [|done]. unfold pending in Hp. by rewrite (dev_at_some _ _ _ Hd), Hw, Hdn in Hp. }
    assert (Hlen : (ld_dev < length (dev_list (ck s)))%nat) by (by eapply lookup_lt_Some).
    destruct HI as [? ? _ ? ? Hlink Hld Hdone Hend ? ? _]. split; cbn [sim_of ck ld starts]; try done.
    + cbn [set_dev_at dev_list]. by rewrite length_insert.
    + intros i c Hc. change (cpu_dev _ i) with (cpu_dev s i).
      rewrite dev_set_ne by (apply cpu_dev_ld; by eapply lookup_lt_Some). by apply Hlink.
    + by rewrite dev_set_eq, Hd' by done.
    + intros _. apply Hdone. by rewrite Hl.
    + by right.
  - by eapply ld_done_inv.
  - rewrite (dev_at_some _ _ _ Hd) in Hw. apply ld_dev_inv; [done| |done|].
    + apply (clock_step_ok (ck s)); [done|]. by apply clock_detach.
    + intros _. unfold pending. rewrite dev_set_eq by (by eapply lookup_lt_Some). done.
Qed.
