(* ===== verification/Progress.v ===== *)
(** * Progress of the simulator

    From the barrier of the clock: the steps of a slot are bounded, a slot in
    which no instruction is executed is one without a process, and so every
    program that has been loaded ends after a bounded number of steps of any
    execution of the threads.  The argument has two measures: [measure], the
    steps the threads have before the next tick, and [work], the instructions
    left; [slot_inv] says what a slot without an instruction knows. *)

From S2P Require Import Prelude.
From S2P Require Import Word.
From S2P Require Import Exclusive.
From S2P Require Import Queue.
From S2P Require Import Sched.
From S2P Require Import MemPhy.
From S2P Require Import Machine.
From S2P Require Import PageTable.
From S2P Require Import Vm.
From S2P Require Import Kernel.
From S2P Require Import Frame.
From S2P Require Import Cpu.
From S2P Require Import Isolation.
From S2P Require Import Create.
From S2P Require Import Teardown.
From S2P Require Import Os.
From S2P Require Import Timer.
From S2P Require Import System.

(** ** The steps of a slot are bounded *)

(** How many steps a CPU, the loader and the timer have before the next slot. *)
Definition cpu_rank (pd : bool) (pc : dev_pc) (c : cpu) : Z :=
  match pc with
  | Detached => 0
  | InSlot => if pd then 7 else 0
  | Working =>
    match c with CpuTop _ _ => 6 | CpuFree _ => 5 | CpuGet _ => 4 | CpuCheck _ _ => 3 | CpuWait _ _ => 1 | CpuStopped => 1 end
  end.
Definition ld_rank (pd : bool) (pc : dev_pc) (l : ld_pc) : Z :=
  match pc with
  | Detached => 0
  | InSlot => if pd then 7 else 0
  | Working => match l with LdTest => 3 | _ => 1 end
  end.
Definition timer_rank (L : Z) (t : timer_pc) : Z :=
  match t with
  | TTick _ _ | TExit => 0
  | TWait i _ _ => L - Z.of_nat i + 1
  | TLoop => L + 2
  | TClear i _ _ => L - Z.of_nat i + L + 3
  end.

Definition rank (s : system) (i : nat) : Z :=
  match cpus (sim_of s) !! i with
  | Some c => cpu_rank (pending (ck s) (cpu_dev s i)) (at_pc (dev_at (ck s) (cpu_dev s i))) c
  | None => 0
  end.
Definition ncpus (s : system) : nat := length (cpus (sim_of s)).
Definition measure (s : system) : Z :=
  zsum (rank s <$> seq 0 (ncpus s)) + ld_rank (pending (ck s) ld_dev) (at_pc (dev_at (ck s) ld_dev)) (ld s) +
  timer_rank (Z.of_nat (S (ncpus s))) (timer (ck s)) + (if timer_stop (ck s) then 0 else 1).

(** The steps of one slot of [n] CPUs. *)
Definition slot_steps (n : nat) : Z := 9 * Z.of_nat n + 13.

Lemma sum_ext (f g : nat -> Z) l : (forall i, i ∈ l -> f i = g i) -> zsum (f <$> l) = zsum (g <$> l).
Proof. intros H. f_equal. apply list_fmap_ext. intros k i Hi. apply H. by eapply list_elem_of_lookup_2. Qed.

Lemma sum_change (f g : nat -> Z) n i : (i < n)%nat -> (forall j, j <> i -> g j = f j) ->
  zsum (g <$> seq 0 n) = zsum (f <$> seq 0 n) + g i - f i.
Proof.
  intros Hi Hj. assert (Hp : i ∈ seq 0 n) by (apply elem_of_seq; lia).
  apply elem_of_Permutation in Hp as [k Hk]. pose proof (NoDup_seq 0 n) as HN. rewrite Hk in HN. apply NoDup_cons in HN as [Hni _].
  rewrite (zsum_perm _ _ (fmap_Permutation f _ _ Hk)), (zsum_perm _ _ (fmap_Permutation g _ _ Hk)), !fmap_cons, !zsum_cons.
  rewrite (sum_ext g f k); [lia|]. intros j Hjk. apply Hj. by intros ->.
Qed.

Lemma sum_bound (f : nat -> Z) b l : (forall i, 0 <= f i <= b) -> 0 <= zsum (f <$> l) <= b * Z.of_nat (length l).
Proof.
  intros H. induction l as [|i l IH]; [simpl; lia|]. rewrite fmap_cons, zsum_cons. specialize (H i). cbn [length]. lia.
Qed.

Lemma cpu_rank_bound pd pc c : 0 <= cpu_rank pd pc c <= 7.
Proof. destruct pc, pd, c; simpl; lia. Qed.
Lemma ld_rank_bound pd pc l : 0 <= ld_rank pd pc l <= 7.
Proof. destruct pc, pd, l; simpl; lia. Qed.

Lemma timer_rank_bound s : sys_inv s -> 0 <= timer_rank (Z.of_nat (S (ncpus s))) (timer (ck s)) <= 2 * Z.of_nat (S (ncpus s)) + 3.
Proof.
  intros HI. pose proof (iv_len _ HI) as Hl. fold (ncpus s) in Hl. destruct (iv_ck _ HI) as (_ & _ & Hinv).
  unfold clock_inv in Hinv. destruct (timer (ck s)) as [|i f e|f e|i f e|]; cbn [timer_rank]; try lia;
    destruct Hinv as (Hi & _); lia.
Qed.

Lemma measure_bound s : sys_inv s -> 0 <= measure s <= slot_steps (ncpus s).
Proof.
  intros HI. pose proof (timer_rank_bound s HI) as Ht. unfold measure, slot_steps.
  pose proof (sum_bound (rank s) 7 (seq 0 (ncpus s))) as Hr. rewrite length_seq in Hr.
  specialize (Hr ltac:(intros i; unfold rank; destruct (_ !! i); [apply cpu_rank_bound|lia])).
  pose proof (ld_rank_bound (pending (ck s) ld_dev) (at_pc (dev_at (ck s) ld_dev)) (ld s)).
  destruct (timer_stop (ck s)); lia.
Qed.

(** The timer takes its steps towards the next tick. *)
Lemma timer_rank_step s c' :
  sys_inv s -> timer_routine (ck s) = Some c' -> (forall f e, timer (ck s) <> TTick f e) ->
  timer_rank (Z.of_nat (S (ncpus s))) (timer c') + 1 <= timer_rank (Z.of_nat (S (ncpus s))) (timer (ck s)) /\
  timer_stop c' = timer_stop (ck s).
Proof.
  intros HI Ht Hnt. pose proof (iv_len _ HI) as Hl. fold (ncpus s) in Hl. destruct (iv_ck _ HI) as (_ & _ & Hinv).
  unfold timer_routine in Ht. unfold clock_inv in Hinv. destruct (timer (ck s)) as [|i f e|f e|i f e|] eqn:Et.
  - injection Ht as <-. cbn [set_timer timer timer_stop]. destruct (timer_stop (ck s)); cbn [timer_rank]; split; try done; lia.
  - destruct Hinv as (Hi & _). destruct (dev_list (ck s) !! i) as [d|] eqn:Hd.
    + apply lookup_lt_Some in Hd. destruct (_ && _); [done|]. injection Ht as <-. cbn [set_timer timer timer_stop timer_rank]. split; [lia|done].
    + injection Ht as <-. cbn [set_timer timer timer_stop timer_rank]. split; [lia|done].
  - by destruct (Hnt f e).
  - destruct Hinv as (Hi & _). destruct (dev_list (ck s) !! i) as [d|] eqn:Hd; injection Ht as <-.
    + apply lookup_lt_Some in Hd. cbn [timer timer_stop timer_rank]. split; [lia|done].
    + cbn [set_timer timer timer_stop]. case_bool_decide; cbn [timer_rank]; split; try done; lia.
  - done.
Qed.

(** A step towards the next slot: no CPU gets farther from it, and one that
    executes an instruction ends its part of the slot with it. *)
Definition nearer (v : Z) (s s' : system) : Prop :=
  measure s' + 1 <= measure s /\ (forall j, rank s' j <= rank s j) /\
  (0 < v -> exists i, (i < ncpus s)%nat /\ rank s i = 3 /\ rank s' i = 1).

(** A step of CPU [i] that leaves the other threads alone. *)
Lemma rank_one v s s' i :
  (0 < v -> rank s i = 3 /\ rank s' i = 1) -> ncpus s' = ncpus s -> (i < ncpus s)%nat -> rank s' i + 1 <= rank s i -> (forall j, j <> i -> rank s' j = rank s j) ->
  ld s' = ld s -> (forall j, (j = ld_dev) -> dev_at (ck s') j = dev_at (ck s) j /\ pending (ck s') j = pending (ck s) j) ->
  timer (ck s') = timer (ck s) -> timer_stop (ck s') = timer_stop (ck s) -> nearer v s s'.
Proof.
  intros Hv Hn Hi Hr Hj Hl Hd Ht Hst. destruct (Hd ld_dev eq_refl) as [E1 E2]. split; [|split].
  - unfold measure. rewrite Hn, Hl, E1, E2, Ht, Hst. rewrite (sum_change (rank s) (rank s') (ncpus s) i) by done. lia.
  - intros j. destruct (decide (j = i)) as [->|Hne]; [lia|]. by rewrite Hj.
  - intros H0. exists i. split; [done|auto].
Qed.

(** A step of the loader. *)
Lemma rank_loader s s' :
  ncpus s' = ncpus s -> (forall j, rank s' j = rank s j) ->
  ld_rank (pending (ck s') ld_dev) (at_pc (dev_at (ck s') ld_dev)) (ld s') + 1 <=
    ld_rank (pending (ck s) ld_dev) (at_pc (dev_at (ck s) ld_dev)) (ld s) ->
  timer (ck s') = timer (ck s) -> timer_stop (ck s') = timer_stop (ck s) -> nearer 0 s s'.
Proof.
  intros Hn Hj Hl Ht Hst. split; [|split; [intros j; by rewrite Hj|lia]].
  unfold measure. rewrite Hn, Ht, Hst. rewrite (sum_ext (rank s') (rank s)) by (intros; apply Hj). lia.
Qed.

Lemma rank_set_dev s i d' j : sys_inv s -> (i < ncpus s)%nat -> j <> i ->
  rank (mkSys (sim_of s) (set_dev_at (ck s) (cpu_dev s i) d') (ld s) (starts s)) j = rank s j.
Proof.
  intros HI Hi Hj. unfold rank. cbn [sim_of ck]. destruct (cpus (sim_of s) !! j) as [c|] eqn:Hc; [|done].
  change (cpu_dev {| sim_of := sim_of s; ck := _; ld := _; starts := _ |} j) with (cpu_dev s j).
  assert (cpu_dev s j <> cpu_dev s i) by (apply cpu_dev_inj; [by eapply lookup_lt_Some|done|done]).
  by rewrite dev_set_ne, pending_set_ne.
Qed.

Lemma rank_set_ld s d' l j : sys_inv s ->
  rank (mkSys (sim_of s) (set_dev_at (ck s) ld_dev d') l (starts s)) j = rank s j.
Proof.
  intros HI. unfold rank. cbn [sim_of ck]. destruct (cpus (sim_of s) !! j) as [c|] eqn:Hc; [|done].
  change (cpu_dev {| sim_of := sim_of s; ck := _; ld := _; starts := _ |} j) with (cpu_dev s j).
  assert (cpu_dev s j <> ld_dev) by (apply cpu_dev_ld; by eapply lookup_lt_Some).
  by rewrite dev_set_ne, pending_set_ne.
Qed.

Lemma move_rank dn c m c' m' : in_loop c -> cpu_move dn c m c' m' -> cpu_rank false Working c' + 1 <= cpu_rank false Working c.
Proof.
  destruct c as [p tl|p|tl|p tl|p tl|]; cbn [in_loop cpu_move]; try done; intros _ Hmv.
  - case_bool_decide; [destruct Hmv as [(-> & _)|(q & _ & ->)]|destruct Hmv as [->|[_ [-> | ->]]]]; simpl; lia.
  - subst. simpl. lia.
  - destruct Hmv as [(-> & _)|(q & _ & ->)]; simpl; lia.
  - case_bool_decide; [destruct Hmv as [_ [[-> _]| ->]]|destruct Hmv as [tl' ->]]; simpl; lia.
Qed.

(** The parts of [nearer], thread by thread. *)
Lemma timer_nearer s c' :
  sys_inv s -> timer_routine (ck s) = Some c' -> (forall f e, timer (ck s) <> TTick f e) ->
  nearer 0 s (mkSys (sim_of s) c' (ld s) (starts s)).
Proof.
  intros HI Ht Hnt. destruct (timer_rank_step s c' HI Ht Hnt) as [H1 H2].
  pose proof (fun j => timer_frame (ck s) c' j (iv_ck _ HI) Ht) as Hf. set (s' := mkSys _ _ _ _).
  assert (Hrk : forall i, rank s' i = rank s i).
  { intros i. unfold rank. cbn [s' sim_of ck]. change (cpu_dev s' i) with (cpu_dev s i).
    destruct (Hf (cpu_dev s i)) as (_ & -> & Hp'). by rewrite (Hp' Hnt). }
  split; [|split; [intros j; by rewrite Hrk|lia]]. unfold measure. rewrite (sum_ext (rank s') (rank s)) by (intros; apply Hrk).
  change (ncpus s') with (ncpus s). cbn [s' ck ld]. rewrite H2. destruct (Hf ld_dev) as (_ & -> & Hp). rewrite (Hp Hnt). lia.
Qed.

Lemma stop_nearer s : timer_stop (ck s) = false -> nearer 0 s (mkSys (sim_of s) (stop_timer (ck s)) (ld s) (starts s)).
Proof.
  intros Hst. set (s1 := mkSys _ (stop_timer _) _ _). assert (Hrk : forall j, rank s1 j = rank s j) by (intros; reflexivity).
  split; [|split; [intros j; by rewrite Hrk|lia]]. unfold measure. rewrite (sum_ext (rank s1) (rank s)) by (intros; apply Hrk). rewrite Hst.
  change (pending (ck s1) ld_dev) with (pending (ck s) ld_dev). change (dev_at (ck s1) ld_dev) with (dev_at (ck s) ld_dev).
  change (ncpus s1) with (ncpus s). cbn [s1 ck ld stop_timer timer timer_stop]. lia.
Qed.

Lemma cpu_nearer ts s i c c' m' :
  sys_inv s -> cpus (sim_of s) !! i = Some c -> at_pc (dev_at (ck s) (cpu_dev s i)) = Working -> in_loop c ->
  cpu_routine ts (done_flag (sim_of s)) c (mach (sim_of s)) = Ret c' m' ->
  nearer (executed (sim_of s) (Some c)) s (mkSys (set_cpu (sim_of s) i m' c') (ck s) (ld s) (starts s)).
Proof.
  intros HI Hc Hw Hin E. set (s1 := mkSys _ _ _ _). pose proof (lookup_lt_Some _ _ _ Hc) as Hlt.
  assert (Hn : ncpus s1 = ncpus s) by (unfold ncpus; cbn [s1 sim_of set_cpu cpus]; by rewrite length_insert).
  assert (Hdev : forall j, cpu_dev s1 j = cpu_dev s j) by (intros j; unfold cpu_dev; fold (ncpus s1) (ncpus s); by rewrite Hn).
  assert (Hi : rank s i = cpu_rank false Working c) by (unfold rank; rewrite Hc, Hw; by destruct c).
  assert (Hi' : rank s1 i = cpu_rank false Working c')
    by (unfold rank; rewrite Hdev; cbn [s1 sim_of set_cpu cpus ck]; rewrite list_lookup_insert_eq, Hw by done; by destruct c').
  pose proof (cpu_moves ts _ _ _ _ _ (rep_of_inv _ HI) E) as Hmv. apply (rank_one _ _ _ i); try done.
  - intros Hx. rewrite Hi, Hi'. destruct c as [| | |p tl| |]; try (simpl in Hx; lia). cbn [executed cpu_move] in *.
    case_bool_decide; [lia|]. by destruct Hmv as [tl' ->].
  - rewrite Hi, Hi'. by eapply move_rank.
  - intros j Hj. unfold rank. rewrite Hdev. cbn [s1 sim_of set_cpu cpus ck]. by rewrite list_lookup_insert_ne.
Qed.

Lemma return_nearer s i p tl d d' :
  sys_inv s -> cpus (sim_of s) !! i = Some (CpuWait p tl) -> dev_at (ck s) (cpu_dev s i) = d -> at_pc d = InSlot ->
  next_slot_return d = Some d' ->
  nearer 0 s (mkSys (set_cpu (sim_of s) i (mach (sim_of s)) (CpuTop p tl)) (set_dev_at (ck s) (cpu_dev s i) d') (ld s) (starts s)).
Proof.
  intros HI Hc Hda Hw Hr. pose proof (lookup_lt_Some _ _ _ Hc) as Hlt.
  assert (Hne : cpu_dev s i <> ld_dev) by (by apply cpu_dev_ld). pose proof (cpu_dev_lt s i HI) as Hdl.
  destruct (return_working _ _ Hr) as [Hd' Hdn]. set (s1 := mkSys (set_cpu _ _ _ _) _ _ _).
  assert (Hn : ncpus s1 = ncpus s) by (unfold ncpus; cbn [s1 sim_of set_cpu cpus]; by rewrite length_insert).
  assert (Hdev : forall j, cpu_dev s1 j = cpu_dev s j) by (intros j; unfold cpu_dev; fold (ncpus s1) (ncpus s); by rewrite Hn).
  apply (rank_one _ _ _ i); try done.
  - unfold rank. rewrite Hdev. cbn [s1 sim_of set_cpu cpus ck]. rewrite list_lookup_insert_eq by done. rewrite Hc.
    rewrite dev_set_eq, Hd' by done. unfold pending. rewrite Hda, Hw, Hdn. simpl. lia.
  - intros j Hj. rewrite <- (rank_set_dev s i d' j HI Hlt Hj). unfold rank. rewrite Hdev. cbn [s1 sim_of set_cpu cpus ck].
    by rewrite list_lookup_insert_ne.
  - intros j ->. cbn [s1 ck]. by rewrite dev_set_ne, pending_set_ne.
Qed.

(** A CPU gives up its part of the slot, or its device. *)
Lemma cpu_dev_nearer s i c d' :
  sys_inv s -> cpus (sim_of s) !! i = Some c -> at_pc (dev_at (ck s) (cpu_dev s i)) = Working ->
  match at_pc d' with Working => False | InSlot => pending (set_dev_at (ck s) (cpu_dev s i) d') (cpu_dev s i) = false | Detached => True end ->
  nearer 0 s (mkSys (sim_of s) (set_dev_at (ck s) (cpu_dev s i) d') (ld s) (starts s)).
Proof.
  intros HI Hc Hw Hd'. pose proof (lookup_lt_Some _ _ _ Hc) as Hlt.
  assert (Hne : cpu_dev s i <> ld_dev) by (by apply cpu_dev_ld). pose proof (cpu_dev_lt s i HI) as Hdl.
  apply (rank_one _ _ _ i); try done.
  - unfold rank. cbn [sim_of ck]. rewrite Hc. change (cpu_dev {| sim_of := sim_of s; ck := _; ld := _; starts := _ |} i) with (cpu_dev s i).
    rewrite dev_set_eq, Hw by done. destruct (at_pc d'); [done|rewrite Hd'|]; destruct c; simpl; lia.
  - intros j Hj. by apply rank_set_dev.
  - intros j ->. cbn [ck]. by rewrite dev_set_ne, pending_set_ne.
Qed.

(** Every step but a tick brings the next slot nearer. *)
Lemma measure_step ts l s s' :
  sys_inv s -> sys_step ts l s s' -> ncpus s' = ncpus s /\ (ticks s l = 0 -> nearer (runs s l) s s').
Proof.
  intros HI Hs. pose proof (iv_ck _ HI) as Hck. destruct Hs as
    [s c' Ht|s Hall Hst|s i c d c' m' Hc Hd Hw Hin Hr E|s i p tl d Hc Hd Hw|s i p tl d d' Hc Hd Hw Hr|s i d Hc Hd Hw
    |s d t ts' Hl Hd Hw Est Ht|s d t ts' m dn cs j js k m' Hl Hd Hw Est Ht Es Hj E|s d Hl Hd Hw|s d d' Hl Hd Hw Hr
    |s d m dn cs k Hl Hd Hw Es|s d Hl Hd Hw]; try pose proof (dev_at_some _ _ _ Hd) as Hda;
    try pose proof (lookup_lt_Some _ _ _ Hd) as Hdl; cbn [runs].
  - split; [done|]. intros Hk. apply timer_nearer; [done|done|]. intros f e Et. unfold ticks in Hk. by rewrite Et in Hk.
  - split; [done|]. intros _. by apply stop_nearer.
  - split; [unfold ncpus; cbn [sim_of set_cpu cpus]; by rewrite length_insert|]. intros _.
    eapply (cpu_nearer ts); [done|done|by rewrite Hda|done|done].
  - split; [done|]. intros _. apply (cpu_dev_nearer s i (CpuWait p tl)); [done|done|by rewrite Hda|]. cbn [at_pc next_slot_call]. by apply pending_call.
  - split; [unfold ncpus; cbn [sim_of set_cpu cpus]; by rewrite length_insert|]. intros _. by apply (return_nearer s i p tl d).
  - split; [done|]. intros _. apply (cpu_dev_nearer s i CpuStopped); [done|done|by rewrite Hda|done].
  - split; [done|]. intros _. apply rank_loader; try done. cbn [ck ld]. rewrite Hda, Hw, Hl. simpl. lia.
  - split; [unfold ncpus; by rewrite Es|]. intros _. apply rank_loader; try done; [unfold ncpus; by rewrite Es| |].
    + intros i. unfold rank, cpu_dev. cbn [sim_of ck cpus]. by rewrite Es.
    + cbn [ck ld]. rewrite Hda, Hw, Hl. simpl. lia.
  - split; [done|]. intros _. apply rank_loader; try done; [intros j; by apply rank_set_ld|].
    cbn [ck ld]. rewrite dev_set_eq, pending_call, Hda, Hw, Hl by done. simpl. lia.
  - destruct (return_working _ _ Hr) as [Hd' Hdn]. split; [done|]. intros _. apply rank_loader; try done; [intros j; by apply rank_set_ld|].
    cbn [ck ld]. rewrite dev_set_eq, Hd' by done. unfold pending at 2. rewrite Hda, Hw, Hdn. simpl. lia.
  - split; [unfold ncpus; by rewrite Es|]. intros _. apply rank_loader; try done; [unfold ncpus; by rewrite Es| |].
    + intros i. unfold rank, cpu_dev. cbn [sim_of ck cpus]. by rewrite Es.
    + cbn [ck ld]. rewrite Hda, Hw, Hl. simpl. lia.
  - split; [done|]. intros _. apply rank_loader; try done; [intros j; by apply rank_set_ld|].
    cbn [ck ld]. rewrite dev_set_eq, Hda, Hw, Hl by done. simpl. lia.
Qed.

(** ** A slot without an instruction is the last *)

(** A CPU that will look at the queues or execute in this slot. *)
Definition seeking (s : system) (i : nat) (c : cpu) : Prop :=
  pending (ck s) (cpu_dev s i) = true \/
  at_pc (dev_at (ck s) (cpu_dev s i)) = Working /\ in_loop c /\ awake c.

(** [g]: an instruction was executed in this slot.  If not, no CPU has a process
    behind it, and one is still looking, or there is no process. *)
Definition slot_inv (g : bool) (s : system) : Prop :=
  g = true \/
  ((forall i p tl, cpus (sim_of s) !! i = Some (CpuWait p tl) -> p <> 0 -> pending (ck s) (cpu_dev s i) = true) /\
   ((exists i c, cpus (sim_of s) !! i = Some c /\ seeking s i c) \/ places (sim_of s) = [])).

(** Two states in which the CPUs are in the same places. *)
Lemma slot_inv_same g s s' :
  cpus (sim_of s') = cpus (sim_of s) -> places (sim_of s') = places (sim_of s) ->
  (forall i, (i < ncpus s)%nat -> pending (ck s') (cpu_dev s' i) = pending (ck s) (cpu_dev s i) /\
     at_pc (dev_at (ck s') (cpu_dev s' i)) = at_pc (dev_at (ck s) (cpu_dev s i))) ->
  slot_inv g s -> slot_inv g s'.
Proof.
  intros Ec Ep Hi [?|[H1 H2]]; [by left|right]. unfold ncpus, seeking in *. rewrite Ec, Ep. split.
  - intros i p tl Hc Hp. destruct (Hi i) as [-> _]; [by eapply lookup_lt_Some|]. by apply (H1 i p tl).
  - destruct H2 as [(i & c & Hc & Hs)|?]; [left|by right]. exists i, c. split; [done|].
    unfold seeking in *. by destruct (Hi i) as [-> ->]; [eapply lookup_lt_Some|].
Qed.

#[export] Instance in_loop_dec c : Decision (in_loop c).
Proof. destruct c; cbn [in_loop]; apply _. Defined.
#[export] Instance dev_pc_eq_dec : EqDecision dev_pc.
Proof. solve_decision. Defined.
#[export] Instance timer_pc_eq_dec : EqDecision timer_pc.
Proof. solve_decision. Defined.
#[export] Instance seeking_dec s i c : Decision (seeking s i c).
Proof. unfold seeking. apply _. Defined.

(** A CPU that neither looks nor has executed holds nothing. *)
Lemma idle_held s i c :
  sys_inv s -> cpus (sim_of s) !! i = Some c -> ~ seeking s i c ->
  (forall p tl, c = CpuWait p tl -> p <> 0 -> pending (ck s) (cpu_dev s i) = true) -> held c = [].
Proof.
  intros HI Hc Hn Hw. pose proof (iv_link _ HI i c Hc) as Hl. unfold seeking in Hn.
  assert (Hwait : forall p tl, c = CpuWait p tl -> held c = []).
  { intros p tl ->. destruct (decide (p = 0)) as [->|Hp]; [done|]. destruct Hn. left. by eapply Hw. }
  destruct (at_pc _) eqn:Ep; [|by destruct Hl as (p & tl & ?); eapply Hwait|by subst].
  destruct c as [p tl|p|tl|p tl|p tl|]; try (by destruct Hn; right); [|by eapply Hwait|done].
  apply asleep_held. intros Ha. destruct Hn. by right.
Qed.

(** Is another CPU looking? *)
Lemma seeker_dec s i :
  (exists j x, cpus (sim_of s) !! j = Some x /\ j <> i /\ seeking s j x) \/
  (forall j x, cpus (sim_of s) !! j = Some x -> j <> i -> ~ seeking s j x).
Proof.
  set (P j := match cpus (sim_of s) !! j with Some x => j <> i /\ seeking s j x | None => False end).
  assert (HP : forall j, Decision (P j)) by (intros j; unfold P; destruct (_ !! j); apply _).
  destruct (decide (Exists P (seq 0 (ncpus s)))) as [He|He].
  - left. apply Exists_exists in He as (j & _ & Hj). unfold P in Hj. destruct (_ !! j) as [x|] eqn:Hx; [|done]. by exists j, x.
  - right. intros j x Hx Hj Hs. apply He, Exists_exists. exists j. apply lookup_lt_Some in Hx as Hlt.
    split; [apply elem_of_seq; unfold ncpus; lia|]. unfold P. by rewrite Hx.
Qed.

(** A CPU takes a step and no instruction is executed. *)
Lemma slot_inv_cpu g ts s i c c' m' :
  sys_inv s -> slot_inv g s -> cpus (sim_of s) !! i = Some c -> at_pc (dev_at (ck s) (cpu_dev s i)) = Working ->
  in_loop c -> ready_to_step (mach (sim_of s)) c ->
  cpu_routine ts (done_flag (sim_of s)) c (mach (sim_of s)) = Ret c' m' ->
  slot_inv (g || bool_decide (0 < executed (sim_of s) (Some c))) (mkSys (set_cpu (sim_of s) i m' c') (ck s) (ld s) (starts s)).
Proof.
  intros HI Hg Hc Hw Hin Hr E. destruct (cpu_part ts s i c c' m' HI Hc Hr E) as ((l1 & l2 & El & El' & Hl1 & Hst) & _ & _ & _ & _).
  set (s' := mkSys _ _ _ _). pose proof (lookup_lt_Some _ _ _ Hc) as Hi.
  destruct Hg as [-> | [H1 H2]]; [by left|]. case_bool_decide as Hex; [left; by rewrite orb_true_r|]. right.
  assert (Hdev : forall j, cpu_dev s' j = cpu_dev s j)
    by (intros j; unfold cpu_dev; cbn [s' sim_of set_cpu cpus]; by rewrite length_insert).
  assert (Hlook : forall j, j <> i -> cpus (sim_of s') !! j = cpus (sim_of s) !! j)
    by (intros j Hj; cbn [s' sim_of set_cpu cpus]; by rewrite list_lookup_insert_ne).
  assert (Hlooki : cpus (sim_of s') !! i = Some c') by (cbn [s' sim_of set_cpu cpus]; by rewrite list_lookup_insert_eq).
  assert (Hmv := cs_move _ _ _ _ _ _ _ _ Hst).
  assert (Hrun : forall p tl, c = CpuCheck p tl -> p <> 0 -> False).
  { intros p tl -> Hp. apply Hex. cbn [executed]. rewrite bool_decide_false by done. unfold executes.
    rewrite bool_decide_true; [lia|]. apply (iv_busy _ HI). right. exists tl. split; [by eapply list_elem_of_lookup_2|done]. }
  split.
  - intros j p tl Hj Hp. rewrite Hdev. destruct (decide (j = i)) as [->|Hne]; [exfalso|rewrite Hlook in Hj by done; by apply (H1 j p tl)].
    rewrite Hlooki in Hj. injection Hj as ->. destruct c as [q ql|q|ql|q ql|q ql|]; cbn [cpu_move in_loop] in *; try done.
    + case_bool_decide; [by destruct Hmv as [([= -> ->] & _)|(? & _ & ?)]|by destruct Hmv as [?|[_ [?|?]]]].
    + by destruct Hmv as [(? & _)|(? & _ & ?)].
    + case_bool_decide as Hq; [by destruct Hmv as [_ [[? _]|[= -> ->]]]|]. by apply (Hrun q ql).
  - destruct (decide (seeking s' i c')) as [Hs'|Hs']; [left; by exists i, c'|].
    destruct (seeker_dec s i) as [(j & x & Hx & Hj & Hsk)|He].
    { left. exists j, x. rewrite Hlook by done. split; [done|]. unfold seeking in *. by rewrite Hdev. }
    right. destruct H2 as [(j & x & Hx & Hsk)|Hempty].
    2:{ unfold places in *. cbn [s' sim_of]. rewrite El'. rewrite El in Hempty. by eapply step_empty. }
    assert (j = i) as ->.
    { destruct (decide (j = i)) as [|Hj]; [done|]. by destruct (He j x). }
    assert (x = c) as -> by congruence.
    assert (Hothers : concat (held <$> l1 ++ l2) = []).
    { apply held_none. intros x Hxin. assert (exists j, j <> i /\ cpus (sim_of s) !! j = Some x) as (j & Hj & Hjx).
      { apply elem_of_app in Hxin as [Hxin|Hxin]; apply list_elem_of_lookup in Hxin as [j Hj].
        - exists j. pose proof (lookup_lt_Some _ _ _ Hj). split; [lia|]. rewrite El, lookup_app_l by lia. done.
        - exists (i + S j)%nat. split; [lia|]. rewrite El, lookup_app_r by lia. by replace (i + S j - length l1)%nat with (S j) by lia. }
      apply (idle_held s j x HI Hjx); [|intros p tl ->; by apply (H1 j p tl)].
      by apply He. }
    assert (Hc' : held c' = [] /\ ready (sch m') = []).
    { assert (Haw : awake c) by (destruct Hsk as [Hp|(_ & _ & ?)]; [by rewrite (pending_working _ _ Hw) in Hp|done]).
      assert (Hns : ~ (in_loop c' /\ awake c')) by (intros [? ?]; apply Hs'; right; by rewrite Hdev).
      destruct c as [q ql|q|ql|q ql|q ql|]; cbn [cpu_move in_loop awake] in *; try done.
      - case_bool_decide; [destruct Hmv as [(-> & _ & ?)|(y & Hy & ->)]; [done|by destruct Hns]|].
        destruct Hmv as [->|[_ [-> | ->]]]; by destruct Hns.
      - subst. by destruct Hns.
      - destruct Hmv as [(-> & _ & ?)|(y & Hy & ->)]; [done|by destruct Hns].
      - by destruct (Hrun q ql). }
    destruct Hc' as [Hc' Hr']. unfold places. cbn [s' sim_of]. rewrite El'. cbn [set_cpu mach]. rewrite Hr'.
    apply Permutation_nil. symmetry. cbn [app]. by rewrite concat_mid, Hothers, Hc'.
Qed.

(** A device of a CPU that was not looking. *)
Lemma slot_inv_dev g s i c d' :
  sys_inv s -> cpus (sim_of s) !! i = Some c -> ~ seeking s i c ->
  slot_inv g s -> slot_inv g (mkSys (sim_of s) (set_dev_at (ck s) (cpu_dev s i) d') (ld s) (starts s)).
Proof.
  intros HI Hc Hn [?|[H1 H2]]; [by left|right]. pose proof (lookup_lt_Some _ _ _ Hc) as Hi. cbn [sim_of ck].
  assert (Hdev : forall j x, cpus (sim_of s) !! j = Some x -> j <> i -> cpu_dev s j <> cpu_dev s i)
    by (intros j x Hx Hj; apply cpu_dev_inj; [by eapply lookup_lt_Some|done|done]).
  split.
  - intros j p tl Hj Hp. change (cpu_dev _ j) with (cpu_dev s j). destruct (decide (j = i)) as [->|Hne].
    + assert (c = CpuWait p tl) as -> by congruence. destruct Hn. left. by apply (H1 i p tl).
    + rewrite pending_set_ne by (by eapply Hdev). by apply (H1 j p tl).
  - destruct H2 as [(j & x & Hx & Hs)|?]; [left|by right]. exists j, x. split; [done|].
    assert (Hne : j <> i) by (intros ->; by simplify_eq).
    unfold seeking in *. cbn [ck]. change (cpu_dev _ j) with (cpu_dev s j).
    rewrite pending_set_ne, dev_set_ne by (by eapply Hdev). done.
Qed.

(** A CPU comes out of [next_slot]: it looks. *)
Lemma slot_inv_return g s i p tl d' :
  sys_inv s -> cpus (sim_of s) !! i = Some (CpuWait p tl) -> at_pc d' = Working ->
  slot_inv g s ->
  slot_inv g (mkSys (set_cpu (sim_of s) i (mach (sim_of s)) (CpuTop p tl)) (set_dev_at (ck s) (cpu_dev s i) d') (ld s) (starts s)).
Proof.
  intros HI Hc Hd' [?|[H1 _]]; [by left|right]. pose proof (lookup_lt_Some _ _ _ Hc) as Hi. set (s' := mkSys _ _ _ _).
  assert (Hdev : forall j, cpu_dev s' j = cpu_dev s j)
    by (intros j; unfold cpu_dev; cbn [s' sim_of set_cpu cpus]; by rewrite length_insert).
  split.
  - intros j q ql Hj Hq. rewrite Hdev. cbn [s' sim_of set_cpu cpus ck] in *.
    destruct (decide (j = i)) as [->|Hne]; [by rewrite list_lookup_insert_eq in Hj|]. rewrite list_lookup_insert_ne in Hj by done.
    rewrite pending_set_ne by (apply cpu_dev_inj; [by eapply lookup_lt_Some|done|done]). by apply (H1 j q ql).
  - left. exists i, (CpuTop p tl). cbn [s' sim_of set_cpu cpus]. rewrite list_lookup_insert_eq by done. split; [done|].
    right. rewrite Hdev. cbn [s' ck]. by rewrite dev_set_eq by (by apply cpu_dev_lt).
Qed.

(** At a tick no CPU is looking; in the new slot all that have not stopped are. *)
Lemma slot_inv_tick g s c' f e :
  sys_inv s -> timer (ck s) = TTick f e -> timer_routine (ck s) = Some c' -> slot_inv g s ->
  (g = true \/ places (sim_of s) = []) /\ slot_inv false (mkSys (sim_of s) c' (ld s) (starts s)).
Proof.
  intros HI Et Ht Hg. pose proof (fun j => tick_pending (ck s) c' f e j (iv_ck _ HI) Et Ht) as Htk. split.
  - destruct Hg as [?|[_ [(i & c & _ & Hs)|?]]]; [by left|exfalso|by right].
    destruct (Htk (cpu_dev s i)) as (_ & Hw & _ & Hp). destruct Hs as [Hs|[Hs _]]; [congruence|done].
  - assert (Hpend : forall i c, cpus (sim_of s) !! i = Some c -> c <> CpuStopped -> pending c' (cpu_dev s i) = true).
    { intros i c Hc Hne. destruct (Htk (cpu_dev s i)) as (_ & Hw & Hp & _). apply Hp.
      pose proof (iv_link _ HI i c Hc) as Hl. by destruct (at_pc _). }
    right. cbn [sim_of ck]. split.
    + intros i p tl Hc _. change (cpu_dev _ i) with (cpu_dev s i). by apply (Hpend i (CpuWait p tl)).
    + destruct (decide (Exists (fun c => c <> CpuStopped) (cpus (sim_of s)))) as [He|He].
      * left. apply Exists_exists in He as (c & (i & Hc)%list_elem_of_lookup & Hne). exists i, c. split; [done|].
        left. cbn [ck]. change (cpu_dev _ i) with (cpu_dev s i). by apply (Hpend i c).
      * right. assert (Hall : forall c, c ∈ cpus (sim_of s) -> c = CpuStopped).
        { intros c Hc. apply dec_stable. intros Hne. apply He, Exists_exists. eauto. }
        destruct (iv_att _ HI) as [[Hl _]|[(c & Hc & Ha)|?]]; [exfalso| |done].
        -- destruct (iv_done _ HI ltac:(by rewrite Hl)) as [_ Hs]. pose proof (iv_cpus _ HI) as Hn.
           destruct (cpus (sim_of s)) as [|c cs]; [simpl in Hn; lia|]. apply Hs. rewrite <- (Hall c); by left.
        -- by rewrite (Hall c Hc) in Ha.
Qed.

Definition next_g (g : bool) (s : system) (l : label) : bool :=
  if bool_decide (0 < ticks s l) then false else g || bool_decide (0 < runs s l).

Lemma slot_inv_step ts g l s s' :
  sys_inv s -> jobs (sim_of s) = [] -> sys_step ts l s s' -> slot_inv g s ->
  slot_inv (next_g g s l) s' /\ (0 < ticks s l -> g = true \/ places (sim_of s) = []).
Proof.
  intros HI Hjobs Hs Hg. unfold next_g. destruct Hs as
    [s c' Ht|s Hall Hst|s i c d c' m' Hc Hd Hw Hin Hr E|s i p tl d Hc Hd Hw|s i p tl d d' Hc Hd Hw Hr|s i d Hc Hd Hw
    |s d t ts' Hl Hd Hw Est Ht|s d t ts' m dn cs j js k m' Hl Hd Hw Est Ht Es Hj E|s d Hl Hd Hw|s d d' Hl Hd Hw Hr
    |s d m dn cs k Hl Hd Hw Es|s d Hl Hd Hw]; cbn [ticks runs executed];
    try pose proof (dev_at_some _ _ _ Hd) as Hda; rewrite ?(bool_decide_false (0 < 0)), ?orb_false_r by lia;
    try (split; [|lia]).
  - unfold ticks. destruct (timer (ck s)) as [| |f e| |] eqn:Et;
      try (rewrite (bool_decide_false (0 < 0)), ?orb_false_r by lia; split; [|lia]; apply (slot_inv_same _ s); try done;
           intros z _; destruct (timer_frame (ck s) c' (cpu_dev s z) (iv_ck _ HI) Ht) as (_ & H1 & H2);
           split; [apply H2; by rewrite Et|exact H1]).
    destruct (slot_inv_tick g s c' f e HI Et Ht Hg). by rewrite bool_decide_true.
  - by apply (slot_inv_same _ s).
  - apply (slot_inv_cpu g ts s i c c' m'); try done. by rewrite Hda.
  - apply (slot_inv_dev _ s i (CpuWait p tl)); try done. intros [Hp|(_ & [] & _)]. unfold pending in Hp. by rewrite Hda, Hw in Hp.
  - apply slot_inv_return; try done. unfold next_slot_return in Hr. destruct (done d); [done|by injection Hr as <-].
  - apply (slot_inv_dev _ s i CpuStopped); try done. intros [Hp|(_ & [] & _)]. unfold pending in Hp. by rewrite Hda, Hw in Hp.
  - by apply (slot_inv_same _ s).
  - by rewrite Es in Hjobs.
  - apply (slot_inv_same _ s); try done. intros i Hi. cbn [ck]. change (cpu_dev _ i) with (cpu_dev s i).
    by rewrite dev_set_ne, pending_set_ne by (by apply cpu_dev_ld).
  - apply (slot_inv_same _ s); try done. intros i Hi. cbn [ck]. change (cpu_dev _ i) with (cpu_dev s i).
    by rewrite dev_set_ne, pending_set_ne by (by apply cpu_dev_ld).
  - apply (slot_inv_same _ s); cbn [sim_of]; [by rewrite Es|by rewrite Es| |done]. intros i _. unfold cpu_dev. cbn [sim_of ck]. by rewrite Es.
  - apply (slot_inv_same _ s); try done. intros i Hi. cbn [ck]. change (cpu_dev _ i) with (cpu_dev s i).
    by rewrite dev_set_ne, pending_set_ne by (by apply cpu_dev_ld).
Qed.

(** ** Executions *)

(** Once all programs are loaded, none comes, and where there is no process none
    appears; each step costs the work it does. *)
Lemma loaded_step ts l s s' :
  sys_inv s -> jobs (sim_of s) = [] -> sys_step ts l s s' ->
  jobs (sim_of s') = [] /\ (places (sim_of s) = [] -> places (sim_of s') = []) /\
  work (sim_of s') + runs s l <= work (sim_of s).
Proof.
  intros HI Hj Hs. destruct Hs as
    [s c' Ht|s Hall Hst|s i c d c' m' Hc Hd Hw Hin Hr E|s i p tl d Hc Hd Hw|s i p tl d d' Hc Hd Hw Hr|s i d Hc Hd Hw
    |s d t ts' Hl Hd Hw Est Ht|s d t ts' m dn cs j js k m' Hl Hd Hw Est Ht Es Hj' E|s d Hl Hd Hw|s d d' Hl Hd Hw Hr
    |s d m dn cs k Hl Hd Hw Es|s d Hl Hd Hw]; cbn [runs executed sim_of];
    try (split; [done|]; split; [done|]; lia).
  - destruct (cpu_part ts s i c c' m' HI Hc Hr E) as ((l1 & l2 & El & El' & _ & Hst) & _ & _ & _ & Hwk).
    split; [done|]. split; [|exact Hwk]. unfold places. rewrite El, El'. by apply step_empty with (1 := Hst).
  - destruct (cpu_part ts s i (CpuWait p tl) (CpuTop p tl) (mach (sim_of s)) HI Hc I eq_refl) as ((l1 & l2 & El & El' & _ & Hst) & _ & _ & _ & Hwk).
    split; [done|]. split; [|exact Hwk]. unfold places. rewrite El, El'. by apply step_empty with (1 := Hst).
  - by rewrite Es in Hj.
  - rewrite Es. split; [done|]. split; [done|]. unfold work, places. cbn [mach cpus jobs]. lia.
Qed.

Lemma runs_ticks s l : 0 <= ticks s l <= 1 /\ 0 <= runs s l <= 1 /\ (0 < ticks s l -> runs s l = 0).
Proof.
  unfold ticks, runs, executed, executes. destruct l as [| |i c|].
  - destruct (timer (ck s)); lia.
  - lia.
  - destruct c as [| | |p tl| |]; try lia. case_bool_decide; [lia|]. case_bool_decide; lia.
  - lia.
Qed.

Lemma run_inv ts n k e s s' : sys_inv s -> sys_run ts n k e s s' -> sys_inv s'.
Proof. intros HI Hr. induction Hr as [s|l n k e s1 s2 s3 Hr IH Hs]; [done|]. exact (sys_step_inv ts l s2 s3 (IH HI) Hs). Qed.

(** The count of the steps, slots and instructions of an execution in which all
    programs have been loaded. *)
Lemma run_count ts n k e s s' :
  sys_inv s -> jobs (sim_of s) = [] -> sys_run ts n k e s s' ->
  jobs (sim_of s') = [] /\ ncpus s' = ncpus s /\ work (sim_of s') + e <= work (sim_of s) /\
  n + measure s' <= measure s + k * (slot_steps (ncpus s) + 1) /\ 0 <= k /\ 0 <= e /\
  (places (sim_of s') = [] \/ exists g, slot_inv g s' /\ k <= e + (if g : bool then 0 else 1)).
Proof.
  intros HI Hj Hr. induction Hr as [s|l n k e s1 s2 s3 Hr IH Hs].
  - split_and!; try done; try lia. right. exists true. split; [by left|lia].
  - destruct (IH HI Hj) as (Hj2 & Hn2 & Hw2 & Hm2 & Hk2 & He2 & Hg2). pose proof (run_inv _ _ _ _ _ _ HI Hr) as HI2.
    destruct (loaded_step ts l s2 s3 HI2 Hj2 Hs) as (Hj3 & Hp3 & Hw3). destruct (measure_step ts l s2 s3 HI2 Hs) as [Hn3 Hm3].
    pose proof (measure_bound _ HI2) as Hb2. pose proof (measure_bound _ (sys_step_inv ts l s2 s3 HI2 Hs)) as Hb3.
    rewrite Hn3, Hn2 in Hb3. rewrite Hn2 in Hb2.
    destruct (runs_ticks s2 l) as (Ht & Hu & Hx). split_and!; try done; try lia.
    + assert (ticks s2 l = 0 \/ ticks s2 l = 1) as [E|E] by lia; rewrite E in *; [destruct (Hm3 eq_refl) as [Hm3' _]|]; lia.
    + destruct Hg2 as [Hp|(g & Hg & Hc)]; [left; auto|]. destruct (slot_inv_step ts g l s2 s3 HI2 Hj2 Hs Hg) as [Hg3 Htk].
      unfold next_g in Hg3. case_bool_decide as Hd.
      * destruct (Htk Hd) as [->|Hp]; [|left; auto]. right. exists false. split; [done|]. lia.
      * right. eexists. split; [exact Hg3|]. destruct g; cbn [orb]; [lia|]. case_bool_decide; lia.
Qed.

(** The processes of the system are the places. *)
Lemma no_places s : sys_inv s -> places (sim_of s) = [] <-> procs (mach (sim_of s)) = ∅.
Proof.
  intros HI. pose proof (si_live _ _ _ (iv_sim _ HI)) as Hl. unfold places. split.
  - intros E. apply map_empty. intros p. apply eq_None_not_Some. intros Hp. apply Hl in Hp. rewrite E in Hp. by apply elem_of_nil in Hp.
  - intros E. apply no_elem_nil. intros p Hp. apply Hl in Hp. rewrite E, lookup_empty in Hp. by destruct Hp.
Qed.

(** A long enough run ends with no process. *)
Lemma run_finishes ts N K e s s' :
  sys_inv s -> jobs (sim_of s) = [] -> sys_run ts N K e s s' ->
  (work (sim_of s) + 2) * (slot_steps (ncpus s) + 1) < N -> procs (mach (sim_of s')) = ∅.
Proof.
  intros HI Hj Hrun HN. pose proof (run_inv _ _ _ _ _ _ HI Hrun) as HI'.
  destruct (run_count ts N K e s s' HI Hj Hrun) as (_ & _ & Hw & Hm & _ & _ & Hg).
  pose proof (measure_bound _ HI) as Hb1. pose proof (measure_bound _ HI') as Hb2.
  pose proof (work_nonneg (sim_of s') (iv_pos _ HI')). apply no_places; [done|].
  destruct Hg as [?|(g & _ & Hg)]; [done|exfalso]. assert (K <= work (sim_of s) + 1) by (destruct g; lia). nia.
Qed.

(** ** Instructions per slot *)

(** The CPUs that may still execute an instruction in this slot. *)
Definition credit (s : system) : Z := zsum ((fun i => if bool_decide (3 <= rank s i) then 1 else 0) <$> seq 0 (ncpus s)).

Lemma sum_le (f g : nat -> Z) l : (forall i, g i <= f i) -> zsum (g <$> l) <= zsum (f <$> l).
Proof. intros H. induction l as [|i l IH]; [done|]. rewrite !fmap_cons, !zsum_cons. specialize (H i). lia. Qed.
Lemma sum_lt (f g : nat -> Z) l i : (forall i, g i <= f i) -> i ∈ l -> g i + 1 <= f i -> zsum (g <$> l) + 1 <= zsum (f <$> l).
Proof.
  intros H Hi Hlt. induction Hi as [i l|i j l Hi IH]; rewrite !fmap_cons, !zsum_cons.
  - pose proof (sum_le f g l H). lia.
  - specialize (H j). specialize (IH Hlt). lia.
Qed.

Lemma credit_bound s : 0 <= credit s <= Z.of_nat (ncpus s).
Proof.
  unfold credit. pose proof (sum_bound (fun i => if bool_decide (3 <= rank s i) then 1 else 0) 1 (seq 0 (ncpus s))) as H.
  rewrite length_seq in H. specialize (H ltac:(intros i; simpl; case_bool_decide; lia)). lia.
Qed.

Lemma credit_step s s' v : ncpus s' = ncpus s -> 0 <= v <= 1 -> nearer v s s' -> credit s' + v <= credit s.
Proof.
  intros Hn Hv (_ & Hle & Hx). unfold credit. rewrite Hn.
  assert (Hj : forall j, (if bool_decide (3 <= rank s' j) then 1 else 0) <= (if bool_decide (3 <= rank s j) then 1 else 0)).
  { intros j. specialize (Hle j). repeat case_bool_decide; lia. }
  destruct (decide (v = 0)) as [->|Hne]; [rewrite Z.add_0_r; by apply sum_le|]. replace v with 1 by lia.
  destruct (Hx ltac:(lia)) as (i & Hi & E1 & E2). apply (sum_lt _ _ _ i Hj); [apply elem_of_seq; lia|]. by rewrite E1, E2.
Qed.

Lemma run_credit ts n k e s s' :
  sys_inv s -> sys_run ts n k e s s' -> ncpus s' = ncpus s /\ e + credit s' <= credit s + k * Z.of_nat (ncpus s).
Proof.
  intros HI Hr. induction Hr as [s|l n k e s1 s2 s3 Hr IH Hs]; [split; [done|lia]|].
  destruct (IH HI) as [Hn2 Hc2]. pose proof (run_inv _ _ _ _ _ _ HI Hr) as HI2.
  destruct (measure_step ts l s2 s3 HI2 Hs) as [Hn3 Hm3]. destruct (runs_ticks s2 l) as (Ht & Hu & Hx).
  pose proof (credit_bound s2). pose proof (credit_bound s3). rewrite Hn3, Hn2 in *. split; [done|].
  assert (ticks s2 l = 0 \/ ticks s2 l = 1) as [E|E] by lia; rewrite E in *; [|rewrite Hx by lia; lia].
  pose proof (credit_step s2 s3 (runs s2 l) ltac:(congruence) Hu (Hm3 eq_refl)). lia.
Qed.

(** ** The start *)

Lemma starts_step ts l s s' :
  sys_step ts l s s' -> length (starts s) = length (jobs (sim_of s)) -> length (starts s') = length (jobs (sim_of s')).
Proof.
  destruct 1 as
    [s c' Ht|s Hall Hst|s i c d c' m' Hc Hd Hw Hin Hr E|s i p tl d Hc Hd Hw|s i p tl d d' Hc Hd Hw Hr|s i d Hc Hd Hw
    |s d t ts' Hl Hd Hw Est Ht|s d t ts' m dn cs j js k m' Hl Hd Hw Est Ht Es Hj E|s d Hl Hd Hw|s d d' Hl Hd Hw Hr
    |s d m dn cs k Hl Hd Hw Es|s d Hl Hd Hw]; cbn [starts sim_of jobs set_cpu]; try done.
  - rewrite Est, Es. cbn [jobs length]. lia.
  - by rewrite Es.
Qed.

Lemma sys_init_inv n fate d1 d2 c1 c2 ramsz swpsz k m js :
  0 <= ramsz < 2 ^ 31 -> 0 <= swpsz < 2 ^ 31 -> (forall i, fate i = false) ->
  boot ramsz swpsz (set_mallocs (blank fate d1 d2) c1) = Ret k m -> (0 < n)%nat ->
  Forall (fun j => code (j_pcb (fst j)) <> []) js -> sys_inv (sys_init n (set_mallocs m c2) k js).
Proof.
  intros Hr Hs Hf Hb Hn Hjs. pose proof (boot_spec fate d1 d2 c1 ramsz swpsz Hr Hs (Hf c1)) as Hw.
  unfold wp in Hw. rewrite Hb in Hw. destruct Hw as (HW%(os_wf_mallocs _ _ c2) & Hp & Hrd & Eo & _).
  assert (Hoom : ~ may_oom (set_mallocs m c2)) by (intros [i Hi]; cbn [oom set_mallocs] in Hi; rewrite Eo in Hi; by rewrite Hf in Hi).
  destruct (clock_init_ok (S n)) as [Hck Hlen].
  assert (Hpc : forall j, (j <= n)%nat -> at_pc (dev_at (clock_init (S n)) j) = Working).
  { intros j Hj. destruct (lookup_lt_is_Some_2 (dev_list (clock_init (S n))) j ltac:(lia)) as [d Hd].
    rewrite (dev_at_some _ _ _ Hd). destruct (attach_all_devs (S n) clock0 eq_refl ltac:(constructor)) as (_ & _ & _ & _ & HF).
    by rewrite (Forall_lookup_1 _ _ _ _ HF Hd). }
  assert (Hcs : forall c, c ∈ replicate n (CpuTop 0 0) -> c = CpuTop 0 0) by (intros c Hc; by apply elem_of_replicate in Hc as [? _]).
  split; unfold sys_init; cbn [sim_of ck ld starts mach cpus os jobs done_flag]; try done.
  - by apply sim_inv_start.
  - intros p. unfold remaining. cbn [procs set_mallocs]. by rewrite Hp, lookup_empty.
  - by rewrite length_replicate, Hlen.
  - by rewrite length_replicate.
  - intros i c Hc. rewrite Hpc; [done|]. unfold cpu_dev. cbn [sim_of cpus]. rewrite length_replicate. lia.
  - rewrite Hpc by (unfold ld_dev; lia). done.
  - intros _. split; [done|]. by intros ?%Hcs.
  - cbn [sch set_mallocs]. rewrite Hrd. intros p [Hin|(tl & Hin & _)]; [by apply elem_of_nil in Hin|by apply Hcs in Hin].
  - rewrite Forall_fmap. done.
  - right. left. exists (CpuTop 0 0). split; [|done]. destruct n; [lia|]. by left.
Qed.

Lemma reach_inv ts s s' : rtc (sys_any ts) s s' ->
  sys_inv s -> length (starts s) = length (jobs (sim_of s)) ->
  sys_inv s' /\ length (starts s') = length (jobs (sim_of s')) /\ ncpus s' = ncpus s.
Proof.
  induction 1 as [|s1 s2 s3 [l Hs] _ IH]; [done|]. intros HI Hst.
  destruct (IH (sys_step_inv ts l s1 s2 HI Hs) (starts_step ts l s1 s2 Hs Hst)) as (H1 & H2 & H3).
  destruct (measure_step ts l s1 s2 HI Hs) as [Hn _]. split_and!; [done|done|congruence].
Qed.

(** ** Someone can move *)

(** The next program can be loaded when its turn comes. *)
Definition can_load (s : system) : Prop :=
  forall j js, jobs (sim_of s) = j :: js ->
    job_ok (mach (sim_of s)) j /\
    exists m', load_process (os (sim_of s)) (j_addr j) (j_pcb j) (j_prio j) (j_mm j) (mach (sim_of s)) = Ret tt m'.

(** The end of the simulation: every thread has ended and no process is left. *)
Definition finished (s : system) : Prop :=
  ld s = LdStopped /\ Forall (eq CpuStopped) (cpus (sim_of s)) /\ jobs (sim_of s) = [] /\ procs (mach (sim_of s)) = ∅.

Lemma cpu_can_move ts s i c :
  sys_inv s -> cpus (sim_of s) !! i = Some c -> can_move (ck s) (cpu_dev s i) -> ready_to_step (mach (sim_of s)) c ->
  exists s', sys_step ts (LCpu i c) s s'.
Proof.
  intros HI Hc (d & Hd & Hm) Hr. pose proof (iv_link _ HI i c Hc) as Hl. rewrite (dev_at_some _ _ _ Hd) in Hl.
  destruct Hm as [Hw|[Hw [d' Hd']]].
  - destruct (decide (in_loop c)) as [Hin|Hin].
    + destruct (cpu_progress ts (sim_of s) c (iv_sim _ HI) (list_elem_of_lookup_2 _ _ _ Hc) Hr) as (c' & m' & E).
      eexists. by eapply sys_cpu.
    + destruct c; try by destruct Hin.
      * eexists. by eapply sys_call.
      * eexists. by eapply sys_detach.
  - rewrite Hw in Hl. destruct Hl as (p & tl & ->). eexists. by eapply sys_return.
Qed.

Lemma ld_can_move ts s :
  sys_inv s -> length (starts s) = length (jobs (sim_of s)) -> can_load s -> can_move (ck s) ld_dev ->
  exists s', sys_step ts LLoader s s'.
Proof.
  intros HI Hst Hcan (d & Hd & Hm). pose proof (iv_ld _ HI) as Hl. rewrite (dev_at_some _ _ _ Hd) in Hl.
  destruct Hm as [Hw|[Hw [d' Hd']]]; [|rewrite Hw in Hl; eexists; by eapply sys_ld_return].
  destruct (ld s) eqn:El; [|eexists; by eapply sys_ld_call|eexists; by eapply sys_ld_detach].
  destruct (sim_of s) as [m dn cs [|j js] k] eqn:Es; [eexists; by eapply sys_ld_done|].
  destruct (starts s) as [|t ts'] eqn:Est; [done|]. destruct (decide (current_time (ck s) < t)).
  - eexists. by eapply sys_ld_early.
  - unfold can_load in Hcan. rewrite Es in Hcan. cbn [jobs mach os] in Hcan. destruct (Hcan j js eq_refl) as (Hj & m' & E).
    eexists. eapply sys_ld_load; try done. lia.
Qed.

Lemma exit_finished s : sys_inv s -> timer (ck s) = TExit -> finished s.
Proof.
  intros HI Et. destruct (iv_ck _ HI) as (_ & _ & Hinv). unfold clock_inv in Hinv. rewrite Et in Hinv.
  assert (Hout : forall j, at_pc (dev_at (ck s) j) = Detached).
  { intros j. unfold dev_at. destruct (dev_list (ck s) !! j) as [d|] eqn:Hd; [|done]. by apply (Hinv j d). }
  assert (Hld : ld s = LdStopped) by (pose proof (iv_ld _ HI) as H; by rewrite Hout in H).
  assert (Hcs : forall c, c ∈ cpus (sim_of s) -> c = CpuStopped).
  { intros c [i Hc]%list_elem_of_lookup. pose proof (iv_link _ HI i c Hc) as H. by rewrite Hout in H. }
  split_and!; [done| |by apply (iv_end _ HI)|].
  - apply Forall_forall. intros c Hc. symmetry. by apply Hcs.
  - apply no_places; [done|]. destruct (iv_att _ HI) as [[H _]|[(c & Hc & Ha)|?]]; [congruence| |done]. by rewrite (Hcs c Hc) in Ha.
Qed.

Lemma progress_step ts s :
  sys_inv s -> length (starts s) = length (jobs (sim_of s)) -> can_load s ->
  Forall (ready_to_step (mach (sim_of s))) (cpus (sim_of s)) -> finished s \/ exists s', sys_any ts s s'.
Proof.
  intros HI Hst Hcan Hready. destruct (decide (timer (ck s) = TExit)) as [Et|Et]; [left; by apply exit_finished|right].
  destruct (clock_progress (ck s) (iv_ck _ HI) Et) as [[c' Ht]|(i & f & e & _ & Hm)]; [eexists; exists LTimer; by apply sys_timer|].
  destruct (decide (i = ld_dev)) as [->|Hne]; [destruct (ld_can_move ts s HI Hst Hcan Hm) as [s' Hs]; exists s'; by eexists|].
  assert (Hi : (i < S (ncpus s))%nat) by (destruct Hm as (d & Hd & _); apply lookup_lt_Some in Hd; by rewrite (iv_len _ HI) in Hd).
  destruct (lookup_lt_is_Some_2 (cpus (sim_of s)) (ncpus s - i)) as [c Hc]; [unfold ld_dev, ncpus in *; lia|].
  assert (cpu_dev s (ncpus s - i) = i) as E by (unfold cpu_dev; fold (ncpus s); lia).
  destruct (cpu_can_move ts s (ncpus s - i) c HI Hc) as [s' Hs]; [by rewrite E|by eapply (Forall_lookup_1 _ _ _ _ Hready)|].
  exists s'. by eexists.
Qed.

(** ** A schedule that can be executed *)

(** The processes whose next step is known to be possible: at the end of their
    program, or before a [CALC]. *)
Definition calc_next (m : machine) (p : Z) : bool :=
  match procs m !! p with
  | Some y =>
    bool_decide (Z.of_nat (length (code y)) <= pc y) ||
    match code y !! Z.to_nat (pc y) with
    | Some (mkInst CALC 0 0 0 0) => bool_decide (0 <= pc y < 2 ^ 32 - 1)
    | _ => false
    end
  | None => false
  end.
Definition steps_now (m : machine) (c : cpu) : bool :=
  match c with CpuCheck p _ => bool_decide (p = 0) || calc_next m p | _ => true end.

Definition cpu_exec (ts : Z) (s : system) (i : nat) : option (label * system) :=
  match cpus (sim_of s) !! i, dev_list (ck s) !! cpu_dev s i with
  | Some c, Some d =>
    match at_pc d, c with
    | Working, CpuWait _ _ => Some (LCpu i c, mkSys (sim_of s) (set_dev_at (ck s) (cpu_dev s i) (next_slot_call d)) (ld s) (starts s))
    | Working, CpuStopped => Some (LCpu i c, mkSys (sim_of s) (set_dev_at (ck s) (cpu_dev s i) (detach_event d)) (ld s) (starts s))
    | Working, _ =>
      if steps_now (mach (sim_of s)) c then
        match cpu_routine ts (done_flag (sim_of s)) c (mach (sim_of s)) with
        | Ret c' m' => Some (LCpu i c, mkSys (set_cpu (sim_of s) i m' c') (ck s) (ld s) (starts s))
        | _ => None
        end
      else None
    | InSlot, CpuWait p tl =>
      match next_slot_return d with
      | Some d' => Some (LCpu i c, mkSys (set_cpu (sim_of s) i (mach (sim_of s)) (CpuTop p tl)) (set_dev_at (ck s) (cpu_dev s i) d') (ld s) (starts s))
      | None => None
      end
    | _, _ => None
    end
  | _, _ => None
  end.

Definition ld_exec (s : system) : option (label * system) :=
  match dev_list (ck s) !! ld_dev with
  | Some d =>
    match at_pc d, ld s with
    | Working, LdTest =>
      match jobs (sim_of s), starts s with
      | [], _ => Some (LLoader, mkSys (mkSim (mach (sim_of s)) true (cpus (sim_of s)) [] (os (sim_of s))) (ck s) LdStopped (starts s))
      | j :: js, t :: ts' =>
        if bool_decide (current_time (ck s) < t) then Some (LLoader, mkSys (sim_of s) (ck s) LdSlot (starts s))
        else if bool_decide (job_ok (mach (sim_of s)) j) then
          match load_process (os (sim_of s)) (j_addr j) (j_pcb j) (j_prio j) (j_mm j) (mach (sim_of s)) with
          | Ret _ m' => Some (LLoader, mkSys (mkSim m' (done_flag (sim_of s)) (cpus (sim_of s)) js (os (sim_of s))) (ck s) LdSlot ts')
          | _ => None
          end
        else None
      | _, _ => None
      end
    | Working, LdSlot => Some (LLoader, mkSys (sim_of s) (set_dev_at (ck s) ld_dev (next_slot_call d)) (ld s) (starts s))
    | Working, LdStopped => Some (LLoader, mkSys (sim_of s) (set_dev_at (ck s) ld_dev (detach_event d)) (ld s) (starts s))
    | InSlot, LdSlot =>
      match next_slot_return d with
      | Some d' => Some (LLoader, mkSys (sim_of s) (set_dev_at (ck s) ld_dev d') LdTest (starts s))
      | None => None
      end
    | _, _ => None
    end
  | None => None
  end.

(** The loader first, then the CPUs in order, then the timer. *)
Fixpoint first_cpu (ts : Z) (s : system) (n : nat) : option (label * system) :=
  match n with
  | O => None
  | S n => match first_cpu ts s n with Some r => Some r | None => cpu_exec ts s n end
  end.
Definition exec (ts : Z) (s : system) : option (label * system) :=
  match ld_exec s with
  | Some r => Some r
  | None =>
    match first_cpu ts s (ncpus s) with
    | Some r => Some r
    | None => match timer_routine (ck s) with Some c' => Some (LTimer, mkSys (sim_of s) c' (ld s) (starts s)) | None => None end
    end
  end.

Record tally := mkTally { t_steps : Z; t_ticks : Z; t_runs : Z; t_end : system }.
Fixpoint auto_run (ts : Z) (n : nat) (s : system) : tally :=
  match n with
  | O => mkTally 0 0 0 s
  | S n =>
    let t := auto_run ts n s in
    match exec ts (t_end t) with
    | Some (l, s') => mkTally (t_steps t + 1) (t_ticks t + ticks (t_end t) l) (t_runs t + runs (t_end t) l) s'
    | None => t
    end
  end.

Lemma calc_may_run o m cs p : sim_inv o m cs -> calc_next m p = true -> may_run m p.
Proof.
  intros HI. unfold calc_next. destruct (procs m !! p) as [y|] eqn:Hy; [|done]. intros [H|H]%orb_true_iff.
  - right. exists y. split; [done|]. by apply bool_decide_eq_true in H.
  - left. destruct (code y !! Z.to_nat (pc y)) as [[o' a b c d]|] eqn:Hins; [|done].
    destruct o', a, b, c, d; try done. apply bool_decide_eq_true in H. pose proof (si_wf _ _ _ HI) as HW.
    destruct (proj2 (proj1 HW) p ltac:(by eexists)) as (y' & k & x & v & Hy' & _ & Hp & Hwf). assert (y' = y) as -> by congruence.
    exists y, k, x, v, (mkInst CALC 0 0 0 0). split_and!; try done; [lia|]. unfold inst_words, is_u64. simpl. lia.
Qed.

Lemma cpu_exec_sound ts s i l s' : sys_inv s -> cpu_exec ts s i = Some (l, s') -> sys_step ts l s s'.
Proof.
  intros HI. unfold cpu_exec. destruct (cpus (sim_of s) !! i) as [c|] eqn:Hc; [|done].
  destruct (dev_list (ck s) !! cpu_dev s i) as [d|] eqn:Hd; [|done]. destruct (at_pc d) eqn:Hw; [| |done].
  - assert (Hloop : in_loop c ->
      (if steps_now (mach (sim_of s)) c then
        match cpu_routine ts (done_flag (sim_of s)) c (mach (sim_of s)) with
        | Ret c' m' => Some (LCpu i c, mkSys (set_cpu (sim_of s) i m' c') (ck s) (ld s) (starts s))
        | _ => None
        end
      else None) = Some (l, s') -> sys_step ts l s s').
    { intros Hin. destruct (steps_now _ c) eqn:Hn; [|done]. destruct (cpu_routine _ _ _ _) as [c' m'| |] eqn:E; [|done..].
      intros [= <- <-]. eapply sys_cpu; try done. destruct c as [| | |p tl| |]; try done. intros Hp.
      cbn [steps_now] in Hn. rewrite bool_decide_false in Hn by done. by eapply calc_may_run; [apply (iv_sim _ HI)|]. }
    destruct c; try (by apply Hloop); intros [= <- <-]; [by eapply sys_call|by eapply sys_detach].
  - destruct c; try done. destruct (next_slot_return d) as [d'|] eqn:Hr; [|done]. intros [= <- <-]. by eapply sys_return.
Qed.

Lemma ld_exec_sound ts s l s' : ld_exec s = Some (l, s') -> sys_step ts l s s'.
Proof.
  unfold ld_exec. destruct (dev_list (ck s) !! ld_dev) as [d|] eqn:Hd; [|done].
  destruct (at_pc d) eqn:Hw; [| |done]; destruct (ld s) eqn:El; try done.
  - destruct (sim_of s) as [m dn cs js k] eqn:Es. cbn [jobs mach os cpus done_flag]. destruct js as [|j js].
    + intros [= <- <-]. by eapply sys_ld_done.
    + destruct (starts s) as [|t ts'] eqn:Est; [done|]. case_bool_decide.
      * intros [= <- <-]. rewrite <- Es, <- Est. by eapply sys_ld_early.
      * case_bool_decide; [|done]. destruct (load_process _ _ _ _ _ _) as [[] m'| |] eqn:E; [|done..].
        intros [= <- <-]. eapply sys_ld_load; try done. lia.
  - intros [= <- <-]. rewrite <- El. by eapply sys_ld_call.
  - intros [= <- <-]. rewrite <- El. by eapply sys_ld_detach.
  - destruct (next_slot_return d) as [d'|] eqn:Hr; [|done]. intros [= <- <-]. by eapply sys_ld_return.
Qed.

Lemma exec_sound ts s l s' : sys_inv s -> exec ts s = Some (l, s') -> sys_step ts l s s'.
Proof.
  intros HI. unfold exec. destruct (ld_exec s) as [[l1 s1]|] eqn:El; [intros [= <- <-]; by apply ld_exec_sound|].
  assert (Hf : forall n r, first_cpu ts s n = Some r -> sys_step ts (fst r) s (snd r)).
  { induction n as [|n IH]; [done|]. cbn [first_cpu]. intros [l1 s1]. destruct (first_cpu ts s n) eqn:E; [intros [= ->]; by apply IH|].
    by apply cpu_exec_sound. }
  destruct (first_cpu _ _ _) as [r|] eqn:Er; [intros [= ->]; by apply (Hf _ _ Er)|].
  destruct (timer_routine (ck s)) as [c'|] eqn:Et; [|done]. intros [= <- <-]. by apply sys_timer.
Qed.

Lemma auto_run_sound ts n s :
  sys_inv s -> let t := auto_run ts n s in sys_run ts (t_steps t) (t_ticks t) (t_runs t) s (t_end t).
Proof.
  intros HI. induction n as [|n IH]; [apply sys_nil|]. cbn [auto_run]. cbv zeta in *.
  destruct (exec ts (t_end (auto_run ts n s))) as [[l s']|] eqn:E; [|done]. cbn [t_steps t_ticks t_runs t_end].
  eapply sys_cons; [exact IH|]. eapply exec_sound; [|done]. by eapply run_inv.
Qed.

Lemma run_reaches ts n k e s s' : sys_run ts n k e s s' -> rtc (sys_any ts) s s'.
Proof. induction 1 as [|l n k e s1 s2 s3 _ IH Hs]; [done|]. eapply rtc_r; [exact IH|]. by eexists. Qed.

(** Two CPUs and one program, from the start: once the program is loaded, and
    a hundred steps later. *)
Definition demo_sys : system := sys_init 2 (snd demo_boot) (fst demo_boot) [(demo_job, 0)].
Definition demo_loaded : system := t_end (auto_run 2 1 demo_sys).
Definition demo_final : tally := auto_run 2 100 demo_loaded.

Lemma demo_sys_inv : sys_inv demo_sys.
Proof.
  unfold demo_sys. rewrite <- (set_mallocs_same (snd demo_boot)).
  apply (sys_init_inv 2 (fun _ => false) blank_memphy blank_memphy 0 _ 16384 16384 (fst demo_boot) (snd demo_boot));
    [lia|lia|done|apply demo_boot_eq|lia|]. by repeat constructor.
Qed.

Lemma demo_loaded_reached : rtc (sys_any 2) demo_sys demo_loaded.
Proof. eapply run_reaches, auto_run_sound, demo_sys_inv. Qed.

Lemma demo_loaded_inv : sys_inv demo_loaded.
Proof. by apply (reach_inv 2 demo_sys demo_loaded demo_loaded_reached demo_sys_inv). Qed.

Lemma demo_final_run : sys_run 2 (t_steps demo_final) (t_ticks demo_final) (t_runs demo_final) demo_loaded (t_end demo_final).
Proof. apply auto_run_sound, demo_loaded_inv. Qed.

Definition demo_mid : tally := auto_run 2 20 demo_loaded.

Lemma demo_mid_run : sys_run 2 (t_steps demo_mid) (t_ticks demo_mid) (t_runs demo_mid) demo_loaded (t_end demo_mid).
Proof. apply auto_run_sound, demo_loaded_inv. Qed.

Lemma demo_numbers :
  jobs (sim_of demo_loaded) = [] /\ work (sim_of demo_loaded) = 1 /\ t_steps demo_final = 100 /\
  t_ticks demo_mid = 1 /\ t_runs demo_mid = 1.
Proof. vm_compute. done. Qed.

Lemma demo_mid_alive : procs (mach (sim_of (t_end demo_mid))) <> ∅.
Proof.
  intros E. assert (procs (mach (sim_of (t_end demo_mid))) !! 100 = None) as H by (rewrite E; apply lookup_empty).
  revert H. vm_compute. discriminate.
Qed.

(** [main] has set the machine up, and the loader the kernel; no allocation
    fails, and any number of them may come before and after. *)
Definition booted (m : machine) (k : krnl_t) : Prop :=
  exists fate d1 d2 c1 c2 ramsz swpsz m0, 0 <= ramsz < 2 ^ 31 /\ 0 <= swpsz < 2 ^ 31 /\ (forall i, fate i = false) /\
    boot ramsz swpsz (set_mallocs (blank fate d1 d2) c1) = Ret k m0 /\ m = set_mallocs m0 c2.

Lemma demo_booted : booted (snd demo_boot) (fst demo_boot).
Proof.
  exists (fun _ => false), blank_memphy, blank_memphy, 0, (mallocs (snd demo_boot)), 16384, 16384, (snd demo_boot).
  split_and!; [lia..|done|apply demo_boot_eq|]. symmetry. apply set_mallocs_same.
Qed.

(** The states the system reaches. *)
Lemma reachable_inv ts n m k js s :
  booted m k -> (0 < n)%nat -> Forall (fun j => code (j_pcb (fst j)) <> []) js ->
  rtc (sys_any ts) (sys_init n m k js) s ->
  sys_inv s /\ length (starts s) = length (jobs (sim_of s)) /\ ncpus s = n.
Proof.
  intros (fate & d1 & d2 & c1 & c2 & ramsz & swpsz & m0 & Hr & Hs & Hf & Hb & ->) Hn Hjs Hreach.
  destruct (reach_inv ts _ _ Hreach) as (H1 & H2 & H3).
  - by apply (sys_init_inv n fate d1 d2 c1 c2 ramsz swpsz).
  - unfold sys_init. cbn [starts sim_of jobs]. by rewrite !length_fmap.
  - split_and!; [done|done|]. rewrite H3. unfold ncpus, sys_init. cbn [sim_of cpus]. apply length_replicate.
Qed.

(** The release of the kernel's page table and the devices. *)
Lemma exit_ok k m :
  os_root m (krnl_pgd k) ->
  wp (main_exit k) (fun k' m' => krnl_pgd k' = 0 /\ storage (ram m') = ∅ /\ storage (swp m') = ∅ /\
    forall path t, Forall (fun i => 0 <= i < PAGING64_LEVEL_ENTRIES) path -> (length path <= 4)%nat ->
      reach (tables m) (krnl_pgd k) path = Some t -> tables m' !! t = None) m.
Proof.
  intros [HF _ _]. unfold main_exit, free_kernel_page_table. pose proof (or_intror eq_refl : roots m (krnl_pgd k) \/ krnl_pgd k = krnl_pgd k) as HR.
  apply wp_bind, wp_bind. eapply wp_eq.
  { apply (free_tables_ok (tables m) 4 (krnl_pgd k) m); [|apply (subtree_nodup _ _ _ _ HF HR 4 []); [simpl; lia|done]|done].
    apply (forest_allocated _ _ _ _ HF HR 4 []); [simpl; lia|done]. }
  apply wp_ret. split; [done|]. split; [done|]. split; [done|]. intros path t Hp Hl Ht.
  cbn [set_ram set_swp tables]. rewrite cut_lookup, bool_decide_true; [done|]. by eapply subtree_complete.
Qed.

(** ** Properties *)







(** The end of the simulator is clean: in every state [main] can reach it from, it
    frees the kernel's page table without freeing a table twice or reading a freed
    one, and releases both devices; no table of the kernel is left. *)
Theorem exit_releases ts n m k js s :
  booted m k -> (0 < n)%nat -> Forall (fun j => code (j_pcb (fst j)) <> []) js ->
  rtc (sys_any ts) (sys_init n m k js) s ->
  wp (main_exit (os (sim_of s))) (fun k' m' => krnl_pgd k' = 0 /\ storage (ram m') = ∅ /\ storage (swp m') = ∅ /\
    forall path t, Forall (fun i => 0 <= i < PAGING64_LEVEL_ENTRIES) path -> (length path <= 4)%nat ->
      reach (tables (mach (sim_of s))) (krnl_pgd (os (sim_of s))) path = Some t -> tables m' !! t = None) (mach (sim_of s)).
Proof.
  intros Hb Hn Hjs Hreach. destruct (reachable_inv _ _ _ _ _ _ Hb Hn Hjs Hreach) as (HI & _).
  apply exit_ok, (si_wf _ _ _ (iv_sim _ HI)).
Qed.
