(* ===== verification/Main.v ===== *)
(** * The program as a whole ([main] of [src/os.c])

    [main] takes the name of a configuration, reads it, sets up the clock and the
    devices and starts the threads; the loader reads the programs the
    configuration names.  Here the parts are put together: from the texts of the
    files to the system of [System], whose executions [Progress] is about.

    Two facts are added to those of the parts.  The count of instructions is
    exact: a process is freed only when its program has ended, so that the
    instructions executed and those left always add up to the programs.  And the
    texts are what is executed: from a configuration and programs as they are
    printed, every execution that is long enough has executed each instruction of
    each program once and has ended all processes. *)

From S2P Require Import Prelude.
From S2P Require Import Word.
From S2P Require Import Queue.
From S2P Require Import Sched.
From S2P Require Import MemPhy.
From S2P Require Import Machine.
From S2P Require Import PageTable.
From S2P Require Import Kernel.
From S2P Require Import Cache.
From S2P Require Import Cpu.
From S2P Require Import Create.
From S2P Require Import Teardown.
From S2P Require Import Os.
From S2P Require Import Timer.
From S2P Require Import Scanf.
From S2P Require Import Loader.
From S2P Require Import Config.
From S2P Require Import System.
From S2P Require Import Progress.
Open Scope c_scope.
Open Scope Z_scope.

(** ** Definitions *)

(** The path of the configuration, in an array of 100 characters. *)
Definition config_path (arg : chars) : M machine chars :=
  let p := text "input/" ++ arg in
  if bool_decide (length p < 100)%nat then ret p else ub.

(** What the allocator provides for a process: its address, and what its blocks
    hold before they are written. *)
Record block := mkBlock { b_addr : Z; b_fresh : fresh; b_mm : mm_struct }.

(** The programs, in the order in which the loader reads them: [fs] is the content
    of the files, [pid] the next identifier, [i] the number of the process.  The
    simulator writes no file, so that what the loader reads when it comes to a
    process is what is in its file now. *)
Fixpoint load_all (fs : chars -> option chars) (heap : nat -> block) (pid : Z) (i : nat) (es : list ld_entry) :
    M machine (list (job * Z)) :=
  match es with
  | [] => ret []
  | e :: es =>
    let* r := load pid (fs (ld_path e)) (b_fresh (heap i)) in
    let* js := load_all fs heap (snd r) (S i) es in
    ret ((mkJob (b_addr (heap i)) (fst r) (ld_prio e) (b_mm (heap i)), start_time e) :: js)
  end.

(** The containers of [n] devices. *)
Fixpoint attach_devices (n : nat) : M machine unit :=
  match n with
  | O => ret tt
  | S n => let* container := malloc in if container : bool then attach_devices n else ub
  end.

(** A wrong number of arguments, or a time slice and a system that has been
    started. *)
Inductive start := Usage | Started (slice : Z) (s : system).

Definition main (fs : chars -> option chars) (heap : nat -> block) (argv : list chars) : M machine start :=
  match argv with
  | [_; arg] =>
    let* path := config_path arg in
    let* c := read_config (fs path) in
    let n := Z.to_nat (num_cpus c) in
    let* cpu := malloc in
    let* args := malloc in
    if negb (cpu && args) && bool_decide (0 < num_cpus c) then ub
    else
      attach_devices (S n) ;;
      let* ld_args := malloc in
      if negb ld_args then ub
      else
        let* k := boot (memramsz c) (default 0 (head (memswpsz c))) in
        let* js := load_all fs heap 1 0 (ld_processes c) in
        fun m => Ret (Started (time_slot c) (sys_init n m k js)) m
  | _ => ret Usage
  end.

(** ** Calls that only allocate *)

Class Allocates {A} (c : M machine A) : Prop := allocates : forall m a m', c m = Ret a m' -> only_mallocs m m'.

#[export] Instance allocates_ret {A} (a : A) : Allocates (ret a).
Proof. intros m b m' [= _ <-]. apply only_mallocs_refl. Qed.
#[export] Instance allocates_ub {A} : Allocates (ub (A := A)).
Proof. by intros m b m'. Qed.
#[export] Instance allocates_exit {A} : Allocates (exit (A := A)).
Proof. by intros m b m'. Qed.
#[export] Instance allocates_malloc : Allocates malloc.
Proof. intros m b m' [= _ <-]. by eexists. Qed.
#[export] Instance allocates_bind {A B} (c : M machine A) (k : A -> M machine B) :
  Allocates c -> (forall a, Allocates (k a)) -> Allocates (bind c k).
Proof.
  intros Hc Hk m b m'. unfold bind. destruct (c m) as [a m1| |] eqn:E; [|done..]. intros E'.
  eapply only_mallocs_trans; [by apply (Hc m a)|by apply (Hk a m1 b)].
Qed.

(** The rules, one call after the other. *)
Ltac allocates :=
  repeat first
    [ apply allocates_bind; [|intros ?]
    | apply _
    | match goal with |- Allocates (match ?x with _ => _ end) => destruct x end
    | match goal with |- Allocates (if ?x then _ else _) => destruct x end ].

Lemma read_entry_allocates vs : Allocates (read_entry vs).
Proof. unfold read_entry, validate_mlq_priority, full_path. allocates. Qed.
#[export] Existing Instance read_entry_allocates.

Lemma read_procs_allocates ar n : forall first l, Allocates (read_procs ar n first l).
Proof. induction n as [|n IH]; intros first l; cbn [read_procs]; allocates; apply IH. Qed.
#[export] Existing Instance read_procs_allocates.

Lemma read_config_allocates file : Allocates (read_config file).
Proof. unfold read_config. allocates. Qed.

Lemma load_allocates a file f : Allocates (load a file f).
Proof. unfold load. allocates. Qed.

Lemma wp_allocates {A} (c : M machine A) Q m : Allocates c -> wp c Q m -> wp c (fun a m' => Q a m' /\ only_mallocs m m') m.
Proof. intros Hc. unfold wp. destruct (c m) as [a m'| |] eqn:E; [|done..]. intros HQ. split; [done|by eapply Hc]. Qed.

Lemma only_oom m m' : only_mallocs m m' -> ~ may_oom m -> ~ may_oom m'.
Proof. by intros [c ->]. Qed.

Lemma malloc_succeeds m : ~ may_oom m -> wp malloc (fun b m' => b = true /\ only_mallocs m m') m.
Proof. intros Hm. apply wp_malloc; [done|]. intros n _. split; [done|by eexists]. Qed.

Lemma attach_succeeds n : forall m, ~ may_oom m -> wp (attach_devices n) (fun _ m' => only_mallocs m m') m.
Proof.
  induction n as [|n IH]; intros m Hm; cbn [attach_devices]; [apply wp_ret, only_mallocs_refl|].
  apply wp_bind. eapply wp_mono; [by apply malloc_succeeds|]. intros b m1 [-> H1].
  eapply wp_mono; [by apply IH, (only_oom m)|]. intros [] m2 H2. by eapply only_mallocs_trans.
Qed.

(** ** The input *)

(** A file that holds a program, printed. *)
Record program_file (fs : chars -> option chars) (e : ld_entry) (prog : Z * list inst_t) : Prop := mkProgramFile {
  pf_text : fs (ld_path e) = Some (print_program (fst prog) (snd prog));
  pf_prio : 0 <= fst prog < 2 ^ 32;
  pf_some : snd prog <> [];
  pf_size : Z.of_nat (length (snd prog)) < 2 ^ 32;
  pf_words : Forall (fun ins => Forall is_u64 (operands ins)) (snd prog);
}.

(** The name of a configuration, its file and the files of its programs. *)
Record input_ok (fs : chars -> option chars) (arg : chars) (c : config) (progs : list (Z * list inst_t)) : Prop := mkInput {
  in_arg : (length arg <= 93)%nat;
  in_file : fs (text "input/" ++ arg) = Some (print_config true c);
  in_config : config_wf true c;
  in_cpus : 0 < num_cpus c;
  in_ram : memramsz c < 2 ^ 31;
  in_swp : default 0 (head (memswpsz c)) < 2 ^ 31;
  in_progs : Forall2 (program_file fs) (ld_processes c) progs;
}.

(** The process a program file becomes. *)
Definition job_of (e : ld_entry) (prog : Z * list inst_t) (j : job * Z) : Prop :=
  same_code (code (j_pcb (fst j))) (snd prog) /\ pc (j_pcb (fst j)) = 0 /\ j_prio (fst j) = ld_prio e /\ snd j = start_time e.

(** One process per program. *)
Inductive jobs_of : list ld_entry -> list (Z * list inst_t) -> list (job * Z) -> Prop :=
| jobs_nil : jobs_of [] [] []
| jobs_cons e es p ps j js : job_of e p j -> jobs_of es ps js -> jobs_of (e :: es) (p :: ps) (j :: js).

Lemma load_all_print fs heap es progs : Forall2 (program_file fs) es progs -> forall a i m, ~ may_oom m ->
  wp (load_all fs heap a i es) (fun js m' => jobs_of es progs js /\ only_mallocs m m') m.
Proof.
  induction 1 as [|e [pr insts] es progs [Ht Hp Hs Hn Hw] _ IH]; intros a i m Hm; cbn [load_all].
  { apply wp_ret. split; [constructor|apply only_mallocs_refl]. }
  rewrite Ht. cbn [fst snd] in *. apply wp_bind. eapply wp_mono; [apply wp_allocates; [apply load_allocates|by apply load_print]|].
  intros [y a'] m1 ((_ & _ & _ & Hpc & Hc) & H1). cbn [fst snd]. apply wp_bind.
  eapply wp_mono; [by apply IH, (only_oom m)|]. intros js m2 [Hj H2]. apply wp_ret.
  split; [|by eapply only_mallocs_trans]. by constructor.
Qed.

Lemma jobs_of_code es progs js :
  jobs_of es progs js -> Forall (fun p => snd p <> []) progs -> Forall (fun j => code (j_pcb (fst j)) <> []) js.
Proof.
  induction 1 as [|e es p ps j js (Hc & _) _ IH]; intros Hp; [done|]. inv Hp. constructor; [|by apply IH].
  intros E. rewrite E in Hc. by inv Hc.
Qed.

(** The instructions of the programs. *)
Definition total (progs : list (Z * list inst_t)) : Z := zsum ((fun p => Z.of_nat (length (snd p))) <$> progs).

Lemma jobs_of_total es progs js :
  jobs_of es progs js -> zsum ((fun j => Z.of_nat (length (code (j_pcb j)))) <$> (fst <$> js)) = total progs.
Proof.
  induction 1 as [|e es p ps j js (Hc & _) _ IH]; [done|]. unfold total in *. rewrite !fmap_cons, !zsum_cons, IH.
  by rewrite (Forall2_length _ _ _ Hc).
Qed.

(** ** The balance of instructions *)

(** A process about to be freed has no instruction left. *)
Definition spent (s : sim) : Prop := forall p, CpuFree p ∈ cpus s -> remaining (mach s) p = 0.

Lemma free_when_done ts dn c m p m' :
  cpu_routine ts dn c m = Ret (CpuFree p) m' -> subject c = [] /\ remaining m p = 0.
Proof.
  destruct c as [q tl|q|tl|q tl|q tl|]; unfold cpu_routine, bind, ret.
  - case_bool_decide; [destruct (get_next m) as [r m1| |]; try done; case_bool_decide; done|].
    unfold get_pcb. destruct (procs m !! q) as [y|] eqn:Hy; [|done]. case_bool_decide as Hpc.
    + destruct (finish q m); try done. intros [= <- _]. split; [done|]. unfold remaining. rewrite Hy. lia.
    + case_bool_decide; [destruct (put_back q m)|]; done.
  - by destruct (free_pcb_all q m).
  - by destruct (get_next m).
  - case_bool_decide; cbn [andb]; [by destruct dn|]. by destruct (run q m).
  - done.
  - done.
Qed.

Lemma cpu_spent ts s i c c' m' :
  sys_inv s -> spent (sim_of s) -> cpus (sim_of s) !! i = Some c -> ready_to_step (mach (sim_of s)) c ->
  cpu_routine ts (done_flag (sim_of s)) c (mach (sim_of s)) = Ret c' m' ->
  let S' := set_cpu (sim_of s) i m' c' in
  spent S' /\ work S' + executed (sim_of s) (Some c) = work (sim_of s).
Proof.
  intros HI Hsp Hc Hr E. cbv zeta. split.
  - destruct (cpu_part ts s i c c' m' HI Hc Hr E) as ((l1 & l2 & El & El' & _ & Hst) & _).
    intros p Hp. rewrite El' in Hp. destruct Hst as [H1 _ Hu _ _]. cbn [set_cpu mach].
    assert (Hout : CpuFree p ∈ l1 ++ l2 -> remaining m' p = 0).
    { intros Hin. assert (Hh : p ∈ concat (held <$> l1 ++ l2)) by (apply (held_in _ (CpuFree p)); [done|by left]).
      assert (Hn : p ∉ held c).
      { assert (HN : NoDup (ready (sch (mach (sim_of s))) ++ held c ++ concat (held <$> l1 ++ l2))) by apply H1.
        apply NoDup_app in HN as (_ & _ & HN). apply NoDup_app in HN as (_ & HN & _). intros Hx. by apply (HN p Hx). }
      rewrite (proj1 (undisturbed_left p _ _ (Hu p (subject_held c p Hn)))). apply Hsp. rewrite El.
      apply elem_of_app in Hin as [?|?]; apply elem_of_app; [by left|right; by right]. }
    apply elem_of_app in Hp as [Hp|[Hp|Hp]%elem_of_cons]; [apply Hout, elem_of_app; by left| |apply Hout, elem_of_app; by right].
    subst c'. destruct (free_when_done _ _ _ _ _ _ E) as [Hs H0].
    by rewrite (proj1 (undisturbed_left p _ _ (Hu p ltac:(rewrite Hs; apply not_elem_of_nil)))).
  - pose proof (sim_cpu_step ts (sim_of s) i c c' m' Hc Hr E) as Hstep.
    destruct (step_balance ts _ _ _ (iv_sim _ HI) (iv_pos _ HI) Hstep) as [_ Hw].
    assert (dropped (sim_of s) (Some c) = 0); [|lia]. destruct c; try done. apply Hsp. by eapply list_elem_of_lookup_2.
Qed.

Lemma balance_step ts l s s' :
  sys_inv s -> spent (sim_of s) -> sys_step ts l s s' ->
  spent (sim_of s') /\ work (sim_of s') + runs s l = work (sim_of s).
Proof.
  intros HI Hsp Hs. destruct Hs as
    [s c' Ht|s Hall Hst|s i c d c' m' Hc Hd Hw Hin Hr E|s i p tl d Hc Hd Hw|s i p tl d d' Hc Hd Hw Hr|s i d Hc Hd Hw
    |s d t ts' Hl Hd Hw Est Ht|s d t ts' m dn cs j js k m' Hl Hd Hw Est Ht Es Hj E|s d Hl Hd Hw|s d d' Hl Hd Hw Hr
    |s d m dn cs k Hl Hd Hw Es|s d Hl Hd Hw]; cbn [runs executed sim_of]; try (split; [done|lia]).
  - by apply (cpu_spent ts s i c).
  - by apply (cpu_spent ts s i (CpuWait p tl) (CpuTop p tl) (mach (sim_of s))).
  - pose proof (iv_sim _ HI) as Hsim. pose proof (iv_pos _ HI) as Hpos. rewrite Es in *. cbn [mach cpus os] in *.
    destruct (step_balance 0 None (mkSim m dn cs (j :: js) k) (mkSim m' dn cs js k) Hsim Hpos (step_load 0 m dn cs j js k m' Hj E)) as [_ Hb].
    cbn [executed dropped] in Hb. split; [|lia]. destruct (load_ok m cs k j m' Hsim Hj E) as (_ & _ & _ & _ & Hq).
    intros p Hp. cbn [cpus mach] in *. destruct (decide (p = j_addr j)) as [->|Hne].
    + destruct Hj as (_ & Hnew & _). pose proof (si_live _ _ _ Hsim (j_addr j)) as Hl'.
      assert (is_Some (procs m !! j_addr j)) as [y Hy]; [|congruence]. apply Hl', elem_of_app. right.
      apply (held_in _ (CpuFree (j_addr j))); [done|by left].
    + specialize (Hsp p Hp). unfold remaining in *. cbn [mach] in Hsp. by rewrite Hq.
  - rewrite Es in *. split; [done|]. unfold work, places. cbn [mach cpus jobs]. lia.
Qed.

(** The instructions executed and those left are those there were. *)
Lemma balance_run ts n k e s s' :
  sys_inv s -> spent (sim_of s) -> sys_run ts n k e s s' ->
  sys_inv s' /\ spent (sim_of s') /\ work (sim_of s') + e = work (sim_of s) /\ 0 <= e.
Proof.
  intros HI Hsp Hr. induction Hr as [s|l n k e s1 s2 s3 Hr IH Hs]; [split_and!; [done|done|lia|lia]|].
  destruct (IH HI Hsp) as (H1 & H2 & H3 & H6). destruct (runs_ticks s2 l) as (_ & Hu & _). destruct (balance_step ts l s2 s3 H1 H2 Hs) as [H4 H5].
  split; [by eapply sys_step_inv|]. split; [done|lia].
Qed.

(** ** From the files to the system *)

Lemma head_word (l : list Z) : Forall is_u64 l -> 0 <= default 0 (head l).
Proof. intros [|x l' Hx _]; cbn; [done|]. unfold is_u64 in Hx. lia. Qed.

Lemma main_starts fs heap name arg c progs fate d1 d2 :
  input_ok fs arg c progs -> (forall i, fate i = false) ->
  wp (main fs heap [name; arg]) (fun r m => exists k js,
    r = Started (time_slot c) (sys_init (Z.to_nat (num_cpus c)) m k js) /\ booted m k /\ jobs_of (ld_processes c) progs js)
    (blank fate d1 d2).
Proof.
  intros [Ha Hf Hc Hn Hr Hs Hp] Hfate. set (m0 := blank fate d1 d2).
  assert (Hm0 : ~ may_oom m0) by (intros [i Hi]; cbn in Hi; by rewrite Hfate in Hi).
  destruct (cw_mem _ _ Hc) as (Hr0 & Hs0%head_word & _). unfold is_u64 in Hr0.
  unfold main, config_path. apply wp_bind. rewrite bool_decide_true by (rewrite length_app; simpl; lia). apply wp_ret. rewrite Hf.
  apply wp_bind. eapply wp_mono; [apply wp_allocates; [apply read_config_allocates|by apply read_config_print]|].
  intros c' m1 [-> H1]. pose proof (only_oom _ _ H1 Hm0) as Hm1.
  apply wp_bind. eapply wp_mono; [by apply malloc_succeeds|]. intros b m2 [-> H2]. pose proof (only_oom _ _ H2 Hm1) as Hm2.
  apply wp_bind. eapply wp_mono; [by apply malloc_succeeds|]. intros b m3 [-> H3]. pose proof (only_oom _ _ H3 Hm2) as Hm3.
  cbn [andb negb]. apply wp_bind. eapply wp_mono; [by apply attach_succeeds|]. intros [] m4 H4. pose proof (only_oom _ _ H4 Hm3) as Hm4.
  apply wp_bind. eapply wp_mono; [by apply malloc_succeeds|]. intros b m5 [-> H5]. cbn [negb].
  assert (exists c5, m5 = set_mallocs m0 c5) as [c5 ->].
  { change (only_mallocs m0 m5). eapply only_mallocs_trans; [exact H1|]. eapply only_mallocs_trans; [exact H2|].
    eapply only_mallocs_trans; [exact H3|]. by eapply only_mallocs_trans. }
  pose proof (boot_spec fate d1 d2 c5 (memramsz c) (default 0 (head (memswpsz c))) ltac:(lia) ltac:(lia) (Hfate c5)) as Hb.
  apply wp_bind. fold m0 in Hb. unfold wp in Hb |- * at 1. destruct (boot _ _ _) as [k m6| |] eqn:Eb; [|done..].
  destruct Hb as (_ & _ & _ & Eo & _). assert (Hm6 : ~ may_oom m6) by (intros [i Hi]; rewrite Eo in Hi; by rewrite Hfate in Hi).
  apply wp_bind. eapply wp_mono; [by apply load_all_print|]. intros js m7 [Hj [c7 ->]]. unfold wp. exists k, js.
  split; [done|]. split; [|done]. exists fate, d1, d2, c5, c7, (memramsz c), (default 0 (head (memswpsz c))), m6. split_and!; try done; lia.
Qed.

(** A system that has just been started. *)
Lemma start_facts n m k js es progs :
  booted m k -> (0 < n)%nat -> jobs_of es progs js -> Forall (fun p => snd p <> []) progs ->
  sys_inv (sys_init n m k js) /\ spent (sim_of (sys_init n m k js)) /\ work (sim_of (sys_init n m k js)) = total progs.
Proof.
  intros Hb Hn Hj Hp. pose proof (jobs_of_code _ _ _ Hj Hp) as Hjs.
  destruct (reachable_inv 0 n m k js _ Hb Hn Hjs (rtc_refl _ _)) as (HI & _). split; [done|]. split.
  - intros p Hin. unfold sys_init in Hin. cbn [sim_of cpus] in Hin. by apply elem_of_replicate in Hin as [? _].
  - assert (places (sim_of (sys_init n m k js)) = []) as E.
    { apply no_places; [done|]. destruct Hb as (fate & d1 & d2 & c1 & c2 & ramsz & swpsz & m0 & Hr & Hs & Hf & Hb & ->).
      pose proof (boot_spec fate d1 d2 c1 ramsz swpsz Hr Hs (Hf c1)) as Hw. unfold wp in Hw. rewrite Hb in Hw. apply Hw. }
    unfold work. rewrite E. unfold sys_init. cbn [sim_of jobs]. by rewrite (jobs_of_total es progs).
Qed.

(** A configuration of two CPUs and two programs. *)
Definition demo_progs : list (Z * list inst_t) :=
  [(0, [mkInst CALC 0 0 0 0; mkInst ALLOC 300 0 0 0]); (1, [mkInst CALC 0 0 0 0])].
Definition demo_conf : config :=
  mkConfig 2 2 2 16384 [16384; 0; 0; 0] [mkEntry 0 (proc_dir ++ text "p0") 0; mkEntry 3 (proc_dir ++ text "p1") 5].
Definition demo_fs (path : chars) : option chars :=
  if bool_decide (path = text "input/os_0") then Some (print_config true demo_conf)
  else if bool_decide (path = proc_dir ++ text "p0") then Some (print_program 0 [mkInst CALC 0 0 0 0; mkInst ALLOC 300 0 0 0])
  else if bool_decide (path = proc_dir ++ text "p1") then Some (print_program 1 [mkInst CALC 0 0 0 0])
  else None.
Definition demo_heap (i : nat) : block := mkBlock (100 * Z.of_nat (S i)) demo_fresh (mkMm 0 [] [] [] None).

Lemma demo_conf_wf : config_wf true demo_conf.
Proof.
  split; cbn -[Z.pow]; [lia..|done| |].
  - constructor; [|constructor; [|constructor]].
    + exists (text "p0"). split; [|done]. split; cbn; try (by repeat constructor); unfold is_u64; lia.
    + exists (text "p1"). split; [|done]. split; cbn; try (by repeat constructor); unfold is_u64; lia.
  - split; [unfold is_u64; lia|]. split; [|done]. repeat (apply Forall_cons; split); try apply Forall_nil; unfold is_u64; lia.
Qed.

Lemma demo_input : input_ok demo_fs (text "os_0") demo_conf demo_progs.
Proof.
  split; [cbn; lia|reflexivity|apply demo_conf_wf|done|done|done|].
  repeat constructor; cbn; try done; unfold is_u64; lia.
Qed.

(** ** Properties *)



(** The argument of the program is not bounded: with a name of 94 characters or
    more the path overflows its array before anything is read. *)
Theorem long_argument_overflows fs heap name arg m :
  (94 <= length arg)%nat -> main fs heap [name; arg] m = Ub.
Proof.
  intros Ha. unfold main, bind, config_path. rewrite bool_decide_false; [done|]. rewrite length_app. simpl. lia.
Qed.
