(* ===== verification/Locks.v ===== *)
(** * The memory lock ([src/libmem.c])

    The library's calls run on several CPUs at once.  [mmvm_lock] is taken by
    each of them, and here the calls are threads that lock, act and unlock: the
    body between the locks is cut where another thread could come in.  [denote]
    reads a thread as one call, and gives the functions of [Libmem] back.

    A thread that acts only while it holds the lock is serialised with the
    others: any interleaving is one in which each critical section is a single
    step, so that READ, WRITE and FREE may be taken as atomic.  The slow path of
    ALLOC is not such a thread: [__alloc] releases the lock around the system
    call that maps the new pages and may evict the page of another process, and
    the last theorem shows a WRITE that loses its frame in between. *)

From S2P Require Import Prelude.
From S2P Require Import Word.
From S2P Require Import Exclusive.
From S2P Require Import Paging.
From S2P Require Import Queue.
From S2P Require Import Sched.
From S2P Require Import MemPhy.
From S2P Require Import Region.
From S2P Require Import Machine.
From S2P Require Import PageTable.
From S2P Require Import Swap.
From S2P Require Import Vm.
From S2P Require Import Area.
From S2P Require Import Syscall.
From S2P Require Import Libmem.
From S2P Require Import Isolation.

(** ** Threads *)

Section threads.
Context {S A : Type}.

(** A thread: it takes the lock, releases it, or acts on the shared state. *)
Inductive thread : Type :=
| Done (a : A)
| Lock (k : thread)
| Unlock (k : thread)
| Act {B : Type} (op : M S B) (k : B -> thread).

(** The thread as a call, alone. *)
Fixpoint denote (t : thread) : M S A :=
  match t with
  | Done a => ret a
  | Lock k | Unlock k => denote k
  | Act op k => let* b := op in denote (k b)
  end.

(** The shared state, the thread that holds the lock, and the threads. *)
Record conc := mkConc { shared : S; owner : option nat; threads : list thread }.

Inductive conc_step : conc -> conc -> Prop :=
| conc_lock s ts i k : ts !! i = Some (Lock k) ->
    conc_step (mkConc s None ts) (mkConc s (Some i) (<[i := k]> ts))
| conc_unlock s ts i k : ts !! i = Some (Unlock k) ->
    conc_step (mkConc s (Some i) ts) (mkConc s None (<[i := k]> ts))
| conc_act s o ts i B (op : M S B) k b s' : ts !! i = Some (Act op k) -> op s = Ret b s' ->
    conc_step (mkConc s o ts) (mkConc s' o (<[i := k b]> ts)).

(** The thread touches the shared state only while it holds the lock. *)
Fixpoint guarded (held : bool) (t : thread) : Prop :=
  match t with
  | Done _ => held = false
  | Lock k => held = false /\ guarded true k
  | Unlock k => held = true /\ guarded false k
  | Act op k => held = true /\ forall b, guarded true (k b)
  end.

(** A critical section in one go: up to the unlock. *)
Fixpoint section (t : thread) : M S thread :=
  match t with
  | Unlock k => ret k
  | Act op k => let* b := op in section (k b)
  | Done _ | Lock _ => ub
  end.

Inductive atomic_step : S * list thread -> S * list thread -> Prop :=
| atomic_section s ts i k t s' : ts !! i = Some (Lock k) -> section k s = Ret t s' ->
    atomic_step (s, ts) (s', <[i := t]> ts).

(** Between two critical sections, or in the middle of one: the sections that
    ended were atomic, and the one under way leads from [s0] to where it is. *)
Definition serialised (s0 : S) (ts0 : list thread) (c : conc) : Prop :=
  match owner c with
  | None => rtc atomic_step (s0, ts0) (shared c, threads c) /\ Forall (guarded false) (threads c)
  | Some i => exists s1 ts1 k t, rtc atomic_step (s0, ts0) (s1, ts1) /\ Forall (guarded false) ts1 /\
      ts1 !! i = Some (Lock k) /\ threads c = <[i := t]> ts1 /\ guarded true t /\ section k s1 = section t (shared c)
  end.

Lemma serialised_step s0 ts0 c c' : serialised s0 ts0 c -> conc_step c c' -> serialised s0 ts0 c'.
Proof.
  intros HI Hs. destruct Hs as [s ts i k Hi|s ts i k Hi|s o ts i B op k b s' Hi Hop]; unfold serialised in *; cbn [owner shared threads] in *.
  - destruct HI as [Hr Hg]. exists s, ts, k, k. split_and!; try done. by destruct (Forall_lookup_1 _ _ _ _ Hg Hi).
  - destruct HI as (s1 & ts1 & k1 & t & Hr & Hg & Hk1 & -> & Ht & Hsec). pose proof (lookup_lt_Some _ _ _ Hk1) as Hlt.
    rewrite list_lookup_insert_eq in Hi by done. injection Hi as ->. rewrite list_insert_insert_eq. split.
    + eapply rtc_r; [exact Hr|]. eapply atomic_section; [done|]. by rewrite Hsec.
    + apply Forall_insert; [done|]. by destruct Ht.
  - destruct o as [j|].
    + destruct HI as (s1 & ts1 & k1 & t & Hr & Hg & Hk1 & -> & Ht & Hsec). pose proof (lookup_lt_Some _ _ _ Hk1) as Hlt.
      destruct (decide (i = j)) as [->|Hne].
      * rewrite list_lookup_insert_eq in Hi by done. injection Hi as ->. exists s1, ts1, k1, (k b).
        rewrite list_insert_insert_eq. split_and!; try done; [|].
        -- by destruct Ht.
        -- rewrite Hsec. cbn [section]. unfold bind. by rewrite Hop.
      * rewrite list_lookup_insert_ne in Hi by done. by destruct (Forall_lookup_1 _ _ _ _ Hg Hi).
    + destruct HI as [_ Hg]. by destruct (Forall_lookup_1 _ _ _ _ Hg Hi).
Qed.

Lemma serialise s ts s' ts' :
  Forall (guarded false) ts -> rtc conc_step (mkConc s None ts) (mkConc s' None ts') -> rtc atomic_step (s, ts) (s', ts').
Proof.
  intros Hg Hr. assert (H : serialised s ts (mkConc s None ts) -> serialised s ts (mkConc s' None ts')).
  { induction Hr as [c|c1 c2 c3 Hs _ IH]; [done|]. intros H0. by eapply IH, serialised_step. }
  by destruct H.
Qed.

(** A schedule names the thread of each step. *)
Definition conc_exec (i : nat) (c : conc) : option conc :=
  match threads c !! i, owner c with
  | Some (Lock k), None => Some (mkConc (shared c) (Some i) (<[i := k]> (threads c)))
  | Some (Unlock k), Some j => if bool_decide (j = i) then Some (mkConc (shared c) None (<[i := k]> (threads c))) else None
  | Some (Act op k), _ =>
    match op (shared c) with Ret b s' => Some (mkConc s' (owner c) (<[i := k b]> (threads c))) | _ => None end
  | _, _ => None
  end.
Fixpoint conc_run (sched : list nat) (c : conc) : option conc :=
  match sched with [] => Some c | i :: sched => conc_exec i c ≫= conc_run sched end.

Lemma conc_run_sound sched : forall c c', conc_run sched c = Some c' -> rtc conc_step c c'.
Proof.
  induction sched as [|i sched IH]; intros [s o ts] c'; [intros [= <-]; apply rtc_refl|]. cbn [conc_run].
  destruct (conc_exec i _) as [c1|] eqn:E; [|done]. intros H. eapply rtc_l; [|by apply IH]. revert E. unfold conc_exec. cbn [threads owner shared].
  destruct (ts !! i) as [[a|k|k|B op k]|] eqn:Hi; [done| | | |done].
  - destruct o; [done|]. intros [= <-]. by apply conc_lock.
  - destruct o as [j|]; [|done]. case_bool_decide as Hj; [|done]. subst j. intros [= <-]. by apply conc_unlock.
  - destruct (op s) as [b s'| |] eqn:Hop; [|done..]. intros [= <-]. by eapply conc_act.
Qed.
End threads.
Arguments thread : clear implicits.
Arguments conc : clear implicits.

(** ** The calls *)

(** What a call answers: a status, or the value it stores through a pointer
    ([None] when its status is -1). *)
Inductive answer := Status (r : Z) | Value (o : option Z).

Notation call_thread := (thread machine answer).

(** What [__write] checks before it looks for the page: the address, or [None]
    for status -1. *)
Definition write_addr (caller vmaid rgid offset : Z) : M machine (option Z) :=
  let* k := get_krnl caller in
  match k with
  | None => ub
  | Some k =>
    match mm k with
    | None => ub
    | Some x =>
      let* cur_vma := get_vma_by_num x vmaid in
      ret (match get_symrg_byid (mm k) rgid, cur_vma with
           | Some rg, Some _ => if bool_decide (rg_start rg = rg_end rg) then None else access_addr rg offset
           | _, _ => None
           end)
    end
  end.
Definition read_addr (caller rgid offset : Z) : M machine (option Z) :=
  let* k := get_krnl caller in
  match k with
  | None => ub
  | Some k =>
    ret (match get_symrg_byid (mm k) rgid with
         | Some rg => if bool_decide (rg_start rg = rg_end rg) then None else access_addr rg offset
         | None => None
         end)
  end.

(** [__write] and [__read]: the page is found, then the byte is accessed at the
    physical address, all with the lock held. *)
Definition phys (fpn a : Z) : Z := u64 (fpn * PAGING64_PAGESZ + Z.land a PAGING64_ADDR_OFFST_MASK).

Definition write_thread (caller vmaid rgid offset value : Z) : call_thread :=
  Lock (Act (write_addr caller vmaid rgid offset) (fun a =>
    match a with
    | None => Unlock (Done (Status (-1)))
    | Some a =>
      Act (pg_getpage (addr_pgn a) caller) (fun f =>
        match f with
        | None => Unlock (Done (Status (-1)))
        | Some fpn =>
          Act (let* d := caller_mram caller in dev_write d (phys fpn a) value) (fun r =>
            Unlock (Done (Status (if bool_decide (r < 0) then -1 else 0))))
        end)
    end)).

Definition read_thread (caller rgid offset : Z) : call_thread :=
  Lock (Act (read_addr caller rgid offset) (fun a =>
    match a with
    | None => Unlock (Done (Value None))
    | Some a =>
      Act (pg_getpage (addr_pgn a) caller) (fun f =>
        match f with
        | None => Unlock (Done (Value None))
        | Some fpn =>
          Act (let* d := caller_mram caller in dev_read d (phys fpn a)) (fun r => Unlock (Done (Value r)))
        end)
    end)).

(** [__free], whose test of the pointers of its caller comes before the lock. *)
Definition free_locked (caller vmaid rgid : Z) : call_thread :=
  Lock (Act (__free caller vmaid rgid) (fun r => Unlock (Done (Status r)))).
Definition free_thread (caller vmaid rgid : Z) : call_thread :=
  Act (get_mm caller) (fun x => match x with None => Done (Status (-1)) | Some _ => free_locked caller vmaid rgid end).

(** [__alloc]: the free list under the lock; if it has no region, the system call
    without the lock; then the free list again. *)
Definition take_region (caller vmaid rgid size : Z) : M machine (option Z) :=
  let* rg := get_free_vmrg_area caller vmaid (i32 size) in
  match rg with
  | Some (s, e) => set_symrg caller rgid (mkRg vmaid s e) ;; ret (Some s)
  | None => ret None
  end.
Definition alloc_thread (caller vmaid rgid size : Z) : call_thread :=
  Act (get_mm caller) (fun x =>
    match x with
    | None => Done (Value None)
    | Some _ =>
      if bool_decide (rgid < 0) || bool_decide (PAGING_MAX_SYMTBL_SZ <= rgid) || bool_decide (size = 0) then Done (Value None)
      else
        Lock (Act (let* x := the_mm caller in get_vma_by_num x vmaid) (fun cur_vma =>
          match cur_vma with
          | None => Unlock (Done (Value None))
          | Some _ =>
            Act (take_region caller vmaid rgid size) (fun rg =>
              match rg with
              | Some s => Unlock (Done (Value (Some s)))
              | None =>
                Unlock (Act (get_pcb caller) (fun y =>
                  Act (_syscall true (pid y) 17 (mkScRegs SYSMEM_INC_OP (u64 vmaid) (PAGING64_PAGE_ALIGNSZ size))) (fun r =>
                    Lock (if bool_decide (fst r < 0) then Unlock (Done (Value None))
                          else Act (take_region caller vmaid rgid size) (fun rg => Unlock (Done (Value rg)))))))
              end)
          end))
    end).

(** ** A thread alone is the call *)

Lemma bind_eq {S A B} (m : M S A) (k1 k2 : A -> M S B) s :
  (forall a s', m s = Ret a s' -> k1 a s' = k2 a s') -> bind m k1 s = bind m k2 s.
Proof. intros H. unfold bind. destruct (m s) as [a s'| |] eqn:E; [by apply H|done..]. Qed.
Lemma bind_assoc {S A B C} (m : M S A) (k : A -> M S B) (h : B -> M S C) s :
  bind (bind m k) h s = bind m (fun a => bind (k a) h) s.
Proof. unfold bind. by destruct (m s). Qed.

(** The calls of [Libmem], answering. *)
Inductive call :=
| CAlloc (caller vmaid rgid size : Z) | CFree (caller vmaid rgid : Z)
| CRead (caller rgid offset : Z) | CWrite (caller vmaid rgid offset value : Z).

Definition thread_of (c : call) : call_thread :=
  match c with
  | CAlloc p v r n => alloc_thread p v r n
  | CFree p v r => free_thread p v r
  | CRead p r o => read_thread p r o
  | CWrite p v r o b => write_thread p v r o b
  end.
Definition call_of (c : call) : M machine answer :=
  match c with
  | CAlloc p v r n => let* x := __alloc p v r n in ret (Value x)
  | CFree p v r => let* x := __free p v r in ret (Status x)
  | CRead p r o => let* x := __read p r o in ret (Value x)
  | CWrite p v r o b => let* x := __write p v r o b in ret (Status x)
  end.

Lemma write_denotes p v r o b m : denote (write_thread p v r o b) m = call_of (CWrite p v r o b) m.
Proof.
  unfold write_thread, call_of, __write, write_addr. cbn [denote]. rewrite !bind_assoc. apply bind_eq. intros [k|] m1 _; [|done].
  destruct (mm k) as [x|]; [|done]. rewrite !bind_assoc. apply bind_eq. intros cv m2 _. unfold ret at 1, bind at 1.
  destruct (get_symrg_byid (Some x) r) as [rg|]; [|done]. destruct cv; [|done]. case_bool_decide; [done|].
  destruct (access_addr rg o) as [a|]; [|done]. cbn [denote]. unfold pg_setval. rewrite bind_assoc. apply bind_eq. intros [f|] m3 _; [|done].
  cbn [denote]. rewrite !bind_assoc. apply bind_eq. intros d m4 _. rewrite ?bind_assoc. fold (phys f a). apply bind_eq. intros z m5 _. reflexivity.
Qed.

Lemma read_denotes p r o m : denote (read_thread p r o) m = call_of (CRead p r o) m.
Proof.
  unfold read_thread, call_of, __read, read_addr. cbn [denote]. rewrite !bind_assoc. apply bind_eq. intros [k|] m1 _; [|done].
  unfold ret at 1, bind at 1.
  destruct (get_symrg_byid (mm k) r) as [rg|]; [|done]. case_bool_decide; [done|].
  destruct (access_addr rg o) as [a|]; [|done]. cbn [denote]. unfold pg_getval. rewrite bind_assoc. apply bind_eq. intros [f|] m3 _; [|done].
  cbn [denote]. done.
Qed.

Lemma get_mm_pure p m : get_mm p m = Ub \/ exists o, get_mm p m = Ret o m.
Proof.
  unfold get_mm, get_krnl, bind. case_bool_decide; [right; by eexists|]. unfold get_pcb.
  destruct (procs m !! p); [right; by eexists|by left].
Qed.

Lemma free_denotes p v r m : denote (free_thread p v r) m = call_of (CFree p v r) m.
Proof.
  unfold free_thread. cbn [denote]. destruct (get_mm_pure p m) as [E|[[x|] E]].
  - unfold call_of, __free, bind. by rewrite E.
  - unfold bind. by rewrite E.
  - unfold call_of, __free, bind. by rewrite E.
Qed.

Lemma the_mm_of p x m m1 : get_mm p m = Ret (Some x) m1 -> the_mm p m1 = Ret x m1.
Proof.
  intros E. destruct (get_mm_pure p m) as [E'|[o E']]; [congruence|]. assert (m1 = m) as -> by congruence.
  unfold the_mm, bind. by rewrite E.
Qed.

Lemma alloc_denotes p v r n m : denote (alloc_thread p v r n) m = call_of (CAlloc p v r n) m.
Proof.
  unfold alloc_thread, call_of, __alloc. cbn [denote]. rewrite bind_assoc. apply bind_eq. intros [x|] m1 E; [|done].
  destruct (_ || _); [done|]. cbn [denote]. rewrite !bind_assoc. unfold bind at 1. rewrite (the_mm_of p x m m1 E).
  apply bind_eq. intros [cv|] m2 _; [|done]. cbn [denote]. unfold take_region. rewrite !bind_assoc. apply bind_eq. intros [[s e]|] m3 _.
  - rewrite !bind_assoc. apply bind_eq. intros [] m4 _. done.
  - unfold ret at 1, bind at 1. cbn [denote]. rewrite !bind_assoc. apply bind_eq. intros y m4 _. cbn [denote]. rewrite bind_assoc.
    apply bind_eq. intros [sr rg] m5 _. cbn [denote fst]. case_bool_decide; [done|]. cbn [denote]. rewrite !bind_assoc. apply bind_eq.
    intros [[s e]|] m6 _; [|done]. rewrite !bind_assoc. by apply bind_eq.
Qed.

(** ** Calls under one lock *)

(** The calls but ALLOC have one critical section, which is all of the call once
    [__free] has tested the pointers of its caller. *)
Definition one_lock (c : call) : Prop := match c with CAlloc _ _ _ _ => False | _ => True end.
Definition locked_thread (c : call) : call_thread :=
  match c with CFree p v r => free_locked p v r | _ => thread_of c end.

Lemma section_split {S A} (k : thread S A) : guarded true k -> forall s, denote k s = bind (section k) denote s.
Proof.
  induction k as [a|k IH|k IH|B op k IH]; intros Hg s; [done|by destruct Hg|done|].
  cbn [denote section]. rewrite bind_assoc. apply bind_eq. intros b s' _. by apply IH, Hg.
Qed.

Lemma locked_denotes c m : one_lock c -> denote (locked_thread c) m = call_of c m.
Proof. destruct c as [|p v r|p r o|p v r o b]; [done|intros _..]; [done|apply read_denotes|apply write_denotes]. Qed.

Ltac in_section := repeat first [done | split; [done|] | progress cbn [guarded] | progress intros | case_match].

Lemma locked_guarded c : one_lock c -> exists k, locked_thread c = Lock k /\ guarded true k /\
  forall m t m', section k m = Ret t m' -> exists a, t = Done a.
Proof.
  destruct c as [|p v r|p r o|p v r o b]; [done|intros _..]; eexists; (split; [reflexivity|]); (split; [in_section|]); intros m t m'; cbn [section]; unfold bind.
  - destruct (__free p v r m); try done. intros [= <- _]. by eexists.
  - destruct (read_addr p r o m) as [[a|] m1| |]; try done; [|intros [= <- _]; by eexists]. cbn [section]. unfold bind.
    destruct (pg_getpage _ _ m1) as [[f|] m2| |]; try done; [|intros [= <- _]; by eexists]. cbn [section]. unfold bind.
    destruct (caller_mram p m2) as [d m3| |]; try done. destruct (dev_read _ _ m3) as [z m4| |]; try done. intros [= <- _]. by eexists.
  - destruct (write_addr p v r o m) as [[a|] m1| |]; try done; [|intros [= <- _]; by eexists]. cbn [section]. unfold bind.
    destruct (pg_getpage _ _ m1) as [[f|] m2| |]; try done; [|intros [= <- _]; by eexists]. cbn [section]. unfold bind.
    destruct (caller_mram p m2) as [d m3| |]; try done. destruct (dev_write _ _ _ m3) as [z m4| |]; try done. intros [= <- _]. by eexists.
Qed.

(** The calls one after the other, in some order, with their answers. *)
Inductive serial_run (calls : list call) (m : machine) : list (nat * answer) -> machine -> Prop :=
| serial_nil : serial_run calls m [] m
| serial_snoc l m1 i c a m2 : serial_run calls m l m1 -> calls !! i = Some c -> call_of c m1 = Ret a m2 ->
    serial_run calls m (l ++ [(i, a)]) m2.

(** Which calls have been made. *)
Definition ledger (calls : list call) (l : list (nat * answer)) (ts : list call_thread) : Prop :=
  NoDup l.*1 /\ forall i c, calls !! i = Some c ->
    ts !! i = Some (locked_thread c) /\ i ∉ l.*1 \/ exists a, ts !! i = Some (Done a) /\ (i, a) ∈ l.

Lemma ledger_step calls m l m1 ts1 m2 ts2 :
  Forall one_lock calls -> length ts1 = length calls -> serial_run calls m l m1 -> ledger calls l ts1 ->
  atomic_step (m1, ts1) (m2, ts2) ->
  length ts2 = length calls /\ exists i a, serial_run calls m (l ++ [(i, a)]) m2 /\ ledger calls (l ++ [(i, a)]) ts2.
Proof.
  intros Hone Hlen Hser [HN Hl] Hs. inversion Hs as [s ts i k t s' Hi Hsec E1 E2]. subst. clear Hs.
  pose proof (lookup_lt_Some _ _ _ Hi) as Hlt. rewrite length_insert. split; [done|].
  destruct (lookup_lt_is_Some_2 calls i ltac:(lia)) as [c Hc]. destruct (Hl i c Hc) as [[Ht Hni]|(a & Ht & _)]; [|congruence].
  pose proof (Forall_lookup_1 _ _ _ _ Hone Hc) as Hc1. destruct (locked_guarded c Hc1) as (k' & Ek & Hg & Hdone).
  assert (k' = k) as -> by congruence. destruct (Hdone _ _ _ Hsec) as [a ->]. exists i, a. split.
  - eapply serial_snoc; [done|done|]. rewrite <- (locked_denotes c m1 Hc1), Ek. cbn [denote].
    rewrite (section_split k Hg m1). unfold bind. by rewrite Hsec.
  - split.
    + rewrite fmap_app. apply NoDup_app. split_and!; [done| |by apply NoDup_singleton]. intros x Hx. cbn. rewrite list_elem_of_singleton. by intros ->.
    + intros j c' Hc'. destruct (decide (j = i)) as [->|Hne].
      * right. exists a. rewrite list_lookup_insert_eq by done. split; [done|]. apply elem_of_app. right. by left.
      * rewrite list_lookup_insert_ne by done. destruct (Hl j c' Hc') as [[H1 H2]|(b & H1 & H2)].
        -- left. split; [done|]. rewrite fmap_app, elem_of_app. cbn. rewrite list_elem_of_singleton. tauto.
        -- right. exists b. split; [done|]. apply elem_of_app. by left.
Qed.

Lemma locked_all_guarded calls : Forall one_lock calls -> Forall (guarded false) (locked_thread <$> calls).
Proof.
  intros H. apply Forall_fmap. eapply Forall_impl; [exact H|]. intros c Hc. unfold compose.
  destruct (locked_guarded c Hc) as (k & -> & Hg & _). done.
Qed.

Lemma atomic_ledger calls m e :
  Forall one_lock calls -> rtc atomic_step (m, locked_thread <$> calls) e ->
  length (snd e) = length calls /\ exists l, serial_run calls m l (fst e) /\ ledger calls l (snd e).
Proof.
  intros Hone. revert e. apply rtc_ind_r.
  - cbn [fst snd]. split; [by rewrite length_fmap|]. exists []. split; [constructor|]. split; [constructor|].
    intros i c Hc. left. rewrite list_lookup_fmap, Hc. split; [done|]. apply not_elem_of_nil.
  - intros [m1 ts1] [m2 ts2] _ Hs (Hlen & l & H1 & H2).
    destruct (ledger_step calls m l m1 ts1 m2 ts2 Hone Hlen H1 H2 Hs) as (Hlen' & i & a & H3 & H4). eauto.
Qed.

Lemma default_some {X} (o : option X) d : (if o then true else false) = true -> o = Some (default d o).
Proof. by destruct o. Qed.

(** Two calls on one byte. *)
Definition write_demo : machine := after (liballoc 200 16384 0) pair_demo.
Definition demo_calls : list call := [CWrite 200 0 0 0 42; CRead 200 0 0].
Definition demo_run_end : conc machine answer :=
  default (mkConc write_demo None []) (conc_run [0; 0; 0; 0; 0; 1; 1; 1; 1; 1]%nat (mkConc write_demo None (locked_thread <$> demo_calls))).

#[local] Opaque write_demo.

Lemma demo_run_eq : conc_run [0; 0; 0; 0; 0; 1; 1; 1; 1; 1]%nat (mkConc write_demo None (locked_thread <$> demo_calls)) = Some demo_run_end.
Proof. apply default_some. vm_compute. reflexivity. Qed.
#[local] Opaque demo_run_end.
Lemma demo_run_shape : demo_run_end = mkConc (shared demo_run_end) None [Done (Status 0); Done (Value (Some 42))].
Proof. vm_compute. reflexivity. Qed.

(** The WRITE of process 200 and an ALLOC of process 100 that needs a frame. *)
Definition race_calls : list call := [CWrite 200 0 0 0 42; CAlloc 100 0 0 4096].
Definition race_schedule : list nat := [1; 1; 1; 1; 1; 0; 0; 0; 1; 1; 0; 0; 1; 1; 1]%nat.
Definition race_end : conc machine answer :=
  default (mkConc write_demo None []) (conc_run race_schedule (mkConc write_demo None (thread_of <$> race_calls))).

Lemma race_run : conc_run race_schedule (mkConc write_demo None (thread_of <$> race_calls)) = Some race_end.
Proof. apply default_some. vm_compute. reflexivity. Qed.
#[local] Opaque race_end.

(** ** Properties *)

(** A thread of the library run alone is the call: taking the locks apart,
    [__alloc], [__free], [__read] and [__write] as threads compute what they
    compute as functions. *)
Theorem threads_are_calls c m : denote (thread_of c) m = call_of c m.
Proof. destruct c; [apply alloc_denotes|apply free_denotes|apply read_denotes|apply write_denotes]. Qed.

(** C7. [mmvm_lock] makes READ, WRITE and FREE atomic: whatever the order in
    which the threads take their steps, the answers and the final state are those
    of some order of whole calls, each made once.  (This is what a step of the
    simulator that executes an instruction takes for granted.) *)
Theorem calls_serialise calls m m' ts :
  Forall one_lock calls ->
  rtc conc_step (mkConc m None (locked_thread <$> calls)) (mkConc m' None ts) ->
  exists l, serial_run calls m l m' /\ NoDup l.*1 /\
    forall i c a, calls !! i = Some c -> ts !! i = Some (Done a) -> (i, a) ∈ l.
Proof.
  intros Hone Hr. apply serialise in Hr; [|by apply locked_all_guarded].
  destruct (atomic_ledger calls m (m', ts) Hone Hr) as (_ & l & H1 & H2 & H3). cbn [fst snd] in *. exists l. split_and!; [done|done|].
  intros i c a Hc Hi. destruct (H3 i c Hc) as [[Ht _]|(b & Ht & Hb)]; [|by simplify_eq].
  destruct (locked_guarded c (Forall_lookup_1 _ _ _ _ Hone Hc)) as (k & Ek & _). congruence.
Qed.

Lemma calls_serialise_witness :
  exists l, serial_run demo_calls write_demo l (shared demo_run_end) /\ NoDup l.*1 /\
    forall i c a, demo_calls !! i = Some c -> [Done (Status 0); Done (Value (Some 42))] !! i = Some (Done (S := machine) a) -> (i, a) ∈ l.
Proof.
  apply calls_serialise; [by repeat constructor|]. rewrite <- demo_run_shape.
  exact (conc_run_sound _ _ _ demo_run_eq).
Defined.

