(* ===== verification/Room.v ===== *)
(** * Frames to spare

    What the memory system does to the list of free frames of RAM, and what a
    mapping does when that list is long enough.  [Spares] is the class of calls
    that take no frame from it: all but the allocation of a range of pages
    ([alloc_pages_range]); a page that is brought in takes the frame of its victim.
    With enough free frames [inc_vma_limit] evicts nothing: every page of every
    other process stays where it is, and it takes as many frames as it maps. *)

From S2P Require Import Prelude.
From S2P Require Import Word.
From S2P Require Import Exclusive.
From S2P Require Import Paging.
From S2P Require Import Queue.
From S2P Require Import Sched.
From S2P Require Import MemPhy.
From S2P Require Import Region.
From S2P Require Import Machine.
From S2P Require Import PageTable.
From S2P Require Import Swap.
From S2P Require Import Vm.
From S2P Require Import Evict.
From S2P Require Import Access.
From S2P Require Import Mapping.
From S2P Require Import Area.
From S2P Require Import Syscall.
From S2P Require Import Libmem.
From S2P Require Import Heap.
From S2P Require Import Frame.

Definition nfree (m : machine) : Z := Z.of_nat (length (free_fp_list (ram m))).

(** ** Calls that take no frame *)

Class Spares {A} (c : M machine A) : Prop := spares : forall m a m', c m = Ret a m' -> nfree m <= nfree m'.

Lemma spares_ram {A} (c : M machine A) : (forall m a m', c m = Ret a m' -> ram m' = ram m) -> Spares c.
Proof. intros H m a m' E. unfold nfree. by rewrite (H m a m' E). Qed.

Lemma spares_ret {A} (a : A) : Spares (ret a).
Proof. apply spares_ram. by intros m b m' [= _ <-]. Qed.
Lemma spares_ub {A} : Spares (@ub machine A).
Proof. by intros m b m'. Qed.
Lemma spares_get : Spares (@get machine).
Proof. apply spares_ram. by intros m b m' [= _ <-]. Qed.
Lemma spares_bind {A B} (c : M machine A) (k : A -> M machine B) : Spares c -> (forall a, Spares (k a)) -> Spares (bind c k).
Proof. intros Hc Hk m b m' (a & m1 & H1 & H2)%bind_inv. etrans; [by eapply Hc|by eapply Hk]. Qed.
Lemma spares_for_each {A} (body : A -> M machine Z) l : (forall a, Spares (body a)) -> Spares (for_each body l).
Proof.
  intros Hb. induction l as [|a l IH]; [apply spares_ret|]. cbn [for_each]. apply spares_bind; [done|].
  intros r. case_bool_decide; [done|apply spares_ret].
Qed.

Lemma spares_malloc : Spares malloc.
Proof. apply spares_ram. by intros m b m' [= _ <-]. Qed.
Lemma spares_get_pcb p : Spares (get_pcb p).
Proof. apply spares_ram. intros m b m'. unfold get_pcb. by case_match; intros [= _ <-]. Qed.
Lemma spares_put_pcb p y : Spares (put_pcb p y).
Proof. apply spares_ram. by intros m [] m' [= <-]. Qed.
Lemma spares_tbl_read p i : Spares (tbl_read p i).
Proof. apply spares_ram. intros m b m'. unfold tbl_read. by repeat case_match; intros [= _ <-]. Qed.
Lemma spares_tbl_write p i v : Spares (tbl_write p i v).
Proof. apply spares_ram. intros m [] m'. unfold tbl_write. by repeat case_match; intros [= <-]. Qed.
Lemma spares_note_walk b p g : Spares (note_walk b p g).
Proof. apply spares_ram. intros m [] m'. unfold note_walk. intros [= <-]. by destruct b. Qed.
Lemma spares_alloc_table : Spares alloc_page_table.
Proof.
  apply spares_bind; [apply spares_malloc|]. intros []; [|apply spares_ret]. apply spares_ram. by intros m b m' [= _ <-].
Qed.
Lemma spares_m_find_proc n : Spares (m_find_proc n).
Proof. apply spares_ram. by intros m b m' [= _ <-]. Qed.
Lemma spares_on_swp {A} (op : M memphy_struct A) : Spares (on_swp op).
Proof. apply spares_ram. intros m b m'. unfold on_swp. by case_match; intros [= _ <-]. Qed.

(** The bytes of a device are no frames of it. *)
Lemma spares_on_ram {A} (op : M memphy_struct A) :
  (forall d b d', op d = Ret b d' -> free_fp_list d' = free_fp_list d) -> Spares (on_ram op).
Proof.
  intros H m b m'. unfold on_ram, nfree. destruct (op (ram m)) as [a d| |] eqn:E; [|done..]. intros [= _ <-].
  cbn [ram set_ram]. by rewrite (H _ _ _ E).
Qed.
Lemma read_free a d b d' : MEMPHY_read a d = Ret b d' -> free_fp_list d' = free_fp_list d.
Proof.
  unfold MEMPHY_read, MEMPHY_seq_read, MEMPHY_mv_csr, load_cell, bind, get, ret.
  repeat case_match; intros; simplify_eq; done.
Qed.
Lemma write_free a v d b d' : MEMPHY_write a v d = Ret b d' -> free_fp_list d' = free_fp_list d.
Proof.
  unfold MEMPHY_write, MEMPHY_seq_write, MEMPHY_mv_csr, store_cell, bind, get, ret.
  repeat case_match; intros; simplify_eq; done.
Qed.
Lemma spares_dev_read d a : Spares (dev_read d a).
Proof. destruct d as [[|]|]; [|apply spares_on_swp|apply spares_ret]. apply spares_on_ram. intros ???. apply read_free. Qed.
Lemma spares_dev_write d a v : Spares (dev_write d a v).
Proof. destruct d as [[|]|]; [|apply spares_on_swp|apply spares_ret]. apply spares_on_ram. intros ???. apply write_free. Qed.
Lemma spares_dev_put d n : Spares (dev_put_freefp d n).
Proof.
  destruct d as [[|]|]; [|apply spares_bind; [apply spares_malloc|intros; apply spares_on_swp]|apply spares_ret].
  apply spares_bind; [apply spares_malloc|]. intros ok m b m'. unfold on_dev, on_ram, MEMPHY_put_freefp, nfree.
  destruct ok; intros [= _ <-]; cbn [ram set_ram set_free free_fp_list length]; lia.
Qed.
(** A slot of the swap device is no frame. *)
Lemma spares_get_slot k : Spares (dev_get_freefp (k_mswp k)).
Proof. unfold k_mswp. destruct (active_mswp k); [apply spares_on_swp|apply spares_ret]. Qed.

Create HintDb spares.
#[export] Hint Resolve spares_ret spares_ub spares_get spares_malloc spares_get_pcb spares_put_pcb spares_tbl_read
  spares_tbl_write spares_note_walk spares_alloc_table spares_m_find_proc spares_dev_read spares_dev_write
  spares_dev_put spares_get_slot : spares.

Ltac spares_step :=
  first
    [ solve [eauto with spares nocore]
    | lazymatch goal with
      | |- Spares (for_each _ _) => apply spares_for_each; intros
      | |- Spares (bind _ _) => apply spares_bind; [|intros]
      | |- Spares (match ?x with _ => _ end) => destruct x
      | |- Spares (let '(_, _) := ?x in _) => destruct x
      end ].
Ltac spares := repeat (intros; cbv beta; cbv zeta; spares_step).

Lemma spares_get_krnl p : Spares (get_krnl p).
Proof. unfold get_krnl. spares. Qed.
Lemma spares_upd_krnl p f : Spares (upd_krnl p f).
Proof. unfold upd_krnl. spares. Qed.
#[export] Hint Resolve spares_get_krnl spares_upd_krnl : spares.
Lemma spares_get_mm p : Spares (get_mm p).
Proof. unfold get_mm. spares. Qed.
Lemma spares_upd_mm p f : Spares (upd_mm p f).
Proof. unfold upd_mm. spares. Qed.
Lemma spares_init_kernel w k : Spares (init_kernel_page_table w k).
Proof. unfold init_kernel_page_table. spares. Qed.
#[export] Hint Resolve spares_get_mm spares_upd_mm spares_init_kernel : spares.
Lemma spares_walk_root p a b : Spares (walk_root p a b).
Proof. unfold walk_root. spares. Qed.
Lemma spares_next_level t i c : Spares (next_level t i c).
Proof. unfold next_level. spares. Qed.
#[export] Hint Resolve spares_walk_root spares_next_level : spares.
Lemma spares_walk_pte p a c : Spares (walk_pte p a c).
Proof. unfold walk_pte, if_ptr. spares. Qed.
#[export] Hint Resolve spares_walk_pte : spares.
Lemma spares_pte_get p g : Spares (pte_get_entry p g).
Proof. unfold pte_get_entry. spares. Qed.
Lemma spares_pte_swap p g t o : Spares (pte_set_swap p g t o).
Proof. unfold pte_set_swap. spares. Qed.
Lemma spares_pte_fpn p g f : Spares (pte_set_fpn p g f).
Proof. unfold pte_set_fpn. spares. Qed.
Lemma spares_memset p a n : Spares (vmap_pgd_memset p a n).
Proof. unfold vmap_pgd_memset, pte_set_entry. spares. Qed.
Lemma spares_enlist p g : Spares (enlist_pgn_node p g).
Proof. unfold enlist_pgn_node. spares. Qed.
Lemma spares_find_victim p : Spares (find_victim_page p).
Proof. unfold find_victim_page. spares. Qed.
Lemma spares_release p l : Spares (release_frame_list p l).
Proof. induction l; cbn [release_frame_list]; spares. Qed.
Lemma spares_swap_cp a b c d : Spares (__swap_cp_page a b c d).
Proof. unfold __swap_cp_page. spares. Qed.
#[export] Hint Resolve spares_pte_get spares_pte_swap spares_pte_fpn spares_memset spares_enlist spares_find_victim
  spares_release spares_swap_cp : spares.
Lemma spares_victim_loop p n : Spares (victim_loop p n).
Proof. induction n; cbn [victim_loop]; spares. Qed.
#[export] Hint Resolve spares_victim_loop : spares.
Lemma spares_present p : Spares (find_present_victim_in_proc p).
Proof. unfold find_present_victim_in_proc. spares. Qed.
#[export] Hint Resolve spares_present : spares.
Lemma spares_victim_scan p l : Spares (victim_scan p l).
Proof. induction l; cbn [victim_scan]; spares. Qed.
#[export] Hint Resolve spares_victim_scan : spares.
Lemma spares_global p : Spares (find_global_victim p).
Proof. unfold find_global_victim. spares. Qed.
#[export] Hint Resolve spares_global : spares.
Lemma spares_swap_out p : Spares (swap_out_victim_page p).
Proof. unfold swap_out_victim_page. spares. Qed.
#[export] Hint Resolve spares_swap_out : spares.
Lemma spares_getpage g p : Spares (pg_getpage g p).
Proof. unfold pg_getpage. spares. Qed.
Lemma spares_page_bytes n : Spares (page_bytes n).
Proof. unfold page_bytes. spares. Qed.
Lemma spares_caller_mram p : Spares (caller_mram p).
Proof. unfold caller_mram. spares. Qed.
#[export] Hint Resolve spares_getpage spares_page_bytes spares_caller_mram : spares.
Lemma spares_the_mm p : Spares (the_mm p).
Proof. unfold the_mm. spares. Qed.
#[export] Hint Resolve spares_the_mm : spares.
Lemma spares_the_vma p i : Spares (the_vma p i).
Proof. unfold the_vma. spares. Qed.
Lemma spares_vma_loop l n : forall i, Spares (vma_loop l i n).
Proof. induction l; intros i; cbn [vma_loop]; spares. Qed.
#[export] Hint Resolve spares_the_vma spares_vma_loop : spares.
Lemma spares_get_vma x n : Spares (get_vma_by_num x n).
Proof. unfold get_vma_by_num. spares. Qed.
#[export] Hint Resolve spares_get_vma : spares.
Lemma spares_upd_vma p i f : Spares (upd_vma p i f).
Proof. unfold upd_vma. spares. Qed.
Lemma spares_set_symrg p i r : Spares (set_symrg p i r).
Proof. unfold set_symrg. spares. Qed.
Lemma spares_overlap p n s e : Spares (validate_overlap_vm_area p n s e).
Proof. unfold validate_overlap_vm_area. spares. Qed.
#[export] Hint Resolve spares_upd_vma spares_set_symrg spares_overlap : spares.
Lemma spares_get_free p v n : Spares (get_free_vmrg_area p v n).
Proof. unfold get_free_vmrg_area. spares. Qed.
Lemma spares_free p v r : Spares (__free p v r).
Proof. unfold __free. spares. Qed.
#[export] Hint Resolve spares_get_free spares_free : spares.

(** A frame from a list that is not empty. *)
Lemma take_frame_spec E F m :
  vm_inv E F m -> 0 < nfree m ->
  wp (dev_get_freefp (Some Ram)) (fun o m' => exists f, o = Some f /\ quiet (f :: E) F m m' /\ nfree m' = nfree m - 1) m.
Proof.
  intros HI Hn. pose proof (ram_get_spec E F m HI) as Hs. unfold wp, dev_get_freefp in *. rewrite on_dev_eq in *. unfold MEMPHY_get_freefp, nfree in *.
  cbn [dev_of] in *. destruct (free_fp_list (ram m)) as [|f l] eqn:Hl; [simpl in Hn; lia|]. destruct Hs as [HQ _].
  exists f. split; [done|]. split; [done|]. cbn [set_dev ram set_ram set_free free_fp_list length]. lia.
Qed.
