(* ===== verification/Parallel.v ===== *)
(** * Programs of memory calls in parallel ([src/libmem.c], [src/mm-vm.c], [src/mm64.c])

    The threads of [Locks] composed: a thread may go on after another, so that a
    process is a thread that makes its calls one after the other.  The slow path
    of ALLOC, a single step of [Locks.alloc_thread], is cut here at each call of a
    helper: the device under its own lock, a walk of the page tables, a change of
    a list.  Nothing of it holds [mmvm_lock], so the threads of other processes come
    in between.  A thread of this file run alone is still the call, and no
    execution of finitely many threads goes on for ever. *)

From S2P Require Import Prelude.
From S2P Require Import Word.
From S2P Require Import Paging.
From S2P Require Import Region.
From S2P Require Import Machine.
From S2P Require Import PageTable.
From S2P Require Import Swap.
From S2P Require Import Area.
From S2P Require Import Syscall.
From S2P Require Import Libmem.
From S2P Require Import Locks.

(** ** Composition *)

Section compose.
Context {S : Type}.

Fixpoint tbind {A B} (t : thread S A) (k : A -> thread S B) : thread S B :=
  match t with
  | Done a => k a
  | Lock t => Lock (tbind t k)
  | Unlock t => Unlock (tbind t k)
  | Act op f => Act op (fun b => tbind (f b) k)
  end.

Definition act {A} (op : M S A) : thread S A := Act op Done.

Lemma denote_tbind {A B} (t : thread S A) (k : A -> thread S B) s :
  denote (tbind t k) s = bind (denote t) (fun a => denote (k a)) s.
Proof.
  revert s. induction t as [a|t IH|t IH|C op f IH]; intros s; cbn [tbind denote]; [done|done|done|].
  rewrite bind_assoc. apply bind_eq. intros b s' _. apply IH.
Qed.
End compose.

Notation "'let^' p := t 'in' k" := (tbind t (fun p => k))
  (at level 10, p pattern, t at level 200, k at level 200) : c_scope.

(** ** The growth of an area *)

(** The loop of [alloc_pages_range]. *)
Fixpoint frames_thread (caller : Z) (d : option dev) (n : nat) (got : list Z) : thread machine (Z * list Z) :=
  match n with
  | O => Done (0, got)
  | S n' =>
    let^ f := act (dev_get_freefp d) in
    let^ f := (match f with Some fpn => Done (Some fpn) | None => act (swap_out_victim_page caller) end) in
    match f with
    | None => let^ _ := act (release_frame_list caller got) in Done (u64 (-3000), [])
    | Some fpn =>
      let^ ok := act malloc in
      if ok : bool then frames_thread caller d n' (got ++ [fpn])
      else
        let^ _ := act (dev_put_freefp d fpn) in
        let^ _ := act (release_frame_list caller got) in Done (u64 (-1), [])
    end
  end.

Definition pages_thread (caller req_pgnum : Z) : thread machine (Z * list Z) :=
  let^ k := act (get_krnl caller) in
  match k with
  | None => Done (u64 (-1), [])
  | Some k =>
    if negb (mram k) || bool_decide (req_pgnum < 0) then Done (u64 (-1), [])
    else frames_thread caller (k_mram k) (Z.to_nat req_pgnum) []
  end.

(** The two loops of [vmap_page_range]: the tables, then the entries. *)
Fixpoint tables_thread (caller pgn : Z) (l : list Z) : thread machine Z :=
  match l with
  | [] => Done 0
  | pgit :: l =>
    let^ pte := act (walk_pte caller (pgn_addr (u64 (pgn + pgit))) true) in
    if bool_decide (pte = None) then Done (-1) else tables_thread caller pgn l
  end.

Fixpoint map_thread (caller : Z) (d : option dev) (addr pgn pgit : Z) (n : nat) (frames : list Z) :
    thread machine (Z * Z) :=
  let stop s := let^ b := act (page_bytes pgit) in Done (s, u64 (addr + b)) in
  match n, frames with
  | S n', fpn :: next =>
    let g := u64 (pgn + pgit) in
    let^ r := act (pte_set_fpn caller g fpn) in
    if bool_decide (r <> 0) then let^ _ := act (release_frame_list caller frames) in stop (u64 (-1))
    else
      let^ r := act (enlist_pgn_node caller g) in
      if bool_decide (r <> 0) then
        let^ _ := act (pte_set_entry caller g 0) in
        let^ _ := act (dev_put_freefp d fpn) in
        let^ _ := act (release_frame_list caller next) in stop (u64 (-1))
      else map_thread caller d addr pgn (pgit + 1) n' next
  | _, _ => stop 0
  end.

Definition vmap_thread (caller addr pgnum : Z) (frames : list Z) : thread machine (Z * option (Z * Z)) :=
  let pgn := addr_pgn addr in
  let^ k := act (get_krnl caller) in
  match k with
  | Some k =>
    if bool_decide (mm k = None) || bool_decide (validate_page_range addr pgnum <> 0)
    then let^ _ := act (release_frame_list caller frames) in Done (u64 (-1), None)
    else
      let^ _ := act (page_bytes pgnum) in
      let^ r := tables_thread caller pgn (seqZ 0 pgnum) in
      if bool_decide (r <> 0)
      then let^ _ := act (release_frame_list caller frames) in Done (u64 (-1), Some (addr, addr))
      else
        let^ (s, e) := map_thread caller (k_mram k) addr pgn 0 (Z.to_nat pgnum) frames in
        Done (s, Some (addr, e))
  | None => let^ _ := act (release_frame_list caller frames) in Done (u64 (-1), None)
  end.

Definition map_ram_thread (caller mapstart incpgnum : Z) : thread machine (Z * option (Z * Z)) :=
  let^ (ret_alloc, frm_lst) := pages_thread caller incpgnum in
  if bool_decide (ret_alloc < 0) && bool_decide (ret_alloc <> u64 (-3000)) then Done (u64 (-1), None)
  else if bool_decide (ret_alloc = u64 (-3000)) then Done (u64 (-1), None)
  else
    let^ (s, rg) := vmap_thread caller mapstart incpgnum frm_lst in
    if bool_decide (s = u64 (-1)) then Done (u64 (-1), rg) else Done (0, rg).

Definition grow_thread (caller vmaid inc_sz : Z) : thread machine Z :=
  let^ ok := act malloc in
  if negb ok then Done (-1)
  else
    let inc_amt := PAGING64_PAGE_ALIGNSZ inc_sz in
    let incnumpage := i32 (inc_amt / PAGING64_PAGESZ) in
    let^ x := act (the_mm caller) in
    let^ cur := act (get_vma_by_num x vmaid) in
    match cur with
    | None => Done (-1)
    | Some cur_vma =>
      let^ v := act (the_vma caller cur_vma) in
      let old_end := sbrk v in
      let new_end := u64 (old_end + inc_amt) in
      let^ r := act (validate_overlap_vm_area caller vmaid old_end new_end) in
      if bool_decide (r < 0) then Done (-1)
      else
        let^ _ := act (upd_vma caller cur_vma (set_limits new_end)) in
        let^ (r, newrg) := map_ram_thread caller old_end incnumpage in
        if bool_decide (r < 0) then let^ _ := act (upd_vma caller cur_vma (set_limits old_end)) in Done (-1)
        else
          match newrg with
          | None => act ub
          | Some (s, e) =>
            let^ _ := act (upd_vma caller cur_vma (fun v =>
              set_freerg (snd (enlist_vm_rg_node (vm_freerg_list v) (mkRg 0 s e))) v)) in
            Done 0
          end
    end.

(** The system call with the operation that grows an area. *)
Definition memmap_thread (pid_ : Z) (regs : sc_regs) : thread machine (Z * sc_regs) :=
  let^ caller := act (m_find_proc pid_) in
  if bool_decide (caller = 0) then Done (-1, regs)
  else let^ r := grow_thread caller (i32 (a2 regs)) (a3 regs) in Done (if bool_decide (r < 0) then -1 else 0, regs).

(** ** ALLOC *)

Definition locked {A} (t : thread machine A) : thread machine A := Lock (let^ a := t in Unlock (Done a)).

Definition first_look (caller vmaid rgid size : Z) : thread machine (option (option Z)) :=
  let^ cur_vma := act (let* x := the_mm caller in get_vma_by_num x vmaid) in
  match cur_vma with
  | None => Done None
  | Some _ => let^ rg := act (take_region caller vmaid rgid size) in Done (Some rg)
  end.

Definition fine_alloc (caller vmaid rgid size : Z) : call_thread :=
  let^ x := act (get_mm caller) in
  match x with
  | None => Done (Value None)
  | Some _ =>
    if bool_decide (rgid < 0) || bool_decide (PAGING_MAX_SYMTBL_SZ <= rgid) || bool_decide (size = 0) then Done (Value None)
    else
      let^ o := locked (first_look caller vmaid rgid size) in
      match o with
      | None => Done (Value None)
      | Some (Some s) => Done (Value (Some s))
      | Some None =>
        let^ y := act (get_pcb caller) in
        let^ r := memmap_thread (pid y) (mkScRegs SYSMEM_INC_OP (u64 vmaid) (PAGING64_PAGE_ALIGNSZ size)) in
        locked (if bool_decide (fst r < 0) then Done (Value None)
                else let^ rg := act (take_region caller vmaid rgid size) in Done (Value rg))
      end
  end.

Definition fine_thread (c : call) : call_thread :=
  match c with CAlloc p v r n => fine_alloc p v r n | _ => thread_of c end.

(** A process: its calls one after the other, and their answers. *)
Fixpoint prog_thread (cs : list call) : thread machine (list answer) :=
  match cs with
  | [] => Done []
  | c :: cs => let^ a := fine_thread c in let^ l := prog_thread cs in Done (a :: l)
  end.
Fixpoint prog_of (cs : list call) : M machine (list answer) :=
  match cs with
  | [] => ret []
  | c :: cs => let* a := call_of c in let* l := prog_of cs in ret (a :: l)
  end.

(** ** A thread alone is the call *)

Lemma ret_bind {S A B} (a : A) (k : A -> M S B) s : bind (ret a) k s = k a s.
Proof. done. Qed.
Lemma denote_then {A B} (t : thread machine A) (k : A -> thread machine B) (c : M machine A) (h : A -> M machine B) m :
  denote t m = c m -> (forall a m', denote (k a) m' = h a m') -> denote (tbind t k) m = bind c h m.
Proof. intros Ht Hk. rewrite denote_tbind. unfold bind. rewrite Ht. destruct (c m); [apply Hk|done..]. Qed.

Lemma frames_denotes p d n : forall got m, denote (frames_thread p d n got) m = alloc_loop p d n got m.
Proof.
  induction n as [|n IH]; intros got m; [done|]. cbn [frames_thread alloc_loop tbind act denote]. apply bind_eq. intros f m1 _.
  destruct f as [f|]; cbn [denote act tbind].
  - rewrite ret_bind. apply bind_eq. intros [] m2 _; [apply IH|done].
  - apply bind_eq. intros [f|] m2 _; [|done]. cbn [denote tbind act]. apply bind_eq. intros [] m3 _; [apply IH|done].
Qed.

Lemma pages_denotes p n m : denote (pages_thread p n) m = alloc_pages_range p n m.
Proof.
  apply bind_eq. intros [k|] m1 _; [|done]. destruct (_ || _); [done|]. apply frames_denotes.
Qed.

Lemma tables_denotes p pgn l : forall m, denote (tables_thread p pgn l) m =
  for_each (fun pgit => let* pte := walk_pte p (pgn_addr (u64 (pgn + pgit))) true in
                        ret (if bool_decide (pte = None) then -1 else 0)) l m.
Proof.
  induction l as [|i l IH]; intros m; [done|]. cbn [tables_thread for_each tbind act denote]. rewrite bind_assoc. apply bind_eq.
  intros pte m1 _. unfold ret at 1, bind. case_bool_decide; [done|]. apply IH.
Qed.

Lemma map_denotes p d addr pgn n : forall pgit fs m,
  denote (map_thread p d addr pgn pgit n fs) m = map_loop p d addr pgn pgit n fs m.
Proof.
  induction n as [|n IH]; intros pgit fs m; [by destruct fs|]. destruct fs as [|f fs]; [done|].
  cbn [map_thread map_loop tbind act denote]. apply bind_eq. intros r m1 _. case_bool_decide; [done|]. cbn [tbind act denote].
  apply bind_eq. intros r2 m2 _. case_bool_decide; [done|]. apply IH.
Qed.

Lemma vmap_denotes p addr n fs m : denote (vmap_thread p addr n fs) m = vmap_page_range p addr n fs m.
Proof.
  apply bind_eq. intros [k|] m1 _; [|done]. cbn [tbind]. destruct (_ || _); [done|]. cbn [tbind act denote]. apply bind_eq.
  intros b m2 _. apply denote_then; [apply tables_denotes|]. intros r m3. case_bool_decide; [done|].
  apply denote_then; [apply map_denotes|]. by intros [s e] m4.
Qed.

Lemma map_ram_denotes p s n m : denote (map_ram_thread p s n) m = vm_map_ram p s n m.
Proof.
  apply denote_then; [apply pages_denotes|]. intros [r fs] m1. destruct (_ && _); [done|]. case_bool_decide; [done|].
  apply denote_then; [apply vmap_denotes|]. intros [q rg] m2. by case_bool_decide.
Qed.

Lemma grow_denotes p v sz m : denote (grow_thread p v sz) m = inc_vma_limit p v sz m.
Proof.
  apply bind_eq. intros [] m1 _; [|done]. cbn [tbind act denote negb]. apply bind_eq. intros x m2 _. cbn [tbind act denote].
  apply bind_eq. intros [i|] m3 _; [|done]. cbn [tbind act denote]. apply bind_eq. intros w m4 _. cbn [tbind act denote]. apply bind_eq.
  intros r m5 _. case_bool_decide; [done|]. cbn [tbind act denote]. apply bind_eq. intros [] m6 _.
  apply denote_then; [apply map_ram_denotes|]. intros [s rg] m7. case_bool_decide; [done|].
  destruct rg as [[a e]|]; done.
Qed.

Lemma memmap_denotes pid_ a2_ a3_ m :
  denote (memmap_thread pid_ (mkScRegs SYSMEM_INC_OP a2_ a3_)) m = _syscall true pid_ 17 (mkScRegs SYSMEM_INC_OP a2_ a3_) m.
Proof.
  unfold _syscall. rewrite (bool_decide_false (17 = 0)), (bool_decide_true (17 = 17)) by done. unfold __sys_memmap. cbn [a1 a2 a3].
  unfold SYSMEM_INC_OP. change (i32 2) with 2. apply bind_eq. intros c m1 _. cbn [negb orb]. case_bool_decide; [done|].
  unfold SYSMEM_MAP_OP. rewrite (bool_decide_false (2 = 1)), (bool_decide_true (2 = 2)) by done.
  apply denote_then; [apply grow_denotes|done].
Qed.

Lemma locked_is {A} (t : thread machine A) m : denote (locked t) m = denote t m.
Proof. unfold locked. cbn [denote]. rewrite denote_tbind. unfold bind. by destruct (denote t m). Qed.

Lemma first_look_denotes p v r n m :
  denote (first_look p v r n) m = (let* cur := (let* x := the_mm p in get_vma_by_num x v) in
    match cur with None => ret None | Some _ => let* rg := take_region p v r n in ret (Some rg) end) m.
Proof. apply bind_eq. by intros [i|] m1 _. Qed.

Lemma fine_alloc_denotes p v r n m : denote (fine_alloc p v r n) m = denote (alloc_thread p v r n) m.
Proof.
  apply bind_eq. intros [x|] m1 _; [|done]. cbn [tbind]. destruct (_ || _); [done|].
  etrans.
  { eapply denote_then; [|intros a m']. rewrite locked_is. apply first_look_denotes. reflexivity. }
  cbn [denote]. rewrite !bind_assoc. apply bind_eq. intros y m2 _. rewrite ?bind_assoc. apply bind_eq. intros [i|] m3 _; [|done].
  rewrite ?bind_assoc. cbn [denote]. apply bind_eq. intros [s|] m4 _; rewrite ret_bind; [done|]. cbn [tbind act denote].
  apply bind_eq. intros z m5 _. apply denote_then; [apply memmap_denotes|]. intros [q rg] m6. rewrite locked_is. cbn [fst denote].
  case_bool_decide; done.
Qed.

Lemma fine_denotes c m : denote (fine_thread c) m = call_of c m.
Proof.
  destruct c; [|apply free_denotes|apply read_denotes|apply write_denotes]. cbn [fine_thread]. rewrite fine_alloc_denotes. apply alloc_denotes.
Qed.

Lemma prog_denotes cs : forall m, denote (prog_thread cs) m = prog_of cs m.
Proof.
  induction cs as [|c cs IH]; intros m; [done|]. apply denote_then; [apply fine_denotes|]. intros a m1.
  apply denote_then; [apply IH|done].
Qed.

(** ** Executions end *)

Section ends.
Context {S A : Type}.

(** [t'] is the thread [t] after one of its steps, whatever that step found. *)
Definition after_step (t' t : thread S A) : Prop :=
  match t with
  | Done _ => False
  | Lock k | Unlock k => t' = k
  | Act op k => exists b, t' = k b
  end.
Definition list_step (l' l : list (thread S A)) : Prop :=
  exists i t t', l !! i = Some t /\ after_step t' t /\ l' = <[i := t']> l.

Lemma after_step_wf : well_founded after_step.
Proof.
  intros t. induction t as [a|k IH|k IH|B op k IH]; constructor; intros t' Ht'; unfold after_step in Ht'.
  - destruct Ht'.
  - rewrite Ht'. exact IH.
  - rewrite Ht'. exact IH.
  - destruct Ht' as [b ->]. apply IH.
Qed.

Lemma list_step_wf : well_founded list_step.
Proof.
  intros l. induction l as [|t l IHl].
  { constructor. intros l' (i & t & t' & Hi & _). rewrite lookup_nil in Hi. discriminate Hi. }
  revert l IHl. induction (after_step_wf t) as [t _ IHt]. intros l Hl. induction Hl as [l Hl IHl]. constructor.
  intros l' ([|i] & u & u' & Hu & Hs & ->); cbn [lookup list_lookup insert list_insert] in *.
  - injection Hu as ->. apply IHt; [exact Hs|]. constructor. exact Hl.
  - apply IHl. exists i, u, u'. auto.
Qed.

Lemma conc_step_list c c' : conc_step c c' -> list_step (threads c') (threads c).
Proof.
  intros [s ts i k Hi|s ts i k Hi|s o ts i B op k b s' Hi Hop]; cbn [threads]; (eexists i, _, _; split; [exact Hi|]; split; [|reflexivity]).
  - done.
  - done.
  - by exists b.
Qed.

Lemma conc_step_wf : well_founded (fun c' c : conc S A => conc_step c c').
Proof.
  intros c. remember (threads c) as l eqn:E. revert c E. induction (list_step_wf l) as [l _ IH]. intros c ->. constructor.
  intros c' Hs. eapply IH; [by apply conc_step_list|done].
Qed.
End ends.
