(* ===== verification/Rely.v ===== *)
(** * Processes in parallel keep their memories

    A rely-guarantee proof for the threads of [Parallel].  What a thread may rely
    on ([env]): the others leave the record and the bytes of its process alone, and
    its page table too while it holds [mmvm_lock].  What it guarantees ([guar]): it
    does the same to the others, and it evicts nobody unless it holds the lock.
    The ALLOCs can guarantee that because each thread has a share of the free
    frames ([need]) that covers what it will map; frames that a thread has taken
    and not mapped yet ([loc]) count as held in the invariant of the memory
    system.  [safe] is the assertion on a thread, [conc_ok] the invariant of a
    configuration. *)

From S2P Require Import Prelude.
From S2P Require Import Word.
From S2P Require Import Exclusive.
From S2P Require Import Paging.
From S2P Require Import Queue.
From S2P Require Import Sched.
From S2P Require Import MemPhy.
From S2P Require Import Region.
From S2P Require Import Machine.
From S2P Require Import PageTable.
From S2P Require Import Swap.
From S2P Require Import Vm.
From S2P Require Import Evict.
From S2P Require Import Access.
From S2P Require Import Mapping.
From S2P Require Import Area.
From S2P Require Import Syscall.
From S2P Require Import Libmem.
From S2P Require Import Heap.
From S2P Require Import Kernel.
From S2P Require Import Frame.
From S2P Require Import Isolation.
From S2P Require Import Room.
From S2P Require Import Locks.
From S2P Require Import Parallel.

(** ** Rely and guarantee *)

Definition env (p : Z) (held : bool) (m m' : machine) : Prop :=
  erase_fifo <$> procs m' !! p = erase_fifo <$> procs m !! p /\ bare <$> procs m' = bare <$> procs m /\
  sch m' = sch m /\ oom m' = oom m /\ (forall a, user_addr a -> vbyte m' p a = vbyte m p a) /\
  (held = true -> forall g, user_page g -> page_state m' p g = page_state m p g).

Definition guar (p : Z) (held : bool) (m m' : machine) : Prop :=
  lib_step p m m' /\ (forall q a, q <> p -> user_addr a -> vbyte m' q a = vbyte m q a) /\
  (held = false -> forall q g, q <> p -> user_page g -> page_state m' q g = page_state m q g).

Lemma env_refl p h m : env p h m m.
Proof. by split_and!. Qed.
Lemma env_trans p h m1 m2 m3 : env p h m1 m2 -> env p h m2 m3 -> env p h m1 m3.
Proof.
  intros (A1 & B1 & C1 & D1 & V1 & P1) (A2 & B2 & C2 & D2 & V2 & P2). split_and!; try congruence.
  - intros a Ha. by rewrite V2, V1.
  - intros H g Hg. by rewrite P2, P1.
Qed.
Lemma guar_env p q h h' m m' : q <> p -> h && h' = false -> guar p h m m' -> env q h' m m'.
Proof.
  intros Hq Hh (((_ & _ & Hs) & _ & Hb & Ho & He) & HB & HP). split_and!; try done; [by apply He|intros a; by apply HB|].
  intros ->. intros g. apply HP; [|done]. by destruct h.
Qed.

(** ** Safe threads *)

Section safe.
Context {A : Type} (p : Z) (Q : A -> bool -> Z -> list Z -> machine -> Prop).

Fixpoint safe (held : bool) (need : Z) (loc : list Z) (t : thread machine A) (m : machine) : Prop :=
  forall m', env p held m m' ->
  match t with
  | Done a => Q a held need loc m'
  | Lock k => held = false /\ safe true need loc k m'
  | Unlock k => held = true /\ safe false need loc k m'
  | Act op k => forall E, kinv (loc ++ E) [] m' -> need <= nfree m' ->
      wp op (fun b m'' => exists need' loc', 0 <= need' /\ nfree m' - need <= nfree m'' - need' /\
        vm_inv (loc' ++ E) [] m'' /\ guar p held m' m'' /\ safe held need' loc' (k b) m'') m'
  end.

Lemma safe_env h n l t m m' : safe h n l t m -> env p h m m' -> safe h n l t m'.
Proof. intros H He. destruct t; intros m2 H2; apply H; by eapply env_trans. Qed.
End safe.

Lemma safe_tbind {A B} p (Q : B -> bool -> Z -> list Z -> machine -> Prop) (t : thread machine A) (k : A -> thread machine B) :
  forall h n l m, safe p (fun a h n l m => safe p Q h n l (k a) m) h n l t m -> safe p Q h n l (tbind t k) m.
Proof.
  induction t as [a|t IH|t IH|C op f IH]; intros h n l m H.
  - by apply H, env_refl.
  - intros m' He. destruct (H m' He) as [H1 H2]. split; [done|]. by apply IH.
  - intros m' He. destruct (H m' He) as [H1 H2]. split; [done|]. by apply IH.
  - intros m' He E HI Hn. eapply wp_mono; [by apply (H m' He E)|]. intros b m'' (n' & l' & ? & ? & ? & ? & ?).
    exists n', l'. split_and!; try done. by apply IH.
Qed.

Lemma safe_mono {A} p (Q Q' : A -> bool -> Z -> list Z -> machine -> Prop) (t : thread machine A) :
  (forall a h n l m, Q a h n l m -> Q' a h n l m) -> forall h n l m, safe p Q h n l t m -> safe p Q' h n l t m.
Proof.
  intros HQ. induction t as [a|t IH|t IH|C op f IH]; intros h n l m H.
  - intros m' He. by apply HQ, H.
  - intros m' He. destruct (H m' He) as [H1 H2]. split; [done|]. by apply IH.
  - intros m' He. destruct (H m' He) as [H1 H2]. split; [done|]. by apply IH.
  - intros m' He E HI Hn. eapply wp_mono; [by apply (H m' He E)|]. intros b m'' (n' & l' & ? & ? & ? & ? & ?).
    exists n', l'. split_and!; try done. by apply IH.
Qed.

(** ** Configurations *)

(** What a thread owns: its process, its share of the free frames, its frames. *)
Record share := mkShare { s_proc : Z; s_need : Z; s_loc : list Z }.

Definition total (l : list Z) : Z := foldr Z.add 0 l.

Lemma total_insert l i a b : l !! i = Some a -> total (<[i := b]> l) = total l - a + b.
Proof.
  revert i. unfold total. induction l as [|c l IH]; intros [|i] Hi; try done; simpl in *; [simplify_eq; lia|].
  specialize (IH i Hi). lia.
Qed.
Lemma total_ge l i a : Forall (fun z => 0 <= z) l -> l !! i = Some a -> a <= total l.
Proof.
  intros HF. revert i. unfold total. induction HF as [|c l Hc HF IH]; intros [|i] Hi; try done; simpl in *.
  - simplify_eq. assert (0 <= foldr Z.add 0 l); [|lia]. clear IH. induction HF; simpl; lia.
  - specialize (IH i Hi). lia.
Qed.
Lemma concat_insert {X} (l : list (list X)) i a :
  l !! i = Some a -> exists r, concat l ≡ₚ a ++ r /\ forall b, concat (<[i := b]> l) ≡ₚ b ++ r.
Proof.
  intros Hi. pose proof (lookup_lt_Some _ _ _ Hi). exists (concat (take i l) ++ concat (drop (S i) l)).
  split; [rewrite <- (take_drop_middle _ _ _ Hi) at 1|intros b; rewrite (insert_take_drop l i b) by done];
    rewrite !concat_app; cbn [concat]; rewrite !app_assoc; f_equiv; apply Permutation_app_comm.
Qed.

Section configurations.
Context {A : Type} (Q : nat -> A -> machine -> Prop).

Definition final (i : nat) (a : A) (held : bool) (need : Z) (loc : list Z) (m : machine) : Prop :=
  held = false /\ loc = [] /\ Q i a m.

Record conc_ok (ss : list share) (c : conc machine A) : Prop := mkOk {
  co_inv : kinv (concat (s_loc <$> ss)) [] (shared c);
  co_need : Forall (fun z => 0 <= z) (s_need <$> ss) /\ total (s_need <$> ss) <= nfree (shared c);
  co_procs : NoDup (s_proc <$> ss);
  co_len : length (threads c) = length ss;
  co_owner : forall i, owner c = Some i -> is_Some (ss !! i);
  co_safe : forall i s t, ss !! i = Some s -> threads c !! i = Some t ->
    safe (s_proc s) (final i) (bool_decide (owner c = Some i)) (s_need s) (s_loc s) t (shared c);
}.

(** The other threads after a step that they may rely on. *)
Lemma others_safe ss m o ts i s t o' ts' m' :
  conc_ok ss (mkConc m o ts) -> ss !! i = Some s -> ts' = <[i := t]> ts ->
  (forall j s', j <> i -> ss !! j = Some s' -> bool_decide (o' = Some j) = bool_decide (o = Some j) /\
     env (s_proc s') (bool_decide (o = Some j)) m m') ->
  forall j s' t', j <> i -> ss !! j = Some s' -> ts' !! j = Some t' ->
    safe (s_proc s') (final j) (bool_decide (o' = Some j)) (s_need s') (s_loc s') t' m'.
Proof.
  intros HO Hi -> Henv j s' t' Hj Hs' Ht'. rewrite list_lookup_insert_ne in Ht' by done.
  destruct (Henv j s' Hj Hs') as [-> He]. eapply safe_env; [|exact He]. by apply (co_safe _ _ HO).
Qed.

Lemma conc_ok_act ss m o ts i B (op : M machine B) k b m' :
  conc_ok ss (mkConc m o ts) -> ts !! i = Some (Act op k) -> op m = Ret b m' ->
  exists ss', conc_ok ss' (mkConc m' o (<[i := k b]> ts)) /\ s_proc <$> ss' = s_proc <$> ss.
Proof.
  intros HO Hi Hop. pose proof (lookup_lt_Some _ _ _ Hi) as Hlt. pose proof (co_len _ _ HO) as Hlen. cbn [threads] in Hlen.
  destruct (lookup_lt_is_Some_2 ss i ltac:(lia)) as [s Hss]. pose proof (co_inv _ _ HO) as HI. cbn [shared] in HI.
  destruct (co_need _ _ HO) as [Hpos Hsum]. cbn [shared] in Hsum.
  assert (Hn : s_need s <= total (s_need <$> ss)) by (apply (total_ge _ i); [done|by rewrite list_lookup_fmap, Hss]).
  pose proof (co_safe _ _ HO i s _ Hss Hi m (env_refl _ _ _)) as Hact. cbn [owner shared] in Hact.
  set (h := bool_decide (o = Some i)) in *.
  destruct (concat_insert (s_loc <$> ss) i (s_loc s) ltac:(by rewrite list_lookup_fmap, Hss)) as (r & Hr & Hr').
  assert (HI1 : kinv (s_loc s ++ r) [] m) by (destruct HI; split; [by eapply inv_perm; [|symmetry]|done]).
  specialize (Hact r HI1 ltac:(lia)). unfold wp in Hact. rewrite Hop in Hact.
  destruct Hact as (n' & l' & Hn' & Hfr & HI2 & HG & Hk).
  assert (HI3 : kinv (l' ++ r) [] m') by (eapply kinv_keeps; [exact HI1|exact HI2|apply HG|apply HG]).
  exists (<[i := mkShare (s_proc s) n' l']> ss). rewrite !list_fmap_insert. cbn [s_proc s_need s_loc].
  assert (Hsame : <[i := s_proc s]> (s_proc <$> ss) = s_proc <$> ss) by (apply list_insert_id; by rewrite list_lookup_fmap, Hss).
  split; [|done]. split; cbn [shared owner threads]; rewrite ?list_fmap_insert; cbn [s_proc s_need s_loc].
  - destruct HI3 as [HI3 HD3]. split; [|done]. eapply inv_perm; [exact HI3|apply Hr'].
  - split; [by apply Forall_insert|]. rewrite (total_insert _ _ (s_need s)) by (by rewrite list_lookup_fmap, Hss). lia.
  - rewrite Hsame. apply HO.
  - by rewrite !length_insert.
  - intros j Hj. destruct (co_owner _ _ HO j Hj) as [s' Hs']. destruct (decide (j = i)) as [->|Hne].
    + rewrite list_lookup_insert_eq by lia. by eexists.
    + rewrite list_lookup_insert_ne by done. by exists s'.
  - intros j s' t' Hs' Ht'. destruct (decide (j = i)) as [->|Hj].
    + rewrite list_lookup_insert_eq in Hs' by lia. rewrite list_lookup_insert_eq in Ht' by done. simplify_eq. done.
    + rewrite list_lookup_insert_ne in Hs' by done.
      eapply (others_safe ss m o ts i s (k b) o); try done. intros j' s2 Hj' Hs2. split; [done|].
      apply (guar_env (s_proc s) _ h); [| |done].
      * intros Heq. apply Hj'. eapply (NoDup_lookup (s_proc <$> ss)); [apply HO|by rewrite list_lookup_fmap, Hs2|].
        rewrite list_lookup_fmap, Hss. cbn. by rewrite Heq.
      * unfold h. repeat case_bool_decide; try done. congruence.
Qed.

Lemma conc_ok_step ss c c' : conc_ok ss c -> conc_step c c' -> exists ss', conc_ok ss' c' /\ s_proc <$> ss' = s_proc <$> ss.
Proof.
  intros HO Hs. destruct Hs as [m ts i k Hi|m ts i k Hi|m o ts i B op k b m' Hi Hop].
  - pose proof (lookup_lt_Some _ _ _ Hi) as Hlt. pose proof (co_len _ _ HO) as Hlen. cbn [threads] in Hlen.
    destruct (lookup_lt_is_Some_2 ss i ltac:(lia)) as [s Hss]. exists ss. split; [|done].
    destruct (co_safe _ _ HO i s _ Hss Hi m (env_refl _ _ _)) as [_ Hk].
    split; cbn [shared owner threads]; try apply HO; [by rewrite length_insert|intros j [= <-]; by exists s|].
    intros j s' t' Hs' Ht'. destruct (decide (j = i)) as [->|Hj].
    + rewrite list_lookup_insert_eq in Ht' by done. simplify_eq. by rewrite bool_decide_true.
    + eapply (others_safe ss m None ts i s k (Some i)); try done. intros j' s2 Hj' _. rewrite !bool_decide_false by congruence.
      split; [done|apply env_refl].
  - pose proof (lookup_lt_Some _ _ _ Hi) as Hlt. pose proof (co_len _ _ HO) as Hlen. cbn [threads] in Hlen.
    destruct (lookup_lt_is_Some_2 ss i ltac:(lia)) as [s Hss]. exists ss. split; [|done].
    destruct (co_safe _ _ HO i s _ Hss Hi m (env_refl _ _ _)) as [_ Hk].
    split; cbn [shared owner threads]; try apply HO; [by rewrite length_insert|done|].
    intros j s' t' Hs' Ht'. destruct (decide (j = i)) as [->|Hj].
    + rewrite list_lookup_insert_eq in Ht' by done. simplify_eq. by rewrite bool_decide_false.
    + eapply (others_safe ss m (Some i) ts i s k None); try done. intros j' s2 Hj' _. rewrite !bool_decide_false by congruence.
      split; [done|apply env_refl].
  - by eapply conc_ok_act.
Qed.
Lemma conc_ok_reach ss c c' :
  conc_ok ss c -> rtc conc_step c c' -> exists ss', conc_ok ss' c' /\ s_proc <$> ss' = s_proc <$> ss.
Proof.
  intros HO Hr. revert ss HO. induction Hr as [c|c1 c2 c3 Hs _ IH]; intros ss HO; [by exists ss|].
  destruct (conc_ok_step ss c1 c2 HO Hs) as (ss2 & HO2 & E2). destruct (IH ss2 HO2) as (ss3 & HO3 & E3).
  exists ss3. split; [done|congruence].
Qed.

Definition is_done (t : thread machine A) : bool := match t with Done _ => true | _ => false end.

Lemma can_lock (c : conc machine A) i k : threads c !! i = Some (Lock k) -> owner c = None -> exists c', conc_step c c'.
Proof. destruct c as [m o ts]. cbn. intros Hi ->. eexists. by apply conc_lock. Qed.
Lemma can_unlock (c : conc machine A) i k : threads c !! i = Some (Unlock k) -> owner c = Some i -> exists c', conc_step c c'.
Proof. destruct c as [m o ts]. cbn. intros Hi ->. eexists. by apply conc_unlock. Qed.
Lemma can_act (c : conc machine A) i B (op : M machine B) k b m' :
  threads c !! i = Some (Act op k) -> op (shared c) = Ret b m' -> exists c', conc_step c c'.
Proof. destruct c as [m o ts]. cbn. intros Hi Hop. eexists. by eapply conc_act. Qed.

Section ok.
Context (ss : list share) (c : conc machine A) (HO : conc_ok ss c).

Lemma conc_ok_share i t : threads c !! i = Some t -> exists s, ss !! i = Some s.
Proof using HO.
  intros Hi. pose proof (lookup_lt_Some _ _ _ Hi). pose proof (co_len _ _ HO). apply lookup_lt_is_Some_2. lia.
Qed.

(** No step of a thread has undefined behaviour. *)
Lemma conc_ok_ret i B (op : M machine B) k : threads c !! i = Some (Act op k) -> exists b m', op (shared c) = Ret b m'.
Proof using HO.
  intros Hi. destruct (conc_ok_share i _ Hi) as [s Hs]. pose proof (co_safe _ _ HO i s _ Hs Hi _ (env_refl _ _ _)) as Hact.
  destruct (co_need _ _ HO) as [Hpos Hsum]. pose proof (co_inv _ _ HO) as [HI HD].
  destruct (concat_insert (s_loc <$> ss) i (s_loc s) ltac:(by rewrite list_lookup_fmap, Hs)) as (r & Hr & _).
  pose proof (total_ge _ i (s_need s) Hpos ltac:(by rewrite list_lookup_fmap, Hs)).
  specialize (Hact r ltac:(split; [by eapply inv_perm; [|symmetry]|done]) ltac:(lia)).
  apply wp_elim in Hact as (b & m' & Hret & _). by exists b, m'.
Qed.

Lemma conc_ok_final i a : threads c !! i = Some (Done a) -> Q i a (shared c) /\ exists s, ss !! i = Some s /\ s_loc s = [].
Proof using HO.
  intros Hi. destruct (conc_ok_share i _ Hi) as [s Hs]. destruct (co_safe _ _ HO i s _ Hs Hi _ (env_refl _ _ _)) as (_ & Hl & HQ).
  split; [done|]. by exists s.
Qed.

Lemma conc_ok_finished : (forall i t, threads c !! i = Some t -> exists a, t = Done a) -> kinv [] [] (shared c).
Proof using HO.
  intros Hd. pose proof (co_inv _ _ HO) as HI. replace (concat (s_loc <$> ss)) with (@nil Z) in HI; [done|].
  symmetry. apply concat_nil_Forall, Forall_fmap, Forall_lookup_2. intros i s Hs. pose proof (lookup_lt_Some _ _ _ Hs). pose proof (co_len _ _ HO).
  destruct (lookup_lt_is_Some_2 (threads c) i ltac:(lia)) as [t Ht]. destruct (Hd i t Ht) as [a ->].
  destruct (conc_ok_final i a Ht) as [_ (s' & Hs' & E)]. unfold compose. congruence.
Qed.

(** Unless all threads are done, one can take a step. *)
Lemma conc_ok_owner j : owner c = Some j -> exists c', conc_step c c'.
Proof using HO.
  intros Ho. destruct (co_owner _ _ HO j Ho) as [s Hs]. pose proof (lookup_lt_Some _ _ _ Hs). pose proof (co_len _ _ HO) as Hlen.
  destruct (lookup_lt_is_Some_2 (threads c) j ltac:(lia)) as [t Ht].
  pose proof (co_safe _ _ HO j s t Hs Ht) as Hsf. rewrite bool_decide_true in Hsf by done.
  destruct t as [a|k|k|B op k]; specialize (Hsf _ (env_refl _ _ _)); [by destruct Hsf|by destruct Hsf|by eapply can_unlock|].
  destruct (conc_ok_ret j B op k Ht) as (b & m' & Hop). by eapply can_act.
Qed.

Lemma conc_ok_progress : (exists c', conc_step c c') \/ forall i t, threads c !! i = Some t -> exists a, t = Done a.
Proof using HO.
  destruct (owner c) as [j|] eqn:Ho; [left; by eapply conc_ok_owner|].
  destruct (decide (Exists (fun t => is_done t = false) (threads c))) as [Hx|Hx].
  - left. apply Exists_exists in Hx as (t & [i Hi]%list_elem_of_lookup & Ht). destruct t as [a|k|k|B op k]; [done|by eapply can_lock| |].
    + exfalso. destruct (conc_ok_share i _ Hi) as [s Hs]. pose proof (co_safe _ _ HO i s _ Hs Hi _ (env_refl _ _ _)) as [Hf _].
      rewrite bool_decide_false in Hf; [done|]. by rewrite Ho.
    + destruct (conc_ok_ret i B op k Hi) as (b & m' & Hop). by eapply can_act.
  - right. intros i t Ht. destruct t as [a|k|k|B op k]; [by exists a|..]; exfalso; apply Hx, Exists_exists;
      (eexists; split; [by eapply list_elem_of_lookup_2|done]).
Qed.
End ok.
End configurations.
