(* ===== verification/Private.v ===== *)
(** * Private memories

    What a process that makes memory calls sees when others make theirs at the same
    time: the calls of [src/libmem.c] refine a memory of its own.  [spec] says what
    one call does to the regions and bytes of its process, [runs] a sequence of
    calls; neither mentions another process.  The threads of [Parallel] satisfy
    [Rely.safe], so that in every interleaving each process gets the answers and
    the memory of such a run. *)

From S2P Require Import Prelude.
From S2P Require Import Word.
From S2P Require Import Exclusive.
From S2P Require Import Paging.
From S2P Require Import Queue.
From S2P Require Import Sched.
From S2P Require Import MemPhy.
From S2P Require Import Region.
From S2P Require Import Machine.
From S2P Require Import PageTable.
From S2P Require Import Swap.
From S2P Require Import Vm.
From S2P Require Import Evict.
From S2P Require Import Access.
From S2P Require Import Mapping.
From S2P Require Import Area.
From S2P Require Import Syscall.
From S2P Require Import Libmem.
From S2P Require Import Heap.
From S2P Require Import Kernel.
From S2P Require Import Frame.
From S2P Require Import Isolation.
From S2P Require Import Room.
From S2P Require Import Locks.
From S2P Require Import Parallel.
From S2P Require Import Rely.

(** ** The state of one process *)

(** The memory map of [p] is [x], its page queue aside. *)
Definition like (m : machine) (p : Z) (x : mm_struct) : Prop :=
  exists k x', has_mm m p k x' /\ set_fifo_pgn x' [] = set_fifo_pgn x [].

(** The regions and the bytes of [p] are the same. *)
Definition same_view (p : Z) (m m' : machine) : Prop := env p false m m'.

(** A symbol of a process that uses no kernel memory. *)
Definition user_sym (v : vm_area_struct) (rg : vm_rg_struct) : Prop := free_rg rg \/ area_rg v rg.

Record own (p : Z) (x : mm_struct) (v : vm_area_struct) (m : machine) : Prop := mkOwn {
  ow_like : like m p x;
  ow_area : area_ok m p x v;
  ow_syms : Forall (user_sym v) (symrgtbl x);
  ow_find : findable m p;
  ow_oom : ~ may_oom m;
}.

(** ** What a call promises its process *)

(** The byte could not be brought in at some point of the call. *)
Definition unavailable (p : Z) (m : machine) (a : Z) : Prop := exists m1, same_view p m m1 /\ not_resident m1 p a.

Definition wrote (p a val : Z) (m m' : machine) : Prop :=
  erase_fifo <$> procs m' !! p = erase_fifo <$> procs m !! p /\
  forall a', user_addr a' -> vbyte m' p a' = if bool_decide (a' = a) then Some val else vbyte m p a'.

Definition fresh_region (p : Z) (x : mm_struct) (r : nat) (s size : Z) (m' : machine) : Prop :=
  forall b, s <= b < s + size -> user_addr b /\ vbyte m' p b <> None /\
    forall i rg, i <> r -> symrgtbl x !! i = Some rg -> ~ (rg_start rg <= b < rg_end rg).

Definition spec (p : Z) (c : call) (m : machine) (a : answer) (m' : machine) : Prop :=
  exists x x', like m p x /\ like m' p x' /\
  match c with
  | CRead _ r off => same_view p m m' /\ exists rg, symrgtbl x !! Z.to_nat r = Some rg /\
      ((exists b, a = Value (Some b) /\ (in_region off rg /\ user_addr (rg_start rg + off)) /\ vbyte m p (rg_start rg + off) = Some b) \/
       a = Value None /\ (in_region off rg -> unavailable p m (rg_start rg + off)))
  | CWrite _ _ r off val => exists rg, symrgtbl x !! Z.to_nat r = Some rg /\
      ((a = Status 0 /\ in_region off rg /\ wrote p (rg_start rg + off) val m m') \/
       (a = Status (-1) /\ same_view p m m' /\ (in_region off rg -> unavailable p m (rg_start rg + off))))
  | CAlloc _ _ r size => exists s, a = Value (Some s) /\
      symrgtbl x' = <[Z.to_nat r := mkRg 0 s (s + size)]> (symrgtbl x) /\
      (forall b, user_addr b -> vbyte m p b <> None -> vbyte m' p b = vbyte m p b) /\
      fresh_region p x (Z.to_nat r) s size m'
  | CFree _ _ r => exists rg, symrgtbl x !! Z.to_nat r = Some rg /\
      (forall b, user_addr b -> vbyte m' p b = vbyte m p b) /\
      ((a = Status (-1) /\ free_rg rg /\ symrgtbl x' = symrgtbl x) \/
       (a = Status 0 /\ rg_start rg < rg_end rg /\ symrgtbl x' = <[Z.to_nat r := mkRg (vmaid rg) 0 0]> (symrgtbl x)))
  end.

Inductive runs (p : Z) : list call -> machine -> list answer -> machine -> Prop :=
| runs_nil m m' : same_view p m m' -> runs p [] m [] m'
| runs_cons c cs m a m1 l m' : spec p c m a m1 -> runs p cs m1 l m' -> runs p (c :: cs) m (a :: l) m'.

(** The calls a process may make, and the frames they need. *)
Definition call_ok (p : Z) (c : call) : Prop :=
  match c with
  | CAlloc q v r size => q = p /\ v = 0 /\ 0 <= r < 30 /\ 0 < size < 2 ^ 31 - 8192
  | CFree q v r => q = p /\ v = 0 /\ 0 <= r < 30
  | CRead q r off => q = p /\ 0 <= r < 30 /\ is_u64 off
  | CWrite q v r off _ => q = p /\ v = 0 /\ 0 <= r < 30 /\ is_u64 off
  end.
Definition demand (c : call) : Z := match c with CAlloc _ _ _ size => pages_for size | _ => 0 end.
Definition demands (cs : list call) : Z := total (demand <$> cs).

Lemma demands_nonneg p cs : Forall (call_ok p) cs -> 0 <= demands cs.
Proof.
  unfold demands, total. induction 1 as [|c cs Hc _ IH]; cbn; [lia|]. assert (0 <= demand c); [|lia].
  destruct c as [q w r size|q w r|q r off|q w r off val]; cbn in *; try lia. destruct Hc as (_ & _ & _ & Hs). apply Z.lt_le_incl, (align_pages size). lia.
Qed.

(** ** Lemmas: views *)

Lemma same_view_sym p m m' : same_view p m m' -> same_view p m' m.
Proof. intros (E1 & E2 & E3 & E4 & E5 & _). split_and!; try done. intros a Ha. by rewrite E5. Qed.
Lemma env_view p h m m' : env p h m m' -> same_view p m m'.
Proof. by intros (E1 & E2 & E3 & E4 & E5 & _). Qed.
Lemma like_view p m m' x : same_view p m m' -> like m p x -> like m' p x.
Proof.
  intros (He & _) (k & y & Hp & E). destruct (erase_has_mm _ _ _ _ _ He Hp) as (k' & y' & Hp' & _ & E').
  exists k', y'. split; [done|congruence].
Qed.
Lemma findable_view p m m' : same_view p m m' -> findable m p -> findable m' p.
Proof.
  intros (_ & Hb & Hs & _) Hf. unfold findable in *. rewrite Hs, (bare_pid m m' p Hb). rewrite <- Hf at 2.
  apply find_proc_from_ext. intros q. by apply bare_pid.
Qed.
Lemma own_view p x v m m' : same_view p m m' -> own p x v m -> own p x v m'.
Proof.
  intros He [H1 H2 H3 H4 H5]. split; [by eapply like_view| |done|by eapply findable_view|].
  - eapply area_ok_same; [exact H2|done|done|]. apply He.
  - intros [n Hn]. apply H5. exists n. destruct He as (_ & _ & _ & Ho & _). by rewrite <- Ho.
Qed.

(** The memory map itself. *)
Lemma own_mm p x v m : own p x v m -> exists k x', has_mm m p k x' /\ area_ok m p x' v /\
  (symrgtbl x' = symrgtbl x /\ mmap x' = mmap x) /\ set_fifo_pgn x' [] = set_fifo_pgn x [].
Proof.
  intros [(k & x' & Hp & E) HA _ _ _]. assert (Es : symrgtbl x' = symrgtbl x /\ mmap x' = mmap x).
  { split; [by apply (f_equal symrgtbl) in E|by apply (f_equal mmap) in E]. }
  exists k, x'. split_and!; try done; try apply Es. eapply area_ok_same; [exact HA|apply Es..|done].
Qed.
Lemma own_valid p x v m : own p x v m -> valid m p.
Proof. intros (k & x' & Hp & _)%own_mm. by exists k, x'. Qed.

Lemma unavailable_view p m m' a : same_view p m m' -> unavailable p m' a -> unavailable p m a.
Proof. intros He (m1 & H1 & H2). exists m1. split; [by eapply env_trans|done]. Qed.

(** A promise depends on the views only. *)
Lemma spec_view p c m0 m a m' m2 : same_view p m0 m -> same_view p m' m2 -> spec p c m a m' -> spec p c m0 a m2.
Proof.
  intros He1 He2 (x & x' & Hx & Hx' & H). exists x, x'. split; [by eapply like_view; [apply same_view_sym|]|]. split; [by eapply like_view|].
  assert (B1 : forall b, user_addr b -> vbyte m p b = vbyte m0 p b) by apply He1.
  assert (B2 : forall b, user_addr b -> vbyte m2 p b = vbyte m' p b) by apply He2.
  destruct c as [q v r size|q v r|q r off|q v r off val].
  - destruct H as (s & Ha & Es & Hb & Hf). exists s. split_and!; [done|done| |].
    + intros b Hu. rewrite B2, <- B1 by done. by apply Hb.
    + intros b Hb'. destruct (Hf b Hb') as (Hu & Hn & Hd). by rewrite B2.
  - destruct H as (rg & Hr & Hb & H). exists rg. split_and!; [done| |done]. intros b Hu. rewrite B2, <- B1 by done. by apply Hb.
  - destruct H as (He & rg & Hr & H). split; [eapply env_trans; [exact He1|]; by eapply env_trans|]. exists rg. split; [done|].
    destruct H as [(b & Ha & Hin & Hb)|(Ha & Hn)]; [left|right].
    + exists b. split_and!; try apply Hin; [done|]. by rewrite <- B1 by apply Hin.
    + split; [done|]. intros Hin. by eapply unavailable_view, Hn.
  - destruct H as (rg & Hr & H). exists rg. split; [done|]. destruct H as [(Ha & Hin & Hw & Hb)|(Ha & He & Hn)]; [left|right].
    + split; [done|]. split; [done|]. split.
      * destruct He1 as (E1 & _), He2 as (E2 & _). congruence.
      * intros a' Hu. rewrite B2, Hb, B1 by done. done.
    + split_and!; [done|eapply env_trans; [exact He1|]; by eapply env_trans|]. intros Hin. by eapply unavailable_view, Hn.
Qed.

(** ** Rules for steps *)

Section steps.
Context {A : Type} (p : Z) (Q : A -> bool -> Z -> list Z -> machine -> Prop).

(** A step that takes no frame; it may give some of the thread's away. *)
Lemma safe_gives {B} (op : M machine B) (k : B -> thread machine A) h n l l' m :
  Spares op -> 0 <= n ->
  (forall m' E, env p h m m' -> vm_inv (l ++ E) [] m' ->
     wp op (fun b m'' => vm_inv (l' ++ E) [] m'' /\ guar p h m' m'' /\ safe p Q h n l' (k b) m'') m') ->
  safe p Q h n l (Act op k) m.
Proof.
  intros Hs Hn H m' He E [HI _] _. specialize (H m' E He HI). apply wp_elim in H as (b & m'' & Hop & H1 & H2 & H3).
  eapply wp_eq; [exact Hop|]. exists n, l'. split_and!; try done. pose proof (Hs _ _ _ Hop). lia.
Qed.
Lemma safe_spares {B} (op : M machine B) (k : B -> thread machine A) h n l m :
  Spares op -> 0 <= n ->
  (forall m' E, env p h m m' -> vm_inv (l ++ E) [] m' ->
     wp op (fun b m'' => vm_inv (l ++ E) [] m'' /\ guar p h m' m'' /\ safe p Q h n l (k b) m'') m') ->
  safe p Q h n l (Act op k) m.
Proof. apply safe_gives. Qed.

(** A step that changes nothing. *)
Lemma guar_refl h m : guar p h m m.
Proof. split; [apply keeps_procs_lib; [apply (keeps_refl m)|apply (keeps_refl m)]|done]. Qed.
Lemma safe_read {B} (op : M machine B) (k : B -> thread machine A) h n l m :
  0 <= n -> (forall m' E, env p h m m' -> vm_inv (l ++ E) [] m' -> exists b, op m' = Ret b m' /\ safe p Q h n l (k b) m') ->
  safe p Q h n l (Act op k) m.
Proof.
  intros Hn H m' He E [HI _] Hf. destruct (H m' E He HI) as (b & Hop & Hk). eapply wp_eq; [exact Hop|].
  exists n, l. split; [done|]. split; [done|]. split; [done|]. split; [apply guar_refl|done].
Qed.
End steps.

(** ** Guarantees *)

Lemma keeps_guar p m m' : keeps m m' -> guar p true m m'.
Proof. intros (HP & HK & HB). split; [by apply keeps_procs_lib|]. split; [intros; by apply HB|done]. Qed.
Lemma quiet_guar p h E F m m' : quiet E F m m' -> guar p h m m'.
Proof. intros (_ & HK & HS). destruct (keeps_guar p m m' HK) as (H1 & H2 & _). split; [done|]. split; [done|]. intros; apply HS. Qed.
Lemma range_guar p h E F lo hi m m' : range_step E F p lo hi m m' -> guar p h m m'.
Proof.
  intros (_ & HP & HK & HS & HB). split; [by apply keeps_procs_lib|]. split.
  - intros q a Hq Ha. apply HB; [done|]. by intros [-> _].
  - intros _ q g Hq Hg. apply HS; [done|]. by intros [-> _].
Qed.

Lemma upd_mm_guar h E F m p k x f :
  vm_inv E F m -> has_mm m p k x -> pgd (f x) = pgd x -> fifo_pgn (f x) = fifo_pgn x ->
  wp (upd_mm p f) (fun _ m' => vm_inv E F m' /\ (exists k', has_mm m' p k' (f x)) /\ guar p h m m' /\ keeps_bytes m m') m.
Proof.
  intros HI Hp E1 E2. eapply wp_mono; [apply wp_and; [by eapply upd_mm_lib|by eapply upd_mm_spec]|].
  intros [] m' [(HI' & Hp' & HL & HB & _) (_ & _ & _ & _ & _ & Hps & _)]. split; [done|]. split; [done|]. split; [|done]. split; [done|]. split; [intros; by apply HB|intros; apply Hps].
Qed.

(** ** READ, WRITE and FREE *)

Definition call_post (p : Z) (c : call) (m : machine) (n : Z) (a : answer) (h : bool) (n' : Z) (l : list Z) (m' : machine) : Prop :=
  h = false /\ l = [] /\ 0 <= n' /\ n - demand c <= n' /\
  exists x' v', own p x' v' m' /\ sbrk v' + n' * 4096 <= 2 ^ 56 /\ spec p c m a m'.

Section finish.
Context (p : Z) (c : call) (m : machine) (n : Z) (a : answer) (n' : Z) (x' : mm_struct) (v' : vm_area_struct) (m' : machine).
Context (Hn : 0 <= n') (Hd : n - demand c <= n') (Ho : own p x' v' m') (Hb : sbrk v' + n' * 4096 <= 2 ^ 56) (Hs : spec p c m a m').

Lemma finish_done : safe p (call_post p c m n) false n' [] (Done a) m'.
Proof using All.
  intros m2 He%env_view. split_and!; try done. exists x', v'. split; [by eapply own_view|]. split; [done|].
  eapply spec_view; [apply env_refl|exact He|exact Hs].
Qed.
Lemma finish_unlock : safe p (call_post p c m n) true n' [] (Unlock (Done a)) m'.
Proof using All.
  intros m2 He. split; [done|]. eapply safe_env; [exact finish_done|]. by eapply env_view.
Qed.
End finish.

Section access.
Context (p : Z) (x : mm_struct) (v : vm_area_struct) (r off n : Z) (rg : vm_rg_struct) (m : machine).
Context (Hr : 0 <= r < 30) (Hoff : is_u64 off) (Hn : 0 <= n) (Ho : own p x v m) (Hb : sbrk v + n * 4096 <= 2 ^ 56).
Context (Hrg : symrgtbl x !! Z.to_nat r = Some rg).

Lemma rg_is_ok : rg_ok rg.
Proof using Ho Hrg. destruct (ao_syms _ _ _ _ (ow_area _ _ _ _ Ho)) as [_ H]. by eapply Forall_lookup_1. Qed.

(** The address that READ and WRITE compute. *)
Definition region_addr : option Z :=
  if bool_decide (rg_start rg = rg_end rg) then None else access_addr rg off.
Lemma region_addr_exact : region_addr = if bool_decide (in_region off rg) then Some (rg_start rg + off) else None.
Proof using Ho Hrg Hoff.
  unfold region_addr. rewrite access_addr_exact by (done || apply rg_is_ok). fold (in_region off rg).
  case_bool_decide as He; [|done]. rewrite bool_decide_false; [done|]. intros [[? _] _]. lia.
Qed.
Lemma read_addr_at m1 : same_view p m m1 -> read_addr p r off m1 = Ret region_addr m1.
Proof using Ho Hr Hrg.
  intros He. destruct (own_mm p x v m1 (own_view _ _ _ _ _ He Ho)) as (k & x1 & Hp & _ & [Es _] & _).
  unfold read_addr, bind. pose proof Hp as (Hp0 & Hk & Hx). rewrite (get_krnl_ok m1 p k) by done. rewrite Hx.
  unfold get_symrg_byid, PAGING_MAX_SYMTBL_SZ. rewrite !bool_decide_false by lia. cbn [orb]. by rewrite Es, Hrg.
Qed.
Lemma write_addr_at m1 : same_view p m m1 -> write_addr p 0 r off m1 = Ret region_addr m1.
Proof using Ho Hr Hrg.
  intros He. destruct (own_mm p x v m1 (own_view _ _ _ _ _ He Ho)) as (k & x1 & Hp & HA & [Es _] & _).
  unfold write_addr, bind. pose proof Hp as (Hp0 & Hk & Hx). rewrite (get_krnl_ok m1 p k) by done. rewrite Hx.
  rewrite (get_vma_area m1 p x1 v) by done. unfold get_symrg_byid, PAGING_MAX_SYMTBL_SZ. rewrite !bool_decide_false by lia.
  cbn [orb]. by rewrite Es, Hrg.
Qed.

(** The page of the byte, found with the lock held. *)
Lemma getpage_safe {A} (Q : A -> bool -> Z -> list Z -> machine -> Prop) (k : option Z -> thread machine A) m1 :
  same_view p m m1 -> in_region off rg ->
  (forall m2 o, same_view p m m2 ->
     match o with
     | Some f => page_state m2 p (addr_pgn (rg_start rg + off)) = Resident f
     | None => unavailable p m (rg_start rg + off)
     end -> safe p Q true n [] (k o) m2) ->
  safe p Q true n [] (Act (pg_getpage (addr_pgn (rg_start rg + off)) p) k) m1.
Proof using All.
  intros He1 Hin Hk. pose proof (in_region_user off rg rg_is_ok Hoff Hin) as Hu.
  destruct (user_addr_split _ Hu) as (Hg & _). apply safe_spares; [eauto with spares|done|]. intros m2 E He2 HI.
  assert (He : same_view p m m2) by (eapply env_trans; [exact He1|]; by eapply env_view).
  eapply wp_mono; [apply (pg_getpage_spec _ _ m2 p _ HI); [by eapply own_valid, own_view|done]|].
  intros o m3 (HI3 & HK & Hst & _). split; [done|]. split; [by apply keeps_guar|]. apply Hk.
  - eapply env_trans; [exact He|]. destruct (keeps_procs_lib 0 m2 m3 ltac:(apply HK) ltac:(apply HK)) as (_ & _ & Hbare & _).
    destruct HK as ((HP & Hsch & Hoom & _) & _ & HB). split_and!; try done; [|intros a; by apply HB].
    apply (f_equal (lookup p)) in HP. by rewrite !lookup_fmap in HP.
  - destruct o as [f|]; [done|]. exists m2. split; [done|]. done.
Qed.

(** The byte of the page, while the page stays where it is. *)
Lemma phys_at f : in_region off rg ->
  let a := rg_start rg + off in phys f a = u64 (f * PAGING64_PAGESZ + a mod PAGING64_PAGESZ) /\ 0 <= a mod PAGING64_PAGESZ < PAGING64_PAGESZ.
Proof using Ho Hrg Hoff.
  intros Hin a. pose proof (in_region_user off rg rg_is_ok Hoff Hin) as Hu. destruct (user_addr_split _ Hu) as (_ & Hl & Hi).
  unfold phys. fold a in Hl |- *. by rewrite Hl.
Qed.

Lemma read_byte_at E f m1 :
  let a := rg_start rg + off in vm_inv E [] m1 -> same_view p m m1 -> in_region off rg -> page_state m1 p (addr_pgn a) = Resident f ->
  exists b, (let* d := caller_mram p in dev_read d (phys f a)) m1 = Ret (Some b) m1 /\ vbyte m p a = Some b.
Proof using All.
  intros a HI He Hin Hst. pose proof (in_region_user off rg rg_is_ok Hoff Hin) as Hu. destruct (user_addr_split _ Hu) as (Hg & _).
  destruct (phys_at f Hin) as [Hph Hi]. pose proof (resident_range _ _ _ _ _ _ HI Hg Hst) as Hf.
  destruct (frame_byte_range (ram m1) f _ (vs_ram _ (vi_shape _ _ _ HI)) Hf Hi) as [Hrange Hu64].
  eexists. unfold bind. rewrite (caller_mram_ok E [] m1 p HI) by (by eapply own_valid, own_view). fold a in Hph, Hrange, Hu64.
  rewrite Hph, Hu64. rewrite (dev_read_ok m1 Ram) by (done || apply (vi_shape _ _ _ HI)). split; [done|].
  destruct He as (_ & _ & _ & _ & HB & _). rewrite <- HB by done. unfold vbyte. by rewrite Hst.
Qed.

Lemma read_safe : safe p (call_post p (CRead p r off) m n) false n [] (read_thread p r off) m.
Proof using All.
  assert (Hfin : forall a m1, same_view p m m1 ->
    ((exists b, a = Value (Some b) /\ (in_region off rg /\ user_addr (rg_start rg + off)) /\ vbyte m p (rg_start rg + off) = Some b) \/
       a = Value None /\ (in_region off rg -> unavailable p m (rg_start rg + off))) ->
    safe p (call_post p (CRead p r off) m n) true n [] (Unlock (Done a)) m1).
  { intros a m1 He Ha. eapply (finish_unlock p _ m n a n x v m1 Hn); [simpl; lia|by eapply own_view|done|].
    exists x, x. split; [apply Ho|]. split; [by eapply like_view, Ho|]. split; [done|]. by exists rg. }
  intros m0 He0. split; [done|]. apply safe_read; [done|]. intros m1 E He1 HI1.
  assert (He : same_view p m m1) by (eapply env_trans; [exact He0|]; by eapply env_view).
  eexists. split; [by apply read_addr_at|]. rewrite region_addr_exact. case_bool_decide as Hin.
  2:{ apply Hfin; [done|]. right. split; [done|]. intros H. by destruct Hin. }
  apply getpage_safe; [done|done|]. intros m2 [f|] He2 Hst; [|apply Hfin; [done|]; right; by split].
  apply safe_read; [done|]. intros m3 E' He3 HI3.
  assert (He3' : same_view p m m3) by (eapply env_trans; [exact He2|]; by eapply env_view).
  pose proof (in_region_user off rg rg_is_ok Hoff Hin) as Hu.
  destruct (read_byte_at _ f m3 HI3 He3' Hin) as (b & Hrd & Hv).
  { destruct He3 as (_ & _ & _ & _ & _ & Hps). rewrite Hps; [done|done|]. by destruct (user_addr_split _ Hu). }
  exists (Some b). split; [exact Hrd|]. apply Hfin; [done|]. left. by exists b.
Qed.

Lemma write_byte_at E f val m1 :
  let a := rg_start rg + off in vm_inv E [] m1 -> same_view p m m1 -> in_region off rg -> page_state m1 p (addr_pgn a) = Resident f ->
  wp (let* d := caller_mram p in dev_write d (phys f a) val) (fun s m2 => s = 0 /\ vm_inv E [] m2 /\ stored m1 m2 p a val) m1.
Proof using All.
  intros a HI He Hin Hst. pose proof (in_region_user off rg rg_is_ok Hoff Hin) as Hu. destruct (user_addr_split _ Hu) as (Hg & _).
  destruct (phys_at f Hin) as [Hph Hi]. pose proof (resident_range _ _ _ _ _ _ HI Hg Hst) as Hf.
  destruct (frame_byte_range (ram m1) f _ (vs_ram _ (vi_shape _ _ _ HI)) Hf Hi) as [Hrange Hu64]. fold a in Hph, Hrange, Hu64, Hi.
  apply wp_bind. eapply wp_eq; [eapply caller_mram_ok; [exact HI|by eapply own_valid, own_view]|]. rewrite Hph, Hu64.
  eapply wp_eq; [apply (dev_write_ok m1 Ram); [apply (vi_shape _ _ _ HI)|done]|].
  destruct (byte_written E [] m1 p (addr_pgn a) f _ val HI Hg Hst Hi) as (HI2 & HP2 & HK2 & Hps2 & Hb2).
  split; [done|]. split; [done|]. split; [done|]. split; [done|]. intros q b Hub. destruct (user_addr_split b Hub) as (Hgb & _ & Hib).
  unfold vbyte at 1. rewrite Hps2, Hb2 by done. repeat case_bool_decide; try done; exfalso.
  - destruct H as (-> & E1 & E2). apply H0. split; [done|]. by apply same_addr.
  - naive_solver.
Qed.

Lemma write_safe val : safe p (call_post p (CWrite p 0 r off val) m n) false n [] (write_thread p 0 r off val) m.
Proof using All.
  assert (Hfail : forall m1, same_view p m m1 -> (in_region off rg -> unavailable p m (rg_start rg + off)) ->
    safe p (call_post p (CWrite p 0 r off val) m n) true n [] (Unlock (Done (Status (-1)))) m1).
  { intros m1 He Hun. eapply (finish_unlock p _ m n _ n x v m1 Hn); [simpl; lia|by eapply own_view|done|].
    exists x, x. split; [apply Ho|]. split; [by eapply like_view, Ho|]. exists rg. split; [done|]. by right. }
  intros m0 He0. split; [done|]. apply safe_read; [done|]. intros m1 E He1 HI1.
  assert (He : same_view p m m1) by (eapply env_trans; [exact He0|]; by eapply env_view).
  eexists. split; [by apply write_addr_at|]. rewrite region_addr_exact. case_bool_decide as Hin.
  2:{ apply Hfail; [done|]. intros H. by destruct Hin. }
  apply getpage_safe; [done|done|]. intros m2 [f|] He2 Hst; [|by apply Hfail].
  apply safe_spares; [spares|done|]. intros m3 E' He3 HI3.
  assert (He3' : same_view p m m3) by (eapply env_trans; [exact He2|]; by eapply env_view).
  pose proof (in_region_user off rg rg_is_ok Hoff Hin) as Hu.
  eapply wp_mono; [apply (write_byte_at _ f val m3 HI3 He3' Hin)|].
  { destruct He3 as (_ & _ & _ & _ & _ & Hps). rewrite Hps; [done|done|]. by destruct (user_addr_split _ Hu). }
  intros s m4 (-> & HI4 & HP4 & HK4 & HB4). split; [done|]. split.
  { split; [by apply keeps_procs_lib|]. split; [|done]. intros q b Hq Hub. rewrite HB4 by done. rewrite bool_decide_false; [done|]. by intros [-> _]. }
  rewrite (bool_decide_false (0 < 0)) by lia. pose proof (own_view _ _ _ _ _ He3' Ho) as Ho3.
  assert (Hbytes : forall b, user_addr b -> vbyte m4 p b = if bool_decide (b = rg_start rg + off) then Some val else vbyte m p b).
  { intros b Hub. rewrite HB4 by done. destruct He3' as (_ & _ & _ & _ & HB & _). rewrite HB by done.
    repeat case_bool_decide; naive_solver. }
  assert (Herase : erase_fifo <$> procs m4 !! p = erase_fifo <$> procs m3 !! p).
  { destruct HP4 as (HP4 & _). apply (f_equal (lookup p)) in HP4. by rewrite !lookup_fmap in HP4. }
  pose proof Ho3 as [(k3 & x3 & Hp3 & Ex) HA3 HS3 HF3 HN3]. destruct (erase_has_mm _ _ _ _ _ Herase Hp3) as (k4 & x4 & Hp4 & _ & Ex4).
  assert (Hlike4 : like m4 p x) by (exists k4, x4; split; [done|congruence]).
  pose proof (keeps_procs_lib p m3 m4 HP4 HK4) as HL4.
  eapply (finish_unlock p _ m n _ n x v m4 Hn); [simpl; lia| |done|].
  - split; [done| |done|by eapply findable_lib|].
    + eapply area_ok_mapped; [exact HA3|done|done|]. intros b Hub. rewrite Hbytes by done. destruct He3' as (_ & _ & _ & _ & HB & _).
      rewrite HB by done. case_bool_decide as Hbb; [|done]. subst b.
      destruct (region_byte m p x v _ rg (rg_start rg + off) (ow_area _ _ _ _ Ho) Hrg) as [Hm _]; [|done|].
      * destruct Hin. unfold is_u64 in Hoff. lia.
      * by split.
    + intros Hm. by apply HN3, (lib_step_mapped p m3 m4).
  - exists x, x. split; [apply Ho|]. split; [done|]. exists rg. split; [done|]. left. split; [done|]. split; [done|]. split; [|done].
    destruct He3' as (E3 & _). congruence.
Qed.
End access.

Section release.
Context (p : Z) (x : mm_struct) (v : vm_area_struct) (r n : Z) (rg : vm_rg_struct) (m : machine).
Context (Hr : 0 <= r < 30) (Hn : 0 <= n) (Ho : own p x v m) (Hb : sbrk v + n * 4096 <= 2 ^ 56).
Context (Hrg : symrgtbl x !! Z.to_nat r = Some rg).

Lemma free_refused_at m1 : same_view p m m1 -> free_rg rg -> __free p 0 r m1 = Ret (-1) m1.
Proof using Ho Hr Hrg.
  intros He [Hs0 He0]. destruct (own_mm p x v m1 (own_view _ _ _ _ _ He Ho)) as (k & x1 & Hp & _ & [Es _] & _).
  unfold __free, bind. rewrite (get_mm_ok m1 p k x1) by done. unfold get_symrg_byid, PAGING_MAX_SYMTBL_SZ.
  rewrite !bool_decide_false by lia. cbn [orb]. rewrite Es, Hrg, Hs0, He0. done.
Qed.

Lemma free_at E m1 : vm_inv E [] m1 -> same_view p m m1 -> area_rg v rg ->
  wp (__free p 0 r) (fun s m2 => s = 0 /\ vm_inv E [] m2 /\ guar p true m1 m2 /\
    exists x' v', own p x' v' m2 /\ sbrk v' = sbrk v /\ symrgtbl x' = <[Z.to_nat r := mkRg (vmaid rg) 0 0]> (symrgtbl x) /\
      forall b, user_addr b -> vbyte m2 p b = vbyte m1 p b) m1.
Proof using Ho Hr Hrg.
  intros HI He [Hlt Hle]. pose proof (own_view _ _ _ _ _ He Ho) as Ho1.
  destruct (own_mm p x v m1 Ho1) as (k & x1 & Hp & HA & [Es Em] & Ex). rewrite <- Es in Hrg.
  pose proof (free_spec E [] m1 p k x1 v r rg HI Hp HA (ow_oom _ _ _ _ Ho1) Hr Hrg Hlt Hle) as Hf. rewrite i32_small in Hf by lia.
  eapply wp_mono; [exact Hf|]. intros s m2 (-> & HI2 & HL & HB & k2 & x2 & l & Hp2 & HA2 & Es2 & _). split; [done|]. split; [done|]. split.
  { split; [done|]. split; [intros; by apply HB|done]. }
  exists x2, (set_freerg l v). split_and!; [|done|by rewrite Es2, Es|intros; by apply HB]. split.
  - by exists k2, x2.
  - done.
  - rewrite Es2, Es. apply Forall_insert; [|left; by split]. exact (ow_syms _ _ _ _ Ho).
  - by eapply findable_lib, Ho1.
  - intros Hm. by apply (ow_oom _ _ _ _ Ho1), (lib_step_mapped p m1 m2).
Qed.

Lemma free_safe : safe p (call_post p (CFree p 0 r) m n) false n [] (free_thread p 0 r) m.
Proof using All.
  apply safe_read; [done|]. intros m1 E He1 HI1. destruct (own_mm p x v m1 (own_view _ _ _ _ _ (env_view _ _ _ _ He1) Ho)) as (k & x1 & Hp & _).
  exists (Some x1). split; [by eapply get_mm_ok|]. intros m2 He2. split; [done|].
  assert (He : same_view p m m2) by (eapply env_trans; [exact He1|exact He2]).
  destruct (Forall_lookup_1 _ _ _ _ (ow_syms _ _ _ _ Ho) Hrg) as [Hfr|Har].
  - apply safe_read; [done|]. intros m3 E3 He3 HI3.
    assert (Hv3 : same_view p m m3) by (eapply env_trans; [exact He|]; by eapply env_view).
    exists (-1). split; [by apply free_refused_at|].
    eapply (finish_unlock p _ m n _ n x v m3 Hn); [simpl; lia|by eapply own_view|done|].
    exists x, x. split; [apply Ho|]. split; [by eapply like_view, Ho|]. exists rg. split; [done|]. split; [apply Hv3|]. by left.
  - apply safe_spares; [eauto with spares|done|]. intros m3 E3 He3 HI3.
    assert (Hv3 : same_view p m m3) by (eapply env_trans; [exact He|]; by eapply env_view).
    eapply wp_mono; [by apply (free_at _ m3 HI3)|]. intros s m4 (-> & HI4 & HG & x4 & v4 & Ho4 & Hbrk & Es4 & HB). split; [done|]. split; [done|].
    eapply (finish_unlock p _ m n _ n x4 v4 m4 Hn); [simpl; lia|done|by rewrite Hbrk|].
    exists x, x4. split; [apply Ho|]. split; [apply Ho4|]. exists rg. split; [done|]. split.
    + intros b Hu. rewrite HB by done. by apply Hv3.
    + right. split; [done|]. split; [apply Har|done].
Qed.
End release.
