(* ===== verification/Growth.v ===== *)
(** * ALLOC without the lock

    The slow path of [__alloc] beside other threads: [inc_vma_limit] takes frames,
    makes tables and maps pages while others run, and may come to its own page
    table between two steps of it.  [grown] is what the thread knows in the
    meantime: the break is moved, the pages below [lo] are mapped. *)

From S2P Require Import Prelude.
From S2P Require Import Word.
From S2P Require Import Exclusive.
From S2P Require Import Paging.
From S2P Require Import Queue.
From S2P Require Import Sched.
From S2P Require Import MemPhy.
From S2P Require Import Region.
From S2P Require Import Machine.
From S2P Require Import PageTable.
From S2P Require Import Swap.
From S2P Require Import Vm.
From S2P Require Import Evict.
From S2P Require Import Access.
From S2P Require Import Mapping.
From S2P Require Import Area.
From S2P Require Import Syscall.
From S2P Require Import Libmem.
From S2P Require Import Heap.
From S2P Require Import Kernel.
From S2P Require Import Frame.
From S2P Require Import Isolation.
From S2P Require Import Room.
From S2P Require Import Locks.
From S2P Require Import Parallel.
From S2P Require Import Rely.
From S2P Require Import Private.

Lemma quiet_view p E F m1 m2 : quiet E F m1 m2 -> same_view p m1 m2.
Proof.
  intros HQ. apply (quiet_guar 0 false) in HQ as HG. destruct HG as ((_ & _ & Hb & _) & _).
  destruct HQ as (_ & ((HP & Hs & Hoo & _) & _ & HB) & _). split_and!; try done; [|intros a; by apply HB].
  apply (f_equal (lookup p)) in HP. by rewrite !lookup_fmap in HP.
Qed.


Section growth.
Context (p : Z) (x : mm_struct) (v : vm_area_struct) (sz : Z) (m : machine).
Context (Ho : own p x v m) (Hsz : 0 < sz < 2 ^ 31 - 4096) (Hend : sbrk v + pages_for sz * 4096 <= 2 ^ 56).

Notation new_end := (sbrk v + pages_for sz * 4096).
Notation pgn0 := (addr_pgn (sbrk v)).

Record grown (lo : Z) (m1 : machine) : Prop := mkGrown {
  gr_like : like m1 p (set_mmap x [set_limits new_end v]);
  gr_out : forall a, user_addr a -> ~ (sbrk v <= a < lo) -> vbyte m1 p a = vbyte m p a;
  gr_in : forall a, user_addr a -> sbrk v <= a < lo -> vbyte m1 p a <> None;
  gr_find : findable m1 p;
  gr_oom : ~ may_oom m1;
}.

Lemma grown_view lo m1 m2 : same_view p m1 m2 -> grown lo m1 -> grown lo m2.
Proof using Type.
  intros He [H1 H2 H3 H4 H5]. pose proof He as (_ & _ & _ & Hoom & HB & _). split; [by eapply like_view| | |by eapply findable_view|].
  - intros a Ha Hn. rewrite HB by done. by apply H2.
  - intros a Ha Hn. rewrite HB by done. by apply H3.
  - intros [n Hn]. apply H5. exists n. by rewrite <- Hoom.
Qed.
Lemma grown_mm lo m1 : grown lo m1 -> exists k x1, has_mm m1 p k x1 /\ symrgtbl x1 = symrgtbl x /\ mmap x1 = [set_limits new_end v].
Proof using Type.
  intros [(k & x1 & Hp & E) _ _ _ _]. exists k, x1. split; [done|]. split; [by apply (f_equal symrgtbl) in E|by apply (f_equal mmap) in E].
Qed.
Lemma grown_valid lo m1 : grown lo m1 -> valid m1 p.
Proof using Type. intros (k & x1 & Hp & _)%grown_mm. by exists k, x1. Qed.
Lemma grown_quiet lo E F m1 m2 : quiet E F m1 m2 -> grown lo m1 -> grown lo m2.
Proof using Type. intros HQ. by eapply grown_view, quiet_view. Qed.

(** ** Frames *)

Lemma frames_safe (Q : Z * list Z -> bool -> Z -> list Z -> machine -> Prop) cnt : forall got need m1,
  Z.of_nat cnt <= need -> grown (sbrk v) m1 ->
  (forall fs m2, length fs = cnt -> grown (sbrk v) m2 -> Q (0, got ++ fs) false (need - Z.of_nat cnt) (got ++ fs) m2) ->
  safe p Q false need got (frames_thread p (Some Ram) cnt got) m1.
Proof using Type.
  induction cnt as [|cnt IH]; intros got need m1 Hneed Hg HQ.
  { intros m2 He. specialize (HQ [] m2 eq_refl (grown_view _ _ _ He Hg)). by rewrite app_nil_r, Z.sub_0_r in HQ. }
  cbn [frames_thread tbind act]. intros m2 He E [HI _] Hfree. pose proof (grown_view _ _ _ He Hg) as Hg2.
  eapply wp_mono; [apply (take_frame_spec (got ++ E) [] m2 HI); lia|]. intros o m3 (f & -> & HQ3 & Hn3).
  exists (need - 1), (got ++ [f]). split; [lia|]. split; [lia|]. split.
  { eapply inv_perm; [apply HQ3|]. rewrite <- app_assoc. symmetry. apply Permutation_middle. }
  split; [by eapply quiet_guar|]. cbn [tbind act]. apply safe_spares; [eauto with spares|lia|]. intros m4 E4 He4 HI4.
  pose proof (grown_view _ _ _ He4 (grown_quiet _ _ _ _ _ HQ3 Hg2)) as Hg4.
  eapply wp_mono; [by apply malloc_spec|]. intros ok m5 (HQ5 & _ & _ & _ & _ & Hok). split; [apply HQ5|]. split; [by eapply quiet_guar|].
  destruct ok; [|by destruct (gr_oom _ _ Hg4); apply Hok]. apply IH; [lia|by eapply grown_quiet|].
  intros fs m6 Hl Hg6. specialize (HQ (f :: fs) m6 ltac:(simpl; lia) Hg6). rewrite <- app_assoc. cbn [app].
  replace (need - 1 - Z.of_nat cnt) with (need - Z.of_nat (S cnt)) by lia. done.
Qed.

Lemma pages_safe (Q : Z * list Z -> bool -> Z -> list Z -> machine -> Prop) need m1 :
  pages_for sz <= need -> grown (sbrk v) m1 ->
  (forall fs m2, Z.of_nat (length fs) = pages_for sz -> grown (sbrk v) m2 -> Q (0, fs) false (need - pages_for sz) fs m2) ->
  safe p Q false need [] (pages_thread p (pages_for sz)) m1.
Proof using Hsz.
  intros Hneed Hg HQ. destruct (align_pages sz Hsz) as (_ & Hn & _). unfold pages_thread. cbn [tbind act]. apply safe_read; [lia|].
  intros m2 E He HI. pose proof (grown_view _ _ _ (env_view _ _ _ _ He) Hg) as Hg2.
  destruct (valid_krnl _ _ _ _ HI (grown_valid _ _ Hg2)) as (k & x2 & Hk & Hp & Hr & _). exists (Some k). split; [done|].
  destruct (has_mm_flags _ _ _ _ (vi_shape _ _ _ HI) Hp) as [-> _]. rewrite bool_decide_false, Hr by lia. cbn [negb orb].
  apply frames_safe; [lia|done|]. intros fs m3 Hl Hg3. cbn [app]. rewrite Z2Nat.id by lia. apply HQ; [lia|done].
Qed.

(** ** Pages *)

Lemma range_pages : validate_page_range (sbrk v) (pages_for sz) = 0 /\ forall j, 0 <= j < pages_for sz -> user_page (pgn0 + j).
Proof using Ho Hsz Hend.
  destruct (align_pages sz Hsz) as (_ & Hn & _ & Hlt & _). destruct (ao_brk _ _ _ _ (ow_area _ _ _ _ Ho)) as [Hb Hm].
  apply user_range_valid; try done; lia.
Qed.

Lemma tables_safe (Q : Z -> bool -> Z -> list Z -> machine -> Prop) l : forall need loc m1,
  0 <= need -> (forall j, j ∈ l -> 0 <= j < pages_for sz) -> grown (sbrk v) m1 ->
  (forall m2, grown (sbrk v) m2 -> Q 0 false need loc m2) ->
  safe p Q false need loc (tables_thread p pgn0 l) m1.
Proof using Ho Hsz Hend.
  induction l as [|j l IH]; intros need loc m1 Hneed Hl Hg HQ.
  { intros m2 He. by eapply HQ, grown_view. }
  pose proof (proj2 range_pages j (Hl j ltac:(left))) as Hpg.
  cbn [tables_thread tbind act]. rewrite (u64_small (pgn0 + j)) by (unfold is_u64, user_page in *; lia).
  apply safe_spares; [eauto with spares|done|]. intros m2 E He HI. pose proof (grown_view _ _ _ (env_view _ _ _ _ He) Hg) as Hg2.
  destruct (grown_mm _ _ Hg2) as (k & x2 & Hp & _). eapply wp_mono.
  { apply (walk_pte_spec (roots m2) m2 p k x2); [apply HI|done|by left|]. rewrite root_for_user by done. eauto with ossim. }
  intros o m3 (Hs & _ & Hnone). pose proof (inv_pt_step _ _ _ _ HI Hs) as HQ3. split; [apply HQ3|]. split; [by eapply quiet_guar|].
  destruct o as [[t i]|].
  - rewrite bool_decide_false by done. apply IH; [done| |by eapply grown_quiet|done]. intros i' Hi'. apply Hl. by right.
  - destruct (gr_oom _ _ Hg2). by apply Hnone.
Qed.

(** One page mapped. *)
Lemma grown_page E F f j m1 m2 :
  0 <= j < pages_for sz -> grown (sbrk v + j * 4096) m1 ->
  range_step E F p (pgn0 + j) (pgn0 + j + 1) m1 m2 -> pages_upd m1 m2 p (pgn0 + j) (Resident f) ->
  grown (sbrk v + (j + 1) * 4096) m2.
Proof using Ho Hsz Hend.
  intros Hj Hg HR HU. pose proof HR as (HI & HP & HK & HS & HB). destruct (ao_brk _ _ _ _ (ow_area _ _ _ _ Ho)) as [Hb Hm].
  assert (Hpage : forall a, pgn0 + j <= addr_pgn a < pgn0 + j + 1 <-> sbrk v + j * 4096 <= a < sbrk v + (j + 1) * 4096)
    by (intros a; rewrite !addr_pgn_div; Z.div_mod_to_equations; lia).
  pose proof (keeps_procs_lib p m1 m2 HP HK) as HL. split.
  - destruct (gr_like _ _ Hg) as (k & x1 & Hp & E1). destruct (keeps_has_mm _ _ _ _ _ HP Hp) as (k2 & x2 & Hp2 & _ & E2).
    exists k2, x2. split; [done|congruence].
  - intros a Ha Hn. rewrite HB; [apply (gr_out _ _ Hg); [done|lia]|done|]. intros [_ Hin]. apply Hpage in Hin. lia.
  - intros a Ha Hin. destruct (decide (sbrk v + j * 4096 <= a)) as [Hge|Hlt].
    + apply (resident_byte _ _ _ f). destruct (user_addr_split a Ha) as (Hga & _). rewrite HU by done. rewrite bool_decide_true; [done|].
      split; [done|]. assert (pgn0 + j <= addr_pgn a < pgn0 + j + 1) by (apply Hpage; lia). lia.
    + rewrite HB; [apply (gr_in _ _ Hg); [done|lia]|done|]. intros [_ Hp]. apply Hpage in Hp. lia.
  - by eapply findable_lib, Hg.
  - intros Hm2. by apply (gr_oom _ _ Hg), (lib_step_mapped p m1 m2).
Qed.

Lemma map_safe (Q : Z * Z -> bool -> Z -> list Z -> machine -> Prop) need fs : forall j m1,
  0 <= need -> 0 <= j -> j + Z.of_nat (length fs) = pages_for sz -> grown (sbrk v + j * 4096) m1 ->
  (forall m2, grown new_end m2 -> Q (0, new_end) false need [] m2) ->
  safe p Q false need fs (map_thread p (Some Ram) (sbrk v) pgn0 j (length fs) fs) m1.
Proof using Ho Hsz Hend.
  destruct (align_pages sz Hsz) as (_ & Hn & _ & Hlt & _). destruct (ao_brk _ _ _ _ (ow_area _ _ _ _ Ho)) as [Hb _].
  induction fs as [|f fs IH]; intros j m1 Hneed Hj Hlen Hg HQ.
  { assert (j = pages_for sz) as -> by (simpl in Hlen; lia). cbn [map_thread length tbind act]. apply safe_read; [done|]. intros m2 E He HI.
    eexists. split; [apply page_bytes_ok; unfold PAGING64_PAGESZ; lia|]. intros m3 He3. unfold PAGING64_PAGESZ.
    rewrite u64_small by (unfold is_u64; lia). eapply HQ, grown_view; [exact He3|]. by eapply grown_view, Hg; apply env_view in He. }
  pose proof (proj2 range_pages j ltac:(simpl in Hlen; lia)) as Hpg.
  cbn [map_thread length tbind act]. rewrite (u64_small (pgn0 + j)) by (unfold is_u64, user_page in *; lia).
  apply (safe_gives _ _ _ _ _ _ _ fs); [eauto with spares|done|]. intros m2 E He HI. pose proof (grown_view _ _ _ (env_view _ _ _ _ He) Hg) as Hg2.
  eapply wp_mono; [apply (map_page_spec (fs ++ E) [] m2 p f (pgn0 + j) (pgn0 + j) (pgn0 + j + 1) HI); [by eapply grown_valid|done|lia]|].
  intros r m3 [(-> & HR & HU)|(_ & Hm & _)]; [|by destruct (gr_oom _ _ Hg2)]. split; [apply HR|]. split; [by eapply range_guar|].
  pose proof (grown_page _ _ f j m2 m3 ltac:(simpl in Hlen; lia) Hg2 HR HU) as Hg3.
  rewrite (bool_decide_false (0 <> 0)) by (intros H; by apply H). cbn [tbind act].
  apply safe_spares; [eauto with spares|done|]. intros m4 E4 He4 HI4. pose proof (grown_view _ _ _ (env_view _ _ _ _ He4) Hg3) as Hg4.
  eapply wp_mono; [apply (enlist_pgn_spec _ [] m4 p (pgn0 + j) HI4); [by eapply grown_valid|done]|].
  intros r m5 (HQ5 & [-> | [_ Hm]]); [|by destruct (gr_oom _ _ Hg4)]. split; [apply HQ5|]. split; [by eapply quiet_guar|].
  rewrite (bool_decide_false (0 <> 0)) by (intros H; by apply H). apply IH; [done|lia|simpl in Hlen; lia|by eapply grown_quiet|done].
Qed.

Lemma vmap_safe (Q : Z * option (Z * Z) -> bool -> Z -> list Z -> machine -> Prop) need fs m1 :
  0 <= need -> Z.of_nat (length fs) = pages_for sz -> grown (sbrk v) m1 ->
  (forall m2, grown new_end m2 -> Q (0, Some (sbrk v, new_end)) false need [] m2) ->
  safe p Q false need fs (vmap_thread p (sbrk v) (pages_for sz) fs) m1.
Proof using Ho Hsz Hend.
  intros Hneed Hlen Hg HQ. destruct (align_pages sz Hsz) as (_ & Hn & _ & Hlt & _). destruct range_pages as [Hval _].
  unfold vmap_thread. cbn [tbind act]. apply safe_read; [done|]. intros m2 E He HI.
  pose proof (grown_view _ _ _ (env_view _ _ _ _ He) Hg) as Hg2.
  destruct (valid_krnl _ _ _ _ HI (grown_valid _ _ Hg2)) as (k & x2 & Hk & Hp & Hr & _). exists (Some k). split; [done|].
  pose proof Hp as (_ & _ & Hx). rewrite Hx, Hval, Hr. rewrite !bool_decide_false by (done || by intros []). cbn [orb tbind act].
  apply safe_read; [done|]. intros m3 E3 He3 HI3. pose proof (grown_view _ _ _ (env_view _ _ _ _ He3) Hg2) as Hg3.
  eexists. split; [apply page_bytes_ok; unfold PAGING64_PAGESZ; lia|]. apply safe_tbind. apply tables_safe; [done| |done|].
  { intros j Hj. apply elem_of_seqZ in Hj. lia. }
  intros m4 Hg4. rewrite (bool_decide_false (0 <> 0)) by (intros H; by apply H). apply safe_tbind.
  replace (Z.to_nat (pages_for sz)) with (length fs) by lia. apply map_safe; [done|lia|lia|by rewrite Z.mul_0_l, Z.add_0_r|].
  intros m5 Hg5 m6 He6. by eapply HQ, grown_view.
Qed.

Lemma map_ram_safe (Q : Z * option (Z * Z) -> bool -> Z -> list Z -> machine -> Prop) need m1 :
  pages_for sz <= need -> grown (sbrk v) m1 ->
  (forall m2, grown new_end m2 -> Q (0, Some (sbrk v, new_end)) false (need - pages_for sz) [] m2) ->
  safe p Q false need [] (map_ram_thread p (sbrk v) (pages_for sz)) m1.
Proof using Ho Hsz Hend.
  intros Hneed Hg HQ. unfold map_ram_thread. apply safe_tbind, pages_safe; [done|done|]. intros fs m2 Hl Hg2.
  change (bool_decide (0 < 0) && bool_decide (0 <> u64 (-3000))) with false. change (bool_decide (0 = u64 (-3000))) with false. cbv iota.
  apply safe_tbind, vmap_safe; [lia|done|done|]. intros m3 Hg3. change (bool_decide (0 = u64 (-1))) with false. cbv iota.
  intros m4 He4. by eapply HQ, grown_view.
Qed.

(** ** The whole growth *)

(** Before: the process as it was. *)
Definition start (m1 : machine) : Prop := own p x v m1 /\ forall a, user_addr a -> vbyte m1 p a = vbyte m p a.
(** After: the break moved, the new pages mapped and free. *)
Definition finished (m2 : machine) : Prop :=
  exists x2 v2, own p x2 v2 m2 /\ sbrk v2 = new_end /\ symrgtbl x2 = symrgtbl x /\
    (forall a, user_addr a -> ~ (sbrk v <= a < new_end) -> vbyte m2 p a = vbyte m p a) /\
    exists r, r ∈ vm_freerg_list v2 /\ has_room sz r.

Lemma start_view m1 m2 : same_view p m1 m2 -> start m1 -> start m2.
Proof using Type.
  intros He [H1 H2]. split; [by eapply own_view|]. intros a Ha. pose proof He as (_ & _ & _ & _ & HB & _). rewrite HB by done. by apply H2.
Qed.

(** The record of the area replaced. *)
Lemma upd_area_at E m1 k x1 w f :
  vm_inv E [] m1 -> has_mm m1 p k x1 -> mmap x1 = [w] ->
  wp (upd_vma p 0 f) (fun _ m2 => vm_inv E [] m2 /\ guar p false m1 m2 /\ keeps_bytes m1 m2 /\
    exists k2, has_mm m2 p k2 (set_mmap x1 [f w])) m1.
Proof using Type.
  intros HI Hp Hw. rewrite upd_vma_eq. eapply wp_mono; [by eapply (upd_mm_guar false E [] m1 p k x1 (fun x => set_mmap x (alter f 0%nat (mmap x))))|].
  intros [] m2 (HI2 & (k2 & Hp2) & HG & HB). rewrite Hw in Hp2. split_and!; try done. by exists k2.
Qed.

Lemma limits_at E m1 : vm_inv E [] m1 -> start m1 ->
  wp (upd_vma p 0 (set_limits new_end)) (fun _ m2 => vm_inv E [] m2 /\ guar p false m1 m2 /\ grown (sbrk v) m2) m1.
Proof using Type.
  intros HI [Ho1 HB1]. destruct (own_mm _ _ _ _ Ho1) as (k & x1 & Hp & HA & [Es _] & E1).
  eapply wp_mono; [by eapply upd_area_at; [..|apply HA]|]. intros [] m2 (HI2 & HG & HB & k2 & Hp2). split; [done|]. split; [done|].
  pose proof HG as (HL & _). split.
  - exists k2, (set_mmap x1 [set_limits new_end v]). split; [done|]. by apply (f_equal (fun y => set_mmap y [set_limits new_end v])) in E1.
  - intros a Ha _. rewrite HB by done. by apply HB1.
  - intros a _ Ha. lia.
  - by eapply findable_lib, Ho1.
  - intros Hm. by apply (ow_oom _ _ _ _ Ho1), (lib_step_mapped p m1 m2).
Qed.

Lemma enlist_at E m1 : vm_inv E [] m1 -> grown new_end m1 ->
  wp (upd_vma p 0 (fun w => set_freerg (snd (enlist_vm_rg_node (vm_freerg_list w) (mkRg 0 (sbrk v) new_end))) w))
    (fun _ m2 => vm_inv E [] m2 /\ guar p false m1 m2 /\ finished m2) m1.
Proof using Ho Hsz Hend.
  intros HI Hg. destruct (grown_mm _ _ Hg) as (k & x1 & Hp & Es & Em). pose proof (ow_area _ _ _ _ Ho) as HA.
  destruct (align_pages sz Hsz) as (_ & Hn & _). destruct (ao_brk _ _ _ _ HA) as [Hb _].
  destruct (grown_free m p x v sz HA Hsz Hend) as (Hlok & Hends & Hcov & Hroom).
  eapply wp_mono; [by eapply upd_area_at|]. cbn [vm_freerg_list set_limits] in *.
  set (l := snd (enlist_vm_rg_node (vm_freerg_list v) _)) in *. intros [] m2 (HI2 & HG & HB & k2 & Hp2). split; [done|]. split; [done|].
  pose proof HG as (HL & _). exists (set_mmap x1 [set_freerg l (set_limits new_end v)]), (set_freerg l (set_limits new_end v)). split_and!; [split|done|exact Es| |done].
  - by exists k2, (set_mmap x1 [set_freerg l (set_limits new_end v)]).
  - apply (area_grown m m2 p x _ v l (pages_for sz)); try done.
    + by eexists.
    + intros a Ha Hout. rewrite HB by done. by apply (gr_out _ _ Hg).
    + intros a Ha. assert (user_addr a) by (unfold user_addr; lia). rewrite HB by done. by apply (gr_in _ _ Hg).
  - cbn [symrgtbl set_mmap]. rewrite Es. eapply Forall_impl; [exact (ow_syms _ _ _ _ Ho)|]. intros g [?|[H1 H2]]; [by left|right].
    split; [done|]. cbn [sbrk set_freerg set_limits]. lia.
  - by eapply findable_lib, Hg.
  - intros Hm. by apply (gr_oom _ _ Hg), (lib_step_mapped p m1 m2).
  - intros a Ha Hout. rewrite HB by done. by apply (gr_out _ _ Hg).
Qed.

Lemma grow_safe (Q : Z -> bool -> Z -> list Z -> machine -> Prop) need m1 :
  pages_for sz <= need -> start m1 -> (forall m2, finished m2 -> forall m3, same_view p m2 m3 -> Q 0 false (need - pages_for sz) [] m3) ->
  safe p Q false need [] (grow_thread p 0 sz) m1.
Proof using Ho Hsz Hend.
  intros Hneed Hst HQ. destruct (align_pages sz Hsz) as (Hal & Hn & Hle & Hlt & Hi32). destruct (ao_brk _ _ _ _ (ow_area _ _ _ _ Ho)) as [Hb _].
  unfold grow_thread. rewrite Hi32, Hal. cbn [tbind act]. apply safe_spares; [eauto with spares|lia|]. intros m2 E2 He2 HI2.
  pose proof (start_view _ _ (env_view _ _ _ _ He2) Hst) as Hst2. eapply wp_mono; [by apply malloc_spec|].
  intros ok m3 (HQ3 & _ & _ & _ & _ & Hok). split; [apply HQ3|]. split; [by eapply quiet_guar|].
  destruct ok; [|by destruct (ow_oom _ _ _ _ (proj1 Hst2)); apply Hok]. cbn [negb].
  pose proof (start_view _ _ (quiet_view p _ _ _ _ HQ3) Hst2) as Hst3. cbn [tbind act].
  apply safe_read; [lia|]. intros m4 E4 He4 HI4. pose proof (start_view _ _ (env_view _ _ _ _ He4) Hst3) as Hst4.
  destruct (own_mm _ _ _ _ (proj1 Hst4)) as (k4 & x4 & Hp4 & HA4 & _). exists x4. split; [by eapply the_mm_ok|]. cbn [tbind act].
  apply safe_read; [lia|]. intros m5 E5 He5 HI5. pose proof (start_view _ _ (env_view _ _ _ _ He5) Hst4) as Hst5.
  exists (Some 0%nat). split; [by eapply get_vma_area|]. cbn [tbind act].
  apply safe_read; [lia|]. intros m6 E6 He6 HI6. pose proof (start_view _ _ (env_view _ _ _ _ He6) Hst5) as Hst6.
  destruct (own_mm _ _ _ _ (proj1 Hst6)) as (k6 & x6 & Hp6 & HA6 & _). exists v. split; [eapply the_vma_ok; [done|apply HA6]|].
  rewrite u64_small by (unfold is_u64; lia). cbn [tbind act].
  apply safe_read; [lia|]. intros m7 E7 He7 HI7. pose proof (start_view _ _ (env_view _ _ _ _ He7) Hst6) as Hst7.
  destruct (own_mm _ _ _ _ (proj1 Hst7)) as (k7 & x7 & Hp7 & HA7 & _). exists 0. split; [by eapply no_overlap; [exact HI7|..|lia]|].
  rewrite (bool_decide_false (0 < 0)) by lia. cbn [tbind act].
  apply safe_spares; [eauto with spares|lia|]. intros m8 E8 He8 HI8. pose proof (start_view _ _ (env_view _ _ _ _ He8) Hst7) as Hst8.
  eapply wp_mono; [by apply limits_at|]. intros [] m9 (HI9 & HG9 & Hg9). split; [done|]. split; [done|].
  apply safe_tbind, map_ram_safe; [done|done|]. intros m10 Hg10. rewrite (bool_decide_false (0 < 0)) by lia. cbn [tbind act].
  apply safe_spares; [eauto with spares|lia|]. intros m11 E11 He11 HI11. pose proof (grown_view _ _ _ (env_view _ _ _ _ He11) Hg10) as Hg11.
  eapply wp_mono; [by apply enlist_at|]. intros [] m12 (HI12 & HG12 & Hf12). split; [done|]. split; [done|].
  intros m13 He13. by eapply HQ.
Qed.
End growth.

(** ** Regions *)

Lemma take_at E p x v r size m1 :
  vm_inv E [] m1 -> own p x v m1 -> 0 <= r < 30 -> 0 < size < 2 ^ 31 ->
  wp (take_region p 0 r size) (fun o m2 => vm_inv E [] m2 /\ guar p true m1 m2 /\ keeps_bytes m1 m2 /\
    match o with
    | Some s => exists x2 v2, own p x2 v2 m2 /\ sbrk v2 = sbrk v /\ (0 <= s /\ s + size <= sbrk v) /\
        symrgtbl x2 = <[Z.to_nat r := mkRg 0 s (s + size)]> (symrgtbl x)
    | None => own p x v m2 /\ Forall (fun g => ~ has_room size g) (vm_freerg_list v)
    end) m1.
Proof.
  intros HI Ho Hr Hsz. destruct (own_mm _ _ _ _ Ho) as (k & x1 & Hp & HA & [Es Em] & E1).
  assert (Hguar : forall m2, lib_step p m1 m2 -> keeps_bytes m1 m2 -> guar p true m1 m2)
    by (intros m2 HL HB; split; [done|]; split; [intros; by apply HB|done]).
  unfold take_region. rewrite i32_small by lia. apply wp_bind. eapply wp_mono; [by eapply get_free_vmrg_area_spec|].
  intros [[s e]|] m2 (HI2 & HL2 & HB2 & _ & k2 & l & Hp2 & Hres).
  - destruct Hres as (-> & Hs0 & Heb & Hlok & Hends & Hcov). apply wp_bind. unfold set_symrg. eapply wp_mono.
    { by apply (upd_mm_lib E [] m2 p k2 _ (fun x => set_symrgtbl x (<[Z.to_nat r := mkRg 0 s (s + size)]> (symrgtbl x))) HI2 Hp2). }
    intros [] m3 (HI3 & (k3 & Hp3) & HL3 & HB3 & _). apply wp_ret.
    assert (HL : lib_step p m1 m3) by (by eapply lib_step_trans).
    assert (HB : keeps_bytes m1 m3) by (intros q a Ha; by rewrite HB3, HB2).
    split; [done|]. split; [by apply Hguar|]. split; [done|].
    eexists _, (set_freerg l v). split; [split|]; [by exists k3; eexists| | |by eapply findable_lib, Ho| |].
    + apply (area_taken m1 m3 p x1 v l s (s + size) (Z.to_nat r)); try done; try lia. intros a Ha. by apply HB.
    + cbn [symrgtbl set_symrgtbl set_mmap]. rewrite Es. apply Forall_insert; [exact (ow_syms _ _ _ _ Ho)|]. right. split; cbn; lia.
    + intros Hm. by apply (ow_oom _ _ _ _ Ho), (lib_step_mapped p m1 m3).
    + split; [done|]. split; [done|]. cbn [symrgtbl set_symrgtbl set_mmap]. by rewrite Es.
  - destruct Hres as [-> Hno]. apply wp_ret. split; [done|]. split; [by apply Hguar|]. split; [done|]. split; [|done].
    rewrite set_mmap_same in Hp2 by apply HA. split; [by exists k2, x1| |apply Ho|by eapply findable_lib, Ho|].
    + eapply area_ok_same; [exact (ow_area _ _ _ _ Ho)|done|done|]. intros a Ha. by apply HB2.
    + intros Hm. by apply (ow_oom _ _ _ _ Ho), (lib_step_mapped p m1 m2).
Qed.

(** ** ALLOC *)

Section alloc.
Context (p : Z) (x : mm_struct) (v : vm_area_struct) (r size n : Z) (m : machine).
Context (Hr : 0 <= r < 30) (Hsz : 0 < size < 2 ^ 31 - 8192) (Hn : pages_for size <= n) (Ho : own p x v m).
Context (Hb : sbrk v + n * 4096 <= 2 ^ 56).
Notation post := (call_post p (CAlloc p 0 r size) m n).

(** The region recorded: what the process was promised. *)
Lemma alloc_spec_at s x2 v2 m2 :
  own p x2 v2 m2 -> 0 <= s -> s + size <= sbrk v2 -> symrgtbl x2 = <[Z.to_nat r := mkRg 0 s (s + size)]> (symrgtbl x) ->
  (forall b, user_addr b -> vbyte m p b <> None -> vbyte m2 p b = vbyte m p b) -> spec p (CAlloc p 0 r size) m (Value (Some s)) m2.
Proof using Ho Hr Hsz.
  intros Ho2 Hs0 Hse Es HB. exists x, x2. split; [apply Ho|]. split; [apply Ho2|]. exists s. split_and!; [done|done|done|].
  pose proof (ow_area _ _ _ _ Ho2) as HA2. destruct (ao_brk _ _ _ _ HA2) as [Hb2 _]. destruct (ao_syms _ _ _ _ (ow_area _ _ _ _ Ho)) as [Hlen _].
  intros b Hbb. assert (Hu : user_addr b) by (unfold user_addr; lia). split; [done|].
  destruct (region_byte m2 p x2 v2 (Z.to_nat r) (mkRg 0 s (s + size)) b HA2) as [Hm Hd]; try done.
  { rewrite Es. apply list_lookup_insert_eq. lia. }
  split; [done|]. intros i rg Hi Hrg. apply (Hd i rg Hi). by rewrite Es, list_lookup_insert_ne.
Qed.

(** The last look at the free list, with room in it. *)
Lemma last_look_safe m1 : finished p x v (pages_for size * 4096) m m1 ->
  safe p post false (n - pages_for size) []
    (locked (if bool_decide (fst (0, mkScRegs SYSMEM_INC_OP (u64 0) (PAGING64_PAGE_ALIGNSZ size)) < 0) then Done (Value None)
             else let^ rg := act (take_region p 0 r size) in Done (Value rg))) m1.
Proof using All.
  intros (x1 & v1 & Ho1 & Hbrk & Es1 & HB1 & g & Hg & Hroom). cbn [fst]. rewrite (bool_decide_false (0 < 0)) by lia.
  destruct (align_pages size ltac:(lia)) as (_ & Hpos & Hle & _). rewrite pages_for_aligned in Hbrk, HB1 by lia.
  intros m2 He2. split; [done|]. cbn [tbind act]. apply safe_spares; [unfold take_region; spares|lia|]. intros m3 E3 He3 HI3.
  assert (He : same_view p m1 m3) by (eapply env_trans; [exact He2|]; by eapply env_view).
  eapply wp_mono; [apply (take_at _ p x1 v1 r size m3 HI3); [by eapply own_view|done|lia]|].
  intros o m4 (HI4 & HG4 & HB4 & Hres). split; [done|]. split; [done|]. destruct o as [s|].
  2:{ exfalso. destruct Hres as [_ Hno]. revert Hno. apply room_exists. exists g. split; [done|]. unfold has_room in *. lia. }
  destruct Hres as (x4 & v4 & Ho4 & Hbrk4 & [Hs0 Hse] & Es4).
  eapply (finish_unlock p _ m n _ (n - pages_for size) x4 v4 m4); [lia|simpl; lia|done|rewrite Hbrk4, Hbrk; lia|].
  apply (alloc_spec_at s x4 v4); [done|done|by rewrite Hbrk4|by rewrite Es4, Es1|]. intros b Hu Hm. rewrite HB4 by done.
  destruct He as (_ & _ & _ & _ & HBe & _). rewrite HBe by done. apply HB1; [done|]. intros Hin. apply Hm.
  apply (ao_above _ _ _ _ (ow_area _ _ _ _ Ho)); [done|lia].
Qed.

Lemma pid_found m1 m2 y : procs m1 !! p = Some y -> same_view p m1 m2 -> findable m2 p -> m_find_proc (pid y) m2 = Ret p m2.
Proof using Type.
  intros Hy (_ & Hbare & _) Hf. unfold m_find_proc. f_equal. transitivity (find_proc (pid_at m2) (sch m2) (pid_at m2 p)); [|done].
  rewrite (bare_pid m1 m2 p Hbare). unfold pid_at at 2. by rewrite Hy.
Qed.

(** The slow path, from the unlock on. *)
Lemma slow_path_safe m1 : start p x v m m1 ->
  safe p post false n [] (let^ y := act (get_pcb p) in
    let^ q := memmap_thread (pid y) (mkScRegs SYSMEM_INC_OP (u64 0) (PAGING64_PAGE_ALIGNSZ size)) in
    locked (if bool_decide (fst q < 0) then Done (Value None)
            else let^ rg := act (take_region p 0 r size) in Done (Value rg))) m1.
Proof using All.
  intros Hst. destruct (align_pages size ltac:(lia)) as (Hal & Hpos & Hle & _).
  assert (Hsm : pages_for size * 4096 <= size + 4095) by (unfold pages_for; Z.div_mod_to_equations; lia).
  pose proof (pages_for_aligned size ltac:(lia)) as Hpa.
  cbn [tbind act]. apply safe_read; [lia|]. intros m2 E2 He2 HI2. pose proof (start_view p x v m _ _ (env_view _ _ _ _ He2) Hst) as Hst2.
  destruct (own_mm _ _ _ _ (proj1 Hst2)) as (k2 & x2 & Hp2 & _). pose proof Hp2 as (Hp0 & y & Hy & _)%has_mm_procs.
  exists y. split; [unfold get_pcb; by rewrite Hy|]. apply safe_tbind. unfold memmap_thread. cbn [tbind act a2 a3].
  apply safe_read; [lia|]. intros m3 E3 He3 HI3. pose proof (start_view p x v m _ _ (env_view _ _ _ _ He3) Hst2) as Hst3.
  exists p. split; [by eapply pid_found; [exact Hy|by eapply env_view|apply Hst3]|]. rewrite (bool_decide_false (p = 0)) by done.
  change (i32 (u64 0)) with 0. rewrite Hal. apply safe_tbind.
  apply (grow_safe p x v (pages_for size * 4096) m); [done|lia|rewrite Hpa; lia|rewrite Hpa; lia|done|].
  intros m4 Hf m5 He5. rewrite Hpa. rewrite (bool_decide_false (0 < 0)) by lia. rewrite <- Hal. intros m6 He6.
  eapply safe_env; [by apply last_look_safe|]. by eapply env_trans.
Qed.

Lemma alloc_safe : safe p post false n [] (fine_alloc p 0 r size) m.
Proof using All.
  destruct (align_pages size ltac:(lia)) as (_ & Hpos & _). assert (Hn0 : 0 <= n) by lia.
  unfold fine_alloc. cbn [tbind act]. apply safe_read; [done|]. intros m1 E1 He1 HI1.
  assert (Hst0 : start p x v m m) by (by split).
  pose proof (start_view p x v m _ _ (env_view _ _ _ _ He1) Hst0) as Hst1. destruct (own_mm _ _ _ _ (proj1 Hst1)) as (k1 & x1 & Hp1 & _).
  exists (Some x1). split; [by eapply get_mm_ok|]. unfold PAGING_MAX_SYMTBL_SZ. rewrite !bool_decide_false by lia. cbn [orb].
  apply safe_tbind. unfold locked, first_look. intros m2 He2. split; [done|]. cbn [tbind act].
  pose proof (start_view p x v m _ _ (env_view _ _ _ _ He2) Hst1) as Hst2.
  apply safe_read; [done|]. intros m3 E3 He3 HI3. pose proof (start_view p x v m _ _ (env_view _ _ _ _ He3) Hst2) as Hst3.
  destruct (own_mm _ _ _ _ (proj1 Hst3)) as (k3 & x3 & Hp3 & HA3 & _). exists (Some 0%nat). split.
  { unfold bind. rewrite (the_mm_ok m3 p k3 x3) by done. by eapply get_vma_area. }
  cbn [tbind act]. apply safe_spares; [unfold take_region; spares|done|]. intros m4 E4 He4 HI4.
  pose proof (start_view p x v m _ _ (env_view _ _ _ _ He4) Hst3) as [Ho4 HB4].
  eapply wp_mono; [apply (take_at _ p x v r size m4 HI4 Ho4 Hr); lia|]. intros o m5 (HI5 & HG5 & HB5 & Hres). split; [done|]. split; [done|].
  destruct o as [s|].
  - destruct Hres as (x5 & v5 & Ho5 & Hbrk & [Hs0 Hse] & Es). intros m6 He6. split; [done|]. intros m7 He7.
    apply (safe_env p post false n [] _ m5 m7); [|eapply env_trans; [by eapply env_view, He6|exact He7]].
    eapply (finish_done p _ m n _ n x5 v5 m5); [done|simpl; lia|done|by rewrite Hbrk|].
    apply (alloc_spec_at s x5 v5); [done|done|by rewrite Hbrk|done|]. intros b Hu _. rewrite HB5 by done. by apply HB4.
  - destruct Hres as [Ho5 _]. intros m6 He6. split; [done|]. intros m7 He7. apply slow_path_safe.
    apply (start_view p x v m m5); [eapply env_trans; [by eapply env_view, He6|exact He7]|]. split; [done|].
    intros a Ha. rewrite HB5 by done. by apply HB4.
Qed.
End alloc.

(** ** Any call, any program *)

Lemma call_safe p x v c n m :
  call_ok p c -> own p x v m -> 0 <= n -> demand c <= n -> sbrk v + n * 4096 <= 2 ^ 56 ->
  safe p (call_post p c m n) false n [] (fine_thread c) m.
Proof.
  intros Hc Ho Hn Hd Hb. destruct (ao_syms _ _ _ _ (ow_area _ _ _ _ Ho)) as [Hlen _].
  assert (Hsym : forall r, 0 <= r < 30 -> exists rg, symrgtbl x !! Z.to_nat r = Some rg) by (intros r Hr; apply lookup_lt_is_Some_2; lia).
  destruct c as [q w r size|q w r|q r off|q w r off val]; cbn [fine_thread thread_of call_ok demand] in *.
  - destruct Hc as (-> & -> & Hr & Hs). by eapply alloc_safe.
  - destruct Hc as (-> & -> & Hr). destruct (Hsym r Hr) as [rg Hrg]. by eapply free_safe.
  - destruct Hc as (-> & Hr & Ho'). destruct (Hsym r Hr) as [rg Hrg]. by eapply read_safe.
  - destruct Hc as (-> & -> & Hr & Ho'). destruct (Hsym r Hr) as [rg Hrg]. by eapply write_safe.
Qed.

Definition prog_post (p : Z) (cs : list call) (m : machine) (l : list answer) (h : bool) (n' : Z) (loc : list Z) (m' : machine) : Prop :=
  h = false /\ loc = [] /\ (exists x v, own p x v m') /\ runs p cs m l m'.

Lemma prog_safe p cs : forall x v n m,
  Forall (call_ok p) cs -> own p x v m -> demands cs <= n -> 0 <= n -> sbrk v + n * 4096 <= 2 ^ 56 ->
  safe p (prog_post p cs m) false n [] (prog_thread cs) m.
Proof.
  induction cs as [|c cs IH]; intros x v n m Hcs Ho Hd Hn Hb.
  { intros m1 He. split; [done|]. split; [done|]. split; [by exists x, v; eapply own_view|]. by constructor. }
  apply Forall_cons in Hcs as [Hc Hcs]. unfold demands in Hd. cbn [fmap list_fmap total foldr] in Hd. fold (total (demand <$> cs)) in Hd. fold (demands cs) in Hd.
  pose proof (demands_nonneg p cs Hcs) as Hds.
  cbn [prog_thread]. apply safe_tbind. eapply safe_mono; [|apply (call_safe p x v c n m Hc Ho Hn); [lia|done]].
  intros a h n' l m1 (-> & -> & Hn' & Hd' & x1 & v1 & Ho1 & Hb1 & Hsp). apply safe_tbind.
  eapply safe_mono; [|apply (IH x1 v1 n' m1 Hcs Ho1); [lia|done|done]].
  intros l' h n2 loc m2 (-> & -> & (x2 & v2 & Ho2) & Hruns). intros m3 He3. split; [done|]. split; [done|]. split; [by exists x2, v2; eapply own_view|].
  econstructor; [exact Hsp|]. clear -Hruns He3. induction Hruns as [m m'|c cs m a m1 l m' Hs _ IHr]; [|by econstructor; [|apply IHr]].
  constructor. by eapply env_trans.
Qed.
