(* ===== verification/Together.v ===== *)
(** * Any processes, any interleaving

    The theorems about the threads of [Parallel]: programs of memory calls of
    different processes, whose ALLOCs fit the free frames together, run in every
    interleaving of their steps without undefined behaviour and without deadlock,
    end, and leave each process with the answers and the memory of a run of its
    own ([Private.runs]). *)

From S2P Require Import Prelude.
From S2P Require Import Word.
From S2P Require Import Exclusive.
From S2P Require Import Paging.
From S2P Require Import Queue.
From S2P Require Import Sched.
From S2P Require Import MemPhy.
From S2P Require Import Region.
From S2P Require Import Machine.
From S2P Require Import PageTable.
From S2P Require Import Swap.
From S2P Require Import Vm.
From S2P Require Import Libmem.
From S2P Require Import Heap.
From S2P Require Import Kernel.
From S2P Require Import Isolation.
From S2P Require Import Room.
From S2P Require Import Locks.
From S2P Require Import Parallel.
From S2P Require Import Rely.
From S2P Require Import Private.
From S2P Require Import Growth.

(** ** Programs *)

Notation programs := (list (Z * list call)).

Record programs_ok (progs : programs) (m : machine) : Prop := mkProgs {
  pg_inv : kinv [] [] m;
  pg_procs : NoDup progs.*1;
  pg_calls : forall p cs, (p, cs) ∈ progs -> Forall (call_ok p) cs;
  pg_own : forall p cs, (p, cs) ∈ progs -> exists x v, own p x v m /\ sbrk v + demands cs * 4096 <= 2 ^ 56;
  pg_frames : total (demands <$> progs.*2) <= nfree m;
}.

Definition start_conc (progs : programs) (m : machine) : conc machine (list answer) :=
  mkConc m None (prog_thread <$> progs.*2).

Definition all_done {S A} (c : conc S A) : Prop := forall i t, threads c !! i = Some t -> exists a, t = Done a.

(** What thread [i] has in the end. *)
Definition prog_final (progs : programs) (m : machine) (i : nat) (l : list answer) (m' : machine) : Prop :=
  forall p cs, progs !! i = Some (p, cs) -> runs p cs m l m' /\ exists x v, own p x v m'.

Definition shares (progs : programs) : list share := (fun pc => mkShare (fst pc) (demands (snd pc)) []) <$> progs.

Lemma start_ok progs m : programs_ok progs m -> conc_ok (prog_final progs m) (shares progs) (start_conc progs m).
Proof.
  intros [HI HN HC HO HF]. unfold shares, start_conc. split; cbn [shared owner threads].
  - replace (concat _) with (@nil Z); [done|]. symmetry. apply concat_nil_Forall. rewrite <- list_fmap_compose. apply Forall_fmap. by apply Forall_true.
  - rewrite <- list_fmap_compose. unfold compose. cbn [s_need]. rewrite <- (list_fmap_compose snd demands) in HF. split; [|exact HF].
    apply Forall_fmap, Forall_forall. intros [p cs] Hin. by eapply demands_nonneg, HC.
  - rewrite <- list_fmap_compose. exact HN.
  - by rewrite !length_fmap.
  - done.
  - intros i s t Hs Ht. rewrite list_lookup_fmap in Hs. destruct (progs !! i) as [[p cs]|] eqn:Hi; [|done]. injection Hs as <-.
    rewrite !list_lookup_fmap, Hi in Ht. injection Ht as <-. cbn [s_proc s_need s_loc fst snd]. rewrite bool_decide_false by done.
    pose proof (list_elem_of_lookup_2 _ _ _ Hi) as Hin. destruct (HO p cs Hin) as (x & v & How & Hb).
    eapply safe_mono; [|apply (prog_safe p cs x v (demands cs) m (HC p cs Hin) How); [lia|by eapply demands_nonneg, HC|done]].
    intros l h n loc m' (-> & -> & How' & Hr). split; [done|]. split; [done|]. intros p' cs' Hi'. rewrite Hi in Hi'. injection Hi' as <- <-. done.
Qed.

(** ** A schedule that skips the threads that cannot move *)

Fixpoint conc_try {S A} (sched : list nat) (c : conc S A) : conc S A :=
  match sched with [] => c | i :: sched => conc_try sched (default c (conc_exec i c)) end.

Lemma conc_try_sound {S A} sched : forall c : conc S A, rtc conc_step c (conc_try sched c).
Proof.
  induction sched as [|i sched IH]; intros c; [apply rtc_refl|]. cbn [conc_try]. destruct (conc_exec i c) as [c1|] eqn:E; cbn [default]; [|apply IH].
  etrans; [|apply IH]. apply (conc_run_sound [i]). cbn [conc_run]. by rewrite E.
Qed.

(** ** Two processes and three free frames to fill *)

Lemma pair_page_state p g : page_state pair_demo p g = Unmapped.
Proof.
  unfold page_state, mm_of, pair_demo. cbn [procs tables]. destruct (decide (p = 100)) as [->|H1]; [|destruct (decide (p = 200)) as [->|H2]].
  - rewrite lookup_insert_eq. simpl. by rewrite pte_at_empty.
  - rewrite lookup_insert_ne, lookup_singleton_eq by done. simpl. by rewrite pte_at_empty.
  - by rewrite lookup_insert_ne, lookup_singleton_ne by done.
Qed.

Definition pair_krnl : krnl_t := mkKrnl (Some pair_mm) true true 0 1.

Lemma pair_procs_inv p k x : has_mm pair_demo p k x -> (p = 100 /\ k = demo_krnl /\ x = demo_mm) \/ (p = 200 /\ k = pair_krnl /\ x = pair_mm).
Proof.
  intros (_ & y & Hy & Hk & Hx)%has_mm_procs. unfold pair_demo in Hy. cbn [procs] in Hy.
  apply lookup_insert_Some in Hy as [[<- <-]|[_ Hy]]; [left|right; apply lookup_singleton_Some in Hy as [<- <-]];
    simpl in Hk; injection Hk as <-; simpl in Hx; by injection Hx as <-.
Qed.
Lemma pair_has_mm : has_mm pair_demo 100 demo_krnl demo_mm /\ has_mm pair_demo 200 pair_krnl pair_mm.
Proof. by repeat split. Qed.

Lemma pair_shape : vm_shape pair_demo.
Proof.
  pose proof (fresh_memphy_ok 16384 ltac:(lia)) as (Hm & _). destruct pair_has_mm as [H1 H2].
  split; try done.
  - intros p y Hy. unfold pair_demo in Hy. cbn [procs] in Hy. apply lookup_insert_Some in Hy as [[<- _]|[_ Hy]].
    + exists demo_krnl, demo_mm. by repeat split.
    + apply lookup_singleton_Some in Hy as [<- _]. exists pair_krnl, pair_mm. by repeat split.
  - apply forest_roots; [| |done].
    + intros r (p & k & x & [(-> & -> & ->)|(-> & -> & ->)]%pair_procs_inv & [-> | ->]); split; try (simpl; lia); reflexivity.
    + intros q Hq. unfold pair_demo in *. cbn [tables next_table] in *. rewrite !lookup_insert_ne, lookup_singleton_ne by lia. done.
  - intros p k x p' k' x' [(-> & _ & ->)|(-> & _ & ->)]%pair_procs_inv [(-> & _ & ->)|(-> & _ & ->)]%pair_procs_inv; done.
  - intros p k x p' k' x' [(_ & -> & ->)|(_ & -> & ->)]%pair_procs_inv [(_ & -> & ->)|(_ & -> & ->)]%pair_procs_inv; done.
  - intros p. replace (running pair_demo) with [100; 200] by (vm_compute; reflexivity).
    intros Hp. right. apply elem_of_cons in Hp as [->|Hp%list_elem_of_singleton]; [by eexists|subst p; by eexists].
  - intros p k x g f [(_ & -> & _)|(_ & -> & _)]%pair_procs_inv _; simpl; by rewrite pte_at_empty, decode_zero.
  - intros p k x g [(_ & _ & ->)|(_ & _ & ->)]%pair_procs_inv _; simpl; by rewrite pte_at_empty.
Qed.

Lemma pair_inv : vm_inv [] [] pair_demo.
Proof.
  split; [apply pair_shape| |]; apply fresh_exclusive; intros [p g]; [unfold ram_held|unfold swp_held]; simpl;
    rewrite pair_page_state; by case_decide.
Qed.
Lemma pair_kinv : kinv [] [] pair_demo.
Proof.
  split; [apply pair_inv|]. intros p g f (k & x & Hp) _ Hres.
  rewrite (kpage_mm pair_demo p k x) in Hres by done.
  destruct (pair_procs_inv p k x Hp) as [(_ & -> & _)|(_ & -> & _)]; rewrite pte_at_empty, decode_zero in Hres; done.
Qed.

Lemma pair_own p k x : has_mm pair_demo p k x -> own p x (mkVma 0 0 0 0 []) pair_demo.
Proof.
  intros Hp. assert (Hx : mmap x = [mkVma 0 0 0 0 []] /\ symrgtbl x = replicate 30 (mkRg 0 0 0) /\ findable pair_demo p)
    by (destruct (pair_procs_inv p k x Hp) as [(-> & _ & ->)|(-> & _ & ->)]; split_and!; by vm_compute).
  destruct Hx as (Em & Es & Hf). split; [by exists k, x| | |done|by intros []].
  - apply empty_area; [done|done|]. intros a. unfold vbyte. by rewrite pair_page_state.
  - rewrite Es. apply Forall_replicate. by left.
Qed.

(** Each process takes a region, writes to it and reads it back; the second gives
    it up and takes a smaller one. *)
Definition pair_programs : programs :=
  [(100, [CAlloc 100 0 0 4096; CWrite 100 0 0 10 42; CRead 100 0 10]);
   (200, [CAlloc 200 0 1 8000; CWrite 200 0 1 5000 7; CFree 200 0 1; CAlloc 200 0 2 100; CRead 200 2 100])].

Lemma pair_programs_ok : programs_ok pair_programs pair_demo.
Proof.
  assert (Hin : forall P : Z -> list call -> Prop, P 100 (snd (nth 0 pair_programs (0, []))) -> P 200 (snd (nth 1 pair_programs (0, []))) ->
    forall p cs, (p, cs) ∈ pair_programs -> P p cs).
  { intros P H1 H2 p cs Hin. apply elem_of_cons in Hin as [[= -> ->]|[= -> ->]%list_elem_of_singleton]; done. }
  split.
  - apply pair_kinv.
  - by apply (bool_decide_unpack _).
  - apply Hin; unfold pair_programs; cbn [nth snd]; repeat constructor; try lia; unfold is_u64; lia.
  - destruct pair_has_mm as [H1 H2]. apply Hin; eexists _, _; (split; [eapply pair_own; eassumption|by vm_compute]).
  - by vm_compute.
Qed.

Definition pair_schedule : list nat := concat (replicate 80 [0; 1]%nat).
Definition pair_end : conc machine (list answer) := conc_try pair_schedule (start_conc pair_programs pair_demo).
Lemma pair_end_threads : threads pair_end =
  [Done [Value (Some 0); Status 0; Value (Some 42)];
   Done [Value (Some 0); Status 0; Status 0; Value (Some 0); Value None]].
Proof. vm_compute. reflexivity. Qed.
Lemma pair_end_reached : rtc conc_step (start_conc pair_programs pair_demo) pair_end.
Proof. apply conc_try_sound. Qed.
#[local] Opaque pair_end.

(** ** Properties *)

(** A process of [Parallel] run alone is its calls one after the other: cutting the
    slow path of ALLOC at its steps does not change what it computes. *)
Theorem programs_are_calls cs m : denote (prog_thread cs) m = prog_of cs m.
Proof. apply prog_denotes. Qed.

(** C3. Processes have private memories although they share RAM, swap and the tables:
    if the ALLOCs of programs of different processes fit the free frames together,
    then in every interleaving of their steps, those of the slow path of ALLOC
    without the lock included, no step has undefined behaviour, some thread can
    move until all are done, and a process that is done has got the answers and has
    the memory of a run of its own calls that mentions no other process; at the end
    the invariant of the memory system holds with no frame lost in between. *)
Theorem private_memories progs m c :
  programs_ok progs m -> rtc conc_step (start_conc progs m) c ->
  (forall i B (op : M machine B) k, threads c !! i = Some (Act op k) -> exists b m', op (shared c) = Ret b m') /\
  ((exists c', conc_step c c') \/ all_done c) /\
  (forall i p cs l, progs !! i = Some (p, cs) -> threads c !! i = Some (Done l) ->
     runs p cs m l (shared c) /\ exists x v, own p x v (shared c)) /\
  (all_done c -> kinv [] [] (shared c)).
Proof.
  intros Hok Hr. destruct (conc_ok_reach _ _ _ _ (start_ok progs m Hok) Hr) as (ss & HO & _). split_and!.
  - intros i B op k. by eapply conc_ok_ret.
  - by eapply conc_ok_progress.
  - intros i p cs l Hi Ht. destruct (conc_ok_final _ _ _ HO i l Ht) as [HQ _]. by apply HQ.
  - by eapply conc_ok_finished.
Qed.

Lemma private_memories_witness :
  runs 100 [CAlloc 100 0 0 4096; CWrite 100 0 0 10 42; CRead 100 0 10] pair_demo
    [Value (Some 0); Status 0; Value (Some 42)] (shared pair_end) /\
  runs 200 [CAlloc 200 0 1 8000; CWrite 200 0 1 5000 7; CFree 200 0 1; CAlloc 200 0 2 100; CRead 200 2 100] pair_demo
    [Value (Some 0); Status 0; Status 0; Value (Some 0); Value None] (shared pair_end) /\
  kinv [] [] (shared pair_end).
Proof.
  destruct (private_memories pair_programs pair_demo pair_end pair_programs_ok pair_end_reached) as (_ & _ & Hruns & Hend).
  pose proof pair_end_threads as Et. split; [|split].
  - eapply (Hruns 0%nat); [reflexivity|]. by rewrite Et.
  - eapply (Hruns 1%nat); [reflexivity|]. by rewrite Et.
  - apply Hend. intros i t Ht. rewrite Et in Ht. destruct i as [|[|i]]; simpl in Ht; [injection Ht as <-; by eexists..|by destruct i].
Defined.


