(* ===== verification/Printf.v ===== *)
(** * Printing numbers, and the log ([printf] of the C library, [src/log.c])

    The conversions of [printf] the program uses: decimal with and without a
    sign, hexadecimal in both cases, and a minimal width filled with zeros.  A
    hexadecimal numeral reads back as the number.  The log prints a message when
    its level is at least the one the environment asks for. *)

From S2P Require Import Prelude.
From S2P Require Import Word.
From S2P Require Import Scanf.
Open Scope c_scope.
Open Scope Z_scope.

(** ** Conversions *)

(** [%llu], [%lu], [%u]. *)
Notation pr_u := show.
(** [%d]. *)
Definition pr_d (z : Z) : chars := if bool_decide (z < 0) then "-"%char :: show (- z) else show z.

Definition hex_digit (upper : bool) (d : Z) : ascii :=
  ascii_of_N (Z.to_N (if bool_decide (d < 10) then 48 + d else (if upper then 55 else 87) + d)).
Fixpoint hex_fuel (upper : bool) (f : nat) (n : Z) : chars :=
  match f with
  | O => []
  | S f => (if bool_decide (n < 16) then [] else hex_fuel upper f (n / 16)) ++ [hex_digit upper (n mod 16)]
  end.
(** [%llx], [%lx], [%x] and [%X]: sixteen digits are enough for 64 bits. *)
Definition pr_x (n : Z) : chars := hex_fuel false 16 n.
Definition pr_X (n : Z) : chars := hex_fuel true 16 n.

(** A minimal width, filled with zeros on the left ([%08x]). *)
Definition pad0 (w : nat) (l : chars) : chars := replicate (w - length l) "0"%char ++ l.

(** ** Reading a hexadecimal numeral back *)

Definition hex_value (c : ascii) : Z :=
  if bool_decide (code_of c <= 57) then code_of c - 48
  else if bool_decide (code_of c <= 70) then code_of c - 55 else code_of c - 87.
Definition read_hex (l : chars) : Z := foldl (fun n c => 16 * n + hex_value c) 0 l.

Lemma hex_value_digit u d : 0 <= d < 16 -> hex_value (hex_digit u d) = d.
Proof.
  intros Hd. assert (Hc : code_of (hex_digit u d) = if bool_decide (d < 10) then 48 + d else (if u then 55 else 87) + d).
  { unfold code_of, hex_digit. case_bool_decide; destruct u; (rewrite N_ascii_embedding; [rewrite Z2N.id; lia|lia]). }
  unfold hex_value. rewrite Hc. destruct u; repeat case_bool_decide; lia.
Qed.

Lemma read_hex_snoc l c : read_hex (l ++ [c]) = 16 * read_hex l + hex_value c.
Proof. unfold read_hex. by rewrite foldl_app. Qed.

Lemma hex_fuel_read u f : forall n, 0 <= n < 16 ^ Z.of_nat f -> (f <> 0)%nat -> read_hex (hex_fuel u f n) = n.
Proof.
  induction f as [|f IH]; intros n Hn Hf; [done|]. cbn [hex_fuel].
  pose proof (Z.mod_pos_bound n 16 ltac:(lia)) as Hm. pose proof (Z.div_mod n 16 ltac:(lia)) as Hdm.
  rewrite read_hex_snoc, hex_value_digit by done. case_bool_decide as Hlt; [change (read_hex []) with 0; rewrite Z.mod_small by lia; lia|].
  rewrite IH; [lia| |].
  - rewrite Nat2Z.inj_succ, Z.pow_succ_r in Hn by lia. split; [apply Z.div_pos; lia|]. apply Z.div_lt_upper_bound; lia.
  - intros ->. change (16 ^ Z.of_nat 1) with 16 in Hn. lia.
Qed.

Lemma read_hex_pad w l : read_hex (pad0 w l) = read_hex l.
Proof.
  unfold pad0. generalize (w - length l)%nat. induction n as [|n IH]; [done|]. rewrite replicate_S. exact IH.
Qed.

Lemma pad0_length w l : length (pad0 w l) = Nat.max w (length l).
Proof. unfold pad0. rewrite length_app, length_replicate. lia. Qed.

(** What [%x] and [%X] print is the number. *)
Lemma pr_x_read w n : is_u64 n -> read_hex (pad0 w (pr_x n)) = n /\ read_hex (pad0 w (pr_X n)) = n.
Proof. intros Hn. rewrite !read_hex_pad. unfold is_u64 in Hn. split; apply hex_fuel_read; lia. Qed.

(** ** The log *)

Inductive log_level_t := LOG_DEBUG | LOG_INFO | LOG_WARN | LOG_ERROR.

Definition level_rank (l : log_level_t) : Z :=
  match l with LOG_DEBUG => 0 | LOG_INFO => 1 | LOG_WARN => 2 | LOG_ERROR => 3 end.

(** [getenv] returns the value of the variable, or NULL. *)
Definition configured_level (level : option chars) : log_level_t :=
  match level with
  | None => LOG_WARN
  | Some level =>
    if decide (level = text "debug") then LOG_DEBUG
    else if decide (level = text "info") then LOG_INFO
    else if decide (level = text "warn") then LOG_WARN
    else if decide (level = text "error") then LOG_ERROR
    else LOG_WARN
  end.

Definition level_name (l : log_level_t) : chars :=
  match l with
  | LOG_DEBUG => text "DEBUG" | LOG_INFO => text "INFO" | LOG_WARN => text "WARN" | LOG_ERROR => text "ERROR"
  end.

(** The text on the error stream; [message] is the formatted message. *)
Definition os_vlog (env : option chars) (level : log_level_t) (component message : chars) : chars :=
  if bool_decide (level_rank level < level_rank (configured_level env)) then []
  else text "[" ++ level_name level ++ text "] " ++ component ++ text ": " ++ message ++ [newline].

(** What is printed at a level is printed at every higher one; with no setting,
    or with one that is not a level, warnings and errors are. *)
Lemma os_vlog_threshold env l component message :
  os_vlog env l component message <> [] <-> level_rank (configured_level env) <= level_rank l.
Proof. unfold os_vlog. case_bool_decide; split; intros; try lia; done. Qed.
