(* ===== verification/Trace.v ===== *)
(** * The dumps of the simulator ([src/libmem.c], [src/mm64.c], [src/mm-memphy.c])

    After each memory operation the library prints the state of the process:
    devices, page tables, areas, symbol table, page queue and cache pools
    ([trace_dump_state]); [src/mm64.c] can list the page table of a range of
    addresses, and [src/mm-memphy.c] the bytes of a device.  A dump is the text
    it prints; those that walk a page table are calls on the machine.

    The theorems: a dump never fails and changes nothing but the pointers that a
    walk leaves behind, so that leaving it out of the operations (as [Libmem]
    and [Kmem] do) loses nothing; what it prints is the abstract view of the
    state, page by page; the frames it calls used are exactly those that a page
    or the kernel owns. *)

From S2P Require Import Prelude.
From S2P Require Import Word.
From S2P Require Import Exclusive.
From S2P Require Import Paging.
From S2P Require Import Queue.
From S2P Require Import Sched.
From S2P Require Import MemPhy.
From S2P Require Import Region.
From S2P Require Import Machine.
From S2P Require Import PageTable.
From S2P Require Import Swap.
From S2P Require Import Vm.
From S2P Require Import Evict.
From S2P Require Import Kmem.
From S2P Require Import Kernel.
From S2P Require Import Scanf.
From S2P Require Import Printf.
Open Scope c_scope.
Open Scope Z_scope.

(** ** The text *)

Definition line (l : chars) : chars := l ++ [newline].

(** A loop that prints. *)
Fixpoint print_each {S A} (body : A -> M S chars) (l : list A) : M S chars :=
  match l with
  | [] => ret []
  | a :: l => let* t := body a in let* ts := print_each body l in ret (t ++ ts)
  end.

(** [printf] of ["(empty)"] where nothing was printed. *)
Definition or_empty (l : chars) : chars := if bool_decide (l = []) then text "(empty)" else l.

Definition trace_print_addr (addr : Z) : chars := text "0x" ++ pr_x addr.

(** ** What kernel state there is to show *)

Definition kernel_op (o : ins_opcode_t) : bool :=
  match o with
  | KMALLOC | KMEM_CACHE_CREATE | KMEM_CACHE_ALLOC | COPY_FROM_USER | COPY_TO_USER => true
  | _ => false
  end.

Definition trace_proc_has_kernel_ops (proc : Z) : M machine bool :=
  if bool_decide (proc = 0) then ret false
  else let* y := get_pcb proc in ret (existsb (fun i => kernel_op (opcode i)) (code y)).

Definition trace_has_kernel_state (proc : Z) : M machine bool :=
  let* b := trace_proc_has_kernel_ops proc in
  if b then ret true
  else
    let* x := get_mm proc in
    match x with
    | None => ret false
    | Some x =>
      ret (existsb (fun rg => bool_decide (rg_start rg < rg_end rg) && bool_decide (KMEM_VADDR_BASE <= rg_start rg)) (symrgtbl x)
           || match kcpooltbl x with Some l => bool_decide (0 < Z.of_nat (length l)) | None => false end)
    end.

(** ** Devices *)

Definition trace_frame_is_free (mp : memphy_struct) (fpn : Z) : bool := bool_decide (fpn ∈ free_fp_list mp).

Definition trace_print_frame_list (fp : list Z) : chars :=
  match fp with
  | [] => text "(empty)"
  | _ => concat ((fun f => text "[" ++ pr_u f ++ text "] ") <$> fp)
  end.

(** The frame numbers, from the last one down. *)
Definition frames_down (mp : memphy_struct) : list Z := reverse (seqZ 0 (Z.quot (maxsz mp) PAGING64_PAGESZ)).
Definition trace_print_used_frames (mp : memphy_struct) : chars :=
  if bool_decide (maxsz mp <= 0) then text "(empty)"
  else or_empty (concat ((fun f => if trace_frame_is_free mp f then [] else text "[" ++ pr_d f ++ text "] ") <$> frames_down mp)).

(** A BYTE as an [unsigned char]. *)
Definition u8 (b : Z) : Z := b mod 256.

Definition trace_dump_page (fpn : Z) : M memphy_struct chars :=
  let base := u64 (fpn * PAGING64_PAGESZ) in
  let* mp := get in
  let* ws := print_each (fun word =>
    if bool_decide (base + word * 4 < u64 (maxsz mp))
    then let* b := load_cell (base + word * 4) in ret (pad0 8 (pr_x (u8 b)) ++ text " ")
    else ret []) (seqZ 0 16) in
  ret (text "[PAGE " ++ pr_d fpn ++ text "] : " ++ line ws).

Definition trace_dump_memphy (label : chars) (d : option dev) : M machine chars :=
  match d with
  | None => ret []
  | Some d =>
    on_dev d (
      let* mp := get in
      let* pages := print_each trace_dump_page (seqZ 0 (Z.quot (maxsz mp) PAGING64_PAGESZ)) in
      ret (label ++ text " | size:" ++ line (pr_d (maxsz mp)) ++ line (text "STORAGE") ++ pages ++
           text "FREE frames: " ++ line (trace_print_frame_list (free_fp_list mp)) ++
           text "USED frames: " ++ line (trace_print_used_frames mp) ++ line (text "======================")))
  end.

(** ** Page tables *)

(** The target of an entry. *)
Definition pte_text (kernel : bool) (pte : Z) : chars :=
  if PAGING64_PAGE_PRESENT pte then text "frame=" ++ pr_u (PAGING64_PTE_FPN pte)
  else if negb kernel && PAGING64_PAGE_SWAPPED pte then text "swap=" ++ pr_u (PAGING64_PTE_SWP pte)
  else text "none".

Definition trace_dump_kernel_pgtbl (proc : Z) : M machine chars :=
  let* k := get_krnl proc in
  match k with
  | None => ret []
  | Some _ =>
    let* es := print_each (fun idx =>
      let addr := u64 (KMEM_VADDR_BASE + u64 (idx * PAGING64_PAGESZ)) in
      let* pte := kernel_walk_pte proc addr false in
      let* t := (match pte with
                 | None => ret (text "none")
                 | Some (t, i) => let* v := tbl_read t i in ret (pte_text true v)
                 end) in
      ret (text "[page=" ++ pr_x (addr_pgn addr) ++ text " -> " ++ t ++ text "] ")) (seqZ 0 4) in
    ret (text "PAGE TABLE KENEL: " ++ line es ++ line (text "======================"))
  end.

Definition trace_dump_user_pgtbl (proc : Z) : M machine chars :=
  let* es := print_each (fun pgn =>
    let* pte := pte_get_entry proc pgn in
    ret (text "[page=" ++ pr_u pgn ++ text " -> " ++ pte_text false pte ++ text "] ")) (seqZ 0 6) in
  ret (text "PAGE TABLE: " ++ line es).

(** ** The tables of the process *)

(** The end of the highest user region. *)
Definition traced_sbrk (x : mm_struct) : Z :=
  foldl (fun s rg => if bool_decide (rg_start rg < rg_end rg) && bool_decide (rg_start rg < KMEM_VADDR_BASE) &&
                       bool_decide (s < rg_end rg) then rg_end rg else s) 0 (symrgtbl x).

(** The regions of the free list that are not empty, with arrows between. *)
Fixpoint free_regions (printed : bool) (l : list vm_rg_struct) : chars :=
  match l with
  | [] => []
  | rg :: l =>
    if bool_decide (rg_start rg < rg_end rg) then
      (if printed then text " -> " else []) ++
      text "[" ++ pr_u (rg_start rg) ++ text "-" ++ pr_u (rg_end rg) ++ text "]" ++ free_regions true l
    else free_regions printed l
  end.

Definition trace_dump_vma (x : mm_struct) : chars :=
  match mmap x with
  | [] => line (text "VMA | id=0 | start=0 | end=0 | sbrk=0 | free regions: [0-0]")
  | vma :: _ =>
    let regions := free_regions false (vm_freerg_list vma) in
    text "VMA | id=" ++ pr_u (vm_id vma) ++ text " | start=" ++ pr_u (vm_start vma) ++
    text " | end=" ++ pr_u (vm_end vma) ++ text " | sbrk=" ++ pr_u (traced_sbrk x) ++ text " | free regions: " ++
    line (if bool_decide (regions = []) then text "[" ++ pr_u (traced_sbrk x) ++ text "-" ++ pr_u (vm_end vma) ++ text "]"
          else regions)
  end.

Definition symbol_text (show_mode : bool) (idx : nat) (rg : vm_rg_struct) : chars :=
  if bool_decide (rg_end rg <= rg_start rg) then []
  else if show_mode then
    text "[rg" ++ pr_d (Z.of_nat idx) ++ text ":" ++ trace_print_addr (rg_start rg) ++ text "-" ++
    trace_print_addr (rg_end rg) ++ text " mode=" ++
    (if bool_decide (KMEM_VADDR_BASE <= rg_start rg) then text "KERNEL" else text "USER") ++ text "] "
  else
    text "[rg" ++ pr_d (Z.of_nat idx) ++ text ":" ++ pr_u (rg_start rg) ++ text "-" ++ pr_u (rg_end rg) ++ text "] ".
Definition trace_dump_symbol_table (x : mm_struct) (show_mode : bool) : chars :=
  text "SYMBOL TABLE: " ++ line (or_empty (concat (imap (symbol_text show_mode) (symrgtbl x)))).

Fixpoint fifo_text (l : list Z) : chars :=
  match l with
  | [] => []
  | g :: l => text "[" ++ pr_u g ++ text "]" ++ (if bool_decide (l = []) then [] else text " -> ") ++ fifo_text l
  end.
Definition trace_dump_fifo (x : mm_struct) : chars :=
  text "FIFO PAGE LIST: " ++ line (if bool_decide (fifo_pgn x = []) then text "(empty)" else fifo_text (fifo_pgn x)).

Definition pool_text (idx : nat) (p : kcache_pool_struct) : chars :=
  if bool_decide (pool_size p = 0) then []
  else text "  pool[" ++ pr_d (Z.of_nat idx) ++ text "] size=" ++ pr_d (pool_size p) ++ text " align=" ++ pr_d (align p) ++
       text " storage=" ++ line (trace_print_addr (pool_storage p)).
Definition trace_dump_cache_pools (x : mm_struct) : chars :=
  line (text "KMEM CACHE POOLS:") ++
  line (match kcpooltbl x with None => [] | Some l => concat (imap pool_text l) end).

(** ** The whole dump *)

Definition banner : chars :=
  text "======================================== KERNEL INFO ========================================".

Definition trace_dump_state (proc : Z) (op : chars) (a0 a1 a2 a3 : Z) : M machine chars :=
  let* show_kernel := trace_has_kernel_state proc in
  let* k := get_krnl proc in
  match k with
  | None => ret []
  | Some k =>
    match mm k with
    | None => ret []
    | Some x =>
      let* t_ram := trace_dump_memphy (text "RAM") (k_mram k) in
      let* t_swp := trace_dump_memphy (text "ACTIVE SWAP") (k_mswp k) in
      let* t_kernel := (if show_kernel : bool then trace_dump_kernel_pgtbl proc else ret []) in
      let* t_user := trace_dump_user_pgtbl proc in
      ret ([newline] ++ line banner ++
           text "[EXEC] " ++ op ++ text " | args=(" ++ pr_u a0 ++ text "," ++ pr_u a1 ++ text "," ++ pr_u a2 ++ text "," ++
           pr_u a3 ++ line (text ")") ++ t_ram ++ t_swp ++ t_kernel ++ line (text "MM STRUCT") ++ t_user ++
           trace_dump_vma x ++ trace_dump_symbol_table x show_kernel ++ trace_dump_fifo x ++
           (if show_kernel then trace_dump_cache_pools x else []) ++
           line (text "================================ END ================================") ++ [newline])
    end
  end.

(** ** The listings of [src/mm64.c] *)

Definition print_list {A} (title : chars) (item : A -> chars) (l : list A) : Z * chars :=
  match l with
  | [] => (-1, title ++ line (text "NULL list"))
  | _ => (0, line title ++ concat ((fun a => line (item a)) <$> l) ++ [newline])
  end.
Definition print_list_fp (l : list Z) : Z * chars :=
  print_list (text "print_list_fp: ") (fun f => text "fp[" ++ pr_u f ++ text "]") l.
Definition print_list_rg (l : list vm_rg_struct) : Z * chars :=
  print_list (text "print_list_rg: ") (fun r => text "rg[" ++ pr_u (rg_start r) ++ text "->" ++ pr_u (rg_end r) ++ text "]") l.
Definition print_list_vma (l : list vm_area_struct) : Z * chars :=
  print_list (text "print_list_vma: ") (fun v => text "va[" ++ pr_u (vm_start v) ++ text "->" ++ pr_u (vm_end v) ++ text "]") l.
Definition print_list_pgn (l : list Z) : Z * chars :=
  print_list (text "print_list_pgn: ") (fun g => text "va[" ++ pr_u g ++ text "]-") l.

(** One page of [print_pgtbl]; nothing where a table or the entry is missing. *)
Definition vmap_text (pgn pte : Z) : chars :=
  text "vmap: VPN=" ++ pad0 16 (pr_x pgn) ++
  line (if PAGING64_PAGE_PRESENT pte then text " -> PFN=" ++ pad0 16 (pr_x (PAGING64_PTE_FPN pte)) ++ text " (Present)"
        else if PAGING64_PAGE_SWAPPED pte then text " -> SWAP=" ++ pad0 16 (pr_x (PAGING64_PTE_SWP pte)) ++ text " (Swapped)"
        else text " -> Invalid PTE").

(** [if (table[i] == 0) continue;] *)
Definition when_entry (table i : Z) (k : Z -> M machine chars) : M machine chars :=
  let* v := tbl_read table i in if bool_decide (v = 0) then ret [] else k v.

Definition print_page (caller : Z) (kr : krnl_t) (x : mm_struct) (pgn : Z) : M machine chars :=
  let addr := pgn_addr pgn in
  let '(st, ix) := get_pd_from_pagenum pgn in
  if bool_decide (st <> 0) then ret []
  else
    let root := if is_kernel_address addr then krnl_pgd kr else pgd x in
    if bool_decide (root = 0) then ret []
    else
      when_entry root (pgd_ix ix) (fun p4d_ptr =>
      when_entry p4d_ptr (p4d_ix ix) (fun pud_ptr =>
      when_entry pud_ptr (pud_ix ix) (fun pmd_ptr =>
      when_entry pmd_ptr (pmd_ix ix) (fun _ =>
      let* pte := walk_pte caller addr false in
      match pte with
      | None => ret []
      | Some (t, i) => when_entry t i (fun v => ret (vmap_text pgn v))
      end)))).

(** [(addr_t)-1] as the end stands for the first 512 pages. *)
Definition print_pgtbl (caller start end_ : Z) : M machine (Z * chars) :=
  let* k := get_krnl caller in
  match k with
  | None => ret (-1, [])
  | Some kr =>
    match mm kr with
    | None => ret (-1, [])
    | Some x =>
      let pgn_start := addr_pgn start in
      let pgn_end := if bool_decide (end_ = 2 ^ 64 - 1) then PAGING64_LEVEL_ENTRIES - 1 else addr_pgn end_ in
      if bool_decide (pgn_end < pgn_start) then ret (0, line (text "print_pgtbl:"))
      else
        let* t := print_each (print_page caller kr x) (seqZ pgn_start (pgn_end - pgn_start + 1)) in
        ret (0, line (text "print_pgtbl:") ++ t)
    end
  end.

(** ** The bytes of a device *)

(** [%02X] of a BYTE, which is a [char]: a negative one prints as 32 bits. *)
Definition byte_hex (b : Z) : chars := pad0 2 (pr_X (u32 b)) ++ text " ".
Definition byte_char (b : Z) : chars :=
  if bool_decide (32 <= b) && bool_decide (b <= 126) then [ascii_of_N (Z.to_N b)] else text ".".

Definition dump_row (addr : Z) : M memphy_struct chars :=
  let* mp := get in
  let each (f : Z -> chars) (blank : chars) := print_each (fun i =>
    if bool_decide (addr + i < u64 (maxsz mp)) then let* b := load_cell (addr + i) in ret (f b) else ret blank) (seqZ 0 16) in
  let* hexes := each byte_hex (text "   ") in
  let* ascii := each byte_char (text " ") in
  ret (pad0 8 (pr_X addr) ++ text " | " ++ hexes ++ text "| " ++ line ascii).

(** The rows start at 0, 16, 32, ... below the size. *)
Definition row_starts (sz : Z) : list Z := (fun i => 16 * i) <$> seqZ 0 ((sz + 15) / 16).

Definition MEMPHY_dump : M memphy_struct chars :=
  let* mp := get in
  let* rows := print_each dump_row (row_starts (u64 (maxsz mp))) in
  ret (text "MEMPHY Dump (size: " ++ pr_d (maxsz mp) ++ line (text " bytes):") ++
       line (text "Address  | 00 01 02 03 04 05 06 07 08 09 0A 0B 0C 0D 0E 0F | ASCII") ++
       line (text "---------|---------------------------------------------------|------") ++ rows ++ [newline]).

(** ** A dump changes nothing *)

(** Only the pointers of the last walk differ. *)
Definition walk_only (m m' : machine) : Prop := exists w1 w2, m' = set_krnl_walk (set_mm_walk m w1) w2.

Lemma walk_refl m : walk_only m m.
Proof. exists (mm_walk m), (krnl_walk m). by destruct m. Qed.
Lemma walk_trans m1 m2 m3 : walk_only m1 m2 -> walk_only m2 m3 -> walk_only m1 m3.
Proof. intros (u1 & u2 & ->) (w1 & w2 & ->). by exists w1, w2. Qed.

(** A call that leaves the machine alone but for these. *)
Class WalkOnly {A} (c : M machine A) : Prop := walks : forall m a m', c m = Ret a m' -> walk_only m m'.
#[local] Hint Mode WalkOnly ! ! : typeclass_instances.

#[export] Instance walks_ret {A} (a : A) : WalkOnly (ret a).
Proof. intros m b m' [= _ <-]. apply walk_refl. Qed.
#[export] Instance walks_ub {A} : WalkOnly (ub (A := A)).
Proof. intros m b m'. done. Qed.
#[export] Instance walks_bind {A B} (c : M machine A) (k : A -> M machine B) :
  WalkOnly c -> (forall a, WalkOnly (k a)) -> WalkOnly (bind c k).
Proof.
  intros H1 H2 m b m'. unfold bind. destruct (c m) as [a m1| |] eqn:E; [|done..]. intros E'.
  eapply walk_trans; [by eapply H1|by eapply H2].
Qed.
#[export] Instance walks_get_pcb p : WalkOnly (get_pcb p).
Proof. intros m b m'. unfold get_pcb. destruct (procs m !! p); [|done]. intros [= _ <-]. apply walk_refl. Qed.
#[export] Instance walks_tbl_read t i : WalkOnly (tbl_read t i).
Proof.
  intros m b m'. unfold tbl_read. destruct (tables m !! t); [|done]. case_bool_decide; [|done]. intros [= _ <-]. apply walk_refl.
Qed.
#[export] Instance walks_note kernel p f : WalkOnly (note_walk kernel p f).
Proof.
  intros m b m' [= _ <-]. destruct kernel; [by exists (mm_walk m), (<[p := f (default (mkWalk 0 0 0 0) (krnl_walk m !! p))]> (krnl_walk m))|].
  by exists (<[p := f (default (mkWalk 0 0 0 0) (mm_walk m !! p))]> (mm_walk m)), (krnl_walk m); destruct m.
Qed.

(** By cases on what the call tests. *)
Ltac walks := repeat first
  [ apply _ | apply walks_bind; [|intros] | progress cbv zeta | case_match | progress cbn [negb andb] ].

#[export] Instance walks_get_krnl p : WalkOnly (get_krnl p).
Proof. unfold get_krnl. walks. Qed.
#[export] Instance walks_get_mm p : WalkOnly (get_mm p).
Proof. unfold get_mm. walks. Qed.
#[export] Instance walks_if_ptr {A} p (k : M machine (option A)) : WalkOnly k -> WalkOnly (if_ptr p k).
Proof. intros H. unfold if_ptr. walks. Qed.
#[export] Instance walks_next t i : WalkOnly (next_level t i false).
Proof. unfold next_level. apply walks_bind; [apply _|]. intros n. rewrite andb_false_r. apply _. Qed.
#[export] Instance walks_root p kernel : WalkOnly (walk_root p kernel false).
Proof. unfold walk_root. apply walks_bind; [apply _|]. intros [k|]; [|apply _]. rewrite andb_false_r. destruct kernel, (mm k); rewrite ?andb_false_r; apply _. Qed.
#[export] Instance walks_walk p a : WalkOnly (walk_pte p a false).
Proof. unfold walk_pte. apply walks_bind; [apply _|]. intros [x|]; [|apply _]. destruct (get_pd_from_address a) as [st ix]. case_bool_decide; apply _. Qed.
#[export] Instance walks_kernel_walk p a : WalkOnly (kernel_walk_pte p a false).
Proof.
  unfold kernel_walk_pte. apply walks_bind; [apply _|]. intros [k|]; [|apply _]. destruct (get_pd_from_address a) as [st ix].
  case_bool_decide; [apply _|]. cbn [negb]. apply walks_bind; [case_bool_decide; apply _|]. intros r. apply _.
Qed.
#[export] Instance walks_pte_get p g : WalkOnly (pte_get_entry p g).
Proof. unfold pte_get_entry. apply walks_bind; [apply _|]. intros [[t i]|]; apply _. Qed.
#[export] Instance walks_print_each {A} (body : A -> M machine chars) l : (forall a, WalkOnly (body a)) -> WalkOnly (print_each body l).
Proof. intros H. induction l as [|a l IH]; cbn [print_each]; apply _. Qed.

Lemma wp_walks {A} (c : M machine A) (Q : A -> machine -> Prop) m :
  WalkOnly c -> wp c Q m -> wp c (fun a m' => Q a m' /\ walk_only m m') m.
Proof. intros Hc Hw. unfold wp in *. destruct (c m) as [a m'| |] eqn:E; [|done..]. split; [done|by eapply Hc]. Qed.

(** The invariant and the views do not see the walk. *)
Lemma walk_inv E F m m' : walk_only m m' -> vm_inv E F m -> vm_inv E F m'.
Proof. intros (w1 & w2 & ->) [[] H1 H2]. split; [by split|done|done]. Qed.
Lemma walk_mm m m' p k x : walk_only m m' -> has_mm m p k x -> has_mm m' p k x.
Proof. by intros (w1 & w2 & ->). Qed.
Lemma walk_views m m' p g :
  walk_only m m' -> page_state m' p g = page_state m p g /\ kpage m' p g = kpage m p g /\ ram m' = ram m /\ swp m' = swp m /\ tables m' = tables m.
Proof. by intros (w1 & w2 & ->). Qed.

(** A loop that prints a line for each element. *)
Lemma print_each_wp {S A} (body : A -> M S chars) (f : A -> chars) (I : S -> Prop) l :
  (forall a s, a ∈ l -> I s -> wp (body a) (fun t s' => t = f a /\ I s') s) ->
  forall s, I s -> wp (print_each body l) (fun t s' => t = concat (f <$> l) /\ I s') s.
Proof.
  induction l as [|a l IH]; intros Hb s Hs; cbn [print_each]; [by apply wp_ret|].
  apply wp_bind. eapply wp_mono; [apply Hb; [by left|done]|]. intros t s1 [-> H1]. apply wp_bind.
  eapply wp_mono; [apply IH; [|done]|]; [intros; apply Hb; [by right|done]|]. intros ts s2 [-> H2]. by apply wp_ret.
Qed.

(** ** What a dump prints *)

(** The target of a page. *)
Definition state_text (kernel : bool) (s : pte_state) : chars :=
  match s with
  | Resident f => text "frame=" ++ pr_u f
  | Swapped o => if kernel then text "none" else text "swap=" ++ pr_u o
  | Unmapped => text "none"
  end.

Lemma pte_text_state kernel v : pte_text kernel v = state_text kernel (decode_pte v).
Proof. unfold pte_text, decode_pte. destruct (PAGING64_PAGE_PRESENT v); [done|]. by destruct (PAGING64_PAGE_SWAPPED v), kernel. Qed.

Definition user_pages_view (m : machine) (p : Z) : chars :=
  text "PAGE TABLE: " ++
  line (concat ((fun g => text "[page=" ++ pr_u g ++ text " -> " ++ state_text false (page_state m p g) ++ text "] ") <$> seqZ 0 6)).
Definition kernel_pages_view (m : machine) (p : Z) : chars :=
  text "PAGE TABLE KENEL: " ++
  line (concat ((fun i => text "[page=" ++ pr_x (KPAGE + i) ++ text " -> " ++ state_text true (kpage m p (KPAGE + i)) ++ text "] ") <$> seqZ 0 4)) ++
  line (text "======================").
Definition frame_view (mp : memphy_struct) (f : Z) : chars :=
  text "[PAGE " ++ pr_d f ++ text "] : " ++
  line (concat ((fun w => pad0 8 (pr_x (u8 (cell mp (f * PAGING64_PAGESZ + w * 4)))) ++ text " ") <$> seqZ 0 16)).
Definition device_view (label : chars) (mp : memphy_struct) : chars :=
  label ++ text " | size:" ++ line (pr_d (maxsz mp)) ++ line (text "STORAGE") ++ concat (frame_view mp <$> seqZ 0 (nframes mp)) ++
  text "FREE frames: " ++ line (trace_print_frame_list (free_fp_list mp)) ++
  text "USED frames: " ++ line (trace_print_used_frames mp) ++ line (text "======================").

Lemma user_pgtbl_spec E F m p k x :
  vm_inv E F m -> has_mm m p k x ->
  wp (trace_dump_user_pgtbl p) (fun t m' => t = user_pages_view m p /\ walk_only m m') m.
Proof.
  intros HI Hp. unfold trace_dump_user_pgtbl. apply wp_bind. eapply wp_mono.
  - eapply (print_each_wp _ _ (walk_only m)); [|apply walk_refl]. intros g m1 Hg H1. apply elem_of_seqZ in Hg.
    apply wp_bind. eapply wp_mono; [apply wp_walks; [apply _|]; apply (user_pte_spec E F m1 p k x)|].
    + by eapply walk_inv.
    + by eapply walk_mm.
    + unfold user_page. lia.
    + intros v m2 [[-> _] H2]. apply wp_ret. split; [|by eapply walk_trans]. cbv beta.
      rewrite pte_text_state, <- page_state_user_pte, (proj1 (walk_views m m1 p g H1)). reflexivity.
  - intros t m1 [-> H1]. by apply wp_ret.
Qed.

(** The first pages of the kernel's direct map. *)
Lemma kmem_page i : 0 <= i < 4 ->
  let a := u64 (KMEM_VADDR_BASE + u64 (i * PAGING64_PAGESZ)) in is_u64 a /\ canonical a /\ addr_pgn a = KPAGE + i.
Proof.
  intros Hi. cbv zeta. unfold PAGING64_PAGESZ. rewrite (u64_small (i * 4096)) by (unfold is_u64; lia).
  rewrite u64_small by (unfold is_u64, KMEM_VADDR_BASE; lia). split; [unfold is_u64, KMEM_VADDR_BASE; lia|].
  split; [right; unfold kernel_addr, KMEM_VADDR_BASE; lia|]. rewrite addr_pgn_div. unfold KPAGE, PAGING64_PAGESZ.
  rewrite Z.div_add by lia. done.
Qed.

Lemma kernel_entry_spec E F m p k x a :
  vm_inv E F m -> has_mm m p k x -> is_u64 a -> canonical a ->
  wp (let* pte := kernel_walk_pte p a false in
      match pte with None => ret (text "none") | Some (t, i) => let* v := tbl_read t i in ret (pte_text true v) end)
    (fun t m' => t = state_text true (kpage m p (addr_pgn a)) /\ walk_only m m') m.
Proof.
  intros HI Hp Ha Hc. pose proof (vs_forest _ (vi_shape _ _ _ HI)) as HF.
  assert (HR : roots m (krnl_pgd k)) by (exists p, k, x; split; [done|by right]).
  apply wp_bind. eapply wp_mono; [apply wp_walks; [apply _|]; by apply (kernel_walk_spec (roots m) m p k x HF Hp HR a false)|].
  intros o m1 [(Hs & Ht & Ho) H1]. specialize (Ht eq_refl). rewrite Ht in Ho. rewrite (kpage_mm m p k x _ Hp).
  destruct o as [[t i]|].
  - destruct Ho as [Ho ->]. destruct (forest_alloc _ _ _ HF _ _ _ HR (page_path_le _) Ho) as [_ [b Hb]].
    pose proof (get_pd_ix_range (pgn_addr (addr_pgn a))) as (_ & _ & _ & _ & H5).
    apply wp_bind. eapply wp_eq; [eapply tbl_read_ok; [by rewrite Ht|done]|]. apply wp_ret. split; [|done].
    rewrite pte_text_state. unfold pte_at. by rewrite Ho, Ht.
  - apply wp_ret. split; [|done]. unfold pte_at. by destruct Ho as [-> _].
Qed.

Lemma kernel_pgtbl_spec E F m p k x :
  vm_inv E F m -> has_mm m p k x ->
  wp (trace_dump_kernel_pgtbl p) (fun t m' => t = kernel_pages_view m p /\ walk_only m m') m.
Proof.
  intros HI Hp. unfold trace_dump_kernel_pgtbl. apply wp_bind. eapply wp_eq; [apply get_krnl_ok; apply Hp|]. cbv beta iota.
  apply wp_bind. eapply wp_mono.
  - eapply (print_each_wp _ _ (walk_only m)); [|apply walk_refl]. intros i m1 Hi H1. apply elem_of_seqZ in Hi.
    destruct (kmem_page i ltac:(lia)) as (Ha & Hc & Eg). cbv zeta.
    set (a := u64 (KMEM_VADDR_BASE + u64 (i * PAGING64_PAGESZ))) in *.
    pose proof (kernel_entry_spec E F m1 p k x a ltac:(by eapply walk_inv) ltac:(by eapply walk_mm) Ha Hc) as Hw.
    unfold wp, bind in *. destruct (kernel_walk_pte p a false m1) as [[[t j]|] m2| |]; try done.
    + destruct (tbl_read t j m2) as [v m3| |]; try done. destruct Hw as [Ht H3]. cbn [ret] in *. split; [|by eapply walk_trans].
      rewrite Ht, Eg. rewrite (proj1 (proj2 (walk_views m m1 p (KPAGE + i) H1))). reflexivity.
    + destruct Hw as [Ht H3]. split; [|by eapply walk_trans].
      rewrite Ht, Eg. rewrite (proj1 (proj2 (walk_views m m1 p (KPAGE + i) H1))). reflexivity.
  - intros t m1 [-> H1]. by apply wp_ret.
Qed.

(** A device. *)
Lemma dump_page_spec mp f :
  mem_ok mp -> 0 <= f < nframes mp -> wp (trace_dump_page f) (fun t s => t = frame_view mp f /\ s = mp) mp.
Proof.
  intros (Hm & Hsz & _) Hf. unfold nframes, PAGING64_PAGESZ in Hf. unfold trace_dump_page. cbv zeta.
  assert (Hb : u64 (f * PAGING64_PAGESZ) = f * 4096) by (unfold PAGING64_PAGESZ; apply u64_small; unfold is_u64; Z.div_mod_to_equations; lia).
  rewrite Hb. apply wp_bind. unfold get at 1, wp at 1. apply wp_bind. eapply wp_mono.
  - eapply (print_each_wp _ _ (fun s => s = mp)); [|done]. intros w s Hw ->. apply elem_of_seqZ in Hw.
    rewrite (u64_small (maxsz mp)) by (unfold is_u64; lia). rewrite bool_decide_true by (Z.div_mod_to_equations; lia).
    apply wp_bind. unfold load_cell, wp at 1. rewrite bool_decide_true by (rewrite Hsz; Z.div_mod_to_equations; lia).
    apply wp_ret. split; [|done]. reflexivity.
  - intros t s [-> ->]. by apply wp_ret.
Qed.

Lemma dump_memphy_spec label d m :
  mem_ok (dev_of m d) -> wp (trace_dump_memphy label (Some d)) (fun t m' => t = device_view label (dev_of m d) /\ m' = m) m.
Proof.
  intros Hm. cbn [trace_dump_memphy].
  assert (Hw : wp (let* mp := get in
      let* pages := print_each trace_dump_page (seqZ 0 (Z.quot (maxsz mp) PAGING64_PAGESZ)) in
      ret (label ++ text " | size:" ++ line (pr_d (maxsz mp)) ++ line (text "STORAGE") ++ pages ++
           text "FREE frames: " ++ line (trace_print_frame_list (free_fp_list mp)) ++
           text "USED frames: " ++ line (trace_print_used_frames mp) ++ line (text "======================")))
    (fun t s => t = device_view label (dev_of m d) /\ s = dev_of m d) (dev_of m d)).
  { apply wp_bind. unfold get at 1, wp at 1. apply wp_bind.
    replace (Z.quot (maxsz (dev_of m d)) PAGING64_PAGESZ) with (nframes (dev_of m d)) by (unfold nframes; symmetry; apply Z.quot_div_nonneg; [apply Hm|done]).
    eapply wp_mono; [eapply (print_each_wp _ _ (fun s => s = dev_of m d)); [|done]|].
    - intros f s Hf ->. apply elem_of_seqZ in Hf. apply dump_page_spec; [done|lia].
    - intros t s [-> ->]. by apply wp_ret. }
  unfold wp, on_dev, on_ram, on_swp in *. destruct d; cbn [dev_of] in *;
    match type of Hw with match ?c with _ => _ end => destruct c as [t s| |]; try done end;
    destruct Hw as [-> ->]; (split; [done|by destruct m]).
Qed.

(** ** The dump of a process *)

Lemma kernel_ops_pure p m : is_Some (procs m !! p) \/ p = 0 -> exists b, trace_proc_has_kernel_ops p m = Ret b m.
Proof.
  intros Hp. unfold trace_proc_has_kernel_ops, bind. case_bool_decide; [by eexists|].
  destruct Hp as [[y Hy]|?]; [|done]. unfold get_pcb. rewrite Hy. by eexists.
Qed.

(** Is there kernel state to show? *)
Definition shows_kernel (y : pcb_t) (x : mm_struct) : bool :=
  existsb (fun i => kernel_op (opcode i)) (code y) ||
  (existsb (fun rg => bool_decide (rg_start rg < rg_end rg) && bool_decide (KMEM_VADDR_BASE <= rg_start rg)) (symrgtbl x)
   || match kcpooltbl x with Some l => bool_decide (0 < Z.of_nat (length l)) | None => false end).

Lemma kernel_state_eq m p y k x :
  procs m !! p = Some y -> has_mm m p k x -> trace_has_kernel_state p m = Ret (shows_kernel y x) m.
Proof.
  intros Hy Hp. pose proof Hp as (Hp0 & Hk & Hx). unfold trace_has_kernel_state, trace_proc_has_kernel_ops, bind.
  rewrite bool_decide_false by done. unfold get_pcb. rewrite Hy. unfold ret at 1, shows_kernel.
  destruct (existsb _ (code y)); [done|]. unfold get_mm, get_krnl, bind. rewrite bool_decide_false by done.
  unfold get_pcb. rewrite Hy. unfold krnl_of in Hk. rewrite Hy in Hk. cbn in Hk. unfold ret. rewrite Hk. cbn. by rewrite Hx.
Qed.

(** The dump as the abstract state has it. *)
Definition state_view (m : machine) (p : Z) (y : pcb_t) (x : mm_struct) (op : chars) (a0 a1 a2 a3 : Z) : chars :=
  [newline] ++ line banner ++
  text "[EXEC] " ++ op ++ text " | args=(" ++ pr_u a0 ++ text "," ++ pr_u a1 ++ text "," ++ pr_u a2 ++ text "," ++
  pr_u a3 ++ line (text ")") ++ device_view (text "RAM") (ram m) ++ device_view (text "ACTIVE SWAP") (swp m) ++
  (if shows_kernel y x then kernel_pages_view m p else []) ++ line (text "MM STRUCT") ++ user_pages_view m p ++
  trace_dump_vma x ++ trace_dump_symbol_table x (shows_kernel y x) ++ trace_dump_fifo x ++
  (if shows_kernel y x then trace_dump_cache_pools x else []) ++
  line (text "================================ END ================================") ++ [newline].

Lemma dump_state_spec E F m p y k x op a0 a1 a2 a3 :
  vm_inv E F m -> procs m !! p = Some y -> has_mm m p k x ->
  wp (trace_dump_state p op a0 a1 a2 a3) (fun t m' => t = state_view m p y x op a0 a1 a2 a3 /\ walk_only m m') m.
Proof.
  intros HI Hy Hp. pose proof (vi_shape _ _ _ HI) as HS. unfold trace_dump_state.
  destruct (vs_procs m HS p y Hy) as (k' & x' & Hp' & Hram & Hswp & _).
  destruct (has_mm_det _ _ _ _ _ _ Hp Hp') as [E1 E2]. subst k' x'. clear Hp'.
  apply wp_bind. eapply wp_eq; [by apply (kernel_state_eq m p y k x)|]. cbv beta.
  apply wp_bind. eapply wp_eq; [apply get_krnl_ok; apply Hp|]. cbv beta iota. pose proof Hp as (_ & _ & ->).
  unfold k_mram, k_mswp. rewrite Hram, Hswp. apply wp_bind.
  eapply wp_mono; [apply (dump_memphy_spec _ Ram), (vs_ram _ HS)|]. intros t1 m1 [-> ->]. apply wp_bind.
  eapply wp_mono; [apply (dump_memphy_spec _ Swp), (vs_swp _ HS)|]. intros t2 m2 [-> ->]. apply wp_bind.
  eapply (wp_mono _ (fun t m' => t = (if shows_kernel y x then kernel_pages_view m p else []) /\ walk_only m m')).
  { destruct (shows_kernel y x); [by eapply kernel_pgtbl_spec|]. apply wp_ret. split; [done|apply walk_refl]. }
  intros t3 m3 [-> H3]. apply wp_bind.
  eapply wp_mono; [eapply (user_pgtbl_spec E F m3); [by eapply walk_inv|by eapply walk_mm]|]. intros t4 m4 [-> H4]. apply wp_ret.
  split; [|by eapply walk_trans]. destruct H3 as (w1 & w2 & ->). reflexivity.
Qed.

(** ** The listing of a page table *)

#[export] Instance page_ok_dec g : Decision (page_ok g).
Proof. unfold page_ok, user_page, kernel_page. apply _. Defined.

(** What [print_pgtbl] prints for a page: nothing for an entry that is 0 and for
    a page whose address is not canonical. *)
Definition page_view (m : machine) (k : krnl_t) (x : mm_struct) (g : Z) : chars :=
  let pte := pte_at (tables m) (root_for k x g) g in
  if bool_decide (page_ok g) && negb (bool_decide (pte = 0)) then vmap_text g pte else [].

Lemma pagenum_status g : 0 <= g < 2 ^ 52 ->
  get_pd_from_pagenum g = get_pd_from_address (pgn_addr g) /\
  (fst (get_pd_from_address (pgn_addr g)) = 0 <-> page_ok g).
Proof.
  intros Hg. split.
  - unfold get_pd_from_pagenum. rewrite bool_decide_false; [done|]. vm_compute (Z.shiftr _ _). lia.
  - rewrite get_pd_ok by (rewrite pgn_addr_mul by done; unfold is_u64; lia). rewrite pgn_addr_mul by done.
    unfold canonical, user_addr, kernel_addr, page_ok, user_page, kernel_page. lia.
Qed.

Section listing.
Context (E F : list Z) (m : machine) (p : Z) (k : krnl_t) (x : mm_struct).
Context (HI : vm_inv E F m) (Hp : has_mm m p k x).

(** One level down. *)
Lemma when_entry_wp r path t i K Q :
  roots m r -> (length path <= 3)%nat -> reach (tables m) r path = Some t -> 0 <= i < 512 ->
  (reach (tables m) r (path ++ [i]) = None -> Q [] m) ->
  (forall t', reach (tables m) r (path ++ [i]) = Some t' -> wp (K t') Q m) -> wp (when_entry t i K) Q m.
Proof using HI.
  intros HR Hl Ht Hi H0 H1. pose proof (vs_forest _ (vi_shape _ _ _ HI)) as HF.
  destruct (forest_alloc _ _ _ HF r path t HR ltac:(lia) Ht) as [_ [b Hb]].
  unfold when_entry. apply wp_bind. eapply wp_eq; [by eapply tbl_read_ok|]. rewrite reach_snoc, Ht in H0, H1.
  cbn [mbind option_bind] in H0, H1. unfold child in *. case_bool_decide; [apply wp_ret; by apply H0|]. by apply H1.
Qed.

Lemma print_page_spec g :
  0 <= g < 2 ^ 52 -> wp (print_page p k x g) (fun t m' => t = page_view m k x g /\ walk_only m m') m.
Proof using HI Hp.
  intros Hg. destruct (pagenum_status g Hg) as [Epd Hst]. unfold print_page, page_view. rewrite Epd.
  destruct (get_pd_from_address (pgn_addr g)) as [st ix] eqn:Ea. cbn [fst] in Hst.
  case_bool_decide as H0; [rewrite bool_decide_false by tauto; apply wp_ret; split; [done|apply walk_refl]|].
  assert (Hok : page_ok g) by (apply Hst; lia). rewrite (bool_decide_true (page_ok g)) by done. cbn [andb].
  fold (root_for k x g). set (r := root_for k x g). pose proof (vs_forest _ (vi_shape _ _ _ HI)) as HF.
  assert (HR : roots m r) by (exists p, k, x; split; [done|]; unfold r, root_for; destruct (is_kernel_address _); auto).
  destruct (forest_alloc _ _ _ HF r [] r HR ltac:(simpl; lia) eq_refl) as [Hr0 _]. rewrite bool_decide_false by lia.
  assert (Hpath : page_path g = [pgd_ix ix; p4d_ix ix; pud_ix ix; pmd_ix ix]) by (unfold page_path; by rewrite Ea).
  pose proof (get_pd_ix_range (pgn_addr g)) as (H1 & H2 & H3 & H4 & H5). rewrite Ea in *. cbn [snd] in *.
  assert (Hnone : forall n, reach (tables m) r (take n (page_path g)) = None ->
    [] = (if negb (bool_decide (pte_at (tables m) r g = 0)) then vmap_text g (pte_at (tables m) r g) else []) /\ walk_only m m).
  { intros n E1. split; [|apply walk_refl]. unfold pte_at.
    rewrite <- (take_drop n (page_path g)), (reach_none_app _ _ _ (drop n (page_path g)) E1). done. }
  rewrite Hpath in Hnone.
  apply (when_entry_wp r [] r); [done|simpl; lia|done|done|apply (Hnone 1%nat)|]. intros t1 Ht1.
  apply (when_entry_wp r [pgd_ix ix] t1); [done|simpl; lia|done|done|apply (Hnone 2%nat)|]. intros t2 Ht2.
  apply (when_entry_wp r [pgd_ix ix; p4d_ix ix] t2); [done|simpl; lia|done|done|apply (Hnone 3%nat)|]. intros t3 Ht3.
  apply (when_entry_wp r [pgd_ix ix; p4d_ix ix; pud_ix ix] t3); [done|simpl; lia|done|done|apply (Hnone 4%nat)|]. intros t4 Ht4.
  apply wp_bind. eapply wp_mono; [apply wp_walks; [apply _|]; by apply (walk_pte_spec (roots m) m p k x HF Hp g false)|].
  intros o m1 [(_ & Ht & Ho) Hw]. specialize (Ht eq_refl). rewrite Ht in Ho. destruct o as [[t i]|].
  - destruct Ho as [Ho ->]. destruct (forest_alloc _ _ _ HF _ _ _ HR (page_path_le _) Ho) as [_ [b Hb]].
    unfold when_entry. apply wp_bind. eapply wp_eq; [eapply tbl_read_ok; [by rewrite Ht|unfold page_index; by rewrite Ea]|].
    rewrite Ht. unfold pte_at. fold r in Ho. rewrite Ho. clear Hnone. case_bool_decide; by apply wp_ret.
  - destruct Ho as [Ho _]. apply wp_ret. split; [|done]. unfold pte_at. fold r in Ho. by rewrite Ho.
Qed.
End listing.

(** ** The frames in use *)

(** The frames that the dump calls used. *)
Definition used_frames (mp : memphy_struct) : list Z := filter (fun f => trace_frame_is_free mp f = false) (frames_down mp).

Lemma used_frames_text mp :
  0 < maxsz mp -> trace_print_used_frames mp = or_empty (concat ((fun f => text "[" ++ pr_d f ++ text "] ") <$> used_frames mp)).
Proof.
  intros Hm. unfold trace_print_used_frames. rewrite bool_decide_false by lia. f_equal. unfold used_frames.
  induction (frames_down mp) as [|f l IH]; [done|]. rewrite fmap_cons. cbn [concat]. rewrite IH.
  destruct (trace_frame_is_free mp f) eqn:Ef.
  - rewrite filter_cons_False by (by rewrite Ef). done.
  - rewrite filter_cons_True by done. done.
Qed.

Lemma used_frames_spec mp f :
  mem_ok mp -> f ∈ used_frames mp <-> 0 <= f < nframes mp /\ f ∉ free_fp_list mp.
Proof.
  intros Hm. unfold used_frames, frames_down, trace_frame_is_free. rewrite list_elem_of_filter, elem_of_reverse, elem_of_seqZ.
  rewrite bool_decide_eq_false, Z.quot_div_nonneg by (apply Hm || done). unfold nframes. lia || tauto.
Qed.

(** ** Properties *)

(** C32. The dumps are harmless and true: in every state that satisfies the memory
    invariant, [trace_dump_state] returns, what it prints is the abstract view of
    the process (for each page its frame, its swap slot or nothing; the frames of
    both devices; areas, symbols and pools), and nothing changes but the pointers
    a walk leaves behind. *)
Theorem dump_shows_state E F m p y k x op a0 a1 a2 a3 :
  vm_inv E F m -> procs m !! p = Some y -> has_mm m p k x ->
  wp (trace_dump_state p op a0 a1 a2 a3) (fun t m' => t = state_view m p y x op a0 a1 a2 a3 /\ walk_only m m') m.
Proof. apply dump_state_spec. Qed.

Lemma dump_shows_state_witness :
  wp (trace_dump_state 100 (text "FREE") 0 0 0 0) (fun t m' =>
    t = state_view demo 100 (default (mkPcb 0 0 [] [] 0 0 None 0) (procs demo !! 100)) demo_mm (text "FREE") 0 0 0 0 /\ walk_only demo m') demo.
Proof. exact (dump_shows_state [] [] demo 100 _ demo_krnl demo_mm _ 0 0 0 0 demo_inv eq_refl demo_has_mm). Defined.

(** The listing of a page table: [print_pgtbl] returns 0 and prints, for every
    page between the two addresses, exactly the pages whose entry is not 0, in
    order and with what the entry says; nothing else changes. *)
Theorem print_pgtbl_exact E F m p k x start end_ :
  vm_inv E F m -> has_mm m p k x -> is_u64 start -> is_u64 end_ -> end_ <> 2 ^ 64 - 1 -> addr_pgn start <= addr_pgn end_ ->
  wp (print_pgtbl p start end_) (fun '(r, t) m' => r = 0 /\ walk_only m m' /\
    t = line (text "print_pgtbl:") ++
        concat (page_view m k x <$> seqZ (addr_pgn start) (addr_pgn end_ - addr_pgn start + 1))) m.
Proof.
  intros HI Hp Hs He Hne Hle. unfold print_pgtbl. apply wp_bind. eapply wp_eq; [apply get_krnl_ok; apply Hp|]. cbv beta iota.
  pose proof Hp as (_ & _ & ->). rewrite (bool_decide_false (end_ = _)) by done. rewrite bool_decide_false by lia.
  apply wp_bind. eapply wp_mono.
  - eapply (print_each_wp _ (page_view m k x) (walk_only m)); [|apply walk_refl]. intros g m1 Hg H1. apply elem_of_seqZ in Hg.
    assert (0 <= g < 2 ^ 52) as Hg'.
    { rewrite !addr_pgn_div in Hg. unfold is_u64 in *. Z.div_mod_to_equations. lia. }
    eapply wp_mono; [apply (print_page_spec E F m1 p k x ltac:(by eapply walk_inv) ltac:(by eapply walk_mm) g Hg')|].
    intros t m2 [-> H2]. split; [|by eapply walk_trans]. by destruct H1 as (w1 & w2 & ->).
  - intros t m1 [-> H1]. by apply wp_ret.
Qed.

Lemma print_pgtbl_exact_witness :
  wp (print_pgtbl 100 0 8191) (fun '(r, t) m' => r = 0 /\ walk_only demo m' /\
    t = line (text "print_pgtbl:") ++ concat (page_view demo demo_krnl demo_mm <$> seqZ 0 2)) demo.
Proof.
  exact (print_pgtbl_exact [] [] demo 100 demo_krnl demo_mm 0 8191 demo_inv demo_has_mm
    ltac:(unfold is_u64; lia) ltac:(unfold is_u64; lia) ltac:(lia) ltac:(vm_compute; discriminate)).
Defined.

(** The frames a dump lists as used are those outside the free list: every
    frame that a page of a process or the kernel owns is among them, and none that
    is free. *)
Theorem used_frames_owned E F m f :
  vm_inv E F m ->
  (forall p g, user_page g -> page_state m p g = Resident f -> f ∈ used_frames (ram m)) /\
  (f ∈ used_fp_list (ram m) -> f ∈ used_frames (ram m)) /\
  (f ∈ used_frames (ram m) -> 0 <= f < nframes (ram m) /\ f ∉ free_fp_list (ram m)).
Proof.
  intros HI. pose proof (vs_ram _ (vi_shape _ _ _ HI)) as Hm. destruct (vi_ram _ _ _ HI) as [HN Hr Hh _].
  unfold ram_lists in *. split; [|split].
  - intros p g Hg Hs. destruct (Hh (p, g) f) as [? Hn]; [unfold ram_held; cbn [fst snd]; rewrite decide_True by done; by rewrite Hs|].
    apply used_frames_spec; [done|]. split; [done|]. intros Hin. apply Hn. rewrite !elem_of_app. auto.
  - intros Hin. apply used_frames_spec; [done|]. split; [apply Hr; rewrite !elem_of_app; auto|]. intros Hfree.
    rewrite <- app_assoc in HN. apply NoDup_app in HN as (_ & HN & _). apply (HN f Hfree), elem_of_app. by left.
  - by apply used_frames_spec.
Qed.

Lemma used_frames_owned_witness : 0 ∉ used_frames (ram demo).
Proof.
  intros H. apply (used_frames_owned [] [] demo 0 demo_inv) in H as [_ H]. apply H. vm_compute. left.
Defined.

(** A row of [MEMPHY_dump] loses its columns at a negative byte, which [%02X]
    prints with eight digits. *)
Theorem dump_negative_byte :
  byte_hex 127 = text "7F " /\ byte_hex (-1) = text "FFFFFFFF " /\
  forall b, 0 <= b < 128 -> length (byte_hex b) = 3%nat.
Proof.
  split; [reflexivity|]. split; [reflexivity|]. intros b Hb. unfold byte_hex. rewrite length_app, pad0_length.
  unfold u32. rewrite Z.mod_small by lia. unfold pr_X. assert (length (hex_fuel true 16 b) <= 2)%nat; [|simpl (length (text " ")); lia].
  change (hex_fuel true 16 b) with ((if bool_decide (b < 16) then [] else hex_fuel true 15 (b / 16)) ++ [hex_digit true (b mod 16)]).
  rewrite length_app. case_bool_decide; [simpl; lia|].
  change (hex_fuel true 15 (b / 16)) with ((if bool_decide (b / 16 < 16) then [] else hex_fuel true 14 (b / 16 / 16)) ++ [hex_digit true (b / 16 mod 16)]).
  rewrite bool_decide_true by (Z.div_mod_to_equations; lia). simpl. lia.
Qed.
