(* ===== verification/Legacy.v ===== *)
(** * The code of other configurations

    Parts that the build in use does not reach: the FIFO scheduler of
    [src/sched.c] (without [MLQ_SCHED]), the segmented memory of [src/mem.c] with
    the instructions of [src/cpu.c] that use it (without [MM_PAGING]), and the
    32-bit page-table entries of [src/mm.c] and [include/mm.h] (without [MM64]).
    The scheduler is a queue; the segmented memory refuses every access; the
    addresses split and the entries read back, and the end of a process gives back
    what its table holds.  Two theorems say where this code does not do what its
    comments promise. *)

From S2P Require Import Prelude.
From S2P Require Import Scanf.
From S2P Require Import Printf.
From S2P Require Import Word.
From S2P Require Import Queue.
From S2P Require Import Sched.
From S2P Require Import MemPhy.
From S2P Require Import Region.
From S2P Require Import Machine.
From S2P Require Import PageTable.
Open Scope c_scope.
Open Scope Z_scope.

(** ** The FIFO scheduler *)

Module Fifo.

Definition set_ready (s : sched) (q : queue_t) : sched :=
  mkSched q (run_queue s) (running_list s) (mlq_ready_queue s) (slot s) (linked s).

Definition queue_empty (s : sched) : bool := empty (Some (ready_queue s)) && empty (Some (run_queue s)).

Definition get_proc (s : sched) : Z * sched :=
  let '(p, q) := dequeue (Some (ready_queue s)) in (p, set_ready s (default empty_queue q)).

Definition put_proc (p : Z) : M sched unit := fun s =>
  if bool_decide (p = 0) then Ret tt s
  else
    let s := link s p in
    let '(r, q) := enqueue (Some (ready_queue s)) p in
    if bool_decide (r <> 0) then Exit s else Ret tt (set_ready s (default empty_queue q)).

(** [add_proc] has the same body. *)
Definition add_proc (p : Z) : M sched unit := fun s =>
  if bool_decide (p = 0) then Ret tt s
  else
    let s := link s p in
    let '(r, q) := enqueue (Some (ready_queue s)) p in
    if bool_decide (r <> 0) then Exit s else Ret tt (set_ready s (default empty_queue q)).

(** The running list, then the ready queue. *)
Definition find_proc (pid_of : Z -> Z) (s : sched) (pid : Z) : Z :=
  let p := find_proc_from pid_of (proc (running_list s)) pid 0 (size (running_list s)) in
  if bool_decide (p <> 0) then p
  else find_proc_from pid_of (proc (ready_queue s)) pid 0 (size (ready_queue s)).

(** [finish_proc] is the text of the other configuration's. *)
Definition finish_proc (s : sched) (p : Z) : sched :=
  let q := running_list s in
  match index_of (proc q) p 0 (size q) with
  | None => s
  | Some i => set_running s (mkQueue (<[(size q - 1)%nat := 0]> (shift_left (proc q) i (size q))) (size q - 1))
  end.

(** A well-formed queue is a list of processes. *)
Definition fifo_ok (s : sched) : Prop := rep_ok (ready_queue s).
Definition waiting (s : sched) : list Z := abs (ready_queue s).

Lemma fifo_put_spec s p :
  fifo_ok s -> p <> 0 -> (length (waiting s) < MAX_QUEUE_SIZE)%nat ->
  wp (put_proc p) (fun _ s' => fifo_ok s' /\ waiting s' = waiting s ++ [p]) s.
Proof.
  intros Hs Hp Hr. unfold wp, put_proc. rewrite bool_decide_false by done.
  destruct (enqueue_room (ready_queue s) p Hs Hr) as (q & E & Hq & Eq). cbn [link ready_queue].
  unfold link. cbn [ready_queue]. rewrite E, bool_decide_false by (intros H; by apply H). by split.
Qed.

Lemma fifo_get_spec s :
  fifo_ok s -> let '(p, s') := get_proc s in fifo_ok s' /\
    match waiting s with [] => p = 0 /\ waiting s' = [] | q :: l => p = q /\ waiting s' = l end.
Proof.
  intros Hs. unfold get_proc, fifo_ok, waiting in *. destruct (abs (ready_queue s)) as [|p l] eqn:E.
  - rewrite (dequeue_empty _ Hs E). by split.
  - destruct (dequeue_cons _ _ _ Hs E) as (q & -> & Hq & Eq). by split.
Qed.
End Fifo.

(** ** The segmented memory *)

Module Segmented.

Definition OFFSET_LEN : Z := 10.
Definition PAGE_LEN : Z := 5.
Definition PAGE_SIZE : Z := Z.shiftl 1 OFFSET_LEN.

(** The first and the second index of an address. *)
Definition get_first_lv (addr : Z) : Z := Z.shiftr addr (OFFSET_LEN + PAGE_LEN).
Definition get_second_lv (addr : Z) : Z := u64 (Z.shiftr addr OFFSET_LEN - u64 (Z.shiftl (get_first_lv addr) PAGE_LEN)).

(** A translation table: its rows of virtual and physical indices. *)
Record trans_table_t := mkTrans { rows : list (Z * Z) }.
(** The first level: rows of a virtual index and a table. *)
Record page_table_t := mkPageTable { segments : list (Z * trans_table_t) }.

(** The loop over the rows has no body. *)
Definition get_trans_table (index : Z) (page_table : page_table_t) : option trans_table_t :=
  foldl (fun r _ => r) None (segments page_table).

(** Status 1 for a valid address.  The physical address is never assigned:
    [junk] is what the variable of the caller holds. *)
Definition translate (junk virtual_addr : Z) (page_table : page_table_t) : Z * Z :=
  match get_trans_table (get_first_lv virtual_addr) page_table with
  | None => (0, junk)
  | Some t =>
    if existsb (fun '(v, _) => bool_decide (v = get_second_lv virtual_addr)) (rows t) then (1, junk) else (0, junk)
  end.

(** Nothing ever sets [mem_avail]; the answer and the new break pointer. *)
Definition alloc_mem (size bp : Z) : Z * Z :=
  let num_pages := if bool_decide (size mod PAGE_SIZE <> 0) then size / PAGE_SIZE else size / PAGE_SIZE + 1 in
  let mem_avail := false in
  if mem_avail then (bp, u32 (bp + u32 (num_pages * PAGE_SIZE))) else (0, bp).

Definition free_mem (address : Z) : Z := 0.

(** The status, and the byte where there is one. *)
Definition read_mem (ram : gmap Z Z) (junk address : Z) (pt : page_table_t) : Z * option Z :=
  let '(ok, phys) := translate junk address pt in
  if bool_decide (ok <> 0) then (0, Some (default 0 (ram !! phys))) else (1, None).
Definition write_mem (ram : gmap Z Z) (junk address data : Z) (pt : page_table_t) : Z * gmap Z Z :=
  let '(ok, phys) := translate junk address pt in
  if bool_decide (ok <> 0) then (0, <[phys := data]> ram) else (1, ram).

(** [_mem_stat]: the process that uses a page, and its place in the list of the
    pages of the process. *)
Record page_stat := mkStat { stat_proc : Z; stat_index : Z; stat_next : Z }.
Definition NUM_PAGES : nat := 1024.

Definition init_mem : list page_stat * gmap Z Z := (replicate NUM_PAGES (mkStat 0 0 0), ∅).

(** What [dump] prints for page [i]: its bytes that are not 0, the last one of
    the page left out. *)
Definition dump_page (ram : gmap Z Z) (i : nat) (st : page_stat) : chars :=
  let lo := Z.shiftl (Z.of_nat i) OFFSET_LEN in
  let hi := Z.shiftl (Z.of_nat i + 1) OFFSET_LEN - 1 in
  if bool_decide (stat_proc st <> 0) then
    pad0 3 (pr_d (Z.of_nat i)) ++ text ": " ++ pad0 5 (pr_x lo) ++ text "-" ++ pad0 5 (pr_x hi) ++
    text " - PID: " ++ pad0 2 (pr_d (stat_proc st)) ++ text " (idx " ++ pad0 3 (pr_d (stat_index st)) ++
    text ", nxt: " ++ pad0 3 (pr_d (stat_next st)) ++ text ")" ++ [newline] ++
    concat ((fun j => let b := default 0 (ram !! j) in
      if bool_decide (b <> 0) then ascii_of_N 9 :: pad0 5 (pr_x j) ++ text ": " ++ pad0 2 (pr_x (u32 b)) ++ [newline] else [])
      <$> seqZ lo (hi - lo))
  else [].
Definition dump (stat : list page_stat) (ram : gmap Z Z) : chars := concat (imap (dump_page ram) stat).

(** The instructions: the status and the registers.  A register index outside
    the array is undefined ([None]). *)
Definition set_register (regs : list Z) (i v : Z) : option (list Z) :=
  if bool_decide (0 <= i < NREGS) then Some (<[Z.to_nat i := v]> regs) else None.

Definition alloc (size bp reg_index : Z) (regs : list Z) : option (Z * Z * list Z) :=
  let '(addr, bp) := alloc_mem size bp in
  if bool_decide (addr = 0) then Some (1, bp, regs)
  else match set_register regs reg_index addr with Some r => Some (0, bp, r) | None => None end.

Definition free_data (reg_index : Z) (regs : list Z) : option Z :=
  if bool_decide (0 <= reg_index < NREGS) then Some (free_mem (default 0 (regs !! Z.to_nat reg_index))) else None.

(** [read] takes the status of [read_mem] for success; [data] is then still what
    the variable held, [old]. *)
Definition read (ram : gmap Z Z) (junk old source offset destination : Z) (pt : page_table_t) (regs : list Z) :
    option (Z * list Z) :=
  if bool_decide (0 <= source < NREGS) then
    let '(st, data) := read_mem ram junk (u64 (default 0 (regs !! Z.to_nat source) + offset)) pt in
    if bool_decide (st <> 0) then
      match set_register regs destination (u64 (default old data)) with Some r => Some (0, r) | None => None end
    else Some (1, regs)
  else None.

Definition write (ram : gmap Z Z) (junk data destination offset : Z) (pt : page_table_t) (regs : list Z) :
    option (Z * gmap Z Z) :=
  if bool_decide (0 <= destination < NREGS)
  then Some (write_mem ram junk (u64 (default 0 (regs !! Z.to_nat destination) + offset)) data pt)
  else None.

(** The two indices are the quotient and remainder of the page number. *)
Lemma levels addr : is_u64 addr ->
  get_first_lv addr = addr / 2 ^ 15 /\ get_second_lv addr = addr / 2 ^ 10 mod 2 ^ 5.
Proof.
  intros Ha. unfold is_u64 in Ha. assert (H1 : get_first_lv addr = addr / 2 ^ 15) by (unfold get_first_lv; by rewrite Z.shiftr_div_pow2).
  split; [done|]. unfold get_second_lv. rewrite H1. unfold PAGE_LEN, OFFSET_LEN. rewrite Z.shiftr_div_pow2, Z.shiftl_mul_pow2 by lia.
  rewrite (u64_small (_ * _)) by (unfold is_u64; Z.div_mod_to_equations; lia).
  rewrite u64_small by (unfold is_u64; Z.div_mod_to_equations; lia). Z.div_mod_to_equations. lia.
Qed.

(** Nothing ever takes a page, so there is nothing to dump. *)
Lemma dump_nothing ram : dump (fst init_mem) ram = [].
Proof.
  unfold dump, init_mem, fst. generalize NUM_PAGES. intros n. assert (H : forall f : nat -> page_stat -> chars, (forall i, f i (mkStat 0 0 0) = []) ->
    concat (imap f (replicate n (mkStat 0 0 0))) = []); [|by apply H].
  induction n as [|n IH]; intros f Hf; [done|]. rewrite replicate_S, imap_cons. cbn [concat]. rewrite Hf. apply IH. intros i. apply Hf.
Qed.

Lemma no_trans i pt : get_trans_table i pt = None.
Proof. unfold get_trans_table. induction (segments pt); done. Qed.
End Segmented.

(** ** 32-bit page-table entries *)

Module Pte32.

Definition PAGING_PAGESZ : Z := 256.
Definition PAGING_CPU_BUS_WIDTH : Z := 22.
Definition PAGING_MAX_PGN : Z := (Z.shiftl 1 PAGING_CPU_BUS_WIDTH + PAGING_PAGESZ - 1) / PAGING_PAGESZ.

Definition BIT (nr : Z) : Z := u32 (Z.shiftl 1 nr).
Definition GENMASK (h l : Z) : Z := Z.land (u32 (Z.shiftl (2 ^ 32 - 1) l)) (Z.shiftr (2 ^ 32 - 1) (32 - h - 1)).
Definition lnot32 (m : Z) : Z := u32 (Z.lnot m).
Definition CLRBIT (v mask : Z) : Z := Z.land v (lnot32 mask).
Definition SETVAL (v value mask offst : Z) : Z := Z.lor (Z.land v (lnot32 mask)) (Z.land (u32 (Z.shiftl value offst)) mask).

Definition PAGING_PTE_PRESENT_MASK : Z := BIT 31.
Definition PAGING_PTE_SWAPPED_MASK : Z := BIT 30.
Definition PAGING_PTE_DIRTY_MASK : Z := BIT 28.
Definition PAGING_PTE_FPN_MASK : Z := GENMASK 12 0.
Definition PAGING_PTE_SWPTYP_MASK : Z := GENMASK 4 0.
Definition PAGING_PTE_SWPOFF_MASK : Z := GENMASK 25 5.

Definition PAGING_PAGE_PRESENT (pte : Z) : bool := bool_decide (Z.land pte PAGING_PTE_PRESENT_MASK <> 0).
Definition PAGING_FPN (pte : Z) : Z := GETVAL pte PAGING_PTE_FPN_MASK 0.
Definition PAGING_SWP (pte : Z) : Z := Z.shiftr (Z.land pte PAGING_PTE_SWPOFF_MASK) 5.

(** The status and the entry. *)
Definition init_pte (pte pre fpn drt swp swptyp swpoff : Z) : Z * Z :=
  if bool_decide (pre <> 0) then
    if bool_decide (swp = 0) then
      if bool_decide (fpn = 0) then (-1, pte)
      else
        let pte := Z.lor pte PAGING_PTE_PRESENT_MASK in
        let pte := CLRBIT pte PAGING_PTE_SWAPPED_MASK in
        let pte := CLRBIT pte PAGING_PTE_DIRTY_MASK in
        (0, SETVAL pte fpn PAGING_PTE_FPN_MASK 0)
    else
      let pte := CLRBIT pte PAGING_PTE_PRESENT_MASK in
      let pte := Z.lor pte PAGING_PTE_SWAPPED_MASK in
      let pte := CLRBIT pte PAGING_PTE_DIRTY_MASK in
      let pte := SETVAL pte swptyp PAGING_PTE_SWPTYP_MASK 0 in
      (0, SETVAL pte swpoff PAGING_PTE_SWPOFF_MASK 5)
  else (0, pte).

Definition set_swap (pte swptyp swpoff : Z) : Z :=
  let pte := CLRBIT pte PAGING_PTE_PRESENT_MASK in
  let pte := Z.lor pte PAGING_PTE_SWAPPED_MASK in
  SETVAL (SETVAL pte swptyp PAGING_PTE_SWPTYP_MASK 0) swpoff PAGING_PTE_SWPOFF_MASK 5.
Definition set_fpn (pte fpn : Z) : Z :=
  let pte := Z.lor pte PAGING_PTE_PRESENT_MASK in
  let pte := CLRBIT pte PAGING_PTE_SWAPPED_MASK in
  SETVAL pte fpn PAGING_PTE_FPN_MASK 0.

(** The table [mm->pgd] is one array; an index outside it is undefined. *)
Definition upd_entry (pgn : Z) (f : Z -> Z) : M (list Z) Z := fun t =>
  match t !! Z.to_nat pgn with Some v => Ret 0 (<[Z.to_nat pgn := f v]> t) | None => Ub end.
Definition pte_set_swap (pgn swptyp swpoff : Z) : M (list Z) Z := upd_entry pgn (fun v => set_swap v swptyp swpoff).
Definition pte_set_fpn (pgn fpn : Z) : M (list Z) Z := upd_entry pgn (fun v => set_fpn v fpn).
Definition pte_set_entry (pgn pte_val : Z) : M (list Z) Z := upd_entry pgn (fun _ => pte_val).

(** The functions of [src/mm.c] that this configuration does not have: they print
    that they are deprecated and answer 0 (NULL where the result is a pointer),
    without a look at their arguments.  The output and the answer. *)
Definition deprecated (func : string) : chars * Z :=
  (text "[ERROR] " ++ text func ++ text ": This feature 32 bit mode is deprecated" ++ [newline], 0).
Definition get_pd_from_address (addr : Z) : chars * Z := deprecated "get_pd_from_address".
Definition get_pd_from_pagenum (pgn : Z) : chars * Z := deprecated "get_pd_from_pagenum".
Definition pte_get_entry (pgn : Z) : chars * Z := deprecated "pte_get_entry".
Definition vmap_pgd_memset (addr pgnum : Z) : chars * Z := deprecated "vmap_pgd_memset".
Definition vmap_page_range (addr pgnum : Z) (frames : list Z) : chars * Z := deprecated "vmap_page_range".
Definition alloc_pages_range (req_pgnum : Z) : chars * Z := deprecated "alloc_pages_range".
Definition vm_map_ram (astart aend mapstart incpgnum : Z) : chars * Z := deprecated "vm_map_ram".
Definition __swap_cp_page (srcfpn dstfpn : Z) : chars * Z := deprecated "__swap_cp_page".
Definition init_mm (mm : option mm_struct) : chars * Z := deprecated "init_mm".
Definition init_vm_rg (rg_start rg_end : Z) : chars * Z := deprecated "init_vm_rg".
Definition enlist_vm_rg_node (rglist : list vm_rg_struct) (rgnode : vm_rg_struct) : chars * Z := deprecated "enlist_vm_rg_node".
Definition enlist_pgn_node (plist : list Z) (pgn : Z) : chars * Z := deprecated "enlist_pgn_node".
Definition print_list_fp (ifp : list Z) : chars * Z := deprecated "print_list_fp".
Definition print_list_rg (irg : list vm_rg_struct) : chars * Z := deprecated "print_list_rg".
Definition print_list_vma (ivma : list vm_area_struct) : chars * Z := deprecated "print_list_vma".
Definition print_list_pgn (ip : list Z) : chars * Z := deprecated "print_list_pgn".
Definition print_pgtbl (start end_ : Z) : chars * Z := deprecated "print_pgtbl".

(** The number of the highest bit, by halves of the word. *)
Definition set_bits (z : Z) : bool := bool_decide (z <> 0).
Definition NBITS2 (n : Z) : Z := if set_bits (Z.land n 2) then 1 else 0.
Definition NBITS4 (n : Z) : Z := if set_bits (Z.land n 0xC) then 2 + NBITS2 (Z.shiftr n 2) else NBITS2 n.
Definition NBITS8 (n : Z) : Z := if set_bits (Z.land n 0xF0) then 4 + NBITS4 (Z.shiftr n 4) else NBITS4 n.
Definition NBITS16 (n : Z) : Z := if set_bits (Z.land n 0xFF00) then 8 + NBITS8 (Z.shiftr n 8) else NBITS8 n.
Definition NBITS32 (n : Z) : Z := if set_bits (Z.land n 0xFFFF0000) then 16 + NBITS16 (Z.shiftr n 16) else NBITS16 n.
Definition NBITS (n : Z) : Z := if bool_decide (n = 0) then 0 else NBITS32 n.

(** The page and the offset of an address. *)
Definition PAGING_ADDR_OFFST_HIBIT : Z := NBITS PAGING_PAGESZ - 1.
Definition PAGING_ADDR_PGN_LOBIT : Z := NBITS PAGING_PAGESZ.
Definition PAGING_ADDR_PGN_HIBIT : Z := PAGING_CPU_BUS_WIDTH - 1.
Definition PAGING_OFFST_MASK : Z := GENMASK PAGING_ADDR_OFFST_HIBIT 0.
Definition PAGING_PGN_MASK : Z := GENMASK PAGING_ADDR_PGN_HIBIT PAGING_ADDR_PGN_LOBIT.
Definition PAGING_OFFST (x : Z) : Z := GETVAL x PAGING_OFFST_MASK 0.
Definition PAGING_PGN (x : Z) : Z := GETVAL x PAGING_PGN_MASK PAGING_ADDR_PGN_LOBIT.

(** The entry of a kernel address: its index in the one table. *)
Definition kernel_walk_pte (krnl_pgd : option (list Z)) (addr : Z) (create : bool) : option Z :=
  match krnl_pgd with None => None | Some _ => Some (PAGING_PGN addr) end.
Definition kernel_get_pte (krnl_pgd : option (list Z)) (addr : Z) : option Z := kernel_walk_pte krnl_pgd addr true.

(** One entry of a process that ends, and all of them. *)
Definition release_entry (mram active_mswp : option dev) (pte : Z) : M machine Z :=
  if bool_decide (pte = 0) then ret 0
  else if PAGING_PAGE_PRESENT pte then dev_put_freefp mram (PAGING_FPN pte) ;; ret 0
  else if bool_decide (Z.land pte PAGING_PTE_SWAPPED_MASK <> 0) then dev_put_freefp active_mswp (PAGING_SWP pte) ;; ret 0
  else ret 0.
Definition free_pcb_memph (mram active_mswp : option dev) (pgd : list Z) : M machine Z :=
  for_each (fun pagenum =>
    match pgd !! Z.to_nat pagenum with None => ub | Some pte => release_entry mram active_mswp pte end)
    (seqZ 0 PAGING_MAX_PGN).

(** Bit by bit. *)
Lemma testbit_u32 z i : 0 <= i -> Z.testbit (u32 z) i = bool_decide (i < 32) && Z.testbit z i.
Proof.
  intros Hi. unfold u32. case_bool_decide as H; cbn [andb].
  - by rewrite Z.mod_pow2_bits_low.
  - rewrite Z.mod_pow2_bits_high by lia. done.
Qed.
Lemma testbit_lnot32 z i : 0 <= i -> Z.testbit (lnot32 z) i = bool_decide (i < 32) && negb (Z.testbit z i).
Proof. intros Hi. unfold lnot32. by rewrite testbit_u32, Z.lnot_spec by done. Qed.
Lemma testbit_mask h l i : 0 <= l <= h -> h < 32 -> 0 <= i -> Z.testbit (GENMASK h l) i = bool_decide (l <= i <= h).
Proof.
  intros Hl Hh Hi. unfold GENMASK. rewrite Z.land_spec, testbit_u32, Z.shiftl_spec, Z.shiftr_spec by lia.
  change (2 ^ 32 - 1) with (Z.ones 32). rewrite !Z.testbit_ones by lia.
  repeat case_bool_decide; repeat case_match; simpl; try done; lia.
Qed.
Lemma testbit_BIT n i : 0 <= n < 32 -> 0 <= i -> Z.testbit (BIT n) i = bool_decide (i = n).
Proof.
  intros Hn Hi. unfold BIT. rewrite testbit_u32, Z.shiftl_1_l, Z.pow2_bits_eqb by lia.
  destruct (Z.eqb_spec n i); repeat case_bool_decide; simpl; try done; lia.
Qed.

(** The entry after a field was written, bit by bit. *)
Lemma testbit_SETVAL v value h l i :
  0 <= l <= h -> h < 32 -> 0 <= i -> i < 32 \/ 0 <= v < 2 ^ 32 ->
  Z.testbit (SETVAL v value (GENMASK h l) l) i = if bool_decide (l <= i <= h) then Z.testbit value (i - l) else Z.testbit v i.
Proof.
  intros Hl Hh Hi Hv. unfold SETVAL. rewrite Z.lor_spec, !Z.land_spec, testbit_lnot32, testbit_u32, testbit_mask, Z.shiftl_spec by lia.
  destruct (decide (l <= i <= h)) as [H|H].
  - rewrite !(bool_decide_true (l <= i <= h)), (bool_decide_true (i < 32)) by lia. cbn [negb andb].
    by rewrite andb_false_r, andb_true_r.
  - rewrite !(bool_decide_false (l <= i <= h)) by lia. cbn [negb]. rewrite andb_true_r, andb_false_r, orb_false_r.
    case_bool_decide; [by rewrite andb_true_r|]. rewrite andb_false_r. symmetry.
    destruct Hv as [?|Hv]; [lia|]. rewrite <- (Z.mod_small v (2 ^ 32)) by done. apply Z.mod_pow2_bits_high. lia.
Qed.

Lemma present_bit pte : Z.testbit pte 31 = true -> PAGING_PAGE_PRESENT pte = true.
Proof.
  intros H. apply bool_decide_true. intros E. assert (Z.testbit (Z.land pte PAGING_PTE_PRESENT_MASK) 31 = false) as H1 by (by rewrite E, Z.testbit_0_l).
  unfold PAGING_PTE_PRESENT_MASK in H1. by rewrite Z.land_spec, H, testbit_BIT in H1 by lia.
Qed.
Lemma absent_bit pte : Z.testbit pte 31 = false -> PAGING_PAGE_PRESENT pte = false.
Proof.
  intros H. apply bool_decide_false. intros Hn. apply Hn, Z.bits_inj'. intros i Hi. rewrite Z.land_spec, Z.testbit_0_l.
  unfold PAGING_PTE_PRESENT_MASK. rewrite testbit_BIT by lia. case_bool_decide; [subst; by rewrite H|by rewrite andb_false_r].
Qed.

(** Half a word: the upper half decides. *)
Lemma nbits_half w (f : Z -> Z) n :
  0 < w -> (forall k, 0 < k < 2 ^ w -> f k = Z.log2 k) -> 0 < n < 2 ^ (w + w) ->
  (if set_bits (Z.land n (Z.shiftl (Z.ones w) w)) then w + f (Z.shiftr n w) else f n) = Z.log2 n.
Proof.
  intros Hw Hf Hn. assert (E : Z.land n (Z.shiftl (Z.ones w) w) = Z.shiftl (Z.shiftr n w) w).
  { apply Z.bits_inj'. intros i Hi. rewrite Z.land_spec, !Z.shiftl_spec by lia. destruct (decide (w <= i)) as [Hwi|Hwi].
    - rewrite Z.shiftr_spec, Z.testbit_ones by lia. replace (i - w + w) with i by lia.
      destruct (decide (i < w + w)); [rewrite (proj2 (Z.ltb_lt _ _)), (proj2 (Z.leb_le _ _)) by lia; by rewrite andb_true_r|].
      rewrite <- (Z.mod_small n (2 ^ (w + w))) by lia. by rewrite Z.mod_pow2_bits_high by lia.
    - rewrite !(Z.testbit_neg_r _ (i - w)) by lia. apply andb_false_r. }
  rewrite E. rewrite Z.shiftl_mul_pow2, Z.shiftr_div_pow2 by lia. rewrite Z.pow_add_r in Hn by lia.
  assert (0 < 2 ^ w) by (by apply Z.pow_pos_nonneg; lia). unfold set_bits. case_bool_decide as Hz.
  - assert (0 < n / 2 ^ w < 2 ^ w) as Hq.
    { split; [|apply Z.div_lt_upper_bound; lia]. destruct (decide (n / 2 ^ w = 0)) as [H0|H0]; [rewrite H0 in Hz; lia|].
      pose proof (Z.div_pos n (2 ^ w)). lia. }
    rewrite Hf by done. rewrite <- Z.shiftr_div_pow2, Z.log2_shiftr by lia.
    assert (w <= Z.log2 n); [|lia]. apply Z.log2_le_pow2; [lia|]. destruct (decide (n < 2 ^ w)); [|lia]. rewrite Z.div_small in Hq; lia.
  - apply Hf. split; [lia|]. destruct (decide (n < 2 ^ w)); [done|]. exfalso. assert (1 <= n / 2 ^ w) by (apply Z.div_le_lower_bound; lia). nia.
Qed.

Lemma nbits2_log n : 0 < n < 2 ^ 2 -> NBITS2 n = Z.log2 n.
Proof. intros Hn. assert (n = 1 \/ n = 2 \/ n = 3) as [->|[->| ->]] by lia; reflexivity. Qed.
Lemma nbits_log n : 0 < n < 2 ^ 32 -> NBITS n = Z.log2 n.
Proof.
  intros Hn. unfold NBITS. rewrite bool_decide_false by lia.
  assert (H4 : forall k, 0 < k < 2 ^ 4 -> NBITS4 k = Z.log2 k) by (intros k; apply (nbits_half 2 NBITS2); [lia|apply nbits2_log]).
  assert (H8 : forall k, 0 < k < 2 ^ 8 -> NBITS8 k = Z.log2 k) by (intros k; by apply (nbits_half 4 NBITS4)).
  assert (H16 : forall k, 0 < k < 2 ^ 16 -> NBITS16 k = Z.log2 k) by (intros k; by apply (nbits_half 8 NBITS8)).
  by apply (nbits_half 16 NBITS16).
Qed.

Lemma field_div x h l : 0 <= l <= h -> h < 32 -> GETVAL x (GENMASK h l) l = x / 2 ^ l mod 2 ^ (h - l + 1).
Proof.
  intros Hl Hh. unfold GETVAL. apply Z.bits_inj'. intros i Hi. rewrite Z.shiftr_spec, Z.land_spec, testbit_mask by lia.
  rewrite <- Z.shiftr_div_pow2 by lia. destruct (decide (i <= h - l)).
  - rewrite bool_decide_true by lia. rewrite Z.mod_pow2_bits_low, Z.shiftr_spec by lia. apply andb_true_r.
  - rewrite bool_decide_false by lia. rewrite Z.mod_pow2_bits_high by lia. apply andb_false_r.
Qed.

(** The two kinds of entries read back. *)
Lemma set_fpn_reads pte fpn : 0 <= pte < 2 ^ 32 -> 0 <= fpn < 2 ^ 13 ->
  PAGING_FPN (set_fpn pte fpn) = fpn /\ PAGING_PAGE_PRESENT (set_fpn pte fpn) = true.
Proof.
  intros Hpte Hf. unfold set_fpn, PAGING_FPN, GETVAL, PAGING_PTE_FPN_MASK. cbv zeta. split.
  - apply Z.bits_inj'. intros i Hi. rewrite Z.shiftr_spec, Z.land_spec, Z.add_0_r, testbit_mask by lia.
    case_bool_decide; [rewrite testbit_SETVAL, bool_decide_true, andb_true_r by lia; by rewrite Z.sub_0_r|].
    rewrite andb_false_r. symmetry. rewrite <- (Z.mod_small fpn (2 ^ 13)) by done. apply Z.mod_pow2_bits_high. lia.
  - apply present_bit. rewrite testbit_SETVAL, bool_decide_false by lia.
    unfold CLRBIT. rewrite Z.land_spec, testbit_lnot32, Z.lor_spec by lia.
    unfold PAGING_PTE_PRESENT_MASK, PAGING_PTE_SWAPPED_MASK. rewrite !testbit_BIT by lia.
    by rewrite (bool_decide_true (31 = 31)), orb_true_r.
Qed.
Lemma set_swap_reads pte swptyp swpoff : 0 <= pte < 2 ^ 32 -> 0 <= swpoff < 2 ^ 21 ->
  PAGING_SWP (set_swap pte swptyp swpoff) = swpoff /\ PAGING_PAGE_PRESENT (set_swap pte swptyp swpoff) = false.
Proof.
  intros Hpte Ho. unfold set_swap, PAGING_SWP, PAGING_PTE_SWPOFF_MASK, PAGING_PTE_SWPTYP_MASK. cbv zeta. split.
  - apply Z.bits_inj'. intros i Hi. rewrite Z.shiftr_spec, Z.land_spec, testbit_mask by lia.
    case_bool_decide; [rewrite testbit_SETVAL, bool_decide_true, andb_true_r by lia; f_equal; lia|].
    rewrite andb_false_r. symmetry. rewrite <- (Z.mod_small swpoff (2 ^ 21)) by done. apply Z.mod_pow2_bits_high. lia.
  - apply absent_bit. rewrite !testbit_SETVAL, !bool_decide_false by lia.
    rewrite Z.lor_spec. unfold CLRBIT. rewrite Z.land_spec, testbit_lnot32 by lia.
    unfold PAGING_PTE_PRESENT_MASK, PAGING_PTE_SWAPPED_MASK. rewrite !testbit_BIT by lia.
    rewrite (bool_decide_true (31 = 31)) by done. by rewrite !andb_false_r.
Qed.

(** What is given back: the frames, the slots. *)
Definition frame_of (pte : Z) : list Z :=
  if bool_decide (pte = 0) then [] else if PAGING_PAGE_PRESENT pte then [PAGING_FPN pte] else [].
Definition slot_of (pte : Z) : list Z :=
  if bool_decide (pte = 0) then [] else if PAGING_PAGE_PRESENT pte then []
  else if bool_decide (Z.land pte PAGING_PTE_SWAPPED_MASK <> 0) then [PAGING_SWP pte] else [].

Lemma release_entry_spec pte m :
  ~ may_oom m ->
  wp (release_entry (Some Ram) (Some Swp) pte) (fun r m' => r = 0 /\ oom m' = oom m /\
    free_fp_list (ram m') = frame_of pte ++ free_fp_list (ram m) /\ free_fp_list (swp m') = slot_of pte ++ free_fp_list (swp m)) m.
Proof.
  intros Hm. assert (Ho : forall n, oom m n = false) by (intros n; apply not_true_is_false; intros H; apply Hm; by exists n).
  unfold release_entry, frame_of, slot_of. case_bool_decide; [by apply wp_ret|].
  destruct (PAGING_PAGE_PRESENT pte).
  - unfold wp, dev_put_freefp, bind, malloc, on_dev, on_ram, MEMPHY_put_freefp. cbn [ram set_mallocs]. rewrite Ho. done.
  - case_bool_decide; [|by apply wp_ret]. unfold wp, dev_put_freefp, bind, malloc, on_dev, on_swp, MEMPHY_put_freefp.
    cbn [swp set_mallocs]. rewrite Ho. done.
Qed.
End Pte32.

(** ** The free list of the first area *)

(** [enlist_vm_freerg_list] of [src/libmem.c], which nothing calls: the region
    comes with the list its [rg_next] points to, which is kept when the free list
    is empty. *)
Definition enlist_vm_freerg_list (freerg_list : list vm_rg_struct) (rg_elmt : vm_rg_struct) (rg_next : list vm_rg_struct) :
    Z * list vm_rg_struct :=
  if bool_decide (rg_end rg_elmt <= rg_start rg_elmt) then (-1, freerg_list)
  else (0, rg_elmt :: (match freerg_list with [] => rg_next | _ => freerg_list end)).

(** ** Sequences of scheduler calls *)

Inductive fifo_op := Put (p : Z) | Add (p : Z) | Get.

Fixpoint fifo_run (ops : list fifo_op) : M sched (list Z) :=
  match ops with
  | [] => ret []
  | Put p :: ops => Fifo.put_proc p ;; fifo_run ops
  | Add p :: ops => Fifo.add_proc p ;; fifo_run ops
  | Get :: ops => fun s => let '(p, s') := Fifo.get_proc s in (let* l := fifo_run ops in ret (p :: l)) s'
  end.

(** The same on a list: what is taken, and what is left. *)
Fixpoint queue_run (ops : list fifo_op) (l : list Z) : list Z * list Z :=
  match ops with
  | [] => ([], l)
  | (Put p | Add p) :: ops => queue_run ops (l ++ [p])
  | Get :: ops =>
    match l with
    | [] => let '(out, l') := queue_run ops [] in (0 :: out, l')
    | p :: l => let '(out, l') := queue_run ops l in (p :: out, l')
    end
  end.
Definition queued (o : fifo_op) : list Z := match o with Put p | Add p => [p] | Get => [] end.

(** ** Properties *)

(** The FIFO scheduler is a queue: as long as there is room, any sequence of its
    calls hands out the processes in the order in which they were put in, and
    none is lost or invented. *)
Theorem fifo_refines ops s :
  Fifo.fifo_ok s -> Forall (fun p => p <> 0) (concat (queued <$> ops)) ->
  (length (Fifo.waiting s) + length (concat (queued <$> ops)) <= MAX_QUEUE_SIZE)%nat ->
  wp (fifo_run ops) (fun out s' => Fifo.fifo_ok s' /\ (out, Fifo.waiting s') = queue_run ops (Fifo.waiting s)) s.
Proof.
  revert s. induction ops as [|o ops IH]; intros s Hs Hp Hl; [by apply wp_ret|].
  assert (Hput : forall p, o = Put p \/ o = Add p -> wp (Fifo.put_proc p ;; fifo_run ops)
    (fun out s' => Fifo.fifo_ok s' /\ (out, Fifo.waiting s') = queue_run (o :: ops) (Fifo.waiting s)) s).
  { intros p Ho. assert (Eq : queued o = [p]) by (by destruct Ho as [-> | ->]). rewrite fmap_cons in Hp, Hl. cbn [concat] in Hp, Hl.
    rewrite Eq in Hp, Hl. cbn [app length] in Hp, Hl. apply Forall_cons in Hp as [Hp0 Hp]. apply wp_bind.
    eapply wp_mono; [apply Fifo.fifo_put_spec; [done|done|lia]|]. intros [] s1 [H1 E1].
    eapply wp_mono; [apply IH; [done|done|rewrite E1, length_app; simpl; lia]|]. intros out s2 [H2 E2]. split; [done|].
    rewrite E2, E1. by destruct Ho as [-> | ->]. }
  destruct o as [p|p|]; [apply Hput; auto|apply (Hput p); auto|]. rewrite fmap_cons in Hp, Hl. cbn [concat queued app] in Hp, Hl.
  cbn [fifo_run]. unfold wp. pose proof (Fifo.fifo_get_spec s Hs) as Hg. destruct (Fifo.get_proc s) as [p s1]. destruct Hg as [H1 Hw].
  assert (Hlen : (length (Fifo.waiting s1) <= length (Fifo.waiting s))%nat)
    by (destruct (Fifo.waiting s) as [|q l]; destruct Hw as [_ ->]; simpl; lia).
  fold (wp (let* l := fifo_run ops in ret (p :: l)) (fun out s' => Fifo.fifo_ok s' /\ (out, Fifo.waiting s') = queue_run (Get :: ops) (Fifo.waiting s)) s1).
  apply wp_bind. eapply wp_mono; [apply IH; [done|done|lia]|]. intros out s2 [H2 E2]. apply wp_ret. split; [done|]. cbn [queue_run].
  destruct (Fifo.waiting s) as [|q l]; destruct Hw as [-> E1]; rewrite E1 in E2; by rewrite <- E2.
Qed.

Lemma fifo_refines_witness :
  wp (fifo_run [Add 7; Put 9; Get; Get; Get]) (fun out s' => Fifo.fifo_ok s' /\ (out, Fifo.waiting s') = ([7; 9; 0], [])) static_sched.
Proof.
  apply (fifo_refines [Add 7; Put 9; Get; Get; Get] static_sched).
  - apply empty_queue_ok.
  - by repeat constructor.
  - unfold MAX_QUEUE_SIZE. simpl. lia.
Defined.

(** With the FIFO scheduler a process that runs cannot be found: nothing puts it
    on the running list, and [get_proc] takes it off the ready queue, so the
    system calls it makes (the growth of its memory among them) fail. *)
Theorem fifo_find_misses_running pid_of p :
  p <> 0 ->
  wp (Fifo.add_proc p) (fun _ s =>
    Fifo.find_proc pid_of s (pid_of p) = p /\
    (fst (Fifo.get_proc s) = p /\ Fifo.find_proc pid_of (snd (Fifo.get_proc s)) (pid_of p) = 0)) static_sched.
Proof.
  intros Hp. unfold wp, Fifo.add_proc. rewrite bool_decide_false by done. unfold enqueue. cbn -[bool_decide replicate].
  rewrite (bool_decide_false (MAX_QUEUE_SIZE <= 0)%nat) by (unfold MAX_QUEUE_SIZE; lia).
  rewrite (bool_decide_false (0 <> 0)) by (intros H; by apply H). unfold Fifo.find_proc. cbn -[bool_decide].
  rewrite !(bool_decide_false (0 <> 0)) by (intros H; by apply H).
  rewrite (bool_decide_true (p <> 0)), (bool_decide_true (pid_of p = pid_of p)) by done. done.
Qed.

Lemma fifo_find_misses_running_witness :
  wp (Fifo.add_proc 7) (fun _ s => Fifo.find_proc (fun _ => 1) (snd (Fifo.get_proc s)) 1 = 0) static_sched.
Proof. eapply wp_mono; [exact (fifo_find_misses_running (fun _ => 1) 7 ltac:(lia))|]. intros [] s (_ & _ & H). exact H. Defined.

(** The segmented memory grants nothing: an allocation answers 0 and moves no
    break pointer, and every access answers 1, whatever the tables hold. *)
Theorem segmented_refuses ram junk addr data size bp pt :
  Segmented.alloc_mem size bp = (0, bp) /\ Segmented.read_mem ram junk addr pt = (1, None) /\
  Segmented.write_mem ram junk addr data pt = (1, ram) /\ Segmented.dump (fst Segmented.init_mem) ram = [].
Proof.
  rewrite Segmented.dump_nothing. unfold Segmented.read_mem, Segmented.write_mem, Segmented.translate. rewrite Segmented.no_trans. done.
Qed.

(** [read] of [src/cpu.c] takes the failure of [read_mem] for success: it answers 0
    and stores in the register what its variable happened to hold. *)
Theorem segmented_read_inverted ram junk old source offset destination pt regs :
  0 <= source < NREGS -> 0 <= destination < NREGS ->
  Segmented.read ram junk old source offset destination pt regs = Some (0, <[Z.to_nat destination := u64 old]> regs).
Proof.
  intros Hs Hd. unfold Segmented.read. rewrite bool_decide_true by done.
  unfold Segmented.read_mem, Segmented.translate. rewrite Segmented.no_trans. 
  change (bool_decide (0 <> 0)) with false. cbv iota beta. change (bool_decide (1 <> 0)) with true. cbv iota. unfold Segmented.set_register. by rewrite bool_decide_true.
Qed.

Lemma segmented_read_inverted_witness :
  Segmented.read ∅ 0 77 0 0 1 (Segmented.mkPageTable []) (replicate 10 0) = Some (0, <[1%nat := 77]> (replicate 10 0)).
Proof. exact (segmented_read_inverted ∅ 0 77 0 0 1 (Segmented.mkPageTable []) (replicate 10 0) ltac:(unfold NREGS; lia) ltac:(unfold NREGS; lia)). Defined.

(** The 32-bit entries read back: a frame number of 13 bits and a swap offset of
    21, and the entry says which of the two it holds. *)
Theorem pte32_roundtrip pte fpn swptyp swpoff :
  0 <= pte < 2 ^ 32 -> 0 <= fpn < 2 ^ 13 -> 0 <= swpoff < 2 ^ 21 ->
  Pte32.PAGING_FPN (Pte32.set_fpn pte fpn) = fpn /\ Pte32.PAGING_PAGE_PRESENT (Pte32.set_fpn pte fpn) = true /\
  Pte32.PAGING_SWP (Pte32.set_swap pte swptyp swpoff) = swpoff /\
  Pte32.PAGING_PAGE_PRESENT (Pte32.set_swap pte swptyp swpoff) = false.
Proof.
  intros Hpte Hf Ho. destruct (Pte32.set_fpn_reads pte fpn Hpte Hf), (Pte32.set_swap_reads pte swptyp swpoff Hpte Ho). done.
Qed.

Lemma pte32_roundtrip_witness : Pte32.PAGING_FPN (Pte32.set_fpn 0 5) = 5.
Proof. apply (pte32_roundtrip 0 5 0 0); lia. Defined.

(** The bit count of [include/bitops.h], a cascade of tests on halves of the word,
    is the logarithm of every 32-bit number; and the masks of a 22-bit address
    built from it split the address into its page and its offset. *)
Theorem addr32_split n x :
  0 < n < 2 ^ 32 -> 0 <= x < 2 ^ 22 ->
  Pte32.NBITS n = Z.log2 n /\ Pte32.PAGING_PGN x = x / 256 /\ Pte32.PAGING_OFFST x = x mod 256 /\
  0 <= Pte32.PAGING_PGN x < Pte32.PAGING_MAX_PGN.
Proof.
  intros Hn Hx. unfold Pte32.PAGING_PGN, Pte32.PAGING_PGN_MASK, Pte32.PAGING_OFFST, Pte32.PAGING_OFFST_MASK.
  change Pte32.PAGING_ADDR_PGN_HIBIT with 21. change Pte32.PAGING_ADDR_PGN_LOBIT with 8. change Pte32.PAGING_ADDR_OFFST_HIBIT with 7.
  change Pte32.PAGING_MAX_PGN with 16384. rewrite !Pte32.field_div by lia. split; [by apply Pte32.nbits_log|].
  Z.div_mod_to_equations. lia.
Qed.

Lemma addr32_split_witness : Pte32.NBITS 4096 = 12 /\ Pte32.PAGING_PGN 0x12345 = 0x123 /\ Pte32.PAGING_OFFST 0x12345 = 0x45.
Proof. destruct (addr32_split 4096 0x12345 ltac:(lia) ltac:(lia)) as (H1 & H2 & H3 & _). split; [exact H1|]. split; [exact H2|exact H3]. Defined.

(** The 32-bit build forgets what it maps: [pte_get_entry] answers 0, an unmapped
    page, for an entry that [pte_set_fpn] has just written. *)
Theorem entry32_not_read_back pgn fpn t v :
  t !! Z.to_nat pgn = Some v -> 0 <= v < 2 ^ 32 -> 0 <= fpn < 2 ^ 13 ->
  wp (Pte32.pte_set_fpn pgn fpn) (fun r t' => r = 0 /\
    (exists e, t' !! Z.to_nat pgn = Some e /\ Pte32.PAGING_PAGE_PRESENT e = true /\ Pte32.PAGING_FPN e = fpn) /\
    snd (Pte32.pte_get_entry pgn) = 0 /\ Pte32.PAGING_PAGE_PRESENT (snd (Pte32.pte_get_entry pgn)) = false) t.
Proof.
  intros Ht Hv Hf. unfold wp, Pte32.pte_set_fpn, Pte32.upd_entry. rewrite Ht. split; [done|]. split; [|done].
  exists (Pte32.set_fpn v fpn). rewrite list_lookup_insert_eq by (by eapply lookup_lt_Some). destruct (Pte32.set_fpn_reads v fpn Hv Hf) as [H1 H2]. done.
Qed.

Lemma entry32_not_read_back_witness :
  wp (Pte32.pte_set_fpn 1 7) (fun _ _ => snd (Pte32.pte_get_entry 1) = 0) [0; 0; 0].
Proof. eapply wp_mono; [apply (entry32_not_read_back 1 7 [0; 0; 0] 0 eq_refl); lia|]. intros r t (_ & _ & H & _). exact H. Defined.

(** The end of a process in the 32-bit build: one scan of the table gives back
    the frame of every present entry and the slot of every swapped one, and
    nothing else. *)
Theorem free_pcb_memph32_exact pgd m :
  Z.of_nat (length pgd) = Pte32.PAGING_MAX_PGN -> ~ may_oom m ->
  wp (Pte32.free_pcb_memph (Some Ram) (Some Swp) pgd) (fun r m' => r = 0 /\
    free_fp_list (ram m') = reverse (concat (Pte32.frame_of <$> pgd)) ++ free_fp_list (ram m) /\
    free_fp_list (swp m') = reverse (concat (Pte32.slot_of <$> pgd)) ++ free_fp_list (swp m)) m.
Proof.
  intros Hl Hm. unfold Pte32.free_pcb_memph.
  assert (Htake : forall xs x ys, seqZ 0 Pte32.PAGING_MAX_PGN = xs ++ x :: ys -> x = Z.of_nat (length xs) /\ is_Some (pgd !! length xs)).
  { intros xs x ys E. assert (seqZ 0 Pte32.PAGING_MAX_PGN !! length xs = Some x) as Hx by (rewrite E; by apply list_lookup_middle).
    apply lookup_seqZ in Hx as [-> Hx]. split; [lia|]. apply lookup_lt_is_Some. lia. }
  apply (wp_for_each _ (fun xs m' => oom m' = oom m /\
    free_fp_list (ram m') = reverse (concat (Pte32.frame_of <$> take (length xs) pgd)) ++ free_fp_list (ram m) /\
    free_fp_list (swp m') = reverse (concat (Pte32.slot_of <$> take (length xs) pgd)) ++ free_fp_list (swp m))).
  - by rewrite take_0.
  - intros xs x ys m1 E (Ho & H1 & H2). destruct (Htake xs x ys E) as [-> [pte Hp]]. rewrite Nat2Z.id, Hp.
    assert (Hm1 : ~ may_oom m1) by (intros [n Hn]; apply Hm; exists n; by rewrite <- Ho).
    eapply wp_mono; [by apply Pte32.release_entry_spec|]. intros r m2 (-> & Ho2 & H3 & H4). rewrite bool_decide_true by done.
    rewrite length_app, Nat.add_1_r, (take_S_r _ _ pte Hp), !fmap_app, !concat_app, !reverse_app. cbn [fmap list_fmap concat].
    rewrite !app_nil_r, <- !app_assoc, H3, H4, H1, H2, Ho2. split; [done|].
    split; f_equal; [unfold Pte32.frame_of|unfold Pte32.slot_of]; repeat case_match; done.
  - intros m1 (_ & H1 & H2). rewrite length_seqZ, take_ge in H1, H2 by lia. by split_and!.
Qed.
