(* ===== verification/Memtest.v ===== *)
(** * The memory test program ([src/paging.c], and [src/cpu.c] without [MM_PAGING])

    [main] of [src/paging.c] loads one program file twice and runs the two
    processes in turn on the segmented memory of [src/mem.c], then dumps that
    memory.  [run] is the interpreter of [src/cpu.c] in that configuration.  Memory
    that is read before it is written is an argument: the page tables that [load]
    leaves as [malloc] returned them, and the variables of [read] and [translate]. *)

From S2P Require Import Prelude.
From S2P Require Import Scanf.
From S2P Require Import Printf.
From S2P Require Import Word.
From S2P Require Import Machine.
From S2P Require Import PageTable.
From S2P Require Import Cpu.
From S2P Require Import Create.
From S2P Require Import Loader.
From S2P Require Import Legacy.
Open Scope c_scope.
Open Scope Z_scope.

(** ** The interpreter *)

(** Where a process is in memory, its page table, and what the uninitialised
    variables hold when the program counter has a given value. *)
Record place := mkPlace { pl_addr : Z; pl_table : Segmented.page_table_t; pl_junk : Z -> Z; pl_data : Z -> Z }.
Record task := mkTask { t_pcb : pcb_t; t_place : place }.
Definition set_pcb (t : task) (y : pcb_t) : task := mkTask y (t_place t).
Definition set_bp (y : pcb_t) (b : Z) : pcb_t :=
  mkPcb (pid y) (priority y) (code y) (regs y) (pc y) (prio y) (krnl y) b.

(** One instruction: the status, the task and the memory; [None] for undefined
    behaviour.  The opcodes of kernel memory are not compiled in and fall to the
    default.  [load] leaves [krnl] as it was, and [libsyscall] answers -1 for NULL. *)
Definition exec_seg (ins : inst_t) (t : task) (ram : gmap Z Z) : option (Z * task * gmap Z Z) :=
  let y := t_pcb t in
  let u := t_place t in
  match opcode ins with
  | CALC => Some (calc (pl_addr u), t, ram)
  | ALLOC =>
    match Segmented.alloc (u32 (arg_0 ins)) (bp y) (u32 (arg_1 ins)) (regs y) with
    | Some (st, b, r) => Some (st, set_pcb t (set_regs (set_bp y b) r), ram)
    | None => None
    end
  | FREE =>
    match Segmented.free_data (u32 (arg_0 ins)) (regs y) with Some st => Some (st, t, ram) | None => None end
  | READ =>
    match Segmented.read ram (pl_junk u (pc y)) (pl_data u (pc y)) (u32 (arg_0 ins)) (u32 (arg_1 ins)) (u32 (arg_2 ins)) (pl_table u) (regs y) with
    | Some (st, r) => Some (st, set_pcb t (set_regs y r), ram)
    | None => None
    end
  | WRITE =>
    match Segmented.write ram (pl_junk u (pc y)) (i8 (arg_0 ins)) (u32 (arg_1 ins)) (u32 (arg_2 ins)) (pl_table u) (regs y) with
    | Some (st, ram') => Some (st, t, ram')
    | None => None
    end
  | SYSCALL => match krnl y with None => Some (-1, t, ram) | Some _ => None end
  | KMALLOC | KMEM_CACHE_CREATE | KMEM_CACHE_ALLOC | COPY_FROM_USER | COPY_TO_USER => Some (1, t, ram)
  end.

Definition run_seg (t : task) (ram : gmap Z Z) : option (Z * task * gmap Z Z) :=
  let y := t_pcb t in
  if bool_decide (Z.of_nat (length (code y)) <= pc y) then Some (1, t, ram)
  else
    match code y !! Z.to_nat (pc y) with
    | None => None
    | Some ins => exec_seg ins (set_pcb t (set_pc y (u32 (pc y + 1)))) ram
    end.

(** ** The test *)

(** The loop, [n] rounds to go. *)
Fixpoint test_loop (n : nat) (proc ld : task) (ram : gmap Z Z) : option (task * task * gmap Z Z) :=
  match n with
  | O => Some (proc, ld, ram)
  | S n =>
    match run_seg proc ram with
    | None => None
    | Some (_, proc, ram) =>
      match run_seg ld ram with
      | None => None
      | Some (_, ld, ram) => test_loop n proc ld ram
      end
    end
  end.

(** The static memory starts as zeros, as [init_mem] would leave it.  The output,
    and the two processes at the end. *)
Definition test_main (file : option chars) (f1 f2 : fresh) (u1 u2 : place) : M machine (chars * task * task) :=
  let* (ld, next) := load 1 file f1 in
  let* (proc, _) := load next file f2 in
  match test_loop (length (code proc)) (mkTask proc u2) (mkTask ld u1) (snd Segmented.init_mem) with
  | None => ub
  | Some (proc, ld, ram) => ret (Segmented.dump (fst Segmented.init_mem) ram, proc, ld)
  end.

(** ** Lemmas *)

(** Registers the instruction may name. *)
Definition seg_ok (ins : inst_t) : Prop :=
  match opcode ins with
  | ALLOC => True
  | FREE => u32 (arg_0 ins) < NREGS
  | READ => u32 (arg_0 ins) < NREGS /\ u32 (arg_2 ins) < NREGS
  | WRITE => u32 (arg_1 ins) < NREGS
  | SYSCALL => False
  | _ => True
  end.

Lemma u32_nonneg z : 0 <= u32 z.
Proof. unfold u32. apply Z.mod_pos_bound. lia. Qed.

(** An instruction changes registers and nothing else. *)
Lemma exec_seg_ok ins t ram : seg_ok ins -> exists st r, exec_seg ins t ram = Some (st, set_pcb t (set_regs (t_pcb t) r), ram).
Proof.
  assert (Hself : set_pcb t (set_regs (t_pcb t) (regs (t_pcb t))) = t) by (by destruct t as [[] ?]).
  intros Hok. unfold exec_seg. unfold seg_ok in Hok. pose proof (u32_nonneg (arg_0 ins)). pose proof (u32_nonneg (arg_1 ins)). pose proof (u32_nonneg (arg_2 ins)).
  destruct (opcode ins); try (eexists _, (regs (t_pcb t)); rewrite Hself; reflexivity).
  - eexists _, (regs (t_pcb t)). unfold Segmented.alloc, Segmented.alloc_mem. cbv zeta iota. rewrite (bool_decide_true (0 = 0)) by done.
    by destruct t as [[] ?].
  - eexists _, (regs (t_pcb t)). rewrite Hself. unfold Segmented.free_data. by rewrite bool_decide_true by lia.
  - eexists 0, _. unfold Segmented.read, Segmented.read_mem, Segmented.translate. rewrite Segmented.no_trans, bool_decide_true by lia.
    rewrite (bool_decide_false (0 <> 0)) by (intros H'; by apply H'). rewrite (bool_decide_true (1 <> 0)) by done.
    unfold Segmented.set_register. rewrite bool_decide_true by lia. reflexivity.
  - eexists 1, (regs (t_pcb t)). rewrite Hself. unfold Segmented.write, Segmented.write_mem, Segmented.translate.
    rewrite Segmented.no_trans, bool_decide_true by lia. rewrite (bool_decide_false (0 <> 0)) by (intros H'; by apply H'). done.
  - done.
Qed.

Lemma seg_ok_same i j : opcode i = opcode j -> operands i = operands j -> seg_ok j -> seg_ok i.
Proof.
  destruct i as [o a0 a1 a2 a3], j as [o' b0 b1 b2 b3]. intros Ho. cbn in Ho. subst o'. unfold seg_ok, operands. cbn.
  destruct o; cbn; intros E; simplify_eq; done.
Qed.

Lemma run_seg_ok t ram n :
  Forall seg_ok (code (t_pcb t)) -> pc (t_pcb t) = Z.of_nat n -> (n < length (code (t_pcb t)))%nat -> Z.of_nat n < 2 ^ 32 - 1 ->
  exists st t', run_seg t ram = Some (st, t', ram) /\ pc (t_pcb t') = Z.of_nat (S n) /\ code (t_pcb t') = code (t_pcb t) /\ pid (t_pcb t') = pid (t_pcb t).
Proof.
  intros HF Hpc Hn Hb. unfold run_seg. rewrite Hpc, bool_decide_false, Nat2Z.id by lia.
  destruct (lookup_lt_is_Some_2 (code (t_pcb t)) n Hn) as [ins Hi]. rewrite Hi.
  destruct (exec_seg_ok ins (set_pcb t (set_pc (t_pcb t) (u32 (Z.of_nat n + 1)))) ram) as (st & r & ->); [by eapply Forall_lookup_1|].
  eexists st, _. split; [done|]. cbn. split; [|done]. unfold u32. rewrite Z.mod_small by lia. lia.
Qed.

Lemma test_loop_ok k : forall n proc ld ram,
  Forall seg_ok (code (t_pcb proc)) -> Forall seg_ok (code (t_pcb ld)) ->
  length (code (t_pcb proc)) = (n + k)%nat -> length (code (t_pcb ld)) = (n + k)%nat -> Z.of_nat (n + k) < 2 ^ 32 ->
  pc (t_pcb proc) = Z.of_nat n -> pc (t_pcb ld) = Z.of_nat n ->
  exists proc' ld', test_loop k proc ld ram = Some (proc', ld', ram) /\ pc (t_pcb proc') = Z.of_nat (n + k) /\ pc (t_pcb ld') = Z.of_nat (n + k) /\
    pid (t_pcb proc') = pid (t_pcb proc) /\ pid (t_pcb ld') = pid (t_pcb ld).
Proof.
  induction k as [|k IH]; intros n proc ld ram F1 F2 L1 L2 Hb P1 P2.
  { exists proc, ld. rewrite Nat.add_0_r. done. }
  destruct (run_seg_ok proc ram n F1 P1 ltac:(lia) ltac:(lia)) as (s1 & proc1 & E1 & Q1 & C1 & I1).
  destruct (run_seg_ok ld ram n F2 P2 ltac:(lia) ltac:(lia)) as (s2 & ld1 & E2 & Q2 & C2 & I2).
  cbn [test_loop]. rewrite E1, E2.
  destruct (IH (S n) proc1 ld1 ram) as (proc' & ld' & E & R1 & R2 & R3 & R4); rewrite ?C1, ?C2; try done; try lia.
  exists proc', ld'. split; [done|]. replace (n + S k)%nat with (S n + k)%nat by lia. split_and!; congruence.
Qed.

Lemma load_oom a file f m y m' : load a file f m = Ret y m' -> oom m' = oom m.
Proof.
  unfold load, bind, malloc, ret, ub, exit. repeat case_match; intros; simplify_eq; done.
Qed.

(** ** Properties *)

(** The test program does not test the memory: for every program file without
    system calls and with registers below ten, both processes run to their end,
    the memory is untouched, and the dump prints nothing. *)
Theorem test_main_silent m priority insts f1 f2 u1 u2 :
  ~ may_oom m -> 0 <= priority < 2 ^ 32 -> Z.of_nat (length insts) < 2 ^ 32 ->
  Forall (fun ins => Forall is_u64 (operands ins)) insts -> Forall seg_ok insts ->
  wp (test_main (Some (print_program priority insts)) f1 f2 u1 u2) (fun '(out, proc, ld) _ =>
    out = [] /\ pid (t_pcb ld) = 1 /\ pid (t_pcb proc) = 2 /\
    pc (t_pcb proc) = Z.of_nat (length insts) /\ pc (t_pcb ld) = Z.of_nat (length insts)) m.
Proof.
  intros Hm Hp Hl HF Hs.
  assert (Hcode : forall l, same_code l insts -> Forall seg_ok l /\ length l = length insts).
  { intros l Hc. split; [|by eapply Forall2_length]. unfold same_code in Hc. clear -Hc Hs. revert Hs.
    induction Hc as [|i j l l' (H1 & H2 & _) _ IH]; intros Hs; [constructor|]. apply Forall_cons in Hs as [Hj Hs].
    constructor; [by eapply seg_ok_same|by apply IH]. }
  unfold test_main. apply wp_bind. destruct (wp_elim _ _ _ (load_print m 1 priority insts f1 Hm Hp Hl HF)) as ([ld next] & m1 & E1 & I1 & -> & _ & P1 & C1).
  eapply wp_eq; [exact E1|]. assert (Hm1 : ~ may_oom m1) by (intros [n Hn]; apply Hm; exists n; by rewrite <- (load_oom _ _ _ _ _ _ E1)).
  apply wp_bind. eapply wp_mono; [by apply (load_print m1 (u32 (1 + 1)) priority insts f2)|]. intros [proc next] m2 (I2 & _ & _ & P2 & C2).
  destruct (Hcode _ C1) as [F1 L1], (Hcode _ C2) as [F2 L2].
  destruct (test_loop_ok (length (code proc)) 0 (mkTask proc u2) (mkTask ld u1) (snd Segmented.init_mem))
    as (proc' & ld' & E & R1 & R2 & R3 & R4); cbn [t_pcb]; try done; try lia.
  rewrite E. apply wp_ret. rewrite Segmented.dump_nothing, R1, R2, R3, R4. cbn [t_pcb plus]. rewrite I1, I2, L2. done.
Qed.

Lemma test_main_silent_witness :
  wp (test_main (Some (print_program 5 [mkInst ALLOC 300 0 0 0; mkInst WRITE 100 0 20 0; mkInst READ 0 20 1 0]))
        (mkFresh 0 0 (fun _ => mkInst CALC 7 7 7 7) (replicate 10 0) 0 None) (mkFresh 0 0 (fun _ => mkInst CALC 7 7 7 7) (replicate 10 0) 0 None)
        (mkPlace 4096 (Segmented.mkPageTable []) (fun _ => 0) (fun _ => 0)) (mkPlace 8192 (Segmented.mkPageTable []) (fun _ => 0) (fun _ => 0)))
    (fun '(out, _, _) _ => out = []) (blank (fun _ => false) MemPhy.blank_memphy MemPhy.blank_memphy).
Proof.
  eapply wp_mono; [apply test_main_silent; [by intros [n Hn]|lia|done| |]|].
  - repeat (apply Forall_cons; split); try apply Forall_nil; cbn; repeat (apply Forall_cons; split); try apply Forall_nil; unfold is_u64; lia.
  - repeat (apply Forall_cons; split); try apply Forall_nil; by vm_compute.
  - intros [[out proc] ld] m' (H & _). exact H.
Defined.
