(* ===== verification/Output.v ===== *)
(** * What the simulator prints, and its time slices ([src/os.c])

    The lines of the CPU threads: which process is dispatched, put back, finished.
    [cpu_events] are the lines of a step of [Os.cpu_routine] together with the
    instruction it runs, [line_of] is their text.  The events of a CPU follow a
    protocol ([monitor]): a process is dispatched, runs one instruction after the
    other, and is put back after exactly [time_slot] of them or has finished before;
    no other process runs on the CPU in between. *)

From S2P Require Import Prelude.
From S2P Require Import Scanf.
From S2P Require Import Printf.
From S2P Require Import Word.
From S2P Require Import Machine.
From S2P Require Import PageTable.
From S2P Require Import Cpu.
From S2P Require Import Isolation.
From S2P Require Import Create.
From S2P Require Import Teardown.
From S2P Require Import Os.
From S2P Require Import Timer.
From S2P Require Import System.
From S2P Require Import Progress.
Open Scope c_scope.
Open Scope Z_scope.

(** ** Events *)

(** The process by its address, then what the line shows. *)
Inductive event :=
| EvFinished (p pid : Z) | EvRequeued (p pid pc size : Z) | EvDispatched (p pid : Z) | EvRan (p : Z) | EvStopped.

Definition pid_of (m : machine) (p : Z) : Z := match procs m !! p with Some y => pid y | None => 0 end.

Definition cpu_events (is_done : bool) (c : cpu) (m : machine) : list event :=
  match c with
  | CpuTop proc time_left =>
    if bool_decide (proc = 0) then []
    else
      match procs m !! proc with
      | None => []
      | Some y =>
        if bool_decide (pc y = Z.of_nat (length (code y))) then [EvFinished proc (pid y)]
        else if bool_decide (time_left = 0) then [EvRequeued proc (pid y) (pc y) (Z.of_nat (length (code y)))]
        else []
      end
  | CpuCheck proc time_left =>
    if bool_decide (proc = 0) && is_done then [EvStopped]
    else if bool_decide (proc = 0) then []
    else (if bool_decide (time_left = 0) then [EvDispatched proc (pid_of m proc)] else []) ++ [EvRan proc]
  | _ => []
  end.

(** [%2d]: a minimal width of two, filled with blanks. *)
Definition tab : ascii := ascii_of_N 9.
Definition blanks (w : nat) (l : chars) : chars := replicate (w - length l) (ascii_of_N 32) ++ l.
Definition line_of (id : Z) (e : event) : chars :=
  match e with
  | EvFinished _ n => tab :: text "CPU " ++ pr_d id ++ text ": Processed " ++ blanks 2 (pr_d (i32 n)) ++ text " has finished" ++ [newline]
  | EvRequeued _ n pc size =>
    tab :: text "CPU " ++ pr_d id ++ text ": Put process " ++ blanks 2 (pr_d (i32 n)) ++ text " to run queue (pc=" ++ pr_u pc ++ text "/" ++ pr_u size ++ text ")" ++ [newline]
  | EvDispatched _ n => tab :: text "CPU " ++ pr_d id ++ text ": Dispatched process " ++ blanks 2 (pr_d (i32 n)) ++ [newline]
  | EvRan _ => []
  | EvStopped => tab :: text "CPU " ++ pr_d id ++ text " stopped" ++ [newline]
  end.
Definition cpu_output (id : Z) (es : list event) : chars := concat (line_of id <$> es).

(** The line of the timer at the start of a slot ([%3] of the 64-bit time). *)
Definition slot_line (time : Z) : chars := text "Time slot " ++ blanks 3 (pr_u time) ++ [newline].

(** The line of the loader. *)
Definition loaded_line (path : chars) (pid prio : Z) : chars :=
  tab :: text "Loaded a process at " ++ path ++ text ", PID: " ++ pr_d (i32 pid) ++ text " PRIO: " ++ pr_d prio ++ [newline].

(** ** Traces of a CPU *)

Definition events_of (i : nat) (s : system) (l : label) : list event :=
  match l with
  | LCpu j c => if decide (j = i) then cpu_events (done_flag (sim_of s)) c (mach (sim_of s)) else []
  | _ => []
  end.

Inductive sys_trace (time_slot : Z) (i : nat) : system -> list event -> system -> Prop :=
| trace_nil s : sys_trace time_slot i s [] s
| trace_snoc s1 es s2 l s3 : sys_trace time_slot i s1 es s2 -> sys_step time_slot l s2 s3 ->
    sys_trace time_slot i s1 (es ++ events_of i s2 l) s3.

(** ** The protocol *)

(** The process that has the CPU and the instructions it has run, if one has it;
    [None] for an event that may not come now. *)
Definition monitor (time_slot : Z) (st : option (Z * Z)) (e : event) : option (option (Z * Z)) :=
  match st, e with
  | None, EvDispatched p _ => Some (Some (p, 0))
  | Some (p, k), EvRan q => if bool_decide (p = q /\ k < time_slot) then Some (Some (p, k + 1)) else None
  | Some (p, k), EvRequeued q _ _ _ => if bool_decide (p = q /\ k = time_slot) then Some None else None
  | Some (p, k), EvFinished q _ => if bool_decide (p = q /\ 1 <= k <= time_slot) then Some None else None
  | None, EvStopped => Some None
  | _, _ => None
  end.
Definition accepts (time_slot : Z) (st : option (Z * Z)) (es : list event) : option (option (Z * Z)) :=
  foldl (fun o e => o ≫= fun st => monitor time_slot st e) (Some st) es.

(** Where the protocol is when the CPU is at a point of its loop. *)
Definition in_protocol (ts : Z) (st : option (Z * Z)) (c : cpu) : Prop :=
  match c with
  | CpuTop p t | CpuWait p t => if bool_decide (p = 0) then t = 0 /\ st = None else exists k, st = Some (p, k) /\ t = ts - k /\ 1 <= k <= ts
  | CpuFree _ | CpuStopped => st = None
  | CpuGet t => t = 0 /\ st = None
  | CpuCheck p t =>
    (t = 0 /\ st = None) \/ (t <> 0 /\ p <> 0 /\ exists k, st = Some (p, k) /\ t = ts - k /\ 1 <= k <= ts)
  end.

Lemma step_in_protocol ts st d c m c' m' :
  0 < ts -> in_protocol ts st c -> cpu_routine ts d c m = Ret c' m' ->
  exists st', accepts ts st (cpu_events d c m) = Some st' /\ in_protocol ts st' c'.
Proof.
  intros Hts HP. unfold accepts. destruct c as [p t|p|t|p t|p t|]; cbn [cpu_routine cpu_events in_protocol] in *.
  - case_bool_decide as Hp.
    + destruct HP as [-> ->]. unfold bind, ret. destruct (get_next m) as [q m1| |]; [|done..]. intros [= <- <-]. exists None. split; [done|].
      case_bool_decide as Hq; cbn [in_protocol]; [by rewrite bool_decide_true|by left].
    + destruct HP as (k & -> & -> & Hk). unfold bind at 1, get_pcb. destruct (procs m !! p) as [y|]; [|done]. case_bool_decide as Hpc.
      * unfold bind, ret. destruct (finish p m) as [[] m1| |]; [|done..]. intros [= <- <-]. cbn [foldl mbind option_bind monitor].
        rewrite bool_decide_true by (split; [done|lia]). by exists None.
      * case_bool_decide as Ht.
        -- unfold bind, ret. destruct (put_back p m) as [[] m1| |]; [|done..]. intros [= <- <-]. cbn [foldl mbind option_bind monitor].
           rewrite bool_decide_true by (split; [done|lia]). exists None. by split.
        -- intros [= <- <-]. exists (Some (p, k)). split; [done|]. right. split; [done|]. split; [done|]. exists k. split; [done|]. split; [done|lia].
  - subst st. unfold bind, ret. destruct (free_pcb_all p m) as [[] m1| |]; [|done..]. intros [= <- <-]. by exists None.
  - destruct HP as [-> ->]. unfold bind, ret. destruct (get_next m) as [q m1| |]; [|done..]. intros [= <- <-]. exists None. split; [done|]. by left.
  - case_bool_decide as Hp.
    + subst p. destruct HP as [[-> ->]|(_ & [] & _)]; [|done]. destruct d; cbn [andb]; intros [= <- <-]; exists None; (split; [done|]).
      * done.
      * cbn. by rewrite bool_decide_true.
    + cbn [andb]. unfold bind, ret. destruct (run p m) as [s m1| |]; [|done..]. intros [= <- <-]. destruct HP as [[-> ->]|(Ht & _ & k & -> & -> & Hk)].
      * rewrite !(bool_decide_true (0 = 0)) by done. cbn [app foldl mbind option_bind monitor]. rewrite (bool_decide_true (p = p /\ 0 < ts)) by done.
        eexists. split; [done|]. cbn [in_protocol]. rewrite bool_decide_false by done. exists 1. split; [done|]. lia.
      * rewrite !(bool_decide_false (ts - k = 0)) by done. cbn [app foldl mbind option_bind monitor].
        rewrite (bool_decide_true (p = p /\ k < ts)) by (split; [done|lia]).
        eexists. split; [done|]. cbn [in_protocol]. rewrite bool_decide_false by done. exists (k + 1). split; [done|]. lia.
  - intros [= <- <-]. exists st. by split.
  - subst st. intros [= <- <-]. by exists None.
Qed.

Lemma accepts_app ts st es es' : accepts ts st (es ++ es') = accepts ts st es ≫= fun st' => accepts ts st' es'.
Proof.
  unfold accepts. rewrite foldl_app. destruct (foldl _ (Some st) es) as [st'|]; [done|]. cbn [mbind option_bind].
  induction es' as [|e es' IH]; [done|exact IH].
Qed.

(** A CPU changes by its own steps only. *)
Lemma cpu_step_cases ts l s s' i c :
  sys_step ts l s s' -> cpus (sim_of s) !! i = Some c ->
  (events_of i s l = [] /\ (cpus (sim_of s') !! i = Some c \/ exists p t, c = CpuWait p t /\ cpus (sim_of s') !! i = Some (CpuTop p t))) \/
  (events_of i s l = cpu_events (done_flag (sim_of s)) c (mach (sim_of s)) /\
   exists c' m', cpu_routine ts (done_flag (sim_of s)) c (mach (sim_of s)) = Ret c' m' /\ cpus (sim_of s') !! i = Some c').
Proof.
  intros Hs Hi. pose proof (lookup_lt_Some _ _ _ Hi) as Hlt.
  destruct Hs as [s c2 H|s H H0|s j c2 d c3 m2 Hj H H0 H1 H2 Hr|s j p t d Hj H H0|s j p t d d' Hj H H0 H1|s j d Hj H H0|s d t ts' H H0 H1 H2 H3
    |s d t ts' m dn cs jb js k m' H H0 H1 H2 H3 E H4 H5|s d H H0 H1|s d d' H H0 H1 H2|s d m dn cs k H H0 H1 E|s d H H0 H1]; cbn [sim_of events_of].
  3:{ unfold events_of, set_cpu. cbn [cpus]. destruct (decide (j = i)) as [->|Hne].
      - right. rewrite Hj in Hi. injection Hi as ->. split; [done|]. exists c3, m2. split; [done|]. by apply list_lookup_insert_eq.
      - left. split; [done|]. left. by rewrite list_lookup_insert_ne. }
  4:{ unfold set_cpu. cbn [cpus]. left. destruct (decide (j = i)) as [->|Hne]; (split; [done|]).
      - right. rewrite Hj in Hi. injection Hi as <-. exists p, t. split; [done|]. by apply list_lookup_insert_eq.
      - left. by rewrite list_lookup_insert_ne. }
  all: left; split; try (by destruct (decide (j = i))); try done; left; try done; by rewrite E in Hi.
Qed.

Lemma trace_in_protocol ts i s es s' c :
  0 < ts -> sys_trace ts i s es s' -> cpus (sim_of s) !! i = Some c -> in_protocol ts None c ->
  exists st c', accepts ts None es = Some st /\ cpus (sim_of s') !! i = Some c' /\ in_protocol ts st c'.
Proof.
  intros Hts Htr Hc HP. induction Htr as [s|s1 es s2 l s3 _ IH Hs]; [by exists None, c|].
  destruct (IH Hc) as (st & c2 & Ha & Hc2 & HP2). rewrite accepts_app, Ha. cbn [mbind option_bind].
  destruct (cpu_step_cases ts l s2 s3 i c2 Hs Hc2) as [[-> Hcase]|(-> & c3 & m3 & Hr & Hc3)].
  - exists st. destruct Hcase as [Hc3|(p & t & -> & Hc3)]; eexists; split_and!; try done.
  - destruct (step_in_protocol ts st _ c2 _ c3 m3 Hts HP2 Hr) as (st' & Ha' & HP3). by exists st', c3.
Qed.

(** ** A time slot that is not positive *)

(** The counter of a process that runs is negative. *)
Definition overdrawn (c : cpu) : Prop :=
  match c with
  | CpuTop p t | CpuWait p t => t <= 0 /\ (p <> 0 -> t < 0)
  | CpuGet t | CpuCheck _ t => t <= 0
  | CpuFree _ | CpuStopped => True
  end.
Definition is_requeue (e : event) : bool := match e with EvRequeued _ _ _ _ => true | _ => false end.

Lemma step_overdrawn ts d c m c' m' :
  ts <= 0 -> overdrawn c -> cpu_routine ts d c m = Ret c' m' -> overdrawn c' /\ existsb is_requeue (cpu_events d c m) = false.
Proof.
  intros Hts HP. destruct c as [p t|p|t|p t|p t|]; cbn [cpu_routine cpu_events overdrawn] in *.
  - destruct HP as [Ht Hneg]. case_bool_decide as Hp.
    + unfold bind, ret. destruct (get_next m) as [q m1| |]; [|done..]. intros [= <- <-]. split; [|done]. case_bool_decide; cbn; [by subst|done].
    + specialize (Hneg Hp). unfold bind at 1, get_pcb. destruct (procs m !! p) as [y|]; [|done]. case_bool_decide as Hpc.
      * unfold bind, ret. destruct (finish p m) as [[] m1| |]; [|done..]. by intros [= <- <-].
      * rewrite bool_decide_false by lia. by intros [= <- <-].
  - unfold bind, ret. destruct (free_pcb_all p m) as [[] m1| |]; [|done..]. by intros [= <- <-].
  - unfold bind, ret. destruct (get_next m) as [q m1| |]; [|done..]. by intros [= <- <-].
  - case_bool_decide as Hp.
    + destruct d; cbn [andb]; intros [= <- <-]; (split; [|done]); cbn; [done|by subst].
    + cbn [andb]. unfold bind, ret. destruct (run p m) as [s m1| |]; [|done..]. intros [= <- <-]. split; [|by case_bool_decide].
      cbn [overdrawn]. case_bool_decide; lia.
  - by intros [= <- <-].
  - by intros [= <- <-].
Qed.

Lemma trace_overdrawn ts i s es s' c :
  ts <= 0 -> sys_trace ts i s es s' -> cpus (sim_of s) !! i = Some c -> overdrawn c ->
  existsb is_requeue es = false /\ exists c', cpus (sim_of s') !! i = Some c' /\ overdrawn c'.
Proof.
  intros Hts Htr Hc HP. induction Htr as [s|s1 es s2 l s3 _ IH Hs]; [by split; [|exists c]|].
  destruct (IH Hc) as (He & c2 & Hc2 & HP2). rewrite existsb_app, He. cbn [orb].
  destruct (cpu_step_cases ts l s2 s3 i c2 Hs Hc2) as [[-> Hcase]|(-> & c3 & m3 & Hr & Hc3)].
  - split; [done|]. destruct Hcase as [Hc3|(p & t & -> & Hc3)]; eexists; split; try done.
  - destruct (step_overdrawn ts _ c2 _ c3 m3 Hts HP2 Hr) as [HP3 He3]. split; [done|]. by exists c3.
Qed.

(** ** An execution *)

Fixpoint trace_run (ts : Z) (i n : nat) (s : system) : list event * system :=
  match n with
  | O => ([], s)
  | S n =>
    let r := trace_run ts i n s in
    match exec ts (snd r) with
    | Some (l, s') => (fst r ++ events_of i (snd r) l, s')
    | None => r
    end
  end.

Lemma trace_reaches ts i s es s' : sys_trace ts i s es s' -> rtc (sys_any ts) s s'.
Proof. induction 1 as [|s1 es s2 l s3 _ IH Hs]; [done|]. eapply rtc_r; [exact IH|]. by eexists. Qed.

Lemma trace_run_sound ts i n s :
  sys_inv s -> length (starts s) = length (jobs (sim_of s)) -> sys_trace ts i s (fst (trace_run ts i n s)) (snd (trace_run ts i n s)).
Proof.
  intros HI HL. induction n as [|n IH]; [apply trace_nil|]. cbn [trace_run].
  destruct (exec ts (snd (trace_run ts i n s))) as [[l s']|] eqn:E; [|done]. cbn [fst snd].
  eapply trace_snoc; [exact IH|]. eapply exec_sound; [|done]. by apply (reach_inv ts s _ (trace_reaches _ _ _ _ _ IH) HI HL).
Qed.

Lemma init_cpu n m k js i : (i < n)%nat -> cpus (sim_of (sys_init n m k js)) !! i = Some (CpuTop 0 0).
Proof. intros Hi. cbn [sys_init sim_of cpus]. by apply lookup_replicate_2. Qed.

(** The first CPU of the example, from the start: in a time slot of two the one
    instruction runs to its end; in a slot of zero as well. *)
Definition demo_trace (ts : Z) : list event * system := trace_run ts 0 60 demo_sys.

Lemma demo_trace_ok ts : sys_trace ts 0 demo_sys (fst (demo_trace ts)) (snd (demo_trace ts)).
Proof. exact (trace_run_sound ts 0 60 demo_sys demo_sys_inv eq_refl). Qed.

Lemma demo_trace_events :
  fst (demo_trace 2) = [EvDispatched 100 (pid (j_pcb demo_job)); EvRan 100; EvFinished 100 (pid (j_pcb demo_job)); EvStopped] /\
  cpus (sim_of (snd (demo_trace 2))) !! 0%nat = Some CpuStopped /\ length (fst (demo_trace 0)) = 4%nat.
Proof. vm_compute. done. Qed.
#[local] Opaque demo_trace demo_sys.

(** ** Properties *)

(** C9. A CPU shares its time in slices: in every execution of the threads, the
    lines a CPU prints and the instructions it runs follow the dispatch protocol.
    A process runs on the CPU only after "Dispatched" and before it is put back
    or has finished; it runs alone there; it is put back after exactly
    [time_slot] instructions, never earlier or later, and has finished after at
    most as many; and a CPU that has stopped holds no process. *)
Theorem dispatch_protocol ts i n m k js es s' :
  0 < ts -> (i < n)%nat -> sys_trace ts i (sys_init n m k js) es s' ->
  exists st, accepts ts None es = Some st /\ (cpus (sim_of s') !! i = Some CpuStopped -> st = None).
Proof.
  intros Hts Hi Htr. destruct (trace_in_protocol ts i _ es s' _ Hts Htr (init_cpu n m k js i Hi)) as (st & c & Ha & Hc & HP).
  { cbn. by rewrite bool_decide_true. }
  exists st. split; [done|]. intros E. rewrite Hc in E. by injection E as ->.
Qed.

Lemma dispatch_protocol_witness :
  accepts 2 None [EvDispatched 100 (pid (j_pcb demo_job)); EvRan 100; EvFinished 100 (pid (j_pcb demo_job)); EvStopped] = Some None.
Proof.
  destruct demo_trace_events as (E1 & E2 & _).
  destruct (dispatch_protocol 2 0 2 (snd demo_boot) (fst demo_boot) [(demo_job, 0)] (fst (demo_trace 2)) (snd (demo_trace 2))) as (st & Ha & Hst).
  - lia.
  - lia.
  - exact (demo_trace_ok 2).
  - rewrite E1, (Hst E2) in Ha. exact Ha.
Defined.

(** A time slot that is not positive never preempts: the counter of the running
    process is negative after its first instruction and is tested for zero, so
    the process keeps the CPU until it has finished. *)
Theorem zero_slot_never_preempts ts i n m k js es s' :
  ts <= 0 -> (i < n)%nat -> sys_trace ts i (sys_init n m k js) es s' -> existsb is_requeue es = false.
Proof.
  intros Hts Hi Htr. by apply (trace_overdrawn ts i _ es s' _ Hts Htr (init_cpu n m k js i Hi)).
Qed.

Lemma zero_slot_never_preempts_witness : existsb is_requeue (fst (demo_trace 0)) = false.
Proof.
  apply (zero_slot_never_preempts 0 0 2 (snd demo_boot) (fst demo_boot) [(demo_job, 0)] (fst (demo_trace 0)) (snd (demo_trace 0))).
  - lia.
  - lia.
  - exact (demo_trace_ok 0).
Defined.
